(* ===== verification/_CoqProject ===== *)
-Q . S2P
Prelude.v
Prince.v
SipHash.v
Contract.v
Types.v
Mix.v
ProxySrc.v
UnitTests.v
Platform.v
Ebpf.v
PacketLemmas.v
EbpfSpec.v
EbpfRefine.v
Xdp.v
NatFlow.v
EbpfSafety.v
Verdicts.v
DataPlaneExamples.v
Text.v
Keys.v
Ipv6Text.v
Db.v
Dns.v
DnsSpec.v
DnsRace.v
DnsServer.v
DnsMain.v
Daemon.v
DaemonSpec.v
ResolverRounds.v
Sync.v
Drain.v
ControlPlaneExamples.v
Loader.v
Startup.v
System.v
EndToEnd.v
SystemExamples.v
Xtask.v
