(* ===== verification/Prelude.v ===== *)
(** * prototype_net: a verification development

    ** The program

    prototype_net is a stateless IPv6 gateway.  A client reaches it through an IPsec
    tunnel.  It asks the gateway's DNS server for a name and gets a synthetic address
    that carries a domain id; its packets to that address are rewritten by an eBPF
    program so that they leave for the real origin, from a proxy-source address that
    encodes client and domain under a key; replies to that address are decoded and
    rewritten back.  No state per connection is kept in production; a dev mode adds a
    second NAT with a tracking map.  The parts and how they meet:

    - [common/]: addresses, the encoder and decoder, cryptographic primitives, and a
      build script that turns [contract.toml] into constants for every crate;
    - [ebpf/]: [tc_ingress] on the tunnel, [xdp_wan] and [tc_ingress_wan] on the WAN
      side, over the maps NAT_MAP, XFRM_IFINDEX, OBFS_KEYS, DEV_WAN_IPV6, REPLY_TRACK;
    - [dns-server/]: answers queries and registers names in a Postgres table whose
      trigger announces every change;
    - [daemon/]: loads and configures the programs, copies the table into NAT_MAP at
      start, and keeps it in step with a listener on the announcements and a periodic
      resolver;
    - [xtask/]: checks configuration files against the contract, builds the eBPF
      object, and decodes proxy-source addresses for an operator.

    ** Files and what they model

    Every file [X.v] holds [Module X]; [Prelude] and the lemma files apart, each names
    the source file it follows, and its definitions keep the source's names.

    - [Prelude]: machine words ([uN], [wrap], shifts, rotations), byte lists,
      [Result], decimal text, tactics and the hint database [word].
    - [Prince], [SipHash], [Mix]: [common/src/crypto.rs] and [mix64] of [lib.rs];
      [Contract]: [common/build.rs] on [contract.toml]; [Types], [ProxySrc]: the types
      and functions of [common/src/lib.rs]; [UnitTests]: the crate's unit tests.
    - [Platform]: packets as byte lists, and classes for what is not in the
      repository: header accessors ([NetworkTypes]) and kernel helpers ([BpfHelpers])
      with their documented laws, each with a concrete instance.  [Ebpf]:
      [ebpf/src/main.rs], whole, as programs of a state and error monad, with the
      feature [dev-mode] as a boolean.  [PacketLemmas], [EbpfSpec] (the NAT66
      specification: what is rewritten to what, when), [EbpfRefine], [Xdp], [NatFlow],
      [EbpfSafety], [Verdicts]: their theory.  [DataPlaneExamples]: concrete packets.
    - [Text], [Keys]: strings, and [parse_proxy_key_hex], [key_fingerprint] of
      [daemon/src/main.rs]; [Ipv6Text]: text form of addresses in Rust's library.
    - [Db]: the schema of [migrations/001_initial.sql] and [dns-server/src/db.rs];
      [Dns], [DnsSpec]: [handler.rs] and [resolver.rs]; [DnsRace]: the handler's
      queries as steps of concurrent tasks; [DnsServer], [DnsMain]: [main.rs].
    - [Daemon], [DaemonSpec], [ResolverRounds]: [daemon/src/db.rs], [maps.rs],
      [resolver.rs]; [Loader], [Startup]: [loader.rs] and [main] of [main.rs];
      [Sync], [Drain]: the interleaving of server, [main], listener and resolver around
      table, notifications and NAT_MAP.  [ControlPlaneExamples]: concrete runs.
    - [System], [EndToEnd], [SystemExamples]: control plane and data plane together.
    - [Xtask]: [xtask/src/main.rs].

    ** What the theorems show

    - The codec is a bijection onto the addresses it accepts (round trip, exactness,
      tag tampering, refusal of wide ids), the prefix apart, which the decoder leaves to
      its callers; PRINCE decryption inverts encryption; the unrolled SipHash is the
      published one.
    - The three eBPF programs implement the NAT66 specification on every packet, keep
      checksums valid (as residues: the words 0x0000 and 0xffff are not told apart), are total and safe when helpers fail; a connection's reply comes
      back to its client from the address it contacted; a packet enters the tunnel
      exactly when it is a genuine reply.
    - The DNS handler's effect on every branch, errors being all or nothing; answers
      for a name agree under every interleaving of handlers; the server's semaphore
      and replies are accounted for under every course of events, and its [main] gets
      to its loop, with which limits, exactly as stated of its environment.
    - The daemon starts ready or stays closed; a listener session ends exactly on the
      errors the code returns and writes only the ids it receives.  [Sync] follows the
      daemon from before its bulk load, with the gap before LISTEN, sessions that end,
      and the resolver, step by step: NAT_MAP is right for every row that has nothing
      pending, except for the ids recorded as lost (announced to no session, dropped
      with one, or overwritten by an overtaken resolver write); the listener catches up
      in a bounded number of steps; runs that do lose an id are exhibited.  The resolver
      keeps table and map together under faults; reconnection pauses are bounded.
    - Composed: a name the DNS server answers for keeps its address for ever, and in
      every later state of server and daemon where it is neither lost nor pending its
      packets leave for the origin the table has.
    - Keys and the operator's decode command round-trip through text;
      [verify-contract] is exact.
    - The limits found: lost notifications (at start and on reconnection), a resolver race, dev-mode collisions,
      ids and clients past 24 bits, the unused previous key, the address shared by
      domain 1 and client 1, the 64-bit key fold.

    ** Bounds

    No definition runs on fuel that could run out: recursions are structural; [dec]
    writes at most eleven digits, enough for 32-bit numbers; loops that run forever
    (receive loop, listener, resolver, interface wait) are step relations or functions
    of the finite sequence of events so far.  NAT_MAP and REPLY_TRACK have their
    capacity of 65536.  Theorems about the table assume that the sequence has not
    passed 2^31, where [i32] ids end.

    ** Not modelled

    Kernel, runtime and library internals (loading and attaching programs, tokio,
    sqlx, hickory, aya, clap, TOML) are parameters or events; so are timestamps and
    the upstream resolver.  Log lines are left out except where a property is about
    them.  Memory layout, file descriptors and the shutdown signal after start are
    left out.  The macOS agent (Go, Swift), the Ansible, Terraform and container files
    and the certificate scripts are not modelled. *)

From Stdlib Require Export ZArith Lia Bool.
From Stdlib Require Import Btauto.
From stdpp Require Export base tactics list numbers gmap.

#[global] Open Scope Z_scope.

Declare Scope word_scope.
Delimit Scope word_scope with word.

(** ** Unsigned machine words *)

(** [uN w x]: the integer [x] is a value of the Rust type of width [w]. *)
Definition uN (w x : Z) : Prop := 0 <= x < 2 ^ w.

Definition wrap (w x : Z) : Z := x mod 2 ^ w.

Definition wrapping_add (w a b : Z) : Z := wrap w (a + b).
Definition wrapping_mul (w a b : Z) : Z := wrap w (a * b).
Definition wrapping_neg (w a : Z) : Z := wrap w (- a).

(** [x << n] on width [w]: the bits shifted out are lost. *)
Definition shl (w x n : Z) : Z := wrap w (Z.shiftl x n).

(** [x.rotate_left(n)] and [x.rotate_right(n)] on width [w]. *)
Definition rotate_left (w x n : Z) : Z :=
  let k := n mod w in Z.lor (shl w x k) (Z.shiftr x (w - k)).
Definition rotate_right (w x n : Z) : Z :=
  let k := n mod w in Z.lor (Z.shiftr x k) (shl w x (w - k)).

(** [x as T] for an unsigned [T] of width [w], and for a signed one. *)
Definition as_u (w x : Z) : Z := wrap w x.
Definition as_i (w x : Z) : Z := wrap w (x + 2 ^ (w - 1)) - 2 ^ (w - 1).

Infix "^^" := Z.lxor (at level 35, right associativity) : word_scope.
Infix ".|" := Z.lor (at level 50, left associativity) : word_scope.
Infix ".&" := Z.land (at level 34, left associativity) : word_scope.
Infix ">>" := Z.shiftr (at level 32, left associativity) : word_scope.

Create HintDb word.

Lemma uN_bits w x : 0 <= w -> uN w x -> forall i, w <= i -> Z.testbit x i = false.
Proof.
  intros Hw Hx i Hi. rewrite <- (Z.mod_small x (2 ^ w)) by exact Hx.
  by apply Z.mod_pow2_bits_high.
Qed.

Lemma uN_of_bits w x :
  0 <= w -> 0 <= x -> (forall i, w <= i -> Z.testbit x i = false) -> uN w x.
Proof.
  intros Hw Hx H. split; [done|].
  destruct (Z.eq_dec x 0) as [->|Hx0]; [apply Z.pow_pos_nonneg; lia|].
  apply Z.log2_lt_pow2; [lia|].
  destruct (Z.lt_ge_cases (Z.log2 x) w) as [|Hge]; [done|].
  exfalso. pose proof (Z.bit_log2 x ltac:(lia)) as Hb. rewrite (H _ Hge) in Hb. done.
Qed.

Lemma uN_ext w x y :
  0 <= w -> uN w x -> uN w y ->
  (forall i, 0 <= i < w -> Z.testbit x i = Z.testbit y i) -> x = y.
Proof.
  intros Hw Hx Hy H. apply Z.bits_inj'. intros i Hi.
  destruct (Z.lt_ge_cases i w); [by apply H|].
  by rewrite !(uN_bits w) by (done || lia).
Qed.

Lemma uN_0 w : 0 <= w -> uN w 0.
Proof. intros. split; [lia|]. by apply Z.pow_pos_nonneg. Qed.

Lemma uN_wrap w x : 0 <= w -> uN w (wrap w x).
Proof. intros. apply Z.mod_pos_bound. by apply Z.pow_pos_nonneg. Qed.

Lemma wrap_small w x : uN w x -> wrap w x = x.
Proof. apply Z.mod_small. Qed.

Lemma uN_weaken w w' x : w <= w' -> uN w x -> uN w' x.
Proof.
  intros Hw [H0 H1]. split; [done|].
  eapply Z.lt_le_trans; [exact H1|]. apply Z.pow_le_mono_r; lia.
Qed.

Lemma uN_lxor w x y : 0 <= w -> uN w x -> uN w y -> uN w (Z.lxor x y).
Proof.
  intros Hw Hx Hy. apply uN_of_bits; [done| |].
  - apply Z.lxor_nonneg. destruct Hx, Hy. by split.
  - intros i Hi. by rewrite Z.lxor_spec, !(uN_bits w) by done.
Qed.

Lemma uN_lor w x y : 0 <= w -> uN w x -> uN w y -> uN w (Z.lor x y).
Proof.
  intros Hw Hx Hy. apply uN_of_bits; [done| |].
  - apply Z.lor_nonneg. destruct Hx, Hy. by split.
  - intros i Hi. by rewrite Z.lor_spec, !(uN_bits w) by done.
Qed.

Lemma uN_land_l w x y : 0 <= w -> 0 <= x -> uN w y -> uN w (Z.land x y).
Proof.
  intros Hw Hx Hy. apply uN_of_bits; [done| |].
  - apply Z.land_nonneg. by left.
  - intros i Hi. by rewrite Z.land_spec, (uN_bits w y), andb_false_r by done.
Qed.

Lemma uN_land_r w x y : 0 <= w -> uN w x -> uN w (Z.land x y).
Proof.
  intros Hw Hx. apply uN_of_bits; [done| |].
  - apply Z.land_nonneg. left. apply Hx.
  - intros i Hi. by rewrite Z.land_spec, (uN_bits w x) by done.
Qed.

Lemma uN_shiftr w x n : 0 <= n -> uN w x -> uN w (Z.shiftr x n).
Proof.
  intros Hn [H0 H1]. rewrite Z.shiftr_div_pow2 by done.
  pose proof (Z.pow_pos_nonneg 2 n ltac:(lia) Hn).
  split; [apply Z.div_pos; lia|].
  eapply Z.le_lt_trans; [|exact H1]. apply Z.div_le_upper_bound; [lia|]. nia.
Qed.

(** Shifting a [v]-bit value left by [n] needs [v + n] bits. *)
Lemma uN_shiftl v w x n : 0 <= v -> 0 <= n -> v + n <= w -> uN v x -> uN w (Z.shiftl x n).
Proof.
  intros Hv Hn Hw [H0 H1]. apply (uN_weaken (v + n)); [done|].
  rewrite Z.shiftl_mul_pow2 by done. unfold uN. rewrite Z.pow_add_r by done.
  pose proof (Z.pow_pos_nonneg 2 n ltac:(lia) Hn). split; nia.
Qed.

Lemma uN_shl w x n : 0 <= w -> uN w (shl w x n).
Proof. apply uN_wrap. Qed.

Lemma uN_rotate_left w x n : 0 < w -> uN w x -> uN w (rotate_left w x n).
Proof.
  intros Hw Hx. pose proof (Z.mod_pos_bound n w Hw).
  apply uN_lor; [lia|apply uN_shl; lia|apply uN_shiftr; [lia|done]].
Qed.

Lemma uN_rotate_right w x n : 0 < w -> uN w x -> uN w (rotate_right w x n).
Proof.
  intros Hw Hx. pose proof (Z.mod_pos_bound n w Hw).
  apply uN_lor; [lia|apply uN_shiftr; [lia|done]|apply uN_shl; lia].
Qed.

#[export] Hint Resolve uN_0 uN_wrap uN_lxor uN_lor uN_land_l uN_shiftr uN_shl
  uN_rotate_left uN_rotate_right : word.
#[export] Hint Extern 1 (uN _ (wrapping_add _ _ _)) => apply uN_wrap : word.
#[export] Hint Extern 1 (uN _ (wrapping_mul _ _ _)) => apply uN_wrap : word.
#[export] Hint Extern 1 (uN _ (wrapping_neg _ _)) => apply uN_wrap : word.
#[export] Hint Extern 2 (uN _ (Zpos _)) => by split : word.
#[export] Hint Extern 2 (_ <= _) => lia : word.
#[export] Hint Extern 2 (_ < _) => lia : word.

(** *** Bits of the operations *)

Lemma wrap_bit w x i : 0 <= w -> 0 <= i < w -> Z.testbit (wrap w x) i = Z.testbit x i.
Proof. intros. apply Z.mod_pow2_bits_low. lia. Qed.

Lemma shl_bit w x n i : 0 <= w -> 0 <= i < w -> Z.testbit (shl w x n) i = Z.testbit x (i - n).
Proof. intros. unfold shl. rewrite wrap_bit by done. apply Z.shiftl_spec. lia. Qed.

Lemma rotate_left_bit w x n i :
  0 < w -> uN w x -> 0 <= i < w ->
  Z.testbit (rotate_left w x n) i = Z.testbit x ((i - n) mod w).
Proof.
  intros Hw Hx Hi. unfold rotate_left. pose proof (Z.mod_pos_bound n w Hw) as Hk.
  rewrite Z.lor_spec, shl_bit, Z.shiftr_spec by lia.
  rewrite <- Zminus_mod_idemp_r. set (k := n mod w) in *.
  destruct (Z.lt_ge_cases i k).
  - rewrite (Z.testbit_neg_r _ (i - k)) by lia. simpl. f_equal.
    rewrite <- (Z_mod_plus_full (i - k) 1 w), Z.mod_small; lia.
  - rewrite (uN_bits w x ltac:(lia) Hx (i + (w - k))) by lia.
    rewrite orb_false_r, Z.mod_small by lia. done.
Qed.

Lemma rotate_right_bit w x n i :
  0 < w -> uN w x -> 0 <= i < w ->
  Z.testbit (rotate_right w x n) i = Z.testbit x ((i + n) mod w).
Proof.
  intros Hw Hx Hi. unfold rotate_right. pose proof (Z.mod_pos_bound n w Hw) as Hk.
  rewrite Z.lor_spec, shl_bit, Z.shiftr_spec by lia.
  rewrite <- Zplus_mod_idemp_r. set (k := n mod w) in *.
  destruct (Z.lt_ge_cases (i + k) w).
  - rewrite (Z.testbit_neg_r _ (i - (w - k))) by lia.
    by rewrite orb_false_r, Z.mod_small by lia.
  - rewrite (uN_bits w x ltac:(lia) Hx (i + k)) by lia. simpl. f_equal.
    rewrite <- (Z_mod_plus_full (i + k) (-1) w), Z.mod_small; lia.
Qed.

Lemma rotate_right_left w x n : 0 < w -> uN w x -> rotate_right w (rotate_left w x n) n = x.
Proof.
  intros Hw Hx. apply (uN_ext w); [lia|auto with word..|]. intros i Hi.
  pose proof (Z.mod_pos_bound (i + n) w Hw).
  rewrite rotate_right_bit, rotate_left_bit, Zminus_mod_idemp_l by auto with word.
  by rewrite Z.add_simpl_r, Z.mod_small.
Qed.

Lemma rotate_left_right w x n : 0 < w -> uN w x -> rotate_left w (rotate_right w x n) n = x.
Proof.
  intros Hw Hx. apply (uN_ext w); [lia|auto with word..|]. intros i Hi.
  pose proof (Z.mod_pos_bound (i - n) w Hw).
  rewrite rotate_left_bit, rotate_right_bit, Zplus_mod_idemp_l by auto with word.
  by rewrite Z.sub_add, Z.mod_small.
Qed.

(** A goal about every bit of a [w]-bit word, one concrete position at a time. *)
Lemma all_bits (w : nat) (P : Z -> Prop) :
  Forall P (seqZ 0 (Z.of_nat w)) -> forall i, 0 <= i < Z.of_nat w -> P i.
Proof.
  intros H i Hi. rewrite Forall_forall in H. apply H, elem_of_seqZ. lia.
Qed.

(** Reduces [forall i, 0 <= i < w -> P i] to the [w] instances of [P]. *)
Ltac bit_cases w :=
  apply (all_bits w);
  match goal with
  | |- Forall ?P ?l => let l' := eval vm_compute in l in change (Forall P l')
  end;
  repeat (apply Forall_cons_2; [cbv beta|]); try apply Forall_nil_2.

(** Equalities of exclusive-or sums, bit by bit. *)
Ltac xor_solve :=
  let i := fresh "i" in
  apply Z.bits_inj; intros i; rewrite ?Z.lxor_spec, ?Z.bits_0; btauto.

Lemma lxor_cancel_r x k : Z.lxor (Z.lxor x k) k = x.
Proof. xor_solve. Qed.

Lemma lxor_inj_r x y k : Z.lxor x k = Z.lxor y k -> x = y.
Proof. intros H. by rewrite <- (lxor_cancel_r x k), H, lxor_cancel_r. Qed.

(** *** Shifts and disjoint unions as arithmetic *)

Lemma lor_shiftl_add n acc d :
  0 <= n -> uN n acc -> Z.lor acc (Z.shiftl d n) = acc + 2 ^ n * d.
Proof.
  intros Hn Ha. pose proof (Z.add_lor_land acc (Z.shiftl d n)) as Hs.
  assert (Z.land acc (Z.shiftl d n) = 0) as Hz; [|rewrite Z.shiftl_mul_pow2 in *; lia].
  apply Z.bits_inj'. intros i Hi. rewrite Z.land_spec, Z.bits_0, Z.shiftl_spec by done.
  destruct (Z.lt_ge_cases i n).
  - by rewrite (Z.testbit_neg_r d), andb_false_r by lia.
  - by rewrite (uN_bits n acc).
Qed.

Lemma shl_small v w x n :
  0 <= v -> 0 <= n -> v + n <= w -> uN v x -> shl w x n = Z.shiftl x n.
Proof. intros. apply wrap_small. by apply (uN_shiftl v). Qed.

Lemma land_ones_mod x n : 0 <= n -> Z.land x (2 ^ n - 1) = x mod 2 ^ n.
Proof. intros. rewrite <- Z.land_ones, Z.ones_equiv by done. done. Qed.

(** ** Positional digits: nibbles, bytes and 16-bit chunks of a word *)

(** [n] digits of [w] bits, least significant first. *)
Fixpoint digits (w : Z) (n : nat) (x : Z) : list Z :=
  match n with
  | O => []
  | S n => x mod 2 ^ w :: digits w n (x / 2 ^ w)
  end.

Fixpoint undigits (w : Z) (l : list Z) : Z :=
  match l with
  | [] => 0
  | d :: l => d + 2 ^ w * undigits w l
  end.

Section digit_facts.
Context (w : Z) (Hw : 0 <= w).

Lemma pow2_pos : 0 < 2 ^ w.
Proof. by apply Z.pow_pos_nonneg. Qed.

Lemma length_digits n x : length (digits w n x) = n.
Proof. revert x. induction n; intros; simpl; congruence. Qed.

Lemma digits_range n x : Forall (uN w) (digits w n x).
Proof. revert x. induction n; intros; simpl; constructor; [by apply uN_wrap|done]. Qed.

Lemma digits_undigits l : Forall (uN w) l -> digits w (length l) (undigits w l) = l.
Proof.
  pose proof pow2_pos. induction 1 as [|d l Hd Hl IH]; simpl; [done|].
  rewrite (Z.mul_comm (2 ^ w)), Z_mod_plus_full, Z.div_add by lia.
  rewrite Z.mod_small, Z.div_small by exact Hd. by rewrite Z.add_0_l, IH.
Qed.

Lemma undigits_digits n x : uN (w * Z.of_nat n) x -> undigits w (digits w n x) = x.
Proof.
  pose proof pow2_pos. revert x. induction n as [|n IH]; intros x Hx.
  - destruct Hx as [? Hx]. rewrite Z.mul_0_r in Hx. simpl in *. lia.
  - simpl. rewrite IH; [rewrite (Z.div_mod x (2 ^ w)) at 3; lia|].
    destruct Hx as [H0 H1]. split; [apply Z.div_pos; lia|].
    apply Z.div_lt_upper_bound; [done|]. rewrite <- Z.pow_add_r by lia.
    eapply Z.lt_le_trans; [exact H1|]. apply Z.pow_le_mono_r; lia.
Qed.

Lemma uN_undigits l : Forall (uN w) l -> uN (w * Z.of_nat (length l)) (undigits w l).
Proof.
  pose proof pow2_pos. induction 1 as [|d l [? ?] Hl [? ?]]; simpl length.
  - rewrite Z.mul_0_r. done.
  - simpl undigits. unfold uN.
    replace (w * Z.of_nat (S (length l))) with (w + w * Z.of_nat (length l)) by lia.
    rewrite Z.pow_add_r by lia. nia.
Qed.

Lemma undigits_app l l' :
  undigits w (l ++ l') = undigits w l + 2 ^ (w * Z.of_nat (length l)) * undigits w l'.
Proof.
  induction l as [|d l IH].
  - rewrite Z.mul_0_r. simpl. lia.
  - simpl. rewrite IH.
    replace (w * Z.of_nat (S (length l))) with (w + w * Z.of_nat (length l)) by lia.
    rewrite Z.pow_add_r by lia. lia.
Qed.

Lemma undigits_snoc l d n acc :
  n = w * Z.of_nat (length l) -> Forall (uN w) l -> acc = undigits w l ->
  Z.lor acc (Z.shiftl d n) = undigits w (l ++ [d]).
Proof.
  intros -> Hl ->. rewrite lor_shiftl_add by (lia || by apply uN_undigits).
  rewrite undigits_app. simpl. lia.
Qed.

(** [d0 | d1 << w | d2 << 2w | ...], the shape in which the code assembles words. *)
Fixpoint lor_from (n acc : Z) (l : list Z) : Z :=
  match l with
  | [] => acc
  | d :: l => lor_from (n + w) (Z.lor acc (Z.shiftl d n)) l
  end.

Lemma lor_from_undigits l' l acc n :
  n = w * Z.of_nat (length l) -> Forall (uN w) (l ++ l') -> acc = undigits w l ->
  lor_from n acc l' = undigits w (l ++ l').
Proof.
  revert l acc n. induction l' as [|d l' IH]; intros l acc n Hn Hl Ha; simpl.
  - by rewrite app_nil_r.
  - rewrite cons_middle, app_assoc in *. apply IH; [|done|].
    + rewrite length_app. simpl. lia.
    + apply undigits_snoc; [done| |done].
      by apply Forall_app in Hl as [[? _]%Forall_app _].
Qed.

Lemma lor_from_eq d l : Forall (uN w) (d :: l) -> lor_from w d l = undigits w (d :: l).
Proof. intros H. apply (lor_from_undigits l [d]); simpl; (done || lia). Qed.

Lemma nth_digits n x k :
  (k < n)%nat -> nth k (digits w n x) 0 = Z.shiftr x (w * Z.of_nat k) mod 2 ^ w.
Proof.
  revert x k. induction n as [|n IH]; intros x k Hk; [lia|].
  destruct k as [|k]; simpl; [by rewrite Z.mul_0_r, Z.shiftr_0_r|].
  rewrite IH by lia. rewrite !Z.shiftr_div_pow2 by lia.
  rewrite Z.div_div by (apply Z.pow_nonzero || apply Z.pow_pos_nonneg; lia).
  rewrite <- Z.pow_add_r by lia. do 3 f_equal. lia.
Qed.

Lemma digits_map n x :
  digits w n x = map (fun k => Z.land (Z.shiftr x (w * Z.of_nat k)) (2 ^ w - 1)) (seq 0 n).
Proof.
  apply nth_ext with 0 (Z.land (Z.shiftr x (w * Z.of_nat 0)) (2 ^ w - 1)).
  - by rewrite length_map, length_seq, length_digits.
  - intros k Hk. rewrite length_digits in Hk.
    rewrite (map_nth (fun k => Z.land (Z.shiftr x (w * Z.of_nat k)) (2 ^ w - 1))).
    by rewrite seq_nth, nth_digits, land_ones_mod.
Qed.

Lemma undigits_inj l l' :
  length l = length l' -> Forall (uN w) l -> Forall (uN w) l' ->
  undigits w l = undigits w l' -> l = l'.
Proof.
  intros Hlen Hl Hl' H. rewrite <- (digits_undigits l Hl), H, Hlen. by apply digits_undigits.
Qed.
End digit_facts.

(** ** Byte arrays *)

(** [bytes n l]: [l] is a value of the Rust type [[u8; n]]. *)
Definition bytes (n : nat) (l : list Z) : Prop := length l = n /\ Forall (uN 8) l.

(** [uW::from_be_bytes], [from_le_bytes] and [to_be_bytes]. *)
Definition from_be_bytes (l : list Z) : Z := undigits 8 (rev l).
Definition from_le_bytes (l : list Z) : Z := undigits 8 l.
Definition to_be_bytes (n : nat) (x : Z) : list Z := rev (digits 8 n x).

Lemma bytes_to_be n x : bytes n (to_be_bytes n x).
Proof.
  split; [unfold to_be_bytes; by rewrite length_rev, length_digits|].
  apply Forall_rev. by apply digits_range.
Qed.

Lemma from_to_be n x : uN (8 * Z.of_nat n) x -> from_be_bytes (to_be_bytes n x) = x.
Proof.
  intros. unfold from_be_bytes, to_be_bytes. by rewrite rev_involutive, undigits_digits.
Qed.

Lemma to_from_be n l : bytes n l -> to_be_bytes n (from_be_bytes l) = l.
Proof.
  intros [<- Hl]. unfold from_be_bytes, to_be_bytes.
  rewrite <- length_rev, digits_undigits by (lia || by apply Forall_rev).
  apply rev_involutive.
Qed.

Lemma uN_from_be n l : bytes n l -> uN (8 * Z.of_nat n) (from_be_bytes l).
Proof.
  intros [<- Hl]. unfold from_be_bytes. rewrite <- length_rev.
  apply uN_undigits; [lia|by apply Forall_rev].
Qed.

Lemma from_be_inj n l l' :
  bytes n l -> bytes n l' -> from_be_bytes l = from_be_bytes l' -> l = l'.
Proof. intros H H' E. by rewrite <- (to_from_be n l H), E, to_from_be. Qed.

Lemma bytes_app n m l l' : bytes n l -> bytes m l' -> bytes (n + m) (l ++ l').
Proof. intros [<- ?] [<- ?]. split; [by rewrite length_app|by apply Forall_app]. Qed.

(** Destructs a byte array of a known length into its elements. *)
Ltac bytes_destruct H :=
  let Hl := fresh "Hlen" in
  destruct H as [Hl H];
  repeat match type of Hl with
         | length ?l = S _ => destruct l; [discriminate Hl|]; cbn [length] in Hl; apply Nat.succ_inj in Hl
         | length ?l = O => destruct l; [clear Hl|discriminate Hl]
         end;
  repeat match type of H with Forall _ (_ :: _) => apply Forall_cons_1 in H as [? H] end;
  try clear H.

(** ** Results *)

Inductive Result (E A : Type) : Type :=
| Ok (a : A)
| Err (e : E).
Arguments Ok {E A} _.
Arguments Err {E A} _.

(** ** Decimal text *)

(** Decimal text of a non-negative number of at most [fuel] digits. *)
Fixpoint dec (fuel : nat) (n : Z) : list Z :=
  match fuel with
  | O => []
  | S fuel => if n <? 10 then [48 + n] else dec fuel (n / 10) ++ [48 + n mod 10]
  end.

(** [str::parse] at an unsigned type of width [w], on the text's bytes: one leading
    plus sign is accepted, a lone sign and values out of range are not. *)
Fixpoint radix10_u (w acc : Z) (s : list Z) : option Z :=
  match s with
  | [] => Some acc
  | c :: s =>
      if (48 <=? c) && (c <=? 57) then
        let acc := acc * 10 + (c - 48) in
        if acc <? 2 ^ w then radix10_u w acc s else None
      else None
  end.

Definition parse_u (w : Z) (s : list Z) : option Z :=
  match s with
  | [] => None
  | [c] => if (c =? 43) || (c =? 45) then None else radix10_u w 0 s
  | c :: rest => if c =? 43 then radix10_u w 0 rest else radix10_u w 0 s
  end.

Lemma radix10_u_range w s : forall acc n, 0 <= acc -> radix10_u w acc s = Some n -> acc < 2 ^ w -> uN w n.
Proof.
  induction s as [|c s IH]; simpl; intros acc n Ha E Hb; [injection E as <-; split; lia|].
  destruct (_ && _) eqn:Ed; [|done]. apply andb_prop in Ed as [H1 H2]. apply Z.leb_le in H1, H2.
  destruct (Z.ltb_spec (acc * 10 + (c - 48)) (2 ^ w)); [|done]. eapply IH; [|exact E|done]. lia.
Qed.

Lemma parse_u_range w s n : 0 <= w -> parse_u w s = Some n -> uN w n.
Proof.
  intros Hw. assert (0 < 2 ^ w) by (apply Z.pow_pos_nonneg; lia).
  unfold parse_u. intros E. repeat case_match; simplify_eq; by eapply (radix10_u_range w _ 0).
Qed.
