(* ===== verification/Prince.v ===== *)
(** * The PRINCE block cipher of [common/src/crypto.rs]

    The S-box layers, the M' layer, ShiftRows, the 12-round core and the two
    entry points [prince_encrypt] and [prince_decrypt].  Every table and every
    round is the source's.  The main results: each layer is undone by its
    inverse, M' is an involution, the core has the alpha-reflection property,
    and decryption undoes encryption for every block and every key. *)

From S2P Require Import Prelude.
Local Open Scope Z_scope.
Local Open Scope word_scope.

Module Prince.

(** ** Tables *)

Definition RC : list Z :=
  [0x0000000000000000; 0x13198a2e03707344; 0xa4093822299f31d0; 0x082efa98ec4e6c89;
   0x452821e638d01377; 0xbe5466cf34e90c6c; 0x7ef84f78fd955cb1; 0x85840851f1ac43aa;
   0xc882d32f25323c54; 0x64a51195e0e3610d; 0xd3b5a399ca0c2399; 0xc0ac29b7c97c50dd].

Definition ALPHA : Z := 0xc0ac29b7c97c50dd.

Definition SBOX : list Z :=
  [0xB; 0xF; 0x3; 0x2; 0xA; 0xC; 0x9; 0x1; 0x6; 0x7; 0x8; 0x0; 0xE; 0x5; 0xD; 0x4].

Definition SBOX_INV : list Z :=
  [0xB; 0x7; 0x3; 0x2; 0xF; 0xD; 0x8; 0x9; 0xA; 0x6; 0x4; 0x0; 0x5; 0xE; 0xC; 0x1].

Definition M_HAT_0 : list Z :=
  [0x0111; 0x2220; 0x4404; 0x8088; 0x1011; 0x0222; 0x4440; 0x8808;
   0x1101; 0x2022; 0x0444; 0x8880; 0x1110; 0x2202; 0x4044; 0x0888].

Definition M_HAT_1 : list Z :=
  [0x1110; 0x2202; 0x4044; 0x0888; 0x0111; 0x2220; 0x4404; 0x8088;
   0x1011; 0x0222; 0x4440; 0x8808; 0x1101; 0x2022; 0x0444; 0x8880].

Definition ROW_MASK : list Z :=
  [0xF000F000F000F000; 0x0F000F000F000F00; 0x00F000F000F000F0; 0x000F000F000F000F].

(** ** Layers *)

Definition sbox_layer (x : Z) : Z :=
  let s k := nth (Z.to_nat ((x >> k) .& 0xF)) SBOX 0 in
  s 0 .| shl 64 (s 4) 4 .| shl 64 (s 8) 8 .| shl 64 (s 12) 12
  .| shl 64 (s 16) 16 .| shl 64 (s 20) 20 .| shl 64 (s 24) 24 .| shl 64 (s 28) 28
  .| shl 64 (s 32) 32 .| shl 64 (s 36) 36 .| shl 64 (s 40) 40 .| shl 64 (s 44) 44
  .| shl 64 (s 48) 48 .| shl 64 (s 52) 52 .| shl 64 (s 56) 56 .| shl 64 (s 60) 60.

Definition sbox_inv_layer (x : Z) : Z :=
  let s k := nth (Z.to_nat ((x >> k) .& 0xF)) SBOX_INV 0 in
  s 0 .| shl 64 (s 4) 4 .| shl 64 (s 8) 8 .| shl 64 (s 12) 12
  .| shl 64 (s 16) 16 .| shl 64 (s 20) 20 .| shl 64 (s 24) 24 .| shl 64 (s 28) 28
  .| shl 64 (s 32) 32 .| shl 64 (s 36) 36 .| shl 64 (s 40) 40 .| shl 64 (s 44) 44
  .| shl 64 (s 48) 48 .| shl 64 (s 52) 52 .| shl 64 (s 56) 56 .| shl 64 (s 60) 60.

Definition gf2_mat_mul (val : Z) (cols : list Z) : Z :=
  let t i := nth i cols 0 .& wrapping_neg 16 ((val >> Z.of_nat i) .& 1) in
  let out := 0 in
  let out := out ^^ t 0%nat in let out := out ^^ t 1%nat in
  let out := out ^^ t 2%nat in let out := out ^^ t 3%nat in
  let out := out ^^ t 4%nat in let out := out ^^ t 5%nat in
  let out := out ^^ t 6%nat in let out := out ^^ t 7%nat in
  let out := out ^^ t 8%nat in let out := out ^^ t 9%nat in
  let out := out ^^ t 10%nat in let out := out ^^ t 11%nat in
  let out := out ^^ t 12%nat in let out := out ^^ t 13%nat in
  let out := out ^^ t 14%nat in let out := out ^^ t 15%nat in
  out.

Definition m_prime (x : Z) : Z :=
  let c0 := as_u 16 (x .& 0xFFFF) in
  let c1 := as_u 16 ((x >> 16) .& 0xFFFF) in
  let c2 := as_u 16 ((x >> 32) .& 0xFFFF) in
  let c3 := as_u 16 ((x >> 48) .& 0xFFFF) in
  let r0 := gf2_mat_mul c0 M_HAT_0 in
  let r1 := gf2_mat_mul c1 M_HAT_1 in
  let r2 := gf2_mat_mul c2 M_HAT_1 in
  let r3 := gf2_mat_mul c3 M_HAT_0 in
  r0 .| shl 64 r1 16 .| shl 64 r2 32 .| shl 64 r3 48.

Definition shift_rows (x : Z) : Z :=
  let row0 := x .& nth 0 ROW_MASK 0 in
  let row1 := x .& nth 1 ROW_MASK 0 in
  let row2 := x .& nth 2 ROW_MASK 0 in
  let row3 := x .& nth 3 ROW_MASK 0 in
  row0 .| rotate_left 64 row1 16 .| rotate_right 64 row2 32 .| rotate_right 64 row3 16.

Definition shift_rows_inv (x : Z) : Z :=
  let row0 := x .& nth 0 ROW_MASK 0 in
  let row1 := x .& nth 1 ROW_MASK 0 in
  let row2 := x .& nth 2 ROW_MASK 0 in
  let row3 := x .& nth 3 ROW_MASK 0 in
  row0 .| rotate_right 64 row1 16 .| rotate_left 64 row2 32 .| rotate_left 64 row3 16.

Definition m_layer (x : Z) : Z := shift_rows (m_prime x).
Definition m_layer_inv (x : Z) : Z := m_prime (shift_rows_inv x).

(** ** The cipher *)

Definition rc (i : nat) : Z := nth i RC 0.

Definition prince_core_encrypt (block k1 : Z) : Z :=
  let s := block in
  let s := s ^^ (k1 ^^ rc 0) in
  let s := m_layer (sbox_layer s) ^^ (rc 1 ^^ k1) in
  let s := m_layer (sbox_layer s) ^^ (rc 2 ^^ k1) in
  let s := m_layer (sbox_layer s) ^^ (rc 3 ^^ k1) in
  let s := m_layer (sbox_layer s) ^^ (rc 4 ^^ k1) in
  let s := m_layer (sbox_layer s) ^^ (rc 5 ^^ k1) in
  let s := sbox_layer s in
  let s := m_prime s in
  let s := sbox_inv_layer s in
  let s := sbox_inv_layer (m_layer_inv (s ^^ (k1 ^^ rc 6))) in
  let s := sbox_inv_layer (m_layer_inv (s ^^ (k1 ^^ rc 7))) in
  let s := sbox_inv_layer (m_layer_inv (s ^^ (k1 ^^ rc 8))) in
  let s := sbox_inv_layer (m_layer_inv (s ^^ (k1 ^^ rc 9))) in
  let s := sbox_inv_layer (m_layer_inv (s ^^ (k1 ^^ rc 10))) in
  let s := s ^^ (k1 ^^ rc 11) in
  s.

Definition prince_encrypt (block : Z) (key : list Z) : Z :=
  let k0 := from_be_bytes (take 8 key) in
  let k1 := from_be_bytes (take 8 (drop 8 key)) in
  let k0_prime := rotate_right 64 k0 1 ^^ (k0 >> 63) in
  let input := block ^^ k0 in
  let core_out := prince_core_encrypt input k1 in
  core_out ^^ k0_prime.

Definition prince_decrypt (block : Z) (key : list Z) : Z :=
  let k0 := from_be_bytes (take 8 key) in
  let k1 := from_be_bytes (take 8 (drop 8 key)) in
  let k0_prime := rotate_right 64 k0 1 ^^ (k0 >> 63) in
  let k1_dec := k1 ^^ ALPHA in
  let input := block ^^ k0_prime in
  let core_out := prince_core_encrypt input k1_dec in
  core_out ^^ k0.

(** ** Known answers (the vectors of the unit tests) *)

Example prince_tv1 : prince_encrypt 0 (replicate 16 0) = 0x818665aa0d02dfda.
Proof. vm_compute. reflexivity. Qed.

Example prince_tv2 : prince_encrypt 0xffffffffffffffff (replicate 16 0) = 0x604ae6ca03c20ada.
Proof. vm_compute. reflexivity. Qed.

Example prince_tv3 :
  prince_encrypt 0x0123456789abcdef
    (replicate 8 0 ++ [0xfe; 0xdc; 0xba; 0x98; 0x76; 0x54; 0x32; 0x10]) = 0xae25ad3ca8fa9ccf.
Proof. vm_compute. reflexivity. Qed.

(** ** The S-box layers *)

(** Both S-box layers are the same nibble-wise substitution, by their table. *)
Definition nibble_subst (tbl : list Z) (x : Z) : Z :=
  undigits 4 (map (fun d => nth (Z.to_nat d) tbl 0) (digits 4 16 x)).

Lemma nth_uN w (tbl : list Z) k : 0 <= w -> Forall (uN w) tbl -> uN w (nth k tbl 0).
Proof. intros Hw H. revert k. induction H; intros [|k]; simpl; auto with word. Qed.

(** Turns [d0 | d1 << w | ...] into [undigits w [d0; d1; ...]]. *)
Ltac lor_digits w H :=
  repeat rewrite (shl_small w) by (lia || apply H);
  rewrite <- (lor_from_eq w) by (lia || (repeat constructor; apply H));
  cbn [lor_from];
  repeat match goal with |- Z.lor _ _ = Z.lor _ _ => apply f_equal2 end; reflexivity.

Lemma sbox_layer_subst x : sbox_layer x = nibble_subst SBOX x.
Proof.
  unfold sbox_layer, nibble_subst. rewrite digits_map by lia. cbv zeta. cbn [map seq].
  assert (forall k, uN 4 (nth k SBOX 0)) as HS
    by (intros; apply nth_uN; [lia|repeat constructor; done]).
  lor_digits 4 HS.
Qed.

Lemma sbox_inv_layer_subst x : sbox_inv_layer x = nibble_subst SBOX_INV x.
Proof.
  unfold sbox_inv_layer, nibble_subst. rewrite digits_map by lia. cbv zeta. cbn [map seq].
  assert (forall k, uN 4 (nth k SBOX_INV 0)) as HS
    by (intros; apply nth_uN; [lia|repeat constructor; done]).
  lor_digits 4 HS.
Qed.

Lemma uN_nibble_subst tbl x : Forall (uN 4) tbl -> uN 64 (nibble_subst tbl x).
Proof.
  intros Ht. unfold nibble_subst.
  apply (uN_weaken (4 * Z.of_nat (length (map (fun d => nth (Z.to_nat d) tbl 0) (digits 4 16 x))))).
  - rewrite length_map, length_digits. lia.
  - apply uN_undigits; [lia|]. apply Forall_map, Forall_true. intros; simpl. by apply nth_uN.
Qed.

(** Two tables that undo each other on nibbles give layers that undo each other. *)
Lemma nibble_subst_inv t1 t2 x :
  Forall (uN 4) t1 ->
  (forall d, uN 4 d -> nth (Z.to_nat (nth (Z.to_nat d) t1 0)) t2 0 = d) ->
  uN 64 x -> nibble_subst t2 (nibble_subst t1 x) = x.
Proof.
  intros Ht1 Hinv Hx. unfold nibble_subst.
  set (l := digits 4 16 x).
  replace 16%nat with (length (map (fun d => nth (Z.to_nat d) t1 0) l))
    by (unfold l; by rewrite length_map, length_digits).
  rewrite digits_undigits; [|lia|apply Forall_map, Forall_true; intros; simpl; by apply nth_uN].
  rewrite map_map.
  rewrite (map_ext_Forall _ (fun d => d)).
  - rewrite map_id. by apply undigits_digits.
  - eapply Forall_impl; [by apply digits_range|exact Hinv].
Qed.

Lemma sbox_inv_layer_sbox x : uN 64 x -> sbox_inv_layer (sbox_layer x) = x.
Proof.
  rewrite sbox_layer_subst, sbox_inv_layer_subst.
  apply nibble_subst_inv; [repeat constructor; done|].
  bit_cases 16%nat; reflexivity.
Qed.

Lemma sbox_layer_sbox_inv x : uN 64 x -> sbox_layer (sbox_inv_layer x) = x.
Proof.
  rewrite sbox_layer_subst, sbox_inv_layer_subst.
  apply nibble_subst_inv; [repeat constructor; done|].
  bit_cases 16%nat; reflexivity.
Qed.

(** ** The M' layer *)

(** The exclusive-or of the columns selected by the bits of [v]. *)
Fixpoint xor_sel (i : Z) (cols : list Z) (v : Z) : Z :=
  match cols with
  | [] => 0
  | c :: cols => (if Z.testbit v i then c else 0) ^^ xor_sel (i + 1) cols v
  end.

Lemma neg_mask c v i :
  uN 16 c -> 0 <= i ->
  c .& wrapping_neg 16 ((v >> i) .& 1) = if Z.testbit v i then c else 0.
Proof.
  intros Hc Hi. change 1 with (2 ^ 1 - 1) at 1. rewrite land_ones_mod by lia.
  rewrite Z.shiftr_div_pow2 by done. change (2 ^ 1) with 2.
  rewrite <- Z.testbit_spec' by done. destruct (Z.testbit v i); simpl.
  - change (wrapping_neg 16 1) with (2 ^ 16 - 1). rewrite land_ones_mod by lia. by apply wrap_small.
  - apply Z.land_0_r.
Qed.

Lemma gf2_mat_mul_sel v cols :
  length cols = 16%nat -> Forall (uN 16) cols -> gf2_mat_mul v cols = xor_sel 0 cols v.
Proof.
  intros Hlen Hc. assert (bytes_like : length cols = 16%nat /\ Forall (uN 16) cols) by done.
  unfold gf2_mat_mul. cbv zeta. rewrite !neg_mask by (try apply nth_uN; (lia || done)).
  bytes_destruct bytes_like. cbn [xor_sel nth]. rewrite Z.lxor_0_l, Z.lxor_0_r.
  rewrite !Z.lxor_assoc. reflexivity.
Qed.

Lemma xor_sel_linear i cols a b :
  xor_sel i cols (a ^^ b) = xor_sel i cols a ^^ xor_sel i cols b.
Proof.
  revert i. induction cols as [|c cols IH]; intros i; simpl; [done|].
  rewrite IH, Z.lxor_spec. destruct (Z.testbit a i), (Z.testbit b i); simpl; xor_solve.
Qed.

Lemma xor_sel_zero i cols : xor_sel i cols 0 = 0.
Proof. revert i. induction cols as [|c cols IH]; intros i; simpl; [done|]. by rewrite Z.bits_0, IH. Qed.

Lemma uN_xor_sel i cols v : Forall (uN 16) cols -> uN 16 (xor_sel i cols v).
Proof.
  intros H. revert i. induction H as [|c cols Hc H IH]; intros i; simpl; [auto with word|].
  apply uN_lxor; [lia| |apply IH]. destruct (Z.testbit v i); auto with word.
Qed.

(** A matrix applied to a selection of columns selects the images of the columns. *)
Lemma xor_sel_compose m i cols v :
  xor_sel 0 m (xor_sel i cols v) = xor_sel i (map (xor_sel 0 m) cols) v.
Proof.
  revert i. induction cols as [|c cols IH]; intros i; simpl; [by rewrite xor_sel_zero|].
  rewrite xor_sel_linear, IH. destruct (Z.testbit v i); by rewrite ?xor_sel_zero.
Qed.

Definition unit_cols : list Z :=
  [0x1; 0x2; 0x4; 0x8; 0x10; 0x20; 0x40; 0x80;
   0x100; 0x200; 0x400; 0x800; 0x1000; 0x2000; 0x4000; 0x8000].

Lemma xor_sel_unit v : uN 16 v -> xor_sel 0 unit_cols v = v.
Proof.
  intros Hv. apply (uN_ext 16); [lia| |done|].
  { apply uN_xor_sel. repeat constructor; done. }
  assert (forall (b : bool) c j, Z.testbit (if b then c else 0) j = Z.testbit c j && b) as Hif
    by (intros [] ? ?; by rewrite ?Z.bits_0, ?andb_true_r, ?andb_false_r).
  unfold unit_cols. cbn [xor_sel]. generalize (Z.testbit v) as f; intros f.
  bit_cases 16%nat; rewrite ?Z.lxor_spec, ?Hif; vm_compute; by destruct (f _).
Qed.

Lemma gf2_mat_mul_involution m v :
  length m = 16%nat -> Forall (uN 16) m -> map (xor_sel 0 m) m = unit_cols ->
  uN 16 v -> gf2_mat_mul (gf2_mat_mul v m) m = v.
Proof.
  intros Hlen Hm Hu Hv. rewrite !gf2_mat_mul_sel by done.
  by rewrite xor_sel_compose, Hu, xor_sel_unit.
Qed.

Lemma uN_gf2_mat_mul v m :
  length m = 16%nat -> Forall (uN 16) m -> uN 16 (gf2_mat_mul v m).
Proof. intros. rewrite gf2_mat_mul_sel by done. by apply uN_xor_sel. Qed.

Lemma M_HAT_0_range : Forall (uN 16) M_HAT_0.
Proof. repeat constructor; done. Qed.
Lemma M_HAT_1_range : Forall (uN 16) M_HAT_1.
Proof. repeat constructor; done. Qed.

Lemma gf2_0_involution v : uN 16 v -> gf2_mat_mul (gf2_mat_mul v M_HAT_0) M_HAT_0 = v.
Proof. apply gf2_mat_mul_involution; [done|apply M_HAT_0_range|vm_compute; reflexivity]. Qed.
Lemma gf2_1_involution v : uN 16 v -> gf2_mat_mul (gf2_mat_mul v M_HAT_1) M_HAT_1 = v.
Proof. apply gf2_mat_mul_involution; [done|apply M_HAT_1_range|vm_compute; reflexivity]. Qed.

Lemma uN_gf2_0 v : uN 16 (gf2_mat_mul v M_HAT_0).
Proof. apply uN_gf2_mat_mul; [done|apply M_HAT_0_range]. Qed.
Lemma uN_gf2_1 v : uN 16 (gf2_mat_mul v M_HAT_1).
Proof. apply uN_gf2_mat_mul; [done|apply M_HAT_1_range]. Qed.

#[local] Opaque gf2_mat_mul.

(** M' applies the two matrices to the four 16-bit chunks. *)
Definition chunk_map (l : list Z) : list Z :=
  match l with
  | [c0; c1; c2; c3] =>
      [gf2_mat_mul c0 M_HAT_0; gf2_mat_mul c1 M_HAT_1;
       gf2_mat_mul c2 M_HAT_1; gf2_mat_mul c3 M_HAT_0]
  | _ => l
  end.

Lemma m_prime_chunks x : m_prime x = undigits 16 (chunk_map (digits 16 4 x)).
Proof.
  unfold m_prime. cbv zeta. rewrite digits_map by lia. cbn [map seq chunk_map].
  assert (forall k, as_u 16 ((x >> k) .& 0xFFFF) = (x >> k) .& (2 ^ 16 - 1)) as Hc.
  { intros k. apply wrap_small. rewrite land_ones_mod by lia. by apply uN_wrap. }
  rewrite <- (Z.shiftr_0_r x) at 1. rewrite !Hc.
  repeat rewrite (shl_small 16) by (lia || apply uN_gf2_1 || apply uN_gf2_0).
  rewrite <- (lor_from_eq 16)
    by (lia || (repeat constructor; apply uN_gf2_1 || apply uN_gf2_0)).
  reflexivity.
Qed.

Lemma chunk_map_range x : Forall (uN 16) (chunk_map (digits 16 4 x)).
Proof.
  cbn [digits chunk_map]. repeat constructor; apply uN_gf2_0 || apply uN_gf2_1.
Qed.

Lemma uN_m_prime x : uN 64 (m_prime x).
Proof. rewrite m_prime_chunks. apply (uN_undigits 16 ltac:(lia) _ (chunk_map_range x)). Qed.

Lemma m_prime_involution x : uN 64 x -> m_prime (m_prime x) = x.
Proof.
  intros Hx. rewrite !m_prime_chunks.
  change 4%nat with (length (chunk_map (digits 16 4 x))) at 1.
  rewrite digits_undigits by (lia || apply chunk_map_range).
  rewrite <- (undigits_digits 16 ltac:(lia) 4 x Hx) at 2. f_equal.
  cbn [digits chunk_map]. by rewrite !gf2_0_involution, !gf2_1_involution by by apply uN_wrap.
Qed.

(** ** ShiftRows *)

Lemma row_mask_range k : uN 64 (nth k ROW_MASK 0).
Proof. apply nth_uN; [lia|]. repeat constructor; done. Qed.

Lemma uN_row x k : uN 64 x -> uN 64 (x .& nth k ROW_MASK 0).
Proof. intros [? ?]. apply uN_land_l; [lia|done|apply row_mask_range]. Qed.
#[local] Hint Resolve uN_row : word.

Lemma uN_shift_rows x : uN 64 x -> uN 64 (shift_rows x).
Proof. intros. unfold shift_rows. auto 10 with word. Qed.

Lemma uN_shift_rows_inv x : uN 64 x -> uN 64 (shift_rows_inv x).
Proof. intros. unfold shift_rows_inv. auto 10 with word. Qed.

Lemma shift_rows_bit x i :
  uN 64 x -> 0 <= i < 64 ->
  Z.testbit (shift_rows x) i =
    Z.testbit (nth 0 ROW_MASK 0) i && Z.testbit x i
    || Z.testbit (nth 1 ROW_MASK 0) ((i - 16) mod 64) && Z.testbit x ((i - 16) mod 64)
    || Z.testbit (nth 2 ROW_MASK 0) ((i + 32) mod 64) && Z.testbit x ((i + 32) mod 64)
    || Z.testbit (nth 3 ROW_MASK 0) ((i + 16) mod 64) && Z.testbit x ((i + 16) mod 64).
Proof.
  intros Hx Hi. unfold shift_rows. cbv zeta.
  rewrite !Z.lor_spec, rotate_left_bit, !rotate_right_bit by auto with word.
  rewrite !Z.land_spec, !(andb_comm (Z.testbit x _)). done.
Qed.

Lemma shift_rows_inv_bit x i :
  uN 64 x -> 0 <= i < 64 ->
  Z.testbit (shift_rows_inv x) i =
    Z.testbit (nth 0 ROW_MASK 0) i && Z.testbit x i
    || Z.testbit (nth 1 ROW_MASK 0) ((i + 16) mod 64) && Z.testbit x ((i + 16) mod 64)
    || Z.testbit (nth 2 ROW_MASK 0) ((i - 32) mod 64) && Z.testbit x ((i - 32) mod 64)
    || Z.testbit (nth 3 ROW_MASK 0) ((i - 16) mod 64) && Z.testbit x ((i - 16) mod 64).
Proof.
  intros Hx Hi. unfold shift_rows_inv. cbv zeta.
  rewrite !Z.lor_spec, rotate_right_bit, !rotate_left_bit by auto with word.
  rewrite !Z.land_spec, !(andb_comm (Z.testbit x _)). done.
Qed.

Lemma mod_64 i : 0 <= i mod 64 < 64.
Proof. by apply Z.mod_pos_bound. Qed.
#[local] Hint Resolve mod_64 uN_shift_rows uN_shift_rows_inv uN_m_prime : word.

Lemma shift_rows_inv_shift_rows x : uN 64 x -> shift_rows_inv (shift_rows x) = x.
Proof.
  intros Hx. apply (uN_ext 64); [lia|auto with word..|]. intros i Hi.
  rewrite shift_rows_inv_bit, !shift_rows_bit by auto with word.
  generalize (Z.testbit x) as f. intros f. revert i Hi.
  bit_cases 64%nat; vm_compute; by destruct (f _).
Qed.

Lemma shift_rows_shift_rows_inv x : uN 64 x -> shift_rows (shift_rows_inv x) = x.
Proof.
  intros Hx. apply (uN_ext 64); [lia|auto with word..|]. intros i Hi.
  rewrite shift_rows_bit, !shift_rows_inv_bit by auto with word.
  generalize (Z.testbit x) as f. intros f. revert i Hi.
  bit_cases 64%nat; vm_compute; by destruct (f _).
Qed.

(** ** Rounds and core *)

Lemma uN_sbox_layer x : uN 64 (sbox_layer x).
Proof. rewrite sbox_layer_subst. apply uN_nibble_subst. repeat constructor; done. Qed.
Lemma uN_sbox_inv_layer x : uN 64 (sbox_inv_layer x).
Proof. rewrite sbox_inv_layer_subst. apply uN_nibble_subst. repeat constructor; done. Qed.
Lemma uN_m_layer x : uN 64 (m_layer x).
Proof. unfold m_layer. auto with word. Qed.
Lemma uN_m_layer_inv x : uN 64 (m_layer_inv x).
Proof. unfold m_layer_inv. auto with word. Qed.
Lemma uN_rc i : uN 64 (rc i).
Proof. apply nth_uN; [lia|]. repeat constructor; done. Qed.
#[local] Hint Resolve uN_sbox_layer uN_sbox_inv_layer uN_m_layer uN_m_layer_inv uN_rc : word.

Lemma m_layer_inv_m_layer x : uN 64 x -> m_layer_inv (m_layer x) = x.
Proof.
  intros. unfold m_layer, m_layer_inv.
  by rewrite shift_rows_inv_shift_rows, m_prime_involution by auto with word.
Qed.

Lemma m_layer_m_layer_inv x : uN 64 x -> m_layer (m_layer_inv x) = x.
Proof.
  intros. unfold m_layer, m_layer_inv.
  by rewrite m_prime_involution, shift_rows_shift_rows_inv by auto with word.
Qed.

(** The round constants are symmetric around alpha. *)
Lemma rc_alpha i j : (i + j = 11)%nat -> rc j = rc i ^^ ALPHA.
Proof.
  intros Hi. replace j with (11 - i)%nat by lia.
  do 12 (destruct i as [|i]; [vm_compute; reflexivity|]). lia.
Qed.

(** An inverse round under [k ^ ALPHA] undoes the mirrored forward round under [k]. *)
Lemma inv_round_round s k i j :
  (i + j = 11)%nat -> uN 64 s ->
  sbox_inv_layer
    (m_layer_inv ((m_layer (sbox_layer s) ^^ (rc i ^^ k)) ^^ ((k ^^ ALPHA) ^^ rc j))) = s.
Proof.
  intros Hi Hs. rewrite (rc_alpha i j) by done.
  replace (_ ^^ ((k ^^ ALPHA) ^^ rc i ^^ ALPHA)) with (m_layer (sbox_layer s)) by xor_solve.
  by rewrite m_layer_inv_m_layer, sbox_inv_layer_sbox by auto with word.
Qed.

Lemma round_inv_round s k i j :
  (i + j = 11)%nat -> uN 64 s -> uN 64 k ->
  m_layer (sbox_layer (sbox_inv_layer (m_layer_inv (s ^^ (k ^^ rc i)))))
    ^^ (rc j ^^ (k ^^ ALPHA)) = s.
Proof.
  intros Hi Hs Hk. rewrite (rc_alpha i j) by done.
  rewrite sbox_layer_sbox_inv, m_layer_m_layer_inv by auto with word. xor_solve.
Qed.

Lemma middle_involution s :
  uN 64 s ->
  sbox_inv_layer (m_prime (sbox_layer (sbox_inv_layer (m_prime (sbox_layer s))))) = s.
Proof.
  intros. rewrite sbox_layer_sbox_inv, m_prime_involution by auto with word.
  by apply sbox_inv_layer_sbox.
Qed.

Lemma uN_prince_core b k : uN 64 b -> uN 64 k -> uN 64 (prince_core_encrypt b k).
Proof. intros. unfold prince_core_encrypt. auto with word. Qed.

#[local] Opaque m_layer m_layer_inv sbox_layer sbox_inv_layer m_prime rc.

(** The reflection of the core, round by round. *)
Lemma prince_core_reflection b k :
  uN 64 b -> uN 64 k -> prince_core_encrypt (prince_core_encrypt b k) (k ^^ ALPHA) = b.
Proof.
  intros Hb Hk. unfold prince_core_encrypt. cbv zeta.
  set (s0 := b ^^ (k ^^ rc 0)).
  set (s1 := m_layer (sbox_layer s0) ^^ (rc 1 ^^ k)).
  set (s2 := m_layer (sbox_layer s1) ^^ (rc 2 ^^ k)).
  set (s3 := m_layer (sbox_layer s2) ^^ (rc 3 ^^ k)).
  set (s4 := m_layer (sbox_layer s3) ^^ (rc 4 ^^ k)).
  set (s5 := m_layer (sbox_layer s4) ^^ (rc 5 ^^ k)).
  set (t5 := sbox_inv_layer (m_prime (sbox_layer s5))).
  set (t6 := sbox_inv_layer (m_layer_inv (t5 ^^ (k ^^ rc 6)))).
  set (t7 := sbox_inv_layer (m_layer_inv (t6 ^^ (k ^^ rc 7)))).
  set (t8 := sbox_inv_layer (m_layer_inv (t7 ^^ (k ^^ rc 8)))).
  set (t9 := sbox_inv_layer (m_layer_inv (t8 ^^ (k ^^ rc 9)))).
  set (t10 := sbox_inv_layer (m_layer_inv (t9 ^^ (k ^^ rc 10)))).
  assert (uN 64 t5 /\ uN 64 t6 /\ uN 64 t7 /\ uN 64 t8 /\ uN 64 t9 /\ uN 64 t10)
    as (? & ? & ? & ? & ? & ?) by (unfold t5, t6, t7, t8, t9, t10; auto 10 with word).
  assert (uN 64 s0 /\ uN 64 s1 /\ uN 64 s2 /\ uN 64 s3 /\ uN 64 s4 /\ uN 64 s5)
    as (? & ? & ? & ? & ? & ?) by (unfold s0, s1, s2, s3, s4, s5; auto 10 with word).
  replace ((t10 ^^ (k ^^ rc 11)) ^^ ((k ^^ ALPHA) ^^ rc 0)) with t10
    by (rewrite (rc_alpha 0 11) by lia; xor_solve).
  unfold t10. rewrite (round_inv_round t9 k 10 1) by (done || lia).
  unfold t9. rewrite (round_inv_round t8 k 9 2) by (done || lia).
  unfold t8. rewrite (round_inv_round t7 k 8 3) by (done || lia).
  unfold t7. rewrite (round_inv_round t6 k 7 4) by (done || lia).
  unfold t6. rewrite (round_inv_round t5 k 6 5) by (done || lia).
  unfold t5. rewrite middle_involution by done.
  unfold s5. rewrite (inv_round_round s4 k 5 6) by (done || lia).
  unfold s4. rewrite (inv_round_round s3 k 4 7) by (done || lia).
  unfold s3. rewrite (inv_round_round s2 k 3 8) by (done || lia).
  unfold s2. rewrite (inv_round_round s1 k 2 9) by (done || lia).
  unfold s1. rewrite (inv_round_round s0 k 1 10) by (done || lia).
  unfold s0. rewrite (rc_alpha 0 11) by lia. xor_solve.
Qed.

(** ** The key schedule and the round trips *)

Lemma uN_half_key key n : bytes 16 key -> (n <= 8)%nat -> uN 64 (from_be_bytes (take 8 (drop n key))).
Proof.
  intros [Hl Hk] Hn. apply (uN_from_be 8). split.
  - rewrite length_take, length_drop. lia.
  - by apply Forall_take, Forall_drop.
Qed.

Lemma uN_ALPHA : uN 64 ALPHA.
Proof. done. Qed.
#[local] Hint Resolve uN_ALPHA : word.

Lemma alpha_twice k : (k ^^ ALPHA) ^^ ALPHA = k.
Proof. xor_solve. Qed.

Section round_trip.
Context (key : list Z) (Hkey : bytes 16 key).

Lemma uN_prince_encrypt block : uN 64 block -> uN 64 (prince_encrypt block key).
Proof.
  intros Hb. pose proof (uN_half_key key 0 Hkey ltac:(lia)).
  pose proof (uN_half_key key 8 Hkey ltac:(lia)).
  unfold prince_encrypt. auto 10 using uN_prince_core with word.
Qed.

Lemma prince_decrypt_encrypt_block block :
  uN 64 block -> prince_decrypt (prince_encrypt block key) key = block.
Proof.
  intros Hb. pose proof (uN_half_key key 0 Hkey ltac:(lia)) as H0. rewrite drop_0 in H0.
  pose proof (uN_half_key key 8 Hkey ltac:(lia)) as H1.
  unfold prince_decrypt, prince_encrypt. cbv zeta.
  rewrite lxor_cancel_r, prince_core_reflection by auto with word. apply lxor_cancel_r.
Qed.

Lemma prince_encrypt_decrypt_block block :
  uN 64 block -> prince_encrypt (prince_decrypt block key) key = block.
Proof.
  intros Hb. pose proof (uN_half_key key 0 Hkey ltac:(lia)) as H0. rewrite drop_0 in H0.
  pose proof (uN_half_key key 8 Hkey ltac:(lia)) as H1.
  unfold prince_decrypt, prince_encrypt. cbv zeta.
  set (k1 := from_be_bytes (take 8 (drop 8 key))) in *.
  rewrite lxor_cancel_r. rewrite <- (alpha_twice k1) at 2.
  rewrite prince_core_reflection; [apply lxor_cancel_r|auto 10 with word..].
Qed.
End round_trip.

(** C20. Encryption under any 16-byte key is a permutation of the 64-bit blocks
    and [prince_decrypt] is its inverse: both compositions are the identity and
    the ciphertext is again a [u64]. *)
Theorem prince_round_trip (key : list Z) (block : Z) :
  bytes 16 key -> uN 64 block ->
  uN 64 (prince_encrypt block key) /\
  prince_decrypt (prince_encrypt block key) key = block /\
  prince_encrypt (prince_decrypt block key) key = block.
Proof.
  intros Hk Hb. split_and!;
    auto using uN_prince_encrypt, prince_decrypt_encrypt_block, prince_encrypt_decrypt_block.
Qed.

Lemma prince_round_trip_witness :
  prince_decrypt (prince_encrypt 0xdeadbeefcafe0000 (seqZ 1 16)) (seqZ 1 16) = 0xdeadbeefcafe0000.
Proof.
  refine (proj1 (proj2 (prince_round_trip (seqZ 1 16) 0xdeadbeefcafe0000 _ _))).
  - split; [reflexivity|repeat constructor; done].
  - done.
Defined.

(** The linear layer: on every 64-bit state M' is an involution, the inverse
    ShiftRows undoes ShiftRows, the inverse S-box layer undoes the S-box layer,
    and the inverse M-layer undoes the M-layer. *)
Theorem prince_layers_invertible (x : Z) :
  uN 64 x ->
  m_prime (m_prime x) = x /\
  shift_rows_inv (shift_rows x) = x /\
  sbox_inv_layer (sbox_layer x) = x /\
  m_layer_inv (m_layer x) = x.
Proof.
  intros. split_and!; auto using m_prime_involution, shift_rows_inv_shift_rows,
    sbox_inv_layer_sbox, m_layer_inv_m_layer.
Qed.

Lemma prince_layers_invertible_witness : m_prime (m_prime 0xcafebabe00000000) = 0xcafebabe00000000.
Proof. apply (prince_layers_invertible 0xcafebabe00000000). done. Defined.

End Prince.
