(* ===== verification/SipHash.v ===== *)
(** * SipHash-2-4 of [common/src/crypto.rs]

    [sip_round], the unrolled [siphash_2_4_17] for 17-byte messages, and the
    wrapper [siphash_2_4] over the third-party [siphasher] crate, which is a
    parameter.  The unrolled routine is compared with a definition of SipHash-2-4
    for messages of any length, written from the algorithm's description and
    checked on the published vectors. *)

From S2P Require Import Prelude.
Local Open Scope Z_scope.
Local Open Scope word_scope.

Module SipHash.

(** The four 64-bit lanes. *)
Record SipState := mkSip { v0 : Z; v1 : Z; v2 : Z; v3 : Z }.

Definition sip_ok (s : SipState) : Prop :=
  uN 64 (v0 s) /\ uN 64 (v1 s) /\ uN 64 (v2 s) /\ uN 64 (v3 s).

Definition sip_round (s : SipState) : SipState :=
  let '(mkSip v0 v1 v2 v3) := s in
  let v0 := wrapping_add 64 v0 v1 in
  let v1 := rotate_left 64 v1 13 in
  let v1 := v1 ^^ v0 in
  let v0 := rotate_left 64 v0 32 in
  let v2 := wrapping_add 64 v2 v3 in
  let v3 := rotate_left 64 v3 16 in
  let v3 := v3 ^^ v2 in
  let v0 := wrapping_add 64 v0 v3 in
  let v3 := rotate_left 64 v3 21 in
  let v3 := v3 ^^ v0 in
  let v2 := wrapping_add 64 v2 v1 in
  let v1 := rotate_left 64 v1 17 in
  let v1 := v1 ^^ v2 in
  let v2 := rotate_left 64 v2 32 in
  mkSip v0 v1 v2 v3.

Definition xor_v0 (m : Z) (s : SipState) : SipState := mkSip (v0 s ^^ m) (v1 s) (v2 s) (v3 s).
Definition xor_v2 (m : Z) (s : SipState) : SipState := mkSip (v0 s) (v1 s) (v2 s ^^ m) (v3 s).
Definition xor_v3 (m : Z) (s : SipState) : SipState := mkSip (v0 s) (v1 s) (v2 s) (v3 s ^^ m).

Definition siphash_2_4_17 (key data : list Z) : Z :=
  let k0 := from_le_bytes (take 8 key) in
  let k1 := from_le_bytes (take 8 (drop 8 key)) in
  let s := mkSip (0x736f6d6570736575 ^^ k0) (0x646f72616e646f6d ^^ k1)
                 (0x6c7967656e657261 ^^ k0) (0x7465646279746573 ^^ k1) in
  let m0 := from_le_bytes (take 8 data) in
  let m1 := from_le_bytes (take 8 (drop 8 data)) in
  let b := shl 64 17 56 .| nth 16 data 0 in
  let s := xor_v3 m0 s in
  let s := sip_round s in
  let s := sip_round s in
  let s := xor_v0 m0 s in
  let s := xor_v3 m1 s in
  let s := sip_round s in
  let s := sip_round s in
  let s := xor_v0 m1 s in
  let s := xor_v3 b s in
  let s := sip_round s in
  let s := sip_round s in
  let s := xor_v0 b s in
  let s := xor_v2 0xff s in
  let s := sip_round s in
  let s := sip_round s in
  let s := sip_round s in
  let s := sip_round s in
  v0 s ^^ v1 s ^^ v2 s ^^ v3 s.

(** [siphash_2_4]: [SipHasher24::new_with_key(key).hash(data)]. *)
Definition siphash_2_4 (SipHasher24_hash : list Z -> list Z -> Z) (key data : list Z) : Z :=
  SipHasher24_hash key data.

(** ** Reference definition, any length *)

(** The message as 64-bit little-endian words; the last one holds the remaining
    0 to 7 bytes and the length modulo 256 in its top byte. *)
Fixpoint sip_words (len : Z) (data : list Z) : list Z :=
  match data with
  | b0 :: b1 :: b2 :: b3 :: b4 :: b5 :: b6 :: b7 :: rest =>
      from_le_bytes [b0; b1; b2; b3; b4; b5; b6; b7] :: sip_words len rest
  | rest => [from_le_bytes rest + 2 ^ 56 * (len mod 256)]
  end.

Definition sip_compress (s : SipState) (m : Z) : SipState :=
  xor_v0 m (sip_round (sip_round (xor_v3 m s))).

Definition siphash24_ref (key data : list Z) : Z :=
  let k0 := from_le_bytes (take 8 key) in
  let k1 := from_le_bytes (take 8 (drop 8 key)) in
  let s := mkSip (0x736f6d6570736575 ^^ k0) (0x646f72616e646f6d ^^ k1)
                 (0x6c7967656e657261 ^^ k0) (0x7465646279746573 ^^ k1) in
  let s := fold_left sip_compress (sip_words (Z.of_nat (length data)) data) s in
  let s := sip_round (sip_round (sip_round (sip_round (xor_v2 0xff s)))) in
  v0 s ^^ v1 s ^^ v2 s ^^ v3 s.

(** The sixteen published vectors that the unit tests list. *)
Example siphash24_ref_vectors :
  map (fun n => siphash24_ref (seqZ 0 16) (seqZ 0 n)) (seqZ 0 16) =
  [0x726fdb47dd0e0e31; 0x74f839c593dc67fd; 0x0d6c8009d9a94f5a; 0x85676696d7fb7e2d;
   0xcf2794e0277187b7; 0x18765564cd99a68d; 0xcbc9466e58fee3ce; 0xab0200f58b01d137;
   0x93f5f5799a932462; 0x9e0082df0ba9e4b0; 0x7a5dbbc594ddb9f3; 0xf4b32f46226bada7;
   0x751e8fbc860ee5fb; 0x14ea5627c0843d90; 0xf723ca908e7af2ee; 0xa129ca6149be45e5].
Proof. vm_compute. reflexivity. Qed.

Lemma last_block_17 d : uN 8 d -> shl 64 17 56 .| d = from_le_bytes [d] + 2 ^ 56 * (17 mod 256).
Proof.
  intros Hd. rewrite (shl_small 8) by (lia || done). rewrite Z.lor_comm.
  rewrite lor_shiftl_add by (lia || by apply (uN_weaken 8)).
  unfold from_le_bytes, undigits. rewrite Z.mul_0_r, Z.add_0_r. reflexivity.
Qed.

Lemma siphash_17_ref key data : bytes 17 data -> siphash_2_4_17 key data = siphash24_ref key data.
Proof.
  intros Hd. unfold siphash_2_4_17, siphash24_ref. cbv zeta.
  bytes_destruct Hd. cbn [length take drop nth sip_words fold_left].
  change (Z.of_nat 17) with 17. unfold sip_compress. rewrite last_block_17 by done. reflexivity.
Qed.

(** ** The round is a permutation *)

Definition wrapping_sub (w a b : Z) : Z := wrap w (a - b).

Definition sip_round_inv (s : SipState) : SipState :=
  let '(mkSip v0 v1 v2 v3) := s in
  let v2 := rotate_right 64 v2 32 in
  let v1 := rotate_right 64 (v1 ^^ v2) 17 in
  let v2 := wrapping_sub 64 v2 v1 in
  let v3 := rotate_right 64 (v3 ^^ v0) 21 in
  let v0 := wrapping_sub 64 v0 v3 in
  let v3 := rotate_right 64 (v3 ^^ v2) 16 in
  let v2 := wrapping_sub 64 v2 v3 in
  let v0 := rotate_right 64 v0 32 in
  let v1 := rotate_right 64 (v1 ^^ v0) 13 in
  let v0 := wrapping_sub 64 v0 v1 in
  mkSip v0 v1 v2 v3.

Lemma add_sub_wrap w a b : uN w a -> wrapping_sub w (wrapping_add w a b) b = a.
Proof.
  intros Ha. unfold wrapping_sub, wrapping_add, wrap. rewrite Zminus_mod_idemp_l.
  rewrite Z.add_simpl_r. by apply Z.mod_small.
Qed.

Lemma sip_round_ok s : sip_ok s -> sip_ok (sip_round s).
Proof.
  destruct s as [a b c d]. intros (Ha & Hb & Hc & Hd). simpl in *.
  unfold sip_ok. cbn [v0 v1 v2 v3 sip_round]. split_and!; auto 10 with word.
Qed.

Lemma sip_round_inv_round s : sip_ok s -> sip_round_inv (sip_round s) = s.
Proof.
  destruct s as [a b c d]. intros (Ha & Hb & Hc & Hd). simpl in *.
  unfold sip_round, sip_round_inv. cbv zeta.
  repeat (rewrite ?rotate_right_left, ?lxor_cancel_r, ?add_sub_wrap by auto 10 with word).
  done.
Qed.

(** C21. The hand-unrolled [siphash_2_4_17] computes SipHash-2-4: for every key
    and every 17-byte message it returns what [siphash_2_4] returns, provided the
    [siphasher] crate implements SipHash-2-4. *)
Theorem siphash_17_matches (SipHasher24_hash : list Z -> list Z -> Z) (key data : list Z)
    (Hcrate : forall k d, bytes 16 k -> Forall (uN 8) d -> SipHasher24_hash k d = siphash24_ref k d) :
  bytes 16 key -> bytes 17 data ->
  siphash_2_4_17 key data = siphash_2_4 SipHasher24_hash key data.
Proof.
  intros Hk Hd. unfold siphash_2_4. rewrite Hcrate by (done || apply Hd).
  by apply siphash_17_ref.
Qed.

Lemma siphash_17_matches_witness :
  siphash_2_4_17 (seqZ 0 16) (seqZ 32 17) = siphash_2_4 siphash24_ref (seqZ 0 16) (seqZ 32 17).
Proof.
  apply (siphash_17_matches siphash24_ref); [done|..];
    (split; [reflexivity|repeat constructor; done]).
Defined.

(** [sip_round] is injective on 64-bit lanes (its inverse is computed), so no
    two states of the hash are merged by a round, and it keeps the lanes in
    range. *)
Theorem sip_round_permutation (s s' : SipState) :
  sip_ok s -> sip_ok s' ->
  sip_ok (sip_round s) /\ (sip_round s = sip_round s' -> s = s').
Proof.
  intros H H'. split; [by apply sip_round_ok|]. intros E.
  by rewrite <- (sip_round_inv_round s H), E, sip_round_inv_round.
Qed.

Lemma sip_round_permutation_witness : sip_ok (sip_round (mkSip 1 2 3 4)).
Proof.
  apply (sip_round_permutation (mkSip 1 2 3 4) (mkSip 1 2 3 4)); split_and!; done.
Defined.

End SipHash.
