(* ===== verification/Contract.v ===== *)
(** * The address-space contract: [contract.toml] and [common/build.rs]

    The build script reads the contract, checks the two bit widths and writes the
    constants that every crate is compiled with.  [build_main] is that script on
    the parsed contract; [contract_rs] is its output on the repository's
    [contract.toml], and the constants of the [common] crate are its fields. *)

From S2P Require Import Prelude.

Module Contract.

Record Address := mkAddress { synthetic_prefix_bytes : list Z }.
Record VipPool := mkVipPool { discriminator_bytes : list Z }.
Record Xfrm := mkXfrm { if_id : Z }.
Record ProxySource := mkProxySource {
  public_prefix_bytes : list Z;
  client_id_bits : Z;
  domain_id_bits : Z
}.
Record Contract := mkContract {
  address : Address;
  vip_pool : VipPool;
  xfrm : Xfrm;
  proxy_source : ProxySource
}.

(** The constants of the generated [contract.rs]. *)
Record ContractRs := mkContractRs {
  SYNTHETIC_PREFIX_of : list Z;
  VIP_POOL_DISCRIMINATOR_of : list Z;
  XFRM_IF_ID_of : Z;
  PROXY_SRC_PREFIX_of : list Z;
  PROXY_SRC_CLIENT_ID_MAX_of : Z;
  PROXY_SRC_DOMAIN_ID_MAX_of : Z
}.

(** [main] of the build script after parsing; [None] is a failed [assert!]. *)
Definition build_main (c : Contract) : option ContractRs :=
  let b := synthetic_prefix_bytes (address c) in
  let d := discriminator_bytes (vip_pool c) in
  let if_id := if_id (xfrm c) in
  let p := public_prefix_bytes (proxy_source c) in
  if client_id_bits (proxy_source c) =? 24 then
    if domain_id_bits (proxy_source c) =? 24 then
      Some (mkContractRs
              [nth 0 b 0; nth 1 b 0; nth 2 b 0; nth 3 b 0]
              [nth 0 d 0; nth 1 d 0; nth 2 d 0; nth 3 d 0]
              if_id
              [nth 0 p 0; nth 1 p 0; nth 2 p 0; nth 3 p 0]
              0x00ffffff
              0x00ffffff)
    else None
  else None.

(** The repository's [contract.toml]. *)
Definition contract_toml : Contract :=
  mkContract (mkAddress [0xfd; 0x00; 0xab; 0xcd])
             (mkVipPool [0x00; 0x00; 0x00; 0x01])
             (mkXfrm 1)
             (mkProxySource [0x20; 0x01; 0x0d; 0xb8] 24 24).

(** The contract's fields have their Rust types. *)
Definition contract_wf (c : Contract) : Prop :=
  bytes 4 (synthetic_prefix_bytes (address c)) /\
  bytes 4 (discriminator_bytes (vip_pool c)) /\
  uN 32 (if_id (xfrm c)) /\
  bytes 4 (public_prefix_bytes (proxy_source c)).

Definition contract_rs : ContractRs :=
  match build_main contract_toml with
  | Some c => c
  | None => mkContractRs [] [] 0 [] 0 0
  end.

Definition SYNTHETIC_PREFIX : list Z := SYNTHETIC_PREFIX_of contract_rs.
Definition VIP_POOL_DISCRIMINATOR : list Z := VIP_POOL_DISCRIMINATOR_of contract_rs.
Definition XFRM_IF_ID : Z := XFRM_IF_ID_of contract_rs.
Definition PROXY_SRC_PREFIX : list Z := PROXY_SRC_PREFIX_of contract_rs.
Definition PROXY_SRC_CLIENT_ID_MAX : Z := PROXY_SRC_CLIENT_ID_MAX_of contract_rs.
Definition PROXY_SRC_DOMAIN_ID_MAX : Z := PROXY_SRC_DOMAIN_ID_MAX_of contract_rs.

Lemma SYNTHETIC_PREFIX_bytes : bytes 4 SYNTHETIC_PREFIX.
Proof. split; [reflexivity|repeat constructor; done]. Qed.
Lemma PROXY_SRC_PREFIX_bytes : bytes 4 PROXY_SRC_PREFIX.
Proof. split; [reflexivity|repeat constructor; done]. Qed.
Lemma VIP_POOL_DISCRIMINATOR_bytes : bytes 4 VIP_POOL_DISCRIMINATOR.
Proof. split; [reflexivity|repeat constructor; done]. Qed.

Lemma CLIENT_ID_MAX_24 : PROXY_SRC_CLIENT_ID_MAX = 2 ^ 24 - 1.
Proof. reflexivity. Qed.
Lemma DOMAIN_ID_MAX_24 : PROXY_SRC_DOMAIN_ID_MAX = 2 ^ 24 - 1.
Proof. reflexivity. Qed.

(** The build script accepts a contract exactly when both widths are 24 bits,
    and then it copies the three prefixes and the interface id unchanged and sets
    both maxima to the largest value of the declared width. *)
Theorem build_main_spec (c : Contract) (out : ContractRs) :
  contract_wf c ->
  (build_main c = Some out <->
   client_id_bits (proxy_source c) = 24 /\ domain_id_bits (proxy_source c) = 24 /\
   SYNTHETIC_PREFIX_of out = synthetic_prefix_bytes (address c) /\
   VIP_POOL_DISCRIMINATOR_of out = discriminator_bytes (vip_pool c) /\
   XFRM_IF_ID_of out = if_id (xfrm c) /\
   PROXY_SRC_PREFIX_of out = public_prefix_bytes (proxy_source c) /\
   PROXY_SRC_CLIENT_ID_MAX_of out = 2 ^ client_id_bits (proxy_source c) - 1 /\
   PROXY_SRC_DOMAIN_ID_MAX_of out = 2 ^ domain_id_bits (proxy_source c) - 1).
Proof.
  destruct c as [[b] [d] [f] [p cb db]]. intros (Hb & Hd & _ & Hp); simpl in *.
  bytes_destruct Hb. bytes_destruct Hd. bytes_destruct Hp.
  unfold build_main. simpl. destruct (Z.eqb_spec cb 24) as [->|]; [|by split; [|intros [? ?]]].
  destruct (Z.eqb_spec db 24) as [->|]; [|by split; [|intros (_ & ? & _)]].
  split; [by intros [= <-]|].
  destruct out. simpl. intros (_ & _ & -> & -> & -> & -> & -> & ->). reflexivity.
Qed.

Lemma build_main_spec_witness : build_main contract_toml = Some contract_rs.
Proof.
  apply (build_main_spec contract_toml contract_rs).
  - split_and!; [..|done|]; (split; [reflexivity|repeat constructor; done]).
  - split_and!; reflexivity.
Defined.

End Contract.
