(* ===== verification/Types.v ===== *)
(** * Shared data types of [common/src/lib.rs]

    The flow context, the key material, and the value types of the BPF maps, each
    a record with the source's fields, with the instances that let them key a
    finite map. *)

From S2P Require Import Prelude.
Local Open Scope Z_scope.
Local Open Scope word_scope.

Module Types.

(** ** Flow context *)

Record ProxySrcCtx := mkProxySrcCtx { src_port : Z; dst_port : Z; proto : Z; ctx_pad : list Z }.

(** [ProxySrcCtx::new] *)
Definition ProxySrcCtx_new (src_port dst_port proto : Z) : ProxySrcCtx :=
  mkProxySrcCtx src_port dst_port proto [0; 0; 0].

(** Values the constructor can build: two [u16] ports and a [u8] protocol. *)
Definition ctx_wf (c : ProxySrcCtx) : Prop :=
  uN 16 (src_port c) /\ uN 16 (dst_port c) /\ uN 8 (proto c) /\ ctx_pad c = [0; 0; 0].

(** ** Key material *)

Record ProxySrcKey := mkProxySrcKey { prince_key : list Z; siphash_key : list Z }.

Definition key_wf (k : ProxySrcKey) : Prop := bytes 16 (prince_key k) /\ bytes 16 (siphash_key k).

(** [ProxySrcKey::is_zero]: the loop over the 16 positions. *)
Definition is_zero (k : ProxySrcKey) : bool :=
  let acc := fold_left (fun acc i => (acc .| nth i (prince_key k) 0) .| nth i (siphash_key k) 0)
                       (seq 0 16) 0 in
  acc =? 0.

(** ** BPF map values *)

Record NatEntry := mkNatEntry { origin_ipv6 : list Z }.

Record ReplyTrackKey := mkReplyTrackKey {
  rt_origin_ipv6 : list Z;
  rt_origin_port : Z;
  rt_translated_port : Z;
  rt_proto : Z;
  rt_pad : list Z
}.

Record ReplyTrackValue := mkReplyTrackValue { proxy_src : list Z }.

#[global] Instance ReplyTrackKey_eq_dec : EqDecision ReplyTrackKey.
Proof. solve_decision. Defined.

#[global] Instance ReplyTrackKey_countable : Countable ReplyTrackKey.
Proof.
  refine (inj_countable'
    (fun k => (rt_origin_ipv6 k, rt_origin_port k, rt_translated_port k, rt_proto k, rt_pad k))
    (fun '(a, b, c, d, e) => mkReplyTrackKey a b c d e) _).
  by intros [].
Defined.

#[global] Instance ProxySrcKey_eq_dec : EqDecision ProxySrcKey.
Proof. solve_decision. Defined.
#[global] Instance NatEntry_eq_dec : EqDecision NatEntry.
Proof. solve_decision. Defined.

Lemma is_zero_fold p q l acc :
  fold_left (fun acc i => (acc .| nth i p 0) .| nth i q 0) l acc = 0 <->
  acc = 0 /\ Forall (fun i => nth i p 0 = 0) l /\ Forall (fun i => nth i q 0 = 0) l.
Proof.
  revert acc. induction l as [|i l IH]; intros acc; simpl.
  - intuition.
  - rewrite IH, !Z.lor_eq_0_iff, !Forall_cons_iff. tauto.
Qed.

Lemma nth_replicate_0 n i : nth i (replicate n 0) 0 = 0.
Proof. revert i. induction n as [|n IH]; intros [|i]; simpl; auto. Qed.

Lemma all_nth_zero (l : list Z) :
  Forall (fun i => nth i l 0 = 0) (seq 0 (length l)) <-> l = replicate (length l) 0.
Proof.
  split.
  - intros H. apply (nth_ext _ _ 0 0); [by rewrite length_replicate|].
    intros i Hi. rewrite List.Forall_forall in H.
    rewrite (H i) by (apply in_seq; lia). by rewrite nth_replicate_0.
  - intros ->. apply List.Forall_forall. intros i _. by rewrite nth_replicate_0.
Qed.

(** [is_zero] holds exactly for the all-zero key. *)
Theorem is_zero_spec (k : ProxySrcKey) :
  key_wf k ->
  (is_zero k = true <-> k = mkProxySrcKey (replicate 16 0) (replicate 16 0)).
Proof.
  destruct k as [p q]. intros [[Hp _] [Hq _]]. simpl in *. unfold is_zero. cbv zeta. simpl prince_key.
  simpl siphash_key. rewrite Z.eqb_eq, is_zero_fold.
  pose proof (all_nth_zero p) as Ap. pose proof (all_nth_zero q) as Aq.
  rewrite Hp in Ap. rewrite Hq in Aq. rewrite Ap, Aq. split; [by intros (_ & -> & ->)|by intros [= -> ->]].
Qed.

Lemma is_zero_spec_witness : is_zero (mkProxySrcKey (replicate 16 0) (replicate 16 0)) = true.
Proof.
  apply (is_zero_spec (mkProxySrcKey (replicate 16 0) (replicate 16 0))); [|reflexivity].
  split; (split; [reflexivity|repeat constructor; done]).
Defined.

End Types.
