(* ===== verification/Mix.v ===== *)
(** * 64-bit mixers: [mix64] of [common/src/lib.rs] and [hash_ctx] of
    [common/src/crypto.rs]

    Both apply the splitmix64 finalizer.  Its inverse is computed here, which
    gives the injectivity guarantee stated in the source for [hash_ctx]. *)

From S2P Require Import Prelude Types.
Import Types.
Local Open Scope Z_scope.
Local Open Scope word_scope.

Module Mix.

Definition mix64 (x : Z) : Z :=
  let x := x ^^ (x >> 30) in
  let x := wrapping_mul 64 x 0xbf58476d1ce4e5b9 in
  let x := x ^^ (x >> 27) in
  let x := wrapping_mul 64 x 0x94d049bb133111eb in
  let x := x ^^ (x >> 31) in
  x.

(** The five context bytes packed into one word, as [hash_ctx] and [tag32] do. *)
Definition pack_ctx (ctx : ProxySrcCtx) : Z :=
  shl 64 (src_port ctx) 48 .| shl 64 (dst_port ctx) 32 .| shl 64 (proto ctx) 24.

Definition hash_ctx (ctx : ProxySrcCtx) : Z :=
  let packed := pack_ctx ctx in
  let h := packed in
  let h := h ^^ (h >> 30) in
  let h := wrapping_mul 64 h 0xbf58476d1ce4e5b9 in
  let h := h ^^ (h >> 27) in
  let h := wrapping_mul 64 h 0x94d049bb133111eb in
  let h := h ^^ (h >> 31) in
  h.

(** The frozen vectors of the unit tests. *)
Example hash_ctx_vectors :
  map (fun '(s, d, p) => hash_ctx (ProxySrcCtx_new s d p))
    [(0, 0, 0); (443, 50000, 6); (50000, 443, 6); (443, 50000, 17); (1, 1, 1)] =
  [0; 0xae510a47a775e0c3; 0x6999dcb37e570b67; 0x8e7b5430862b54bc; 0xfbf2b99b8d507220].
Proof. vm_compute. reflexivity. Qed.

(** ** The finalizer is a bijection *)

(** The inverse of [x ^= x >> s] on 64 bits, for shifts of 22 and more. *)
Definition unxorshift (s y : Z) : Z := y ^^ (y >> s) ^^ (y >> (2 * s)).

Lemma unxorshift_xorshift s x : 22 <= s -> uN 64 x -> unxorshift s (x ^^ (x >> s)) = x.
Proof.
  intros Hs Hx. unfold unxorshift. apply Z.bits_inj'. intros i Hi.
  rewrite !Z.lxor_spec, !Z.shiftr_spec, !Z.lxor_spec, !Z.shiftr_spec by lia.
  rewrite (uN_bits 64 x ltac:(lia) Hx (i + 2 * s + s)) by lia.
  replace (i + s + s) with (i + 2 * s) by lia.
  destruct (Z.testbit x i), (Z.testbit x (i + s)), (Z.testbit x (i + 2 * s)); done.
Qed.

Lemma wrapping_mul_inv a b x :
  (a * b) mod 2 ^ 64 = 1 -> uN 64 x -> wrapping_mul 64 (wrapping_mul 64 x a) b = x.
Proof.
  intros Hab Hx. unfold wrapping_mul, wrap. rewrite Zmult_mod_idemp_l, <- Z.mul_assoc.
  rewrite <- Zmult_mod_idemp_r, Hab, Z.mul_1_r. by apply Z.mod_small.
Qed.

Definition unmix64 (y : Z) : Z :=
  let y := unxorshift 31 y in
  let y := wrapping_mul 64 y 0x319642b2d24d8ec3 in
  let y := unxorshift 27 y in
  let y := wrapping_mul 64 y 0x96de1b173f119089 in
  unxorshift 30 y.

Lemma uN_mix64 x : uN 64 x -> uN 64 (mix64 x).
Proof. intros. unfold mix64. auto 10 with word. Qed.

Lemma unmix64_mix64 x : uN 64 x -> unmix64 (mix64 x) = x.
Proof.
  intros Hx. unfold unmix64, mix64. cbv zeta.
  rewrite unxorshift_xorshift by auto with word.
  rewrite wrapping_mul_inv by (done || auto with word).
  rewrite unxorshift_xorshift by auto with word.
  rewrite wrapping_mul_inv by (done || auto with word).
  by apply unxorshift_xorshift.
Qed.

Lemma mix64_inj x y : uN 64 x -> uN 64 y -> mix64 x = mix64 y -> x = y.
Proof. intros Hx Hy E. by rewrite <- (unmix64_mix64 x Hx), E, unmix64_mix64. Qed.

(** ** Packing *)

Lemma pack_ctx_add ctx :
  ctx_wf ctx ->
  pack_ctx ctx = 2 ^ 24 * proto ctx + 2 ^ 32 * dst_port ctx + 2 ^ 48 * src_port ctx.
Proof.
  intros (Hs & Hd & Hp & _). unfold pack_ctx.
  rewrite !(shl_small 16) by (lia || done || by apply (uN_weaken 8)).
  rewrite <- Z.lor_assoc, Z.lor_comm, (Z.lor_comm (Z.shiftl (dst_port ctx) 32)).
  rewrite (lor_shiftl_add 32) by (lia || by apply (uN_shiftl 8)).
  rewrite Z.shiftl_mul_pow2 by lia.
  rewrite lor_shiftl_add; [lia|lia|].
  destruct Hs, Hd, Hp. split; lia.
Qed.

Lemma uN_pack_ctx ctx : ctx_wf ctx -> uN 64 (pack_ctx ctx).
Proof. intros H. rewrite pack_ctx_add by done. destruct H as ([] & [] & [] & _). split; lia. Qed.

Lemma pack_ctx_inj c c' : ctx_wf c -> ctx_wf c' -> pack_ctx c = pack_ctx c' -> c = c'.
Proof.
  intros H H'. rewrite !pack_ctx_add by done.
  destruct c, c', H as ([] & [] & [] & ?), H' as ([] & [] & [] & ?). simpl in *.
  intros E. f_equal; [lia|lia|lia|congruence].
Qed.

Lemma hash_ctx_mix64 ctx : hash_ctx ctx = mix64 (pack_ctx ctx).
Proof. reflexivity. Qed.

Lemma uN_hash_ctx ctx : ctx_wf ctx -> uN 64 (hash_ctx ctx).
Proof. intros. rewrite hash_ctx_mix64. by apply uN_mix64, uN_pack_ctx. Qed.

(** [mix64] is a permutation of the 64-bit words: it stays in range and has a
    left inverse. *)
Theorem mix64_bijective (x : Z) :
  uN 64 x -> uN 64 (mix64 x) /\ unmix64 (mix64 x) = x.
Proof. auto using uN_mix64, unmix64_mix64. Qed.

Lemma mix64_bijective_witness : unmix64 (mix64 0x0123456789abcdef) = 0x0123456789abcdef.
Proof. apply (mix64_bijective 0x0123456789abcdef). done. Defined.

(** The injectivity guarantee of [hash_ctx]: two flow contexts with the same
    hash have the same source port, destination port and protocol. *)
Theorem hash_ctx_injective (c c' : ProxySrcCtx) :
  ctx_wf c -> ctx_wf c' -> hash_ctx c = hash_ctx c' -> c = c'.
Proof.
  intros H H' E. rewrite !hash_ctx_mix64 in E.
  apply pack_ctx_inj; [done..|]. apply mix64_inj; auto using uN_pack_ctx.
Qed.

Lemma hash_ctx_injective_witness :
  (hash_ctx (ProxySrcCtx_new 443 50000 6) =? hash_ctx (ProxySrcCtx_new 443 50001 6)) = false.
Proof.
  assert (ctx_wf (ProxySrcCtx_new 443 50000 6)) as W by (split_and!; done).
  assert (ctx_wf (ProxySrcCtx_new 443 50001 6)) as W' by (split_and!; done).
  apply Z.eqb_neq. intros E. apply (hash_ctx_injective _ _ W W') in E. discriminate E.
Defined.

End Mix.
