(* ===== verification/ProxySrc.v ===== *)
(** * Synthetic, proxy-source and VIP addresses of [common/src/lib.rs]

    The address helpers and the keyed encoding of (client_id, domain_id) into a
    proxy-source address.  Decoding is shown to be the exact inverse of encoding
    on the twelve bytes it reads. *)

From S2P Require Import Prelude Contract Types Mix.
Import Contract Types Mix.
Local Open Scope Z_scope.
Local Open Scope word_scope.

Module ProxySrc.

(** ** Synthetic addresses *)

Definition domain_id_from_ipv6 (addr : list Z) : Z :=
  from_be_bytes [nth 4 addr 0; nth 5 addr 0; nth 6 addr 0; nth 7 addr 0].

Definition synthetic_ipv6 (domain_id : Z) : list Z :=
  let id_bytes := to_be_bytes 4 domain_id in
  [nth 0 SYNTHETIC_PREFIX 0; nth 1 SYNTHETIC_PREFIX 0;
   nth 2 SYNTHETIC_PREFIX 0; nth 3 SYNTHETIC_PREFIX 0;
   nth 0 id_bytes 0; nth 1 id_bytes 0; nth 2 id_bytes 0; nth 3 id_bytes 0;
   0; 0; 0; 0; 0; 0; 0; 1].

Definition client_vip_from_id24 (client_id : Z) : list Z :=
  let d := VIP_POOL_DISCRIMINATOR in
  let cid := to_be_bytes 4 client_id in
  [nth 0 SYNTHETIC_PREFIX 0; nth 1 SYNTHETIC_PREFIX 0;
   nth 2 SYNTHETIC_PREFIX 0; nth 3 SYNTHETIC_PREFIX 0;
   nth 0 d 0; nth 1 d 0; nth 2 d 0; nth 3 d 0;
   0x00; 0x00; 0x00; 0x00;
   nth 0 cid 0; nth 1 cid 0; nth 2 cid 0; nth 3 cid 0].

(** ** Keyed obfuscation *)

Definition key_ctx_mix (ctx : ProxySrcCtx) (key : ProxySrcKey) : Z :=
  let k0 := from_be_bytes (take 8 (prince_key key)) in
  let k1 := from_be_bytes (take 8 (drop 8 (prince_key key))) in
  let h := hash_ctx ctx in
  mix64 (h ^^ rotate_left 64 k0 11 ^^ rotate_right 64 k1 7 ^^ 0x9e3779b97f4a7c15).

Definition tag32 (enc64 : Z) (ctx : ProxySrcCtx) (key : ProxySrcKey) : Z :=
  let k2 := from_be_bytes (take 8 (siphash_key key)) in
  let k3 := from_be_bytes (take 8 (drop 8 (siphash_key key))) in
  let ctx_bits :=
    shl 64 (src_port ctx) 48 .| shl 64 (dst_port ctx) 32 .| shl 64 (proto ctx) 24 in
  let t := mix64 (enc64 ^^ ctx_bits ^^ rotate_left 64 k2 13 ^^ rotate_right 64 k3 17
                  ^^ 0xa0761d6478bd642f) in
  as_u 32 t ^^ as_u 32 (t >> 32).

Definition encode_proxy_src (client_id domain_id : Z) (ctx : ProxySrcCtx) (key : ProxySrcKey)
    : option (list Z) :=
  if (PROXY_SRC_CLIENT_ID_MAX <? client_id) || (PROXY_SRC_DOMAIN_ID_MAX <? domain_id) then None
  else
    let p64 := shl 64 client_id 40 .| shl 64 domain_id 16 in
    let m := key_ctx_mix ctx key in
    let rot := as_u 32 (m .& 63) in
    let enc64 := rotate_left 64 p64 rot ^^ m ^^ 0xa5a5a5a5a5a5a5a5 in
    let enc64_bytes := to_be_bytes 8 enc64 in
    let tag32 := to_be_bytes 4 (tag32 enc64 ctx key) in
    Some [nth 0 PROXY_SRC_PREFIX 0; nth 1 PROXY_SRC_PREFIX 0;
          nth 2 PROXY_SRC_PREFIX 0; nth 3 PROXY_SRC_PREFIX 0;
          nth 0 enc64_bytes 0; nth 1 enc64_bytes 0; nth 2 enc64_bytes 0; nth 3 enc64_bytes 0;
          nth 4 enc64_bytes 0; nth 5 enc64_bytes 0; nth 6 enc64_bytes 0; nth 7 enc64_bytes 0;
          nth 0 tag32 0; nth 1 tag32 0; nth 2 tag32 0; nth 3 tag32 0].

Definition decode_proxy_src (addr : list Z) (ctx : ProxySrcCtx) (key : ProxySrcKey)
    : option (Z * Z) :=
  let enc64 := from_be_bytes
    [nth 4 addr 0; nth 5 addr 0; nth 6 addr 0; nth 7 addr 0;
     nth 8 addr 0; nth 9 addr 0; nth 10 addr 0; nth 11 addr 0] in
  let packet_tag := from_be_bytes [nth 12 addr 0; nth 13 addr 0; nth 14 addr 0; nth 15 addr 0] in
  let expected_tag := tag32 enc64 ctx key in
  if negb (packet_tag =? expected_tag) then None
  else
    let m := key_ctx_mix ctx key in
    let rot := as_u 32 (m .& 63) in
    let p64 := rotate_right 64 (enc64 ^^ m ^^ 0xa5a5a5a5a5a5a5a5) rot in
    if negb (p64 .& 0xFFFF =? 0) then None
    else
      let client_id := as_u 32 ((p64 >> 40) .& 0x00FFFFFF) in
      let domain_id := as_u 32 ((p64 >> 16) .& 0x00FFFFFF) in
      Some (client_id, domain_id).

(** ** The unit tests' key and cases *)

Definition TEST_KEY : ProxySrcKey :=
  mkProxySrcKey
    [0x01; 0x23; 0x45; 0x67; 0x89; 0xab; 0xcd; 0xef;
     0xfe; 0xdc; 0xba; 0x98; 0x76; 0x54; 0x32; 0x10]
    [0x00; 0x01; 0x02; 0x03; 0x04; 0x05; 0x06; 0x07;
     0x08; 0x09; 0x0a; 0x0b; 0x0c; 0x0d; 0x0e; 0x0f].

Example encode_decode_case :
  (a ← encode_proxy_src 100 7 (ProxySrcCtx_new 50000 443 6) TEST_KEY;
   decode_proxy_src a (ProxySrcCtx_new 50000 443 6) TEST_KEY) = Some (100, 7).
Proof. vm_compute. reflexivity. Qed.

(** ** Ranges *)

Lemma uN_half key n : bytes 16 key -> (n <= 8)%nat -> uN 64 (from_be_bytes (take 8 (drop n key))).
Proof.
  intros [Hl Hk] Hn. apply (uN_from_be 8). split.
  - rewrite length_take, length_drop. lia.
  - by apply Forall_take, Forall_drop.
Qed.

Lemma uN_half_0 key : bytes 16 key -> uN 64 (from_be_bytes (take 8 key)).
Proof. intros H. apply (uN_half key 0 H). lia. Qed.

Lemma uN_half_8 key : bytes 16 key -> uN 64 (from_be_bytes (take 8 (drop 8 key))).
Proof. intros H. apply (uN_half key 8 H). lia. Qed.

#[local] Hint Resolve uN_half_0 uN_half_8 uN_mix64 uN_hash_ctx uN_pack_ctx : word.

Lemma uN_key_ctx_mix ctx key : ctx_wf ctx -> key_wf key -> uN 64 (key_ctx_mix ctx key).
Proof. intros Hc [Hp _]. unfold key_ctx_mix. auto 10 with word. Qed.

Lemma uN_tag32 e ctx key : uN 32 (tag32 e ctx key).
Proof. unfold tag32, as_u. auto with word. Qed.

Lemma tag32_pack e ctx key :
  tag32 e ctx key =
  let t := mix64 (e ^^ pack_ctx ctx ^^ rotate_left 64 (from_be_bytes (take 8 (siphash_key key))) 13
                  ^^ rotate_right 64 (from_be_bytes (take 8 (drop 8 (siphash_key key)))) 17
                  ^^ 0xa0761d6478bd642f) in
  as_u 32 t ^^ as_u 32 (t >> 32).
Proof. reflexivity. Qed.

(** ** The plaintext word *)

Definition p64_of (c d : Z) : Z := shl 64 c 40 .| shl 64 d 16.

Lemma p64_of_add c d : uN 24 c -> uN 24 d -> p64_of c d = 2 ^ 16 * d + 2 ^ 40 * c.
Proof.
  intros Hc Hd. unfold p64_of. rewrite !(shl_small 24) by (lia || done).
  rewrite Z.lor_comm, lor_shiftl_add by (lia || by apply (uN_shiftl 24)).
  rewrite Z.shiftl_mul_pow2 by lia. lia.
Qed.

Lemma uN_p64_of c d : uN 64 (p64_of c d).
Proof. unfold p64_of. auto with word. Qed.

Lemma field24 p n : 0 <= n -> uN 24 ((p >> n) .& 0x00FFFFFF).
Proof. intros. change 0x00FFFFFF with (2 ^ 24 - 1). rewrite land_ones_mod by lia. by apply uN_wrap. Qed.

Lemma as_u32_field24 p n : 0 <= n -> as_u 32 ((p >> n) .& 0x00FFFFFF) = (p >> n) .& 0x00FFFFFF.
Proof. intros. apply wrap_small, (uN_weaken 24); [lia|by apply field24]. Qed.

Lemma p64_fields c d :
  uN 24 c -> uN 24 d ->
  p64_of c d .& 0xFFFF = 0 /\
  (p64_of c d >> 40) .& 0x00FFFFFF = c /\ (p64_of c d >> 16) .& 0x00FFFFFF = d.
Proof.
  intros Hc Hd. rewrite p64_of_add by done.
  change 0xFFFF with (2 ^ 16 - 1). change 0x00FFFFFF with (2 ^ 24 - 1).
  rewrite !land_ones_mod, !Z.shiftr_div_pow2 by lia.
  destruct Hc, Hd. change (2 ^ 24) with 16777216 in *. change (2 ^ 16) with 65536.
  change (2 ^ 40) with 1099511627776.
  split_and!; Z.to_euclidean_division_equations; lia.
Qed.

Lemma p64_of_fields p :
  uN 64 p -> p .& 0xFFFF = 0 -> p64_of ((p >> 40) .& 0x00FFFFFF) ((p >> 16) .& 0x00FFFFFF) = p.
Proof.
  intros Hp. rewrite p64_of_add by (apply field24; lia).
  change 0xFFFF with (2 ^ 16 - 1). change 0x00FFFFFF with (2 ^ 24 - 1).
  rewrite !land_ones_mod, !Z.shiftr_div_pow2 by lia.
  destruct Hp as [? Hp]. change (2 ^ 64) with 18446744073709551616 in Hp.
  change (2 ^ 24) with 16777216. change (2 ^ 16) with 65536.
  change (2 ^ 40) with 1099511627776.
  intros. Z.to_euclidean_division_equations; lia.
Qed.

(** ** Encoding as a concatenation *)

Definition enc64_of (c d : Z) (ctx : ProxySrcCtx) (key : ProxySrcKey) : Z :=
  let m := key_ctx_mix ctx key in
  rotate_left 64 (p64_of c d) (as_u 32 (m .& 63)) ^^ m ^^ 0xa5a5a5a5a5a5a5a5.

Definition proxy_addr (e : Z) (ctx : ProxySrcCtx) (key : ProxySrcKey) : list Z :=
  PROXY_SRC_PREFIX ++ to_be_bytes 8 e ++ to_be_bytes 4 (tag32 e ctx key).

Lemma uN_enc64_of c d ctx key : ctx_wf ctx -> key_wf key -> uN 64 (enc64_of c d ctx key).
Proof. intros. unfold enc64_of. auto 10 using uN_key_ctx_mix, uN_p64_of with word. Qed.

Lemma encode_app c d ctx key :
  encode_proxy_src c d ctx key =
  if (PROXY_SRC_CLIENT_ID_MAX <? c) || (PROXY_SRC_DOMAIN_ID_MAX <? d) then None
  else Some (proxy_addr (enc64_of c d ctx key) ctx key).
Proof.
  unfold encode_proxy_src, proxy_addr, enc64_of, p64_of. cbv zeta.
  destruct (_ || _); [done|].
  match goal with |- context [to_be_bytes 8 ?x] => generalize x as e end. intros e.
  pose proof (bytes_to_be 8 e) as He. pose proof (bytes_to_be 4 (tag32 e ctx key)) as Ht.
  revert He Ht. generalize (to_be_bytes 8 e) as le. generalize (to_be_bytes 4 (tag32 e ctx key)) as lt.
  intros lt le He Ht. bytes_destruct He. bytes_destruct Ht. reflexivity.
Qed.

Lemma ids_in_range c d :
  uN 32 c -> uN 32 d ->
  (PROXY_SRC_CLIENT_ID_MAX <? c) || (PROXY_SRC_DOMAIN_ID_MAX <? d) = false <-> uN 24 c /\ uN 24 d.
Proof.
  rewrite CLIENT_ID_MAX_24, DOMAIN_ID_MAX_24, orb_false_iff, !Z.ltb_ge. unfold uN.
  change (2 ^ 24) with 16777216. lia.
Qed.

Lemma encode_Some c d ctx key :
  uN 24 c -> uN 24 d ->
  encode_proxy_src c d ctx key = Some (proxy_addr (enc64_of c d ctx key) ctx key).
Proof.
  intros Hc Hd. rewrite encode_app.
  by rewrite (proj2 (ids_in_range c d (uN_weaken 24 32 c ltac:(lia) Hc)
                                    (uN_weaken 24 32 d ltac:(lia) Hd))).
Qed.

Lemma bytes_proxy_addr e ctx key : bytes 16 (proxy_addr e ctx key).
Proof.
  apply (bytes_app 4 12); [apply PROXY_SRC_PREFIX_bytes|].
  apply (bytes_app 8 4); apply bytes_to_be.
Qed.

(** The twelve bytes after the prefix, split as [decode_proxy_src] reads them. *)
Lemma decode_split addr ctx key :
  bytes 16 addr ->
  decode_proxy_src addr ctx key =
  let e := from_be_bytes (take 8 (drop 4 addr)) in
  if negb (from_be_bytes (drop 12 addr) =? tag32 e ctx key) then None
  else
    let m := key_ctx_mix ctx key in
    let p := rotate_right 64 (e ^^ m ^^ 0xa5a5a5a5a5a5a5a5) (as_u 32 (m .& 63)) in
    if negb (p .& 0xFFFF =? 0) then None
    else Some ((p >> 40) .& 0x00FFFFFF, (p >> 16) .& 0x00FFFFFF).
Proof.
  intros H. unfold decode_proxy_src. cbv zeta. rewrite !as_u32_field24 by lia.
  bytes_destruct H. reflexivity.
Qed.

Lemma enc64_unmix e m r :
  uN 64 e -> uN 64 m ->
  rotate_left 64 (rotate_right 64 (e ^^ m ^^ 0xa5a5a5a5a5a5a5a5) r) r ^^ m ^^ 0xa5a5a5a5a5a5a5a5 = e.
Proof. intros. rewrite rotate_left_right by auto with word. xor_solve. Qed.

Lemma mix_unenc64 p m r :
  uN 64 p ->
  rotate_right 64 ((rotate_left 64 p r ^^ m ^^ 0xa5a5a5a5a5a5a5a5) ^^ m ^^ 0xa5a5a5a5a5a5a5a5) r = p.
Proof.
  intros. replace (_ ^^ m ^^ 0xa5a5a5a5a5a5a5a5) with (rotate_left 64 p r) by xor_solve.
  by apply rotate_right_left.
Qed.

(** ** Decoding is the exact inverse of encoding *)

Lemma encode_decode c d ctx key :
  ctx_wf ctx -> key_wf key -> uN 24 c -> uN 24 d ->
  decode_proxy_src (proxy_addr (enc64_of c d ctx key) ctx key) ctx key = Some (c, d).
Proof.
  intros Hctx Hkey Hc Hd. rewrite decode_split by apply bytes_proxy_addr. cbv zeta.
  assert (from_be_bytes (take 8 (drop 4 (proxy_addr (enc64_of c d ctx key) ctx key)))
          = enc64_of c d ctx key) as ->.
  { unfold proxy_addr. rewrite (drop_app_length' PROXY_SRC_PREFIX) by done.
    rewrite take_app_length' by (symmetry; apply (bytes_to_be 8)). apply from_to_be. by apply uN_enc64_of. }
  assert (from_be_bytes (drop 12 (proxy_addr (enc64_of c d ctx key) ctx key))
          = tag32 (enc64_of c d ctx key) ctx key) as ->.
  { unfold proxy_addr. rewrite app_assoc, drop_app_length'.
    - apply from_to_be, uN_tag32.
    - pose proof (bytes_to_be 8 (enc64_of c d ctx key)) as [E _]. by rewrite length_app, E. }
  rewrite Z.eqb_refl. change (negb true) with false. cbv iota.
  assert (rotate_right 64 (enc64_of c d ctx key ^^ key_ctx_mix ctx key ^^ 0xa5a5a5a5a5a5a5a5)
            (as_u 32 (key_ctx_mix ctx key .& 63)) = p64_of c d) as ->.
  { apply mix_unenc64, uN_p64_of. }
  destruct (p64_fields c d Hc Hd) as (-> & -> & ->). reflexivity.
Qed.

Lemma drop_4_12 addr : bytes 16 addr -> drop 4 addr = take 8 (drop 4 addr) ++ drop 12 addr.
Proof. intros H. rewrite <- (take_drop 8 (drop 4 addr)) at 1. by rewrite drop_drop. Qed.

Lemma decode_Some addr ctx key c d :
  bytes 16 addr -> ctx_wf ctx -> key_wf key ->
  decode_proxy_src addr ctx key = Some (c, d) ->
  uN 24 c /\ uN 24 d /\
  PROXY_SRC_PREFIX ++ drop 4 addr = proxy_addr (enc64_of c d ctx key) ctx key.
Proof.
  intros Ha Hctx Hkey. rewrite decode_split by done. cbv zeta.
  assert (bytes 8 (take 8 (drop 4 addr)) /\ bytes 4 (drop 12 addr)) as [H8 H4].
  { destruct Ha as [Hl Hb]. split; split.
    - rewrite length_take, length_drop. lia.
    - by apply Forall_take, Forall_drop.
    - rewrite length_drop. lia.
    - by apply Forall_drop. }
  set (e := from_be_bytes (take 8 (drop 4 addr))).
  assert (uN 64 e) as He by apply (uN_from_be 8 _ H8).
  pose proof (uN_key_ctx_mix ctx key Hctx Hkey) as Hm.
  destruct (Z.eqb_spec (from_be_bytes (drop 12 addr)) (tag32 e ctx key)) as [Ht|]; [|done].
  set (p := rotate_right _ _ _).
  assert (uN 64 p) as Hp by (unfold p; auto 10 with word).
  destruct (Z.eqb_spec (p .& 0xFFFF) 0) as [Hpad|]; [|done]. simpl. intros [= <- <-].
  split_and!; [apply field24; lia..|].
  assert (enc64_of ((p >> 40) .& 0x00FFFFFF) ((p >> 16) .& 0x00FFFFFF) ctx key = e) as ->.
  { unfold enc64_of. rewrite p64_of_fields by done. by apply enc64_unmix. }
  unfold proxy_addr. f_equal. rewrite drop_4_12, <- Ht by done.
  unfold e. by rewrite !(to_from_be 8), !(to_from_be 4).
Qed.

(** C6. Round trip: whenever both identifiers fit in 24 bits, encoding succeeds,
    the address carries the proxy-source prefix, and decoding it under the same
    flow context and key returns exactly the two identifiers. *)
Theorem encode_decode_round_trip (c d : Z) (ctx : ProxySrcCtx) (key : ProxySrcKey) :
  ctx_wf ctx -> key_wf key -> uN 24 c -> uN 24 d ->
  exists addr, encode_proxy_src c d ctx key = Some addr /\ bytes 16 addr /\
    take 4 addr = PROXY_SRC_PREFIX /\ decode_proxy_src addr ctx key = Some (c, d).
Proof.
  intros Hctx Hkey Hc Hd. eexists. split_and!.
  - by apply encode_Some.
  - apply bytes_proxy_addr.
  - reflexivity.
  - by apply encode_decode.
Qed.

Lemma test_key_wf : key_wf TEST_KEY.
Proof. split; (split; [reflexivity|repeat constructor; done]). Qed.

Lemma encode_decode_round_trip_witness :
  exists addr, encode_proxy_src 100 7 (ProxySrcCtx_new 50000 443 6) TEST_KEY = Some addr /\
    bytes 16 addr /\ take 4 addr = PROXY_SRC_PREFIX /\
    decode_proxy_src addr (ProxySrcCtx_new 50000 443 6) TEST_KEY = Some (100, 7).
Proof.
  apply (encode_decode_round_trip 100 7); [split_and!; done|apply test_key_wf|done|done].
Defined.

(** Decoding depends on the bytes after the prefix only. *)
Lemma decode_tail (a a' : list Z) ctx key :
  (forall i, (4 <= i)%nat -> nth i a 0 = nth i a' 0) -> decode_proxy_src a ctx key = decode_proxy_src a' ctx key.
Proof. intros H. unfold decode_proxy_src. by rewrite !H by lia. Qed.

(** C7. Decoding reads the twelve bytes after the prefix and accepts nothing but what
    the encoder writes there: an address decodes to (c, d) exactly when the encoder
    gives (c, d) the address with the proxy-source prefix and the same twelve bytes.
    The four prefix bytes themselves are not looked at: with any others the result is
    the same, and checking them is left to the caller. *)
Theorem decode_exact (addr : list Z) (ctx : ProxySrcCtx) (key : ProxySrcKey) (c d : Z) :
  bytes 16 addr -> ctx_wf ctx -> key_wf key -> uN 32 c -> uN 32 d ->
  (decode_proxy_src addr ctx key = Some (c, d) <->
   encode_proxy_src c d ctx key = Some (PROXY_SRC_PREFIX ++ drop 4 addr)) /\
  (forall prefix, length prefix = 4%nat ->
   decode_proxy_src (prefix ++ drop 4 addr) ctx key = decode_proxy_src addr ctx key).
Proof.
  intros Ha Hctx Hkey Hc Hd. split; [split|].
  - intros H. destruct (decode_Some _ _ _ _ _ Ha Hctx Hkey H) as (Hc' & Hd' & ->).
    by apply encode_Some.
  - rewrite encode_app. destruct (_ || _) eqn:E; [done|]. intros E'. apply (inj Some) in E'.
    apply ids_in_range in E as [Hc' Hd']; [|done..].
    rewrite <- (encode_decode c d ctx key Hctx Hkey Hc' Hd'). rewrite E'.
    bytes_destruct Ha. reflexivity.
  - intros prefix Hp. apply decode_tail. intros i Hi. rewrite app_nth2, nth_skipn by lia. f_equal. lia.
Qed.

Lemma decode_exact_witness :
  decode_proxy_src (proxy_addr (enc64_of 100 7 (ProxySrcCtx_new 50000 443 6) TEST_KEY)
                      (ProxySrcCtx_new 50000 443 6) TEST_KEY)
    (ProxySrcCtx_new 50000 443 6) TEST_KEY = Some (100, 7).
Proof.
  destruct (decode_exact (proxy_addr (enc64_of 100 7 (ProxySrcCtx_new 50000 443 6) TEST_KEY)
                      (ProxySrcCtx_new 50000 443 6) TEST_KEY) (ProxySrcCtx_new 50000 443 6) TEST_KEY 100 7) as [H _];
    [apply bytes_proxy_addr|split_and!; done|apply test_key_wf|done|done|].
  apply H. vm_compute. reflexivity.
Defined.

(** Encoding fails exactly when one of the two identifiers exceeds 24 bits. *)
Theorem encode_none_iff (c d : Z) (ctx : ProxySrcCtx) (key : ProxySrcKey) :
  encode_proxy_src c d ctx key = None <-> 2 ^ 24 <= c \/ 2 ^ 24 <= d.
Proof.
  rewrite encode_app, CLIENT_ID_MAX_24, DOMAIN_ID_MAX_24.
  destruct (Z.ltb_spec (2 ^ 24 - 1) c), (Z.ltb_spec (2 ^ 24 - 1) d); simpl;
    (split; [try done; lia|try done; lia]).
Qed.

(** C22. Tag tampering: if an address decodes, every address that agrees with it on
    the prefix and the encrypted word but differs in any tag byte is rejected. *)
Theorem tag_tamper_rejected (addr addr' : list Z) (ctx : ProxySrcCtx) (key : ProxySrcKey) :
  bytes 16 addr -> bytes 16 addr' ->
  is_Some (decode_proxy_src addr ctx key) ->
  take 12 addr' = take 12 addr -> addr' <> addr ->
  decode_proxy_src addr' ctx key = None.
Proof.
  intros Ha Ha' [[c d] H] Hpre Hne. rewrite decode_split in H |- * by done. cbv zeta in *.
  assert (take 8 (drop 4 addr') = take 8 (drop 4 addr)) as Hmid.
  { rewrite !take_drop_commute. change (4 + 8)%nat with 12%nat. by rewrite Hpre. }
  rewrite Hmid. revert H. set (e := from_be_bytes (take 8 (drop 4 addr))).
  destruct (Z.eqb_spec (from_be_bytes (drop 12 addr)) (tag32 e ctx key)) as [Ht|]; [|done].
  intros _. destruct (Z.eqb_spec (from_be_bytes (drop 12 addr')) (tag32 e ctx key)) as [Ht'|]; [|done].
  exfalso. apply Hne. rewrite <- (take_drop 12 addr'), <- (take_drop 12 addr), Hpre. f_equal.
  apply (from_be_inj 4); [| |congruence].
  - destruct Ha'. split; [rewrite length_drop; lia|by apply Forall_drop].
  - destruct Ha. split; [rewrite length_drop; lia|by apply Forall_drop].
Qed.

Lemma tag_tamper_rejected_witness :
  decode_proxy_src
    (take 12 (proxy_addr (enc64_of 100 7 (ProxySrcCtx_new 50000 443 6) TEST_KEY)
                (ProxySrcCtx_new 50000 443 6) TEST_KEY) ++ [0; 0; 0; 0])
    (ProxySrcCtx_new 50000 443 6) TEST_KEY = None.
Proof.
  apply (tag_tamper_rejected
    (proxy_addr (enc64_of 100 7 (ProxySrcCtx_new 50000 443 6) TEST_KEY)
       (ProxySrcCtx_new 50000 443 6) TEST_KEY)).
  - apply bytes_proxy_addr.
  - vm_compute. split; [reflexivity|repeat constructor; done].
  - eexists. apply encode_decode; [split_and!; done|apply test_key_wf|done|done].
  - vm_compute. reflexivity.
  - vm_compute. discriminate.
Defined.

(** ** The address spaces *)

Lemma synthetic_app d :
  synthetic_ipv6 d = SYNTHETIC_PREFIX ++ to_be_bytes 4 d ++ [0; 0; 0; 0; 0; 0; 0; 1].
Proof.
  unfold synthetic_ipv6. cbv zeta. pose proof (bytes_to_be 4 d) as H. revert H.
  generalize (to_be_bytes 4 d) as l. intros l H. bytes_destruct H. reflexivity.
Qed.

Lemma client_vip_app c :
  client_vip_from_id24 c =
  SYNTHETIC_PREFIX ++ VIP_POOL_DISCRIMINATOR ++ [0; 0; 0; 0] ++ to_be_bytes 4 c.
Proof.
  unfold client_vip_from_id24. cbv zeta. pose proof (bytes_to_be 4 c) as H. revert H.
  generalize (to_be_bytes 4 c) as l. intros l H. bytes_destruct H. reflexivity.
Qed.

Lemma bytes_synthetic d : bytes 16 (synthetic_ipv6 d).
Proof.
  rewrite synthetic_app. apply (bytes_app 4 12); [apply SYNTHETIC_PREFIX_bytes|].
  apply (bytes_app 4 8); [apply bytes_to_be|]. split; [done|repeat constructor; done].
Qed.

Lemma bytes_client_vip c : bytes 16 (client_vip_from_id24 c).
Proof.
  rewrite client_vip_app. apply (bytes_app 4 12); [apply SYNTHETIC_PREFIX_bytes|].
  apply (bytes_app 4 8); [apply VIP_POOL_DISCRIMINATOR_bytes|].
  apply (bytes_app 4 4); [|apply bytes_to_be]. split; [done|repeat constructor; done].
Qed.

Lemma domain_id_drop addr : bytes 16 addr -> domain_id_from_ipv6 addr = from_be_bytes (take 4 (drop 4 addr)).
Proof. intros H. unfold domain_id_from_ipv6. bytes_destruct H. reflexivity. Qed.

Lemma domain_id_synthetic d : uN 32 d -> domain_id_from_ipv6 (synthetic_ipv6 d) = d.
Proof.
  intros Hd. rewrite domain_id_drop by apply bytes_synthetic. rewrite synthetic_app.
  rewrite (drop_app_length' SYNTHETIC_PREFIX) by done.
  rewrite take_app_length' by (symmetry; apply (bytes_to_be 4)). by apply from_to_be.
Qed.

(** The client identifier that [tc_ingress] reads back from a VIP. *)
Lemma client_id_vip c : uN 32 c -> from_be_bytes (drop 12 (client_vip_from_id24 c)) = c.
Proof.
  intros Hc. rewrite client_vip_app, !app_assoc.
  rewrite drop_app_length' by reflexivity. by apply from_to_be.
Qed.

(** C33. Synthetic addresses are 16 bytes long, lie in the synthetic prefix, carry
    their domain_id, and two different ids never share an address. *)
Theorem synthetic_ipv6_spec (d d' : Z) :
  uN 32 d -> uN 32 d' ->
  bytes 16 (synthetic_ipv6 d) /\ take 4 (synthetic_ipv6 d) = SYNTHETIC_PREFIX /\
  domain_id_from_ipv6 (synthetic_ipv6 d) = d /\
  (synthetic_ipv6 d = synthetic_ipv6 d' -> d = d').
Proof.
  intros Hd Hd'. split_and!.
  - apply bytes_synthetic.
  - reflexivity.
  - by apply domain_id_synthetic.
  - intros E. by rewrite <- (domain_id_synthetic d Hd), E, domain_id_synthetic.
Qed.

Lemma synthetic_ipv6_spec_witness : domain_id_from_ipv6 (synthetic_ipv6 42) = 42.
Proof. apply (synthetic_ipv6_spec 42 42); done. Defined.

(** C34. The synthetic and the VIP address spaces overlap, in exactly one address:
    domain 1 (the first id the sequence hands out) and client 1 share
    [fd00:abcd:0:1::1]. *)
Theorem synthetic_vip_overlap (d c : Z) :
  uN 32 d -> uN 32 c ->
  (synthetic_ipv6 d = client_vip_from_id24 c <-> d = 1 /\ c = 1).
Proof.
  intros Hd Hc. split; [|by intros [-> ->]].
  rewrite synthetic_app, client_vip_app. intros E%app_inv_head.
  apply app_inj_1 in E as [E1 E2]; [|by rewrite (proj1 (bytes_to_be 4 d))].
  apply (app_inv_head [0; 0; 0; 0] [0; 0; 0; 1]) in E2. split.
  - rewrite <- (from_to_be 4 d Hd), E1. reflexivity.
  - rewrite <- (from_to_be 4 c Hc), <- E2. reflexivity.
Qed.

Lemma synthetic_vip_overlap_witness : synthetic_ipv6 1 = client_vip_from_id24 1.
Proof. apply (synthetic_vip_overlap 1 1); done. Defined.

(** ** How the key enters the encoding *)

(** The only functions of the two half keys that the code uses. *)
Definition prince_fold (key : ProxySrcKey) : Z :=
  rotate_left 64 (from_be_bytes (take 8 (prince_key key))) 11
  ^^ rotate_right 64 (from_be_bytes (take 8 (drop 8 (prince_key key)))) 7.
Definition siphash_fold (key : ProxySrcKey) : Z :=
  rotate_left 64 (from_be_bytes (take 8 (siphash_key key))) 13
  ^^ rotate_right 64 (from_be_bytes (take 8 (drop 8 (siphash_key key)))) 17.

Lemma key_ctx_mix_fold ctx key :
  key_ctx_mix ctx key = mix64 (hash_ctx ctx ^^ prince_fold key ^^ 0x9e3779b97f4a7c15).
Proof. unfold key_ctx_mix, prince_fold. cbv zeta. f_equal. by rewrite !Z.lxor_assoc. Qed.

Lemma tag32_fold e ctx key key' : siphash_fold key = siphash_fold key' -> tag32 e ctx key = tag32 e ctx key'.
Proof.
  unfold siphash_fold. intros E. rewrite !tag32_pack. cbv zeta.
  assert (forall a b c d f : Z, a ^^ b ^^ c ^^ d ^^ f = a ^^ b ^^ (c ^^ d) ^^ f) as Hassoc
    by (intros; by rewrite !Z.lxor_assoc).
  by rewrite !Hassoc, E.
Qed.

(** C35. The encoding uses only a 64-bit fold of each 128-bit half key: two keys
    with the same folds encode every pair of identifiers to the same address and
    accept the same addresses. *)
Theorem encoding_key_folds (key key' : ProxySrcKey) (c d : Z) (ctx : ProxySrcCtx) (addr : list Z) :
  prince_fold key = prince_fold key' -> siphash_fold key = siphash_fold key' ->
  encode_proxy_src c d ctx key = encode_proxy_src c d ctx key' /\
  decode_proxy_src addr ctx key = decode_proxy_src addr ctx key'.
Proof.
  intros Hp Hs.
  assert (key_ctx_mix ctx key = key_ctx_mix ctx key') as Hm by by rewrite !key_ctx_mix_fold, Hp.
  split.
  - rewrite !encode_app. unfold enc64_of, proxy_addr. rewrite Hm. cbv zeta.
    by rewrite (tag32_fold _ ctx key key' Hs).
  - unfold decode_proxy_src. cbv zeta. by rewrite Hm, (tag32_fold _ ctx key key' Hs).
Qed.

(** A key different from [TEST_KEY] with the same folds. *)
Definition TWIN_KEY : ProxySrcKey :=
  mkProxySrcKey (to_be_bytes 8 (rotate_right 64 (prince_fold TEST_KEY) 11) ++ replicate 8 0)
                (siphash_key TEST_KEY).

Lemma encoding_key_folds_witness :
  TWIN_KEY <> TEST_KEY /\
  encode_proxy_src 100 7 (ProxySrcCtx_new 50000 443 6) TWIN_KEY =
  encode_proxy_src 100 7 (ProxySrcCtx_new 50000 443 6) TEST_KEY.
Proof.
  split; [vm_compute; discriminate|].
  refine (proj1 (encoding_key_folds TWIN_KEY TEST_KEY 100 7 (ProxySrcCtx_new 50000 443 6) [] _ _));
    vm_compute; reflexivity.
Defined.

(** For one key, distinct flow contexts always give distinct mixing words, so
    the obfuscation is re-keyed by every change of port or protocol. *)
Theorem key_ctx_mix_injective (c c' : ProxySrcCtx) (key : ProxySrcKey) :
  ctx_wf c -> ctx_wf c' -> key_wf key ->
  key_ctx_mix c key = key_ctx_mix c' key -> c = c'.
Proof.
  intros Hc Hc' [Hp _]. rewrite !key_ctx_mix_fold. intros E.
  assert (uN 64 (prince_fold key)) by (unfold prince_fold; auto with word).
  apply mix64_inj in E; [|auto with word..]. apply lxor_inj_r in E.
  rewrite !hash_ctx_mix64 in E. apply mix64_inj in E; [|auto with word..].
  by apply pack_ctx_inj.
Qed.

Lemma key_ctx_mix_injective_witness :
  (key_ctx_mix (ProxySrcCtx_new 1 2 6) TEST_KEY =? key_ctx_mix (ProxySrcCtx_new 1 2 17) TEST_KEY) = false.
Proof.
  assert (ctx_wf (ProxySrcCtx_new 1 2 6)) as W by (split_and!; done).
  assert (ctx_wf (ProxySrcCtx_new 1 2 17)) as W' by (split_and!; done).
  apply Z.eqb_neq. intros E. apply (key_ctx_mix_injective _ _ _ W W' test_key_wf) in E. discriminate E.
Defined.

End ProxySrc.
