(* ===== verification/UnitTests.v ===== *)
(** * The unit tests of the [common] crate

    Each [#[test]] of [common/src/lib.rs] and [common/src/crypto.rs] as a boolean on
    the definitions of this development, among them the published test vectors of
    PRINCE and SipHash-2-4.  They hold the definitions against the same values the
    Rust code is held against.  ([size_alignment_invariants] is about memory layout,
    which the definitions do not have.) *)

From S2P Require Import Prelude Contract Types Prince SipHash Mix ProxySrc.
Import Contract Types Prince SipHash Mix ProxySrc.
Local Open Scope Z_scope.

Module UnitTests.

Definition eqb_list (a b : list Z) : bool := bool_decide (a = b).
Definition opt_addr (o : option (list Z)) : list Z := default [] o.
Definition slice (i j : nat) (l : list Z) : list Z := take (j - i) (drop i l).
Definition is_none {A} (o : option A) : bool := match o with None => true | Some _ => false end.
Definition tcp_ctx (src_port dst_port : Z) : ProxySrcCtx := ProxySrcCtx_new src_port dst_port 6.

(** ** [lib.rs] *)

Definition vip_discriminator_matches_client_vip_layout : bool :=
  let vip := client_vip_from_id24 0x00010000 in
  eqb_list (slice 0 4 vip) SYNTHETIC_PREFIX && eqb_list (slice 4 8 vip) VIP_POOL_DISCRIMINATOR &&
  eqb_list (slice 8 12 vip) (replicate 4 0) && eqb_list (slice 12 16 vip) (to_be_bytes 4 0x00010000).

Definition synthetic_ipv6_prefix_matches : bool := eqb_list (slice 0 4 (synthetic_ipv6 42)) SYNTHETIC_PREFIX.

Definition xfrm_if_id_is_nonzero : bool := 0 <? XFRM_IF_ID.

Definition roundtrip (cid did sp dp : Z) : bool :=
  let ctx := tcp_ctx sp dp in
  match encode_proxy_src cid did ctx TEST_KEY with
  | None => false
  | Some addr => bool_decide (decode_proxy_src addr ctx TEST_KEY = Some (cid, did))
  end.

Definition encode_decode_roundtrip : bool :=
  eqb_list (slice 0 4 (opt_addr (encode_proxy_src 100 7 (tcp_ctx 50000 443) TEST_KEY))) PROXY_SRC_PREFIX &&
  roundtrip 100 7 50000 443.

Definition encode_decode_roundtrip_various : bool :=
  forallb (fun c : Z * Z * Z * Z => let '(cid, did, sp, dp) := c in roundtrip cid did sp dp)
    [(0, 0, 1024, 80); (1, 1, 443, 50000); (0x00FFFFFF, 0x00FFFFFF, 65535, 65535);
     (0x00010000, 7, 50000, 443); (42, 999, 8080, 3000)].

Definition different_ctx_different_enc64 : bool :=
  let addr1 := opt_addr (encode_proxy_src 100 7 (tcp_ctx 50000 443) TEST_KEY) in
  let addr2 := opt_addr (encode_proxy_src 100 7 (tcp_ctx 50001 443) TEST_KEY) in
  negb (eqb_list (slice 4 12 addr1) (slice 4 12 addr2)).

Definition same_ctx_same_enc64 : bool :=
  let ctx := tcp_ctx 50000 443 in
  eqb_list (opt_addr (encode_proxy_src 100 7 ctx TEST_KEY)) (opt_addr (encode_proxy_src 100 7 ctx TEST_KEY)).

Definition wrong_key_decode_returns_none : bool :=
  let ctx := tcp_ctx 50000 443 in
  let addr := opt_addr (encode_proxy_src 100 7 ctx TEST_KEY) in
  is_none (decode_proxy_src addr ctx (mkProxySrcKey (replicate 16 0xff) (replicate 16 0xff))).

(** [addr[i] ^= 0x01] *)
Definition tamper (i : nat) (addr : list Z) : list Z := alter (fun b => Z.lxor b 1) i addr.

Definition tag32_tamper_returns_none : bool :=
  let ctx := tcp_ctx 50000 443 in
  is_none (decode_proxy_src (tamper 12 (opt_addr (encode_proxy_src 100 7 ctx TEST_KEY))) ctx TEST_KEY).

Definition enc64_tamper_returns_none : bool :=
  let ctx := tcp_ctx 50000 443 in
  is_none (decode_proxy_src (tamper 6 (opt_addr (encode_proxy_src 100 7 ctx TEST_KEY))) ctx TEST_KEY).

Definition client_id_over_24bit_returns_none : bool :=
  is_none (encode_proxy_src 0x01000000 7 (tcp_ctx 50000 443) TEST_KEY).

Definition domain_id_over_24bit_returns_none : bool :=
  is_none (encode_proxy_src 100 0x01000000 (tcp_ctx 50000 443) TEST_KEY).

Definition proxy_src_key_is_zero : bool :=
  is_zero (mkProxySrcKey (replicate 16 0) (replicate 16 0)) && negb (is_zero TEST_KEY).

Definition proxy_src_prefix_distinct_from_synthetic : bool := negb (eqb_list PROXY_SRC_PREFIX SYNTHETIC_PREFIX).

(** ** [crypto.rs] *)

Definition hash_ctx_zero : bool := hash_ctx (ProxySrcCtx_new 0 0 0) =? 0x0000000000000000.
Definition hash_ctx_443_50000_tcp : bool := hash_ctx (ProxySrcCtx_new 443 50000 6) =? 0xae510a47a775e0c3.
Definition hash_ctx_50000_443_tcp : bool := hash_ctx (ProxySrcCtx_new 50000 443 6) =? 0x6999dcb37e570b67.
Definition hash_ctx_443_50000_udp : bool := hash_ctx (ProxySrcCtx_new 443 50000 17) =? 0x8e7b5430862b54bc.
Definition hash_ctx_1_1_1 : bool := hash_ctx (ProxySrcCtx_new 1 1 1) =? 0xfbf2b99b8d507220.

Definition hash_ctx_distinct_outputs : bool :=
  bool_decide (NoDup [0x0000000000000000; 0xae510a47a775e0c3; 0x6999dcb37e570b67;
                      0x8e7b5430862b54bc; 0xfbf2b99b8d507220]).

Definition m_prime_is_involution : bool :=
  forallb (fun x => m_prime (m_prime x) =? x)
    [0; 1; 0xdeadbeef; 0x0123456789abcdef; 0xffffffffffffffff; 0xcafebabe00000000].

Definition prince_vector (key : list Z) (pt ct : Z) : bool :=
  (prince_encrypt pt key =? ct) && (prince_decrypt ct key =? pt).

Definition prince_test_vector_all_zero : bool := prince_vector (replicate 16 0) 0x0000000000000000 0x818665aa0d02dfda.
Definition prince_test_vector_2 : bool := prince_vector (replicate 16 0) 0xffffffffffffffff 0x604ae6ca03c20ada.
Definition prince_test_vector_3 : bool :=
  prince_vector (replicate 8 0 ++ [0xfe; 0xdc; 0xba; 0x98; 0x76; 0x54; 0x32; 0x10])
    0x0123456789abcdef 0xae25ad3ca8fa9ccf.

Definition prince_roundtrip_various : bool :=
  let key := [0x01; 0x23; 0x45; 0x67; 0x89; 0xab; 0xcd; 0xef; 0xfe; 0xdc; 0xba; 0x98; 0x76; 0x54; 0x32; 0x10] in
  forallb (fun pt => let ct := prince_encrypt pt key in (prince_decrypt ct key =? pt) && negb (ct =? pt))
    [0; 1; 0xdeadbeefcafe0000; 0xffffffffffffffff; 0x0123456789abcdef].

Definition prince_encrypt_decrypt_consistency : bool :=
  let key := [0xde; 0xad; 0xbe; 0xef; 0xca; 0xfe; 0xba; 0xbe; 0x01; 0x02; 0x03; 0x04; 0x05; 0x06; 0x07; 0x08] in
  forallb (fun pt => prince_decrypt (prince_encrypt pt key) key =? pt) (seqZ 0 100).

(** The [siphasher] crate's hash, by its published definition. *)
Definition siphash (key data : list Z) : Z := siphash_2_4 siphash24_ref key data.

Definition COUNTING_KEY : list Z := seqZ 0 16.

Definition siphash_reference_vectors : bool :=
  let expected :=
    [0x726fdb47dd0e0e31; 0x74f839c593dc67fd; 0x0d6c8009d9a94f5a; 0x85676696d7fb7e2d;
     0xcf2794e0277187b7; 0x18765564cd99a68d; 0xcbc9466e58fee3ce; 0xab0200f58b01d137;
     0x93f5f5799a932462; 0x9e0082df0ba9e4b0; 0x7a5dbbc594ddb9f3; 0xf4b32f46226bada7;
     0x751e8fbc860ee5fb; 0x14ea5627c0843d90; 0xf723ca908e7af2ee; 0xa129ca6149be45e5] in
  forallb (fun i => siphash COUNTING_KEY (seqZ 0 (Z.of_nat i)) =? nth i expected 0) (seq 0 16).

Definition siphash_empty_input : bool := siphash (replicate 16 0) [] =? siphash (replicate 16 0) [].

Definition siphash_fixed_17_matches_reference : bool :=
  let input := [0x20; 0x01; 0x0d; 0xb8; 0x13; 0x57; 0x9b; 0xdf; 0x24; 0x68; 0xac; 0xf0; 0x01; 0xbb; 0xc3; 0x50; 0x06] in
  siphash_2_4_17 COUNTING_KEY input =? siphash COUNTING_KEY input.

Definition siphash_fixed_17_matches_reference_many_inputs : bool :=
  let key := [0xf0; 0xe1; 0xd2; 0xc3; 0xb4; 0xa5; 0x96; 0x87; 0x78; 0x69; 0x5a; 0x4b; 0x3c; 0x2d; 0x1e; 0x0f] in
  forallb (fun seed =>
    let input := (fun i => wrapping_add 8 (wrapping_mul 8 seed 17) (wrapping_mul 8 i 29)) <$> seqZ 0 17 in
    siphash_2_4_17 key input =? siphash key input) (seqZ 0 32).

(** The definitions of this development pass the unit tests of the [common]
    crate: the frozen vectors of the context hash, the published PRINCE and
    SipHash-2-4 test vectors, and the encoder's examples. *)
Theorem unit_tests_pass :
  Forall (eq true)
    [vip_discriminator_matches_client_vip_layout; synthetic_ipv6_prefix_matches; xfrm_if_id_is_nonzero;
     encode_decode_roundtrip; encode_decode_roundtrip_various; different_ctx_different_enc64; same_ctx_same_enc64;
     wrong_key_decode_returns_none; tag32_tamper_returns_none; enc64_tamper_returns_none;
     client_id_over_24bit_returns_none; domain_id_over_24bit_returns_none; proxy_src_key_is_zero;
     proxy_src_prefix_distinct_from_synthetic;
     hash_ctx_zero; hash_ctx_443_50000_tcp; hash_ctx_50000_443_tcp; hash_ctx_443_50000_udp; hash_ctx_1_1_1;
     hash_ctx_distinct_outputs; m_prime_is_involution; prince_test_vector_all_zero; prince_test_vector_2;
     prince_test_vector_3; prince_roundtrip_various; prince_encrypt_decrypt_consistency;
     siphash_reference_vectors; siphash_empty_input; siphash_fixed_17_matches_reference;
     siphash_fixed_17_matches_reference_many_inputs].
Proof. repeat apply Forall_cons_2; [vm_compute; reflexivity..|apply Forall_nil_2]. Qed.

End UnitTests.
