(* ===== verification/Platform.v ===== *)
(** * What the eBPF programs rely on: packet headers, kernel helpers, BPF maps

    The header structs come from the [network-types] crate and the packet
    helpers from [aya-ebpf] and the kernel.  Neither is part of the repository, so
    they are operations of two classes, [NetworkTypes] and [BpfHelpers], and what
    the programs rely on is stated in law classes: the wire layout of the headers,
    the documented effect of the helpers, and ([BpfHelpersReliable]) that helpers
    called in range succeed.  [wire_types] and [soft_helpers] are concrete
    implementations that satisfy all the laws; the witnesses run on them. *)

From S2P Require Import Prelude Types.
Import Types.
Local Open Scope Z_scope.
Local Open Scope word_scope.

Module Platform.

(** ** Header types of the [network-types] crate *)

Inductive EtherType := EtherType_Ipv6 | EtherType_Other (n : Z).
Inductive IpProto := Tcp | Udp | Ipv6Icmp | IpProto_Other (n : Z).

#[global] Instance EtherType_eq_dec : EqDecision EtherType.
Proof. solve_decision. Defined.
#[global] Instance IpProto_eq_dec : EqDecision IpProto.
Proof. solve_decision. Defined.

Class NetworkTypes := {
  sizeof_EthHdr : nat;  EthHdr_LEN : nat;
  sizeof_Ipv6Hdr : nat; Ipv6Hdr_LEN : nat;
  sizeof_TcpHdr : nat;  sizeof_UdpHdr : nat;
  ether_type : list Z -> Result Z EtherType;
  next_hdr : list Z -> IpProto;
  src_addr : list Z -> list Z;
  dst_addr : list Z -> list Z;
  set_dst_addr : list Z -> list Z -> list Z;
  tcp_source : list Z -> list Z; tcp_dest : list Z -> list Z;
  udp_src : list Z -> list Z;    udp_dst : list Z -> list Z
}.

(** The layout of the Ethernet, IPv6, TCP and UDP headers. *)
Definition proto_of_byte (b : Z) : IpProto :=
  if b =? 6 then Tcp else if b =? 17 then Udp else if b =? 58 then Ipv6Icmp else IpProto_Other b.

Class NetworkTypesLaws `{NetworkTypes} : Prop := {
  eth_size : sizeof_EthHdr = 14%nat /\ EthHdr_LEN = 14%nat;
  ip6_size : sizeof_Ipv6Hdr = 40%nat /\ Ipv6Hdr_LEN = 40%nat;
  l4_size : sizeof_TcpHdr = 20%nat /\ sizeof_UdpHdr = 8%nat;
  ether_type_ipv6 : forall h, ether_type h = Ok EtherType_Ipv6 <-> from_be_bytes (take 2 (drop 12 h)) = 0x86dd;
  next_hdr_byte : forall h, next_hdr h = proto_of_byte (nth 6 h 0);
  src_addr_slice : forall h, src_addr h = take 16 (drop 8 h);
  dst_addr_slice : forall h, dst_addr h = take 16 (drop 24 h);
  set_dst_addr_slice : forall h a, length h = 40%nat -> length a = 16%nat ->
    set_dst_addr h a = take 24 h ++ a;
  tcp_ports : forall h, tcp_source h = take 2 h /\ tcp_dest h = take 2 (drop 2 h);
  udp_ports : forall h, udp_src h = take 2 h /\ udp_dst h = take 2 (drop 2 h)
}.

(** ** Packets *)

(** A packet buffer; the programs' [data .. data_end] is its linear part, of
    [skb_headlen] bytes.  The checksum word of a buffer holds the complement of
    the checksummed sum (the kernel's CHECKSUM_NONE, UNNECESSARY and COMPLETE
    states); buffers whose checksum is left to the device are not covered. *)
Record TcContext := mkTc { skb_data : list Z; skb_headlen : nat }.

Definition tc_wf (c : TcContext) : Prop :=
  Forall (uN 8) (skb_data c) /\ (skb_headlen c <= length (skb_data c))%nat.

(** ** One's-complement sums *)

(** The sum of the 16-bit little-endian words of a buffer, an odd tail padded
    with zero: the quantity the kernel's checksum helpers maintain modulo 65535. *)
Fixpoint sum16 (l : list Z) : Z :=
  match l with
  | a :: b :: l => a + 256 * b + sum16 l
  | [a] => a
  | [] => 0
  end.

Definition le16 (l : list Z) (off : nat) : Z := nth off l 0 + 256 * nth (S off) l 0.
Definition write16 (l : list Z) (off : nat) (v : Z) : list Z :=
  <[off := v mod 256]> (<[S off := v / 256]> l).

(** ** Kernel helpers *)

Definition BPF_F_PSEUDO_HDR : Z := Z.shiftl 1 4.
Definition BPF_F_MARK_MANGLED_0 : Z := Z.shiftl 1 5.

Class BpfHelpers := {
  skb_load_byte : TcContext -> nat -> option Z;
  skb_store_byte : TcContext -> nat -> Z -> option TcContext;
  bpf_csum_diff : list Z -> list Z -> Z -> Z;
  l4_csum_replace : TcContext -> nat -> Z -> Z -> Z -> option TcContext;
  bpf_redirect : Z -> Z -> Z;
  (** [HashMap::insert] on a map of the given capacity; [None] is an error code. *)
  reply_track_insert : nat -> gmap ReplyTrackKey ReplyTrackValue ->
    ReplyTrackKey -> ReplyTrackValue -> option (gmap ReplyTrackKey ReplyTrackValue)
}.

Class BpfHelpersLaws `{BpfHelpers} : Prop := {
  load_byte_Some : forall c i b, skb_load_byte c i = Some b -> skb_data c !! i = Some b;
  store_byte_Some : forall c i b c', (skb_headlen c <= length (skb_data c))%nat ->
    skb_store_byte c i b = Some c' ->
    (i < length (skb_data c))%nat /\ skb_data c' = <[i := b]> (skb_data c) /\
    (skb_headlen c <= skb_headlen c' <= length (skb_data c'))%nat;
  csum_diff_sum : forall old new, bytes 16 old -> bytes 16 new ->
    uN 32 (bpf_csum_diff old new 0) /\
    (bpf_csum_diff old new 0) mod 65535 = (sum16 new - sum16 old) mod 65535;
  csum_replace_Some : forall c off to flags c', (skb_headlen c <= length (skb_data c))%nat ->
    flags = BPF_F_PSEUDO_HDR \/ to = 0 /\ flags = Z.lor BPF_F_PSEUDO_HDR BPF_F_MARK_MANGLED_0 ->
    uN 32 to -> l4_csum_replace c off 0 to flags = Some c' ->
    (off + 2 <= length (skb_data c))%nat /\
    (skb_headlen c <= skb_headlen c' <= length (skb_data c'))%nat /\
    exists v, uN 16 v /\ skb_data c' = write16 (skb_data c) off v /\
      v mod 65535 = (le16 (skb_data c) off - to) mod 65535;
  redirect_action : forall i, bpf_redirect i 0 = 7 \/ bpf_redirect i 0 = 2;
  reply_track_insert_Some : forall n m k v m',
    reply_track_insert n m k v = Some m' -> m' = <[k := v]> m;
  reply_track_insert_full : forall n m k v,
    m !! k = None -> (n <= size m)%nat -> reply_track_insert n m k v = None
}.

(** Packet offsets the kernel accepts ([INT_MAX]), and those of a checksum word,
    which must also be even and at most 0xffff. *)
Definition offset_ok (i : nat) : Prop := Z.of_nat i <= 2147483647.
Definition csum_offset_ok (i : nat) : Prop := Nat.even i = true /\ Z.of_nat i <= 65535.

(** Helpers called within the packet succeed, and maps accept entries until full. *)
Class BpfHelpersReliable `{BpfHelpers} : Prop := {
  load_byte_total : forall c i, offset_ok i -> (i < length (skb_data c))%nat ->
    is_Some (skb_load_byte c i);
  store_byte_total : forall c i b, offset_ok i -> (i < length (skb_data c))%nat ->
    is_Some (skb_store_byte c i b);
  csum_replace_total : forall c off to flags, csum_offset_ok off ->
    (off + 2 <= length (skb_data c))%nat -> is_Some (l4_csum_replace c off 0 to flags);
  redirect_total : forall i, bpf_redirect i 0 = 7;
  reply_track_insert_total : forall n m k v,
    (size m < n)%nat -> is_Some (reply_track_insert n m k v)
}.

(** ** Concrete implementations *)

#[global] Instance wire_types : NetworkTypes := {
  sizeof_EthHdr := 14; EthHdr_LEN := 14; sizeof_Ipv6Hdr := 40; Ipv6Hdr_LEN := 40;
  sizeof_TcpHdr := 20; sizeof_UdpHdr := 8;
  ether_type h := let n := from_be_bytes (take 2 (drop 12 h)) in
                  if n =? 0x86dd then Ok EtherType_Ipv6 else Err n;
  next_hdr h := proto_of_byte (nth 6 h 0);
  src_addr h := take 16 (drop 8 h);
  dst_addr h := take 16 (drop 24 h);
  set_dst_addr h a := take 24 h ++ a;
  tcp_source h := take 2 h; tcp_dest h := take 2 (drop 2 h);
  udp_src h := take 2 h;    udp_dst h := take 2 (drop 2 h)
}.

#[global] Instance soft_helpers : BpfHelpers := {
  skb_load_byte c i := skb_data c !! i;
  skb_store_byte c i b :=
    if (i <? length (skb_data c))%nat
    then Some (mkTc (<[i := b]> (skb_data c)) (skb_headlen c)) else None;
  bpf_csum_diff old new seed := (seed + sum16 new - sum16 old) mod 65535;
  l4_csum_replace c off from to flags :=
    if (off + 2 <=? length (skb_data c))%nat
    then Some (mkTc (write16 (skb_data c) off ((le16 (skb_data c) off - to) mod 65535))
                    (skb_headlen c)) else None;
  bpf_redirect _ _ := 7;
  reply_track_insert n m k v :=
    if decide (is_Some (m !! k)) then Some (<[k := v]> m)
    else if (size m <? n)%nat then Some (<[k := v]> m) else None
}.

#[global] Instance wire_types_laws : NetworkTypesLaws.
Proof.
  split; try (intros; split; reflexivity); try (intros; reflexivity).
  intros h. simpl. destruct (Z.eqb_spec (from_be_bytes (take 2 (drop 12 h))) 0x86dd); split; done.
Qed.

Lemma length_write16 l off v : length (write16 l off v) = length l.
Proof. unfold write16. by rewrite !length_insert. Qed.

#[global] Instance soft_helpers_laws : BpfHelpersLaws.
Proof.
  split; simpl.
  - done.
  - intros c i b c' Hh H. case_match eqn:E; [|done]. injection H as <-. simpl.
    rewrite length_insert. apply Nat.ltb_lt in E. split_and!; done.
  - intros old new _ _. rewrite Zmod_mod. split; [|done].
    apply (uN_weaken 16); [lia|]. pose proof (Z.mod_pos_bound (0 + sum16 new - sum16 old) 65535).
    unfold uN. lia.
  - intros c off to flags c' Hh _ _ H. case_match eqn:E; [|done]. injection H as <-. simpl.
    rewrite length_write16. apply Nat.leb_le in E. split_and!; [done..|].
    eexists. split_and!; [|done|by rewrite Zmod_mod].
    pose proof (Z.mod_pos_bound (le16 (skb_data c) off - to) 65535). unfold uN. lia.
  - by left.
  - intros. by repeat case_match; simplify_eq.
  - intros n m k v Hk Hn. rewrite decide_False by (rewrite Hk; by intros []).
    by rewrite (proj2 (Nat.ltb_ge _ _)).
Qed.

#[global] Instance soft_helpers_reliable : BpfHelpersReliable.
Proof.
  split; simpl.
  - intros c i _ H. by apply lookup_lt_is_Some.
  - intros c i b _ H. by rewrite (proj2 (Nat.ltb_lt _ _) H).
  - intros c off to flags _ H. by rewrite (proj2 (Nat.leb_le _ _) H).
  - done.
  - intros n m k v H. by case_decide; rewrite ?(proj2 (Nat.ltb_lt _ _) H).
Qed.

End Platform.
