(* ===== verification/Ebpf.v ===== *)
(** * The eBPF data plane: [ebpf/src/main.rs]

    The three programs [xdp_wan], [tc_ingress] and [tc_ingress_wan] with their
    helpers, as state-and-error computations over the BPF maps and the packet.
    Every early return, every [?] and every map access of the source is present;
    a packet rewritten half-way when a helper fails stays half-rewritten.  The
    build-time feature [dev-mode] is the boolean [dev_mode]. *)

From S2P Require Import Prelude Contract Types ProxySrc Platform.
Import Contract Types ProxySrc Platform.
Local Open Scope Z_scope.

Module Ebpf.

(** ** Verdicts *)

Definition TC_ACT_OK : Z := 0.
Definition TC_ACT_SHOT : Z := 2.
Definition TC_ACT_REDIRECT : Z := 7.
Definition XDP_DROP : Z := 1.
Definition XDP_PASS : Z := 2.

(** ** State *)

(** The BPF maps; an array map is the list of its slots. *)
Record BpfMaps := mkMaps {
  NAT_MAP : gmap Z NatEntry;
  XFRM_IFINDEX : list Z;
  OBFS_KEYS : list ProxySrcKey;
  DEV_WAN_IPV6 : list (list Z);
  REPLY_TRACK : gmap ReplyTrackKey ReplyTrackValue;
  DBG_COUNTERS : list Z
}.

(** The capacity declared for [REPLY_TRACK] (and [NAT_MAP]). *)
Definition MAX_ENTRIES : nat := Z.to_nat 65536.

Definition set_reply_track (f : gmap ReplyTrackKey ReplyTrackValue) (m : BpfMaps) : BpfMaps :=
  mkMaps (NAT_MAP m) (XFRM_IFINDEX m) (OBFS_KEYS m) (DEV_WAN_IPV6 m) f (DBG_COUNTERS m).
Definition set_dbg_counters (d : list Z) (m : BpfMaps) : BpfMaps :=
  mkMaps (NAT_MAP m) (XFRM_IFINDEX m) (OBFS_KEYS m) (DEV_WAN_IPV6 m) (REPLY_TRACK m) d.

(** What a TC program acts on: the maps, the packet, and the redirect target the
    kernel remembers from the last [bpf_redirect] (interface index and flags). *)
Record TcWorld := mkTcWorld {
  tc_maps : BpfMaps;
  tc_ctx : TcContext;
  tc_redirect : option (Z * Z)
}.

(** What an XDP program acts on: the maps and the packet bytes. *)
Record XdpWorld := mkXdpWorld { xdp_maps : BpfMaps; xdp_data : list Z }.

(** [EUnit] is the [()] of [Result<_, ()>]; [Undefined] marks
    [unreachable_unchecked], which must never be reached. *)
Inductive BpfErr := EUnit | Undefined.

Definition Prog (S A : Type) : Type := S -> Result BpfErr A * S.

#[global] Instance Prog_ret {S} : MRet (Prog S) := fun A a s => (Ok a, s).
#[global] Instance Prog_bind {S} : MBind (Prog S) := fun A B k p s =>
  match p s with
  | (Ok a, s') => k a s'
  | (Err e, s') => (Err e, s')
  end.

Definition fail {S A} (e : BpfErr) : Prog S A := fun s => (Err e, s).
Definition gets {S A} (f : S -> A) : Prog S A := fun s => (Ok (f s), s).
Definition modify {S} (f : S -> S) : Prog S unit := fun s => (Ok tt, f s).

Definition set_tc_ctx (c : TcContext) (w : TcWorld) : TcWorld :=
  mkTcWorld (tc_maps w) c (tc_redirect w).

(** A helper that may replace the packet; an error code becomes [Err(())]. *)
Definition on_ctx (f : TcContext -> option TcContext) : Prog TcWorld unit := fun w =>
  match f (tc_ctx w) with
  | Some c => (Ok tt, set_tc_ctx c w)
  | None => (Err EUnit, w)
  end.

Section programs.
Context `{NetworkTypes, BpfHelpers}.
Context (dev_mode : bool).

(** ** Helpers *)

Definition dbg_inc (idx : nat) : Prog XdpWorld unit := fun w =>
  let m := xdp_maps w in
  match DBG_COUNTERS m !! idx with
  | Some v => (Ok tt, mkXdpWorld (set_dbg_counters (<[idx := wrapping_add 64 v 1]> (DBG_COUNTERS m)) m)
                                 (xdp_data w))
  | None => (Ok tt, w)
  end.

(** [#[cfg(feature = "dev-mode")] dbg_inc(idx)] *)
Definition dev_dbg_inc (idx : nat) : Prog XdpWorld unit :=
  if dev_mode then dbg_inc idx else mret tt.

(** [ptr_at]: the [size] bytes behind the pointer, or [Err(())]. *)
Definition ptr_at (offset size : nat) : Prog TcWorld (list Z) := fun w =>
  if (skb_headlen (tc_ctx w) <? offset + size)%nat then (Err EUnit, w)
  else (Ok (take size (drop offset (skb_data (tc_ctx w)))), w).

Definition ptr_at_xdp (offset size : nat) : Prog XdpWorld (list Z) := fun w =>
  if (length (xdp_data w) <? offset + size)%nat then (Err EUnit, w)
  else (Ok (take size (drop offset (xdp_data w))), w).

Definition update_addr_csum (csum_offset : nat) (old_addr new_addr : list Z) : Prog TcWorld unit :=
  let diff := bpf_csum_diff old_addr new_addr 0 in
  on_ctx (fun c => l4_csum_replace c csum_offset 0 (as_u 64 diff) BPF_F_PSEUDO_HDR).

Definition load_byte (off : nat) : Prog TcWorld Z := fun w =>
  match skb_load_byte (tc_ctx w) off with
  | Some b => (Ok b, w)
  | None => (Err EUnit, w)
  end.

Definition ipv6_offset : Prog TcWorld nat :=
  first_byte ← load_byte 0;
  if Z.shiftr first_byte 4 =? 6 then mret 0%nat
  else
    ethhdr ← ptr_at 0 sizeof_EthHdr;
    match ether_type ethhdr with
    | Ok EtherType_Ipv6 => mret EthHdr_LEN
    | _ => fail EUnit
    end.

Definition extract_l4_ports (l4_base : nat) (proto : IpProto) : Prog TcWorld (Z * Z) :=
  match proto with
  | Tcp =>
      tcp ← ptr_at l4_base sizeof_TcpHdr;
      mret (from_be_bytes (tcp_source tcp), from_be_bytes (tcp_dest tcp))
  | Udp =>
      udp ← ptr_at l4_base sizeof_UdpHdr;
      mret (from_be_bytes (udp_src udp), from_be_bytes (udp_dst udp))
  | _ => fail Undefined
  end.

Definition extract_l4_ports_xdp (l4_base : nat) (proto : IpProto) : Prog XdpWorld (Z * Z) :=
  match proto with
  | Tcp =>
      tcp ← ptr_at_xdp l4_base sizeof_TcpHdr;
      mret (from_be_bytes (tcp_source tcp), from_be_bytes (tcp_dest tcp))
  | Udp =>
      udp ← ptr_at_xdp l4_base sizeof_UdpHdr;
      mret (from_be_bytes (udp_src udp), from_be_bytes (udp_dst udp))
  | _ => fail EUnit
  end.

(** [for (i, byte) in addr.iter().enumerate() { ctx.store(off + i, byte, 0)?; }] *)
Fixpoint store_bytes (off : nat) (addr : list Z) : Prog TcWorld unit :=
  match addr with
  | [] => mret tt
  | b :: addr =>
      on_ctx (fun c => skb_store_byte c off b);;
      store_bytes (S off) addr
  end.

(** The first four bytes of [addr] equal the four of [prefix], compared in order. *)
Definition has_prefix (addr prefix : list Z) : bool :=
  (nth 0 addr 0 =? nth 0 prefix 0) && (nth 1 addr 0 =? nth 1 prefix 0)
  && (nth 2 addr 0 =? nth 2 prefix 0) && (nth 3 addr 0 =? nth 3 prefix 0).

(** [u16::to_be] on the little-endian BPF target: the two bytes swapped. *)
Definition to_be16 (p : Z) : Z := 256 * (p mod 256) + p / 256.

Definition proto_num_of (p : IpProto) : Z := match p with Tcp => 6 | _ => 17 end.
Definition csum_offset_of (p : IpProto) (l4_base : nat) : nat :=
  match p with Tcp => l4_base + 16 | _ => l4_base + 6 end%nat.

Definition ZERO_ADDR : list Z := replicate 16 0.

(** ** [xdp_wan] *)

Definition set_xdp_data (d : list Z) (w : XdpWorld) : XdpWorld := mkXdpWorld (xdp_maps w) d.

(** The assignment of [dst_addr] through the mutable header pointer. *)
Definition write_dst_addr (a : list Z) : Prog XdpWorld unit := modify (fun w =>
  let d := xdp_data w in
  set_xdp_data (take EthHdr_LEN d
                ++ set_dst_addr (take sizeof_Ipv6Hdr (drop EthHdr_LEN d)) a
                ++ drop (EthHdr_LEN + sizeof_Ipv6Hdr) d) w).

(** The [dst == WAN] part of the dev-mode block: a reply to a tracked connection. *)
Definition xdp_dev_reply (ipv6hdr : list Z) : Prog XdpWorld Z :=
  let nexthdr := next_hdr ipv6hdr in
  match nexthdr with
  | Tcp | Udp =>
      let proto := proto_num_of nexthdr in
      let l4_base := (EthHdr_LEN + Ipv6Hdr_LEN)%nat in
      fun w => match extract_l4_ports_xdp l4_base nexthdr w with
      | (Err EUnit, w) => (Ok XDP_PASS, w)
      | (Err Undefined, w) => (Err Undefined, w)
      | (Ok (src_port, dst_port), w) =>
          let track_key := mkReplyTrackKey (src_addr ipv6hdr) (to_be16 src_port) (to_be16 dst_port)
                                           proto [0; 0; 0] in
          (match REPLY_TRACK (xdp_maps w) !! track_key with
           | Some track_val =>
               dbg_inc 3;;
               write_dst_addr (proxy_src track_val);;
               mret XDP_PASS
           | None => dbg_inc 4;; mret XDP_PASS
           end) w
      end
  | _ => mret XDP_PASS
  end.

(** The end of [try_xdp_wan]: count and drop. *)
Definition xdp_drop : Prog XdpWorld Z := dev_dbg_inc 5;; mret XDP_DROP.

Definition try_xdp_wan : Prog XdpWorld Z :=
  ethhdr ← ptr_at_xdp 0 sizeof_EthHdr;
  match ether_type ethhdr with
  | Ok EtherType_Ipv6 =>
      ipv6hdr ← ptr_at_xdp EthHdr_LEN sizeof_Ipv6Hdr;
      if decide (next_hdr ipv6hdr = Ipv6Icmp) then mret XDP_PASS
      else
        let dst_ipv6 := dst_addr ipv6hdr in
        dev_dbg_inc 0;;
        if has_prefix dst_ipv6 PROXY_SRC_PREFIX then
          dev_dbg_inc 1;;
          mret XDP_PASS
        else if dev_mode then
          dev_wan ← gets (fun w => DEV_WAN_IPV6 (xdp_maps w) !! 0%nat);
          match dev_wan with
          | Some wan =>
              if bool_decide (wan <> ZERO_ADDR) && bool_decide (dst_ipv6 = wan) then
                dbg_inc 2;;
                xdp_dev_reply ipv6hdr
              else dbg_inc 6;; xdp_drop
          | None => dbg_inc 7;; xdp_drop
          end
        else xdp_drop
  | _ => mret XDP_PASS
  end.

Definition xdp_wan : Prog XdpWorld Z := fun w =>
  match try_xdp_wan w with
  | (Ok action, w) => (Ok action, w)
  | (Err EUnit, w) => (Ok XDP_PASS, w)
  | (Err Undefined, w) => (Err Undefined, w)
  end.

(** ** [tc_ingress] *)

(** The source address of the outgoing packet: the proxy-source address, or in
    dev mode the WAN address, with the connection recorded in [REPLY_TRACK]. *)
Definition choose_final_src (origin : list Z) (src_port dst_port proto_num : Z) (proxy : list Z)
    : Prog TcWorld (list Z) :=
  if dev_mode then
    dev_wan ← gets (fun w => DEV_WAN_IPV6 (tc_maps w) !! 0%nat);
    match dev_wan with
    | Some wan =>
        if bool_decide (wan <> ZERO_ADDR) then
          let track_key := mkReplyTrackKey origin (to_be16 dst_port) (to_be16 src_port)
                                           proto_num [0; 0; 0] in
          let track_val := mkReplyTrackValue proxy in
          modify (fun w =>
            match reply_track_insert MAX_ENTRIES (REPLY_TRACK (tc_maps w)) track_key track_val with
            | Some t => mkTcWorld (set_reply_track t (tc_maps w)) (tc_ctx w) (tc_redirect w)
            | None => w
            end);;
          mret wan
        else mret proxy
    | None => mret proxy
    end
  else mret proxy.

Definition try_tc_ingress : Prog TcWorld Z :=
  ip_off ← ipv6_offset;
  ipv6hdr ← ptr_at ip_off sizeof_Ipv6Hdr;
  let nexthdr := next_hdr ipv6hdr in
  match nexthdr with
  | Tcp | Udp =>
      let dst_ipv6 := dst_addr ipv6hdr in
      if negb (has_prefix dst_ipv6 SYNTHETIC_PREFIX) then mret TC_ACT_OK
      else
        let domain_id := from_be_bytes [nth 4 dst_ipv6 0; nth 5 dst_ipv6 0;
                                        nth 6 dst_ipv6 0; nth 7 dst_ipv6 0] in
        nat_entry ← gets (fun w => NAT_MAP (tc_maps w) !! domain_id);
        match nat_entry with
        | None => mret TC_ACT_SHOT
        | Some nat_entry =>
            let orig_src := src_addr ipv6hdr in
            let client_id := from_be_bytes [nth 12 orig_src 0; nth 13 orig_src 0;
                                            nth 14 orig_src 0; nth 15 orig_src 0] in
            let l4_base := (ip_off + Ipv6Hdr_LEN)%nat in
            '(src_port, dst_port) ← extract_l4_ports l4_base nexthdr;
            key ← gets (fun w => OBFS_KEYS (tc_maps w) !! 0%nat);
            match key with
            | Some key =>
                if is_zero key then mret TC_ACT_SHOT
                else
                  let proto_num := proto_num_of nexthdr in
                  let flow_ctx := ProxySrcCtx_new src_port dst_port proto_num in
                  match encode_proxy_src client_id domain_id flow_ctx key with
                  | None => mret TC_ACT_SHOT
                  | Some proxy =>
                      let ipv6_src_offset := (ip_off + 8)%nat in
                      let ipv6_dst_offset := (ip_off + 24)%nat in
                      let csum_offset := csum_offset_of nexthdr l4_base in
                      store_bytes ipv6_dst_offset (origin_ipv6 nat_entry);;
                      final_src ← choose_final_src (origin_ipv6 nat_entry)
                                    src_port dst_port proto_num proxy;
                      store_bytes ipv6_src_offset final_src;;
                      update_addr_csum csum_offset orig_src final_src;;
                      update_addr_csum csum_offset dst_ipv6 (origin_ipv6 nat_entry);;
                      mret TC_ACT_OK
                  end
            | None => mret TC_ACT_SHOT
            end
        end
  | _ => mret TC_ACT_OK
  end.

Definition tc_ingress : Prog TcWorld Z := fun w =>
  match try_tc_ingress w with
  | (Ok action, w) => (Ok action, w)
  | (Err EUnit, w) => (Ok TC_ACT_OK, w)
  | (Err Undefined, w) => (Err Undefined, w)
  end.

(** ** [tc_ingress_wan] *)

Definition try_decode_with_active_key (keys : list ProxySrcKey) (addr : list Z)
    (flow_ctx : ProxySrcCtx) : option (Z * Z) :=
  match keys !! 0%nat with
  | Some key0 =>
      if negb (is_zero key0) then
        match decode_proxy_src addr flow_ctx key0 with
        | Some ids => Some ids
        | None => None
        end
      else None
  | None => None
  end.

(** The dev-mode block that adds the WAN to proxy-source checksum delta. *)
Definition dev_csum_fixup (csum_offset : nat) (dst_ipv6 : list Z) : Prog TcWorld unit :=
  if dev_mode then
    dev_wan ← gets (fun w => DEV_WAN_IPV6 (tc_maps w) !! 0%nat);
    match dev_wan with
    | Some wan =>
        if bool_decide (wan <> ZERO_ADDR) then update_addr_csum csum_offset wan dst_ipv6
        else mret tt
    | None => mret tt
    end
  else mret tt.

(** [bpf_redirect(ifindex, flags)]: remembers the target, returns the verdict. *)
Definition redirect (ifindex flags : Z) : Prog TcWorld Z := fun w =>
  (Ok (as_i 32 (bpf_redirect ifindex flags)),
   mkTcWorld (tc_maps w) (tc_ctx w) (Some (ifindex, flags))).

Definition try_tc_ingress_wan : Prog TcWorld Z :=
  ip_off ← ipv6_offset;
  ipv6hdr ← ptr_at ip_off sizeof_Ipv6Hdr;
  let nexthdr := next_hdr ipv6hdr in
  match nexthdr with
  | Tcp | Udp =>
      let dst_ipv6 := dst_addr ipv6hdr in
      if negb (has_prefix dst_ipv6 PROXY_SRC_PREFIX) then mret TC_ACT_OK
      else
        let l4_base := (ip_off + Ipv6Hdr_LEN)%nat in
        '(reply_src_port, reply_dst_port) ← extract_l4_ports l4_base nexthdr;
        let proto_num := proto_num_of nexthdr in
        let flow_ctx := ProxySrcCtx_new reply_dst_port reply_src_port proto_num in
        decoded ← gets (fun w => try_decode_with_active_key (OBFS_KEYS (tc_maps w)) dst_ipv6 flow_ctx);
        match decoded with
        | None => mret TC_ACT_SHOT
        | Some (client_id, domain_id) =>
            let client_ipv6 := client_vip_from_id24 client_id in
            let src_ipv6 := src_addr ipv6hdr in
            nat_entry ← gets (fun w => NAT_MAP (tc_maps w) !! domain_id);
            match nat_entry with
            | None => mret TC_ACT_SHOT
            | Some nat_entry =>
                if bool_decide (src_ipv6 <> origin_ipv6 nat_entry) then mret TC_ACT_SHOT
                else
                  let synthetic := synthetic_ipv6 domain_id in
                  let ipv6_src_offset := (ip_off + 8)%nat in
                  let ipv6_dst_offset := (ip_off + 24)%nat in
                  let csum_offset := csum_offset_of nexthdr l4_base in
                  store_bytes ipv6_src_offset synthetic;;
                  store_bytes ipv6_dst_offset client_ipv6;;
                  update_addr_csum csum_offset src_ipv6 synthetic;;
                  update_addr_csum csum_offset dst_ipv6 client_ipv6;;
                  dev_csum_fixup csum_offset dst_ipv6;;
                  on_ctx (fun c => l4_csum_replace c csum_offset 0 0
                                     (Z.lor BPF_F_PSEUDO_HDR BPF_F_MARK_MANGLED_0));;
                  xfrm_ifindex ← gets (fun w => XFRM_IFINDEX (tc_maps w) !! 0%nat);
                  match xfrm_ifindex with
                  | Some idx => if idx =? 0 then mret TC_ACT_SHOT else redirect idx 0
                  | None => mret TC_ACT_SHOT
                  end
            end
        end
  | _ => mret TC_ACT_OK
  end.

Definition tc_ingress_wan : Prog TcWorld Z := fun w =>
  match try_tc_ingress_wan w with
  | (Ok action, w) => (Ok action, w)
  | (Err EUnit, w) => (Ok TC_ACT_OK, w)
  | (Err Undefined, w) => (Err Undefined, w)
  end.

End programs.

End Ebpf.
