(* ===== verification/PacketLemmas.v ===== *)
(** * Packets: splicing addresses, one's-complement sums and helper runs

    Shared facts for the eBPF programs: how byte stores and checksum updates act
    on the packet, and how the sum covered by the L4 checksum changes. *)

From S2P Require Import Prelude Contract Types ProxySrc Platform Ebpf.
Import Contract Types ProxySrc Platform Ebpf.
Local Open Scope Z_scope.

Module PacketLemmas.

(** ** Splicing *)

(** [l] with [length s] bytes from offset [off] on replaced by [s]. *)
Definition splice (off : nat) (s l : list Z) : list Z := take off l ++ s ++ drop (off + length s) l.

Lemma length_splice off s l : (off + length s <= length l)%nat -> length (splice off s l) = length l.
Proof. intros. unfold splice. rewrite !length_app, length_take, length_drop. lia. Qed.

Lemma splice_nil off l : splice off [] l = l.
Proof. unfold splice. simpl. rewrite Nat.add_0_r. apply take_drop. Qed.

Lemma splice_cons off b s l :
  (off < length l)%nat -> splice (S off) s (<[off := b]> l) = splice off (b :: s) l.
Proof.
  intros H. unfold splice. simpl length.
  rewrite (take_S_r _ _ b) by by rewrite list_lookup_insert_eq.
  rewrite take_insert_ge, drop_insert_lt by lia. rewrite <- app_assoc. simpl.
  by replace (off + S (length s))%nat with (S (off + length s)) by lia.
Qed.

Lemma splice_app off s t l :
  (off + length s <= length l)%nat ->
  splice off s (splice (off + length s) t l) = splice off (s ++ t) l.
Proof.
  intros H. unfold splice. rewrite length_app.
  rewrite take_app_le by (rewrite length_take; lia).
  rewrite take_take, Nat.min_l by lia.
  rewrite drop_app_length' by (rewrite length_take; lia).
  by rewrite <- app_assoc, Nat.add_assoc.
Qed.

Lemma splice_bytes off s l : Forall (uN 8) s -> Forall (uN 8) l -> Forall (uN 8) (splice off s l).
Proof. intros. unfold splice. repeat apply Forall_app_2; auto using Forall_take, Forall_drop. Qed.

Lemma nth_splice_lt off s l i : (i < off)%nat -> (off <= length l)%nat -> nth i (splice off s l) 0 = nth i l 0.
Proof.
  intros. unfold splice. rewrite app_nth1 by (rewrite length_take; lia).
  rewrite <- (take_drop off l) at 2. by rewrite app_nth1 by (rewrite length_take; lia).
Qed.

Lemma drop_splice_ge off s l n :
  (off + length s <= n)%nat -> (off + length s <= length l)%nat -> drop n (splice off s l) = drop n l.
Proof.
  intros. unfold splice. rewrite app_assoc, drop_app_ge.
  - rewrite drop_drop. f_equal. rewrite length_app, length_take. lia.
  - rewrite length_app, length_take. lia.
Qed.

Lemma slice_splice off s l n :
  n = length s -> (off + length s <= length l)%nat -> take n (drop off (splice off s l)) = s.
Proof.
  intros -> H. unfold splice. rewrite drop_app_length' by (rewrite length_take; lia).
  by rewrite take_app_length.
Qed.

(** A field of a header that starts at [o]. *)
Lemma slice_slice (d : list Z) o k m n :
  (m + n <= k)%nat -> take n (drop m (take k (drop o d))) = take n (drop (o + m) d).
Proof.
  intros. rewrite (take_drop_commute (take k (drop o d))), take_take, Nat.min_l by lia.
  by rewrite <- take_drop_commute, drop_drop.
Qed.

(** ** One's-complement sums *)

Lemma sum16_app l l' : Nat.even (length l) = true -> sum16 (l ++ l') = sum16 l + sum16 l'.
Proof.
  assert (forall n l, (length l <= n)%nat -> Nat.even (length l) = true ->
            sum16 (l ++ l') = sum16 l + sum16 l') as Hn; [|by apply (Hn (length l))].
  induction n as [|n IH]; intros k Hk He.
  - destruct k; [done|simpl in Hk; lia].
  - destruct k as [|a [|b k]]; [done|done|]. simpl in *. rewrite IH; [lia|lia|done].
Qed.

Lemma take_S_drop (l : list Z) k :
  (S k < length l)%nat -> drop k l = nth k l 0 :: nth (S k) l 0 :: drop (S (S k)) l.
Proof.
  revert k. induction l as [|a l IH]; intros k Hk; simpl in Hk; [lia|].
  destruct k as [|k]; simpl.
  - destruct l; simpl in *; [lia|]. by rewrite drop_0.
  - rewrite IH by lia. done.
Qed.

Lemma write16_app l k v :
  (S k < length l)%nat -> write16 l k v = take k l ++ v mod 256 :: v / 256 :: drop (S (S k)) l.
Proof.
  intros H. unfold write16. rewrite <- (take_drop k l) at 1.
  rewrite take_S_drop by done.
  rewrite insert_app_r_alt by (rewrite length_take; lia).
  rewrite insert_app_r_alt by (rewrite length_take; lia).
  rewrite length_take, Nat.min_l by lia.
  replace (S k - k)%nat with 1%nat by lia. replace (k - k)%nat with 0%nat by lia. reflexivity.
Qed.

(** Replacing an aligned word replaces its contribution to the sum. *)
Lemma sum16_write16 l k v :
  Nat.even k = true -> (S k < length l)%nat -> sum16 (write16 l k v) = sum16 l - le16 l k + v.
Proof.
  intros He Hk. rewrite write16_app by done.
  assert (Nat.even (length (take k l)) = true) as Hev by (rewrite length_take, Nat.min_l by lia; done).
  rewrite sum16_app by done.
  rewrite <- (take_drop k l) at 3. rewrite sum16_app by done.
  rewrite (take_S_drop l k) by done. simpl. unfold le16.
  rewrite (Z.div_mod v 256) at 3 by lia. lia.
Qed.

Lemma le16_write16 l k v : uN 16 v -> (S k < length l)%nat -> le16 (write16 l k v) k = v.
Proof.
  intros Hv Hk. rewrite write16_app by done. unfold le16.
  rewrite !app_nth2 by (rewrite length_take; lia). rewrite length_take, Nat.min_l by lia.
  replace (S k - k)%nat with 1%nat by lia. replace (k - k)%nat with 0%nat by lia. simpl.
  rewrite (Z.div_mod v 256) at 3 by lia. lia.
Qed.

Lemma write16_write16 l k v v' : (S k < length l)%nat -> write16 (write16 l k v) k v' = write16 l k v'.
Proof.
  intros H. rewrite (write16_app (write16 l k v)) by by rewrite length_write16.
  rewrite (write16_app l k v) by done. rewrite take_app_le by (rewrite length_take; lia).
  rewrite take_take, Nat.min_id, drop_app_ge by (rewrite length_take; lia).
  rewrite length_take, Nat.min_l by lia. replace (S (S k) - k)%nat with 2%nat by lia.
  by rewrite write16_app.
Qed.

Lemma write16_bytes l k v : uN 16 v -> Forall (uN 8) l -> Forall (uN 8) (write16 l k v).
Proof.
  intros [H0 H1] Hl. unfold write16. apply Forall_insert; [apply Forall_insert; [done|]|].
  - split; [apply Z.div_pos; lia|]. apply Z.div_lt_upper_bound; [lia|]. done.
  - by apply uN_wrap.
Qed.

Lemma drop_write16 l n k v :
  (S (n + k) < length l)%nat -> drop n (write16 l (n + k) v) = write16 (drop n l) k v.
Proof.
  intros H. rewrite !write16_app by (rewrite ?length_drop; lia).
  rewrite drop_app_le by (rewrite length_take; lia).
  rewrite drop_drop, <- take_drop_commute. do 4 f_equal. lia.
Qed.

Lemma take_write16 l n k v : (n <= k)%nat -> take n (write16 l k v) = take n l.
Proof. intros. unfold write16. by rewrite !take_insert_ge by lia. Qed.

Lemma nth_write16_lt l k v i : (i < k)%nat -> nth i (write16 l k v) 0 = nth i l 0.
Proof.
  intros. rewrite <- (take_drop k l) at 2. rewrite <- (take_drop k (write16 l k v)).
  destruct (Nat.lt_ge_cases i (length l)) as [Hl|Hl].
  - rewrite !app_nth1 by (rewrite length_take, ?length_write16; lia). by rewrite take_write16.
  - rewrite !take_drop, !nth_overflow by (rewrite ?length_write16; lia). done.
Qed.

Lemma uN_le16 l k : Forall (uN 8) l -> uN 16 (le16 l k).
Proof.
  intros H. assert (forall i, uN 8 (nth i l 0)) as Hn.
  { intros i. destruct (nth_in_or_default i l 0) as [Hi| ->]; [|done].
    by apply (proj1 (List.Forall_forall _ _) H). }
  unfold le16. destruct (Hn k), (Hn (S k)). split; lia.
Qed.

Lemma write16_same l k : Forall (uN 8) l -> (S k < length l)%nat -> write16 l k (le16 l k) = l.
Proof.
  intros H Hk. rewrite write16_app by done. unfold le16.
  assert (uN 8 (nth k l 0)) as [? ?].
  { apply (proj1 (List.Forall_forall _ _) H), nth_In. lia. }
  rewrite (Z.mul_comm 256), Z_mod_plus_full, Z.mod_small by done.
  rewrite Z.div_add, Z.div_small, Z.add_0_l by (done || lia).
  by rewrite <- take_S_drop, take_drop.
Qed.

Lemma splice_app_r off s t l :
  (off + length s + length t <= length l)%nat ->
  splice (off + length s) t (splice off s l) = splice off (s ++ t) l.
Proof.
  intros H. unfold splice at 1 3. rewrite drop_splice_ge by lia. unfold splice.
  rewrite take_app_ge by (rewrite length_take; lia). rewrite length_take, Nat.min_l by lia.
  replace (off + length s - off)%nat with (length s) by lia.
  rewrite take_app_length, length_app, <- !app_assoc. do 4 f_equal. lia.
Qed.

End PacketLemmas.
