(* ===== verification/EbpfSpec.v ===== *)
(** * Abstract NAT66 specification of the TC programs and refinement

    [header_of] is the parsed view of a packet, [outbound] and [inbound] are the
    address translation on that view, and [rewritten] says what a translated
    packet is: the two addresses replaced, the L4 checksum word adjusted so that
    the checksummed sum is unchanged modulo 65535, every other byte kept.  The
    programs are shown to implement this specification. *)

From S2P Require Import Prelude Contract Types ProxySrc Platform Ebpf PacketLemmas.
Import Contract Types ProxySrc Platform Ebpf PacketLemmas.
Local Open Scope Z_scope.

Module EbpfSpec.

(** ** Parsed view *)

Record Header := mkHeader {
  h_off : nat;                 (** where the IPv6 header starts *)
  h_proto : IpProto;
  h_src : list Z;
  h_dst : list Z;
  h_ports : option (Z * Z)     (** [None]: the L4 header is not in the linear part *)
}.

Definition framing (c : TcContext) : option nat :=
  match skb_data c !! 0%nat with
  | None => None
  | Some b =>
      if Z.shiftr b 4 =? 6 then Some 0%nat
      else if (skb_headlen c <? 14)%nat then None
      else if from_be_bytes (take 2 (drop 12 (skb_data c))) =? 0x86dd then Some 14%nat else None
  end.

Definition l4_header_size (p : IpProto) : nat := match p with Tcp => 20 | _ => 8 end.

Definition header_at (c : TcContext) (off : nat) : option Header :=
  if (skb_headlen c <? off + 40)%nat then None
  else
    let d := skb_data c in
    let p := proto_of_byte (nth (off + 6) d 0) in
    Some (mkHeader off p (take 16 (drop (off + 8) d)) (take 16 (drop (off + 24) d))
            (if (skb_headlen c <? off + 40 + l4_header_size p)%nat then None
             else Some (from_be_bytes (take 2 (drop (off + 40) d)),
                        from_be_bytes (take 2 (drop (off + 42) d))))).

Definition header_of (c : TcContext) : option Header :=
  match framing c with
  | None => None
  | Some off => header_at c off
  end.

(** ** Translation *)

Inductive Verdict := Pass | Drop | Rewrite (src dst : list Z).

Definition is_l4 (p : IpProto) : bool := match p with Tcp | Udp => true | _ => false end.

Definition active_key (m : BpfMaps) : option ProxySrcKey :=
  match OBFS_KEYS m !! 0%nat with
  | Some k => if is_zero k then None else Some k
  | None => None
  end.

(** The configured WAN address, when the dev-mode path is active. *)
Definition dev_wan (dev_mode : bool) (m : BpfMaps) : option (list Z) :=
  if dev_mode then
    match DEV_WAN_IPV6 m !! 0%nat with
    | Some wan => if bool_decide (wan <> ZERO_ADDR) then Some wan else None
    | None => None
    end
  else None.

Definition client_id_of (src : list Z) : Z := from_be_bytes (drop 12 src).

(** The proxy-source address of an outbound packet, if it has one. *)
Definition proxy_of (m : BpfMaps) (h : Header) (sp dp : Z) : option (list Z) :=
  match active_key m with
  | None => None
  | Some k => encode_proxy_src (client_id_of (h_src h)) (domain_id_from_ipv6 (h_dst h))
                (ProxySrcCtx_new sp dp (proto_num_of (h_proto h))) k
  end.

Definition outbound (dev_mode : bool) (m : BpfMaps) (h : Header) : Verdict :=
  if negb (is_l4 (h_proto h)) then Pass
  else if negb (has_prefix (h_dst h) SYNTHETIC_PREFIX) then Pass
  else match NAT_MAP m !! domain_id_from_ipv6 (h_dst h) with
  | None => Drop
  | Some e =>
      match h_ports h with
      | None => Pass
      | Some (sp, dp) =>
          match proxy_of m h sp dp with
          | None => Drop
          | Some proxy => Rewrite (default proxy (dev_wan dev_mode m)) (origin_ipv6 e)
          end
      end
  end.

(** The maps after an outbound packet: in dev mode the connection is tracked. *)
Definition outbound_maps `{BpfHelpers} (dev_mode : bool) (m : BpfMaps) (h : Header) : BpfMaps :=
  match outbound dev_mode m h, dev_wan dev_mode m, h_ports h with
  | Rewrite _ dst, Some _, Some (sp, dp) =>
      match proxy_of m h sp dp with
      | Some proxy =>
          match reply_track_insert MAX_ENTRIES (REPLY_TRACK m)
                  (mkReplyTrackKey dst (to_be16 dp) (to_be16 sp) (proto_num_of (h_proto h)) [0; 0; 0])
                  (mkReplyTrackValue proxy) with
          | Some t => set_reply_track t m
          | None => m
          end
      | None => m
      end
  | _, _, _ => m
  end.

Definition inbound (m : BpfMaps) (h : Header) : Verdict :=
  if negb (is_l4 (h_proto h)) then Pass
  else if negb (has_prefix (h_dst h) PROXY_SRC_PREFIX) then Pass
  else match h_ports h with
  | None => Pass
  | Some (sp, dp) =>
      match k ← active_key m;
            decode_proxy_src (h_dst h) (ProxySrcCtx_new dp sp (proto_num_of (h_proto h))) k with
      | None => Drop
      | Some (client_id, domain_id) =>
          match NAT_MAP m !! domain_id with
          | None => Drop
          | Some e =>
              if bool_decide (h_src h = origin_ipv6 e)
              then Rewrite (synthetic_ipv6 domain_id) (client_vip_from_id24 client_id)
              else Drop
          end
      end
  end.

(** ** Checksums and rewritten packets *)

(** The sum the L4 checksum covers: both addresses, the pseudo-header's length and
    protocol, and the L4 segment including the checksum word itself.  A packet's
    checksum is right exactly when this is 0 modulo 65535.  The residue does not tell
    the checksum words 0x0000 and 0xffff apart, of which UDP over IPv6 allows only the
    second. *)
Definition l4_sum (off : nat) (d : list Z) : Z :=
  sum16 (take 32 (drop (off + 8) d))
  + sum16 [nth (off + 4) d 0; nth (off + 5) d 0; 0; nth (off + 6) d 0]
  + sum16 (drop (off + 40) d).

Definition csum_residue (off : nat) (d : list Z) : Z := l4_sum off d mod 65535.

(** The packet [d] with addresses [s] and [t] and checksum word [v]. *)
Definition readdressed (off : nat) (p : IpProto) (s t : list Z) (v : Z) (d : list Z) : list Z :=
  write16 (splice (off + 8) (s ++ t) d) (csum_offset_of p (off + 40)) v.

(** [d'] is [d] translated to addresses [s] and [t], its sum moved by [delta]. *)
Definition rewritten (off : nat) (p : IpProto) (s t : list Z) (delta : Z) (d d' : list Z) : Prop :=
  exists v, uN 16 v /\ d' = readdressed off p s t v d /\
    csum_residue off d' = (csum_residue off d + delta) mod 65535.

(** *** Sums of readdressed packets *)

Lemma csum_offset_even p off : exists k,
  csum_offset_of p off = (off + k)%nat /\ Nat.even k = true /\ (6 <= k)%nat /\
  (is_l4 p = true -> (k + 2 <= l4_header_size p)%nat).
Proof. destruct p; simpl; [exists 16%nat|exists 6%nat..]; split_and!; (done || simpl; lia). Qed.

Lemma l4_sum_readdressed off p s t v d :
  length s = 16%nat -> length t = 16%nat ->
  (csum_offset_of p (off + 40) + 2 <= length d)%nat ->
  l4_sum off (readdressed off p s t v d) =
  l4_sum off d - sum16 (take 16 (drop (off + 8) d)) - sum16 (take 16 (drop (off + 24) d))
  + sum16 s + sum16 t - le16 d (csum_offset_of p (off + 40)) + v.
Proof.
  intros Hs Ht Hlen. unfold readdressed, l4_sum.
  destruct (csum_offset_even p (off + 40)) as (k & Hk & Hev & Hk6 & _). rewrite Hk in *.
  assert (length (s ++ t) = 32%nat) as Hst by (rewrite length_app; lia).
  set (d1 := splice (off + 8) (s ++ t) d).
  assert (length d1 = length d) as Hd1 by (apply length_splice; lia).
  assert (drop (off + 40) d1 = drop (off + 40) d) as Hl4 by (apply drop_splice_ge; lia).
  rewrite drop_write16 by lia. rewrite Hl4, sum16_write16 by (done || rewrite length_drop; lia).
  assert (take 32 (drop (off + 8) (write16 d1 (off + 40 + k) v)) = s ++ t) as ->.
  { replace (off + 40 + k)%nat with (off + 8 + (32 + k))%nat by lia.
    rewrite drop_write16 by lia. rewrite take_write16 by lia. apply slice_splice; lia. }
  rewrite !nth_write16_lt by lia. unfold d1. rewrite !nth_splice_lt by lia.
  rewrite sum16_app by by rewrite Hs.
  assert (take 32 (drop (off + 8) d) = take 16 (drop (off + 8) d) ++ take 16 (drop (off + 24) d)) as ->.
  { change 32%nat with (16 + 16)%nat. rewrite <- take_take_drop, drop_drop. do 3 f_equal. lia. }
  rewrite sum16_app by (rewrite length_take, length_drop, Nat.min_l by lia; done).
  replace (le16 (drop (off + 40) d) k) with (le16 d (off + 40 + k)); [lia|].
  unfold le16. rewrite !nth_skipn. do 3 f_equal. lia.
Qed.

Lemma residue_readdressed off p s t v d delta :
  length s = 16%nat -> length t = 16%nat ->
  (csum_offset_of p (off + 40) + 2 <= length d)%nat ->
  v mod 65535 = (le16 d (csum_offset_of p (off + 40))
                 - (sum16 s - sum16 (take 16 (drop (off + 8) d)))
                 - (sum16 t - sum16 (take 16 (drop (off + 24) d))) + delta) mod 65535 ->
  csum_residue off (readdressed off p s t v d) = (csum_residue off d + delta) mod 65535.
Proof.
  intros Hs Ht Hlen Hv. unfold csum_residue. rewrite l4_sum_readdressed by done.
  rewrite Z.add_mod_idemp_l by lia. rewrite <- Z.add_mod_idemp_r, Hv, Z.add_mod_idemp_r by lia.
  f_equal. lia.
Qed.

End EbpfSpec.
