(* ===== verification/EbpfRefine.v ===== *)
(** * The TC programs implement the NAT66 specification

    Runs of the parsing and rewriting steps under the platform laws, and the two
    refinement theorems. *)

From S2P Require Import Prelude Contract Types ProxySrc Platform Ebpf PacketLemmas EbpfSpec.
Import Contract Types ProxySrc Platform Ebpf PacketLemmas EbpfSpec.
Local Open Scope Z_scope.

Module EbpfRefine.

(** Map contents that the daemon can write: 16-byte addresses and keys. *)
Record maps_wf (m : BpfMaps) : Prop := {
  nat_map_wf : forall i e, NAT_MAP m !! i = Some e -> bytes 16 (origin_ipv6 e);
  keys_wf : forall i k, OBFS_KEYS m !! i = Some k -> key_wf k;
  dev_wan_wf : forall i a, DEV_WAN_IPV6 m !! i = Some a -> bytes 16 a;
  reply_track_wf : forall k v, REPLY_TRACK m !! k = Some v -> bytes 16 (proxy_src v)
}.

(** [c'] is [c] with contents [d']; the linear part may only have grown. *)
Definition ctx_step (c c' : TcContext) (d' : list Z) : Prop :=
  skb_data c' = d' /\ (skb_headlen c <= skb_headlen c' <= length (skb_data c'))%nat.

Lemma prog_bind_Ok {S A B} (p : Prog S A) (k : A -> Prog S B) s a s' :
  p s = (Ok a, s') -> (p ≫= k) s = k a s'.
Proof. intros E. unfold mbind, Prog_bind. by rewrite E. Qed.

Lemma prog_bind_Err {S A B} (p : Prog S A) (k : A -> Prog S B) s e s' :
  p s = (Err e, s') -> (p ≫= k) s = (Err e, s').
Proof. intros E. unfold mbind, Prog_bind. by rewrite E. Qed.

Lemma set_tc_ctx_twice c c' w : set_tc_ctx c' (set_tc_ctx c w) = set_tc_ctx c' w.
Proof. done. Qed.

Lemma set_tc_ctx_same w : set_tc_ctx (tc_ctx w) w = w.
Proof. by destruct w. Qed.

Section runs.
Context `{NT : NetworkTypes} `{NTL : !NetworkTypesLaws} `{BH : BpfHelpers}
  `{BHL : !BpfHelpersLaws} `{BHR : !BpfHelpersReliable}.
Context (dev_mode : bool).

(** ** Parsing *)

Lemma ipv6_offset_run w :
  ipv6_offset w = (match framing (tc_ctx w) with Some off => Ok off | None => Err EUnit end, w).
Proof.
  unfold ipv6_offset, framing, load_byte, mbind, Prog_bind.
  destruct (skb_load_byte (tc_ctx w) 0) as [b|] eqn:E.
  - rewrite (load_byte_Some _ _ _ E). destruct (Z.shiftr b 4 =? 6); [done|].
    unfold ptr_at. destruct eth_size as [-> ->]. simpl plus.
    destruct (skb_headlen (tc_ctx w) <? 14)%nat; [done|]. rewrite drop_0.
    set (h := take 14 (skb_data (tc_ctx w))).
    assert (take 2 (drop 12 (skb_data (tc_ctx w))) = take 2 (drop 12 h)) as ->.
    { unfold h. symmetry. rewrite <- (drop_0 (skb_data (tc_ctx w))) at 1. by apply slice_slice. }
    destruct (Z.eqb_spec (from_be_bytes (take 2 (drop 12 h))) 0x86dd) as [He|He].
    + by rewrite (proj2 (ether_type_ipv6 h) He).
    + destruct (ether_type h) as [[|n]|n] eqn:Et; [|done..].
      by apply ether_type_ipv6 in Et.
  - destruct (skb_data (tc_ctx w) !! 0%nat) as [b|] eqn:E0; [|done].
    apply lookup_lt_Some in E0. destruct (load_byte_total (tc_ctx w) 0); [by unfold offset_ok|done|]. congruence.
Qed.

(** The fields of the header at [off]. *)
Lemma header_fields (d : list Z) off :
  let h := take 40 (drop off d) in
  next_hdr h = proto_of_byte (nth (off + 6) d 0) /\
  src_addr h = take 16 (drop (off + 8) d) /\ dst_addr h = take 16 (drop (off + 24) d).
Proof.
  simpl. rewrite next_hdr_byte, src_addr_slice, dst_addr_slice. split_and!.
  - f_equal. rewrite <- (nth_skipn off d 6 0). rewrite <- (take_drop 40 (drop off d)) at 2.
    destruct (Nat.lt_ge_cases 6 (length (take 40 (drop off d)))) as [Hl|Hl].
    + by rewrite app_nth1.
    + rewrite take_drop, !nth_overflow; [done| |done].
      rewrite length_take in Hl. lia.
  - apply slice_slice. lia.
  - apply slice_slice. lia.
Qed.

Lemma ports_run w off p :
  is_l4 p = true ->
  extract_l4_ports (off + 40) p w =
  (if (skb_headlen (tc_ctx w) <? off + 40 + l4_header_size p)%nat then Err EUnit
   else Ok (from_be_bytes (take 2 (drop (off + 40) (skb_data (tc_ctx w)))),
            from_be_bytes (take 2 (drop (off + 42) (skb_data (tc_ctx w))))), w).
Proof.
  intros Hp. destruct l4_size as [Ht Hu].
  assert (forall n, (4 <= n)%nat -> forall o (d : list Z), take 2 (take n (drop o d)) = take 2 (drop o d) /\
            take 2 (drop 2 (take n (drop o d))) = take 2 (drop (o + 2) d)) as Hslice.
  { intros n Hn o d. rewrite take_take, Nat.min_l by lia. split; [done|]. apply slice_slice. lia. }
  destruct p; try discriminate Hp; unfold extract_l4_ports, mbind, Prog_bind, ptr_at; simpl l4_header_size.
  - rewrite Ht. destruct (_ <? _)%nat; [done|].
    match goal with |- context [tcp_source ?h] => destruct (tcp_ports h) as [-> ->] end.
    destruct (Hslice 20%nat ltac:(lia) (off + 40)%nat (skb_data (tc_ctx w))) as [-> ->].
    by replace (off + 40 + 2)%nat with (off + 42)%nat by lia.
  - rewrite Hu. destruct (_ <? _)%nat; [done|].
    match goal with |- context [udp_src ?h] => destruct (udp_ports h) as [-> ->] end.
    destruct (Hslice 8%nat ltac:(lia) (off + 40)%nat (skb_data (tc_ctx w))) as [-> ->].
    by replace (off + 40 + 2)%nat with (off + 42)%nat by lia.
Qed.

(** ** Writing *)

Lemma store_bytes_run s : forall w off,
  (skb_headlen (tc_ctx w) <= length (skb_data (tc_ctx w)))%nat ->
  (off + length s <= length (skb_data (tc_ctx w)))%nat -> offset_ok (off + length s) ->
  exists c', store_bytes off s w = (Ok tt, set_tc_ctx c' w) /\
    ctx_step (tc_ctx w) c' (splice off s (skb_data (tc_ctx w))).
Proof.
  unfold offset_ok. induction s as [|b s IH]; intros w off Hh Hlen Hok.
  - exists (tc_ctx w). rewrite set_tc_ctx_same, splice_nil. by split.
  - simpl in *. destruct (store_byte_total (tc_ctx w) off b) as [c1 E1]; [unfold offset_ok; lia|lia|].
    destruct (store_byte_Some _ _ _ _ Hh E1) as (Hoff & Hd1 & Hh1).
    assert (length (skb_data c1) = length (skb_data (tc_ctx w))) as Hl1
      by (rewrite Hd1; apply length_insert).
    destruct (IH (set_tc_ctx c1 w) (S off)) as (c2 & E2 & Hd2 & Hh2); simpl; [lia..|].
    exists c2. split.
    + erewrite prog_bind_Ok; [|unfold on_ctx; by rewrite E1]. exact E2.
    + simpl in *. rewrite Hd1, splice_cons in * by lia. split; [done|]. lia.
Qed.

Lemma csum_replace_run w off to flags :
  flags = BPF_F_PSEUDO_HDR \/ to = 0 /\ flags = Z.lor BPF_F_PSEUDO_HDR BPF_F_MARK_MANGLED_0 ->
  uN 32 to -> csum_offset_ok off ->
  (skb_headlen (tc_ctx w) <= length (skb_data (tc_ctx w)))%nat ->
  (off + 2 <= length (skb_data (tc_ctx w)))%nat ->
  exists c' v, on_ctx (fun c => l4_csum_replace c off 0 to flags) w = (Ok tt, set_tc_ctx c' w) /\
    uN 16 v /\ ctx_step (tc_ctx w) c' (write16 (skb_data (tc_ctx w)) off v) /\
    v mod 65535 = (le16 (skb_data (tc_ctx w)) off - to) mod 65535.
Proof.
  intros Hf Hto Hok Hh Hlen. destruct (csum_replace_total (tc_ctx w) off to flags Hok Hlen) as [c' E].
  destruct (csum_replace_Some _ _ _ _ _ Hh Hf Hto E) as (_ & Hh' & v & Hv & Hd & Hm).
  exists c', v. unfold on_ctx. rewrite E. split_and!; [done|done| |done].
  by split.
Qed.

(** [c'] is [c] with the checksum word at [off] moved by [- delta]. *)
Definition csum_moved (off : nat) (delta : Z) (c c' : TcContext) : Prop :=
  exists v, uN 16 v /\ ctx_step c c' (write16 (skb_data c) off v) /\
    v mod 65535 = (le16 (skb_data c) off - delta) mod 65535.

Lemma csum_moved_trans off a b c c1 c2 :
  (off + 2 <= length (skb_data c))%nat ->
  csum_moved off a c c1 -> csum_moved off b c1 c2 -> csum_moved off (a + b) c c2.
Proof.
  intros Hl (v1 & Hv1 & [D1 H1] & M1) (v2 & Hv2 & [D2 H2] & M2). exists v2. split_and!; [done| |].
  - split; [|lia]. by rewrite D2, D1, write16_write16 by lia.
  - rewrite M2, D1, le16_write16 by (done || lia).
    rewrite <- Zminus_mod_idemp_l, M1, Zminus_mod_idemp_l. f_equal. lia.
Qed.

(** A program that, run with maps [m], only moves the checksum word. *)
Definition csum_prog (m : BpfMaps) (off : nat) (delta : Z) (p : Prog TcWorld unit) : Prop :=
  forall w, tc_maps w = m -> csum_offset_ok off -> Forall (uN 8) (skb_data (tc_ctx w)) ->
    (skb_headlen (tc_ctx w) <= length (skb_data (tc_ctx w)))%nat ->
    (off + 2 <= length (skb_data (tc_ctx w)))%nat ->
    exists c', p w = (Ok tt, set_tc_ctx c' w) /\ csum_moved off delta (tc_ctx w) c'.

Lemma csum_prog_seq m off a b p q :
  csum_prog m off a p -> csum_prog m off b q -> csum_prog m off (a + b) (p;; q).
Proof.
  intros Hp Hq w Hm Hok Hb Hh Hl. destruct (Hp w Hm Hok Hb Hh Hl) as (c1 & E1 & M1).
  assert (length (skb_data c1) = length (skb_data (tc_ctx w))) as L1.
  { destruct M1 as (v & _ & [D _] & _). by rewrite D, length_write16. }
  destruct (Hq (set_tc_ctx c1 w)) as (c2 & E2 & M2); simpl; [done|done| | |lia|].
  { destruct M1 as (v & Hv & [-> _] & _). by apply write16_bytes. }
  { destruct M1 as (v & _ & [_ H] & _). lia. }
  exists c2. split; [|by eapply csum_moved_trans].
  by rewrite (prog_bind_Ok _ _ _ _ _ E1).
Qed.

Lemma update_addr_csum_prog m off old new :
  bytes 16 old -> bytes 16 new ->
  csum_prog m off (sum16 new - sum16 old) (update_addr_csum off old new).
Proof.
  intros Ho Hn w _ Hok _ Hh Hlen. unfold update_addr_csum. cbv zeta.
  destruct (csum_diff_sum old new Ho Hn) as [Hd Hm].
  assert (as_u 64 (bpf_csum_diff old new 0) = bpf_csum_diff old new 0) as ->
    by (apply wrap_small, (uN_weaken 32); [lia|done]).
  destruct (csum_replace_run w off (bpf_csum_diff old new 0) BPF_F_PSEUDO_HDR) as (c' & v & E & Hv & Hs & Hr);
    [by left|done..|].
  exists c'. split; [done|]. exists v. split_and!; [done..|].
  rewrite Hr, <- Zminus_mod_idemp_r, Hm, Zminus_mod_idemp_r. done.
Qed.

Lemma mark_mangled_prog m off :
  csum_prog m off 0 (on_ctx (fun c => l4_csum_replace c off 0 0
                                        (Z.lor BPF_F_PSEUDO_HDR BPF_F_MARK_MANGLED_0))).
Proof.
  intros w _ Hok _ Hh Hlen.
  destruct (csum_replace_run w off 0 (Z.lor BPF_F_PSEUDO_HDR BPF_F_MARK_MANGLED_0))
    as (c' & v & E & Hv & Hs & Hr); [by right|done..|].
  exists c'. split; [done|]. by exists v.
Qed.

Lemma csum_prog_skip m off : csum_prog m off 0 (mret tt).
Proof.
  intros w _ _ Hb Hh Hl. exists (tc_ctx w). rewrite set_tc_ctx_same. split; [done|].
  exists (le16 (skb_data (tc_ctx w)) off). split_and!; [by apply uN_le16| |by rewrite Z.sub_0_r].
  split; [|lia]. by rewrite write16_same by (done || lia).
Qed.

(** ** Outbound *)

Lemma match_l4 {A} (p : IpProto) (a b : A) :
  match p with Tcp | Udp => a | _ => b end = if is_l4 p then a else b.
Proof. by destruct p. Qed.

Lemma client_id_drop src : bytes 16 src ->
  from_be_bytes [nth 12 src 0; nth 13 src 0; nth 14 src 0; nth 15 src 0] = client_id_of src.
Proof. intros H. bytes_destruct H. reflexivity. Qed.

Definition tracked_maps (m : BpfMaps) (origin : list Z) (sp dp pn : Z) (proxy : list Z) : BpfMaps :=
  match dev_wan dev_mode m with
  | None => m
  | Some _ =>
      match reply_track_insert MAX_ENTRIES (REPLY_TRACK m)
              (mkReplyTrackKey origin (to_be16 dp) (to_be16 sp) pn [0; 0; 0]) (mkReplyTrackValue proxy) with
      | Some t => set_reply_track t m
      | None => m
      end
  end.

Lemma choose_final_src_run origin sp dp pn proxy w :
  choose_final_src dev_mode origin sp dp pn proxy w =
  (Ok (default proxy (dev_wan dev_mode (tc_maps w))),
   mkTcWorld (tracked_maps (tc_maps w) origin sp dp pn proxy) (tc_ctx w) (tc_redirect w)).
Proof.
  unfold choose_final_src, tracked_maps, dev_wan. destruct w as [m c r]. simpl.
  destruct dev_mode; [|done]. unfold mbind, Prog_bind, gets, modify. simpl.
  destruct (DEV_WAN_IPV6 m !! 0%nat) as [wan|]; [|done].
  case_bool_decide; [|done]. simpl. by destruct (reply_track_insert _ _ _ _).
Qed.

Lemma slice_bytes16 d off : Forall (uN 8) d -> (off + 16 <= length d)%nat -> bytes 16 (take 16 (drop off d)).
Proof.
  intros Hd Hl. split; [rewrite length_take, length_drop; lia|]. by apply Forall_take, Forall_drop.
Qed.

Lemma le16_splice off s d k :
  (off + length s <= k)%nat -> (off + length s <= length d)%nat -> le16 (splice off s d) k = le16 d k.
Proof.
  intros H1 H2. unfold le16. replace k with (k + 0)%nat by lia. rewrite <- Nat.add_succ_r.
  by rewrite <- !(nth_skipn k), !drop_splice_ge.
Qed.

(** Checksum moves and address replacements make a rewritten packet. *)
Lemma rewritten_of_moved off p s t delta d c c' :
  is_l4 p = true -> length s = 16%nat -> length t = 16%nat ->
  (off + 40 + l4_header_size p <= length d)%nat ->
  skb_data c = splice (off + 8) (s ++ t) d ->
  csum_moved (csum_offset_of p (off + 40))
    ((sum16 s - sum16 (take 16 (drop (off + 8) d))) + (sum16 t - sum16 (take 16 (drop (off + 24) d)))
     - delta) c c' ->
  rewritten off p s t delta d (skb_data c').
Proof.
  intros Hp Hs Ht Hl Hc (v & Hv & [D _] & M).
  destruct (csum_offset_even p (off + 40)) as (k & Hk & Hev & Hk6 & Hkl). specialize (Hkl Hp).
  assert (length (s ++ t) = 32%nat) by (rewrite length_app; lia).
  exists v. split; [done|]. rewrite D, Hc. split; [done|].
  apply residue_readdressed; [done..|lia|]. rewrite M, Hc, le16_splice by lia. f_equal. lia.
Qed.

Lemma framing_cases c off : framing c = Some off -> off = 0%nat \/ off = 14%nat.
Proof. unfold framing. intros E. repeat case_match; simplify_eq; auto. Qed.

Lemma csum_offset_of_ok off p : off = 0%nat \/ off = 14%nat -> csum_offset_ok (csum_offset_of p (off + 40)).
Proof. by intros [-> | ->]; destruct p. Qed.

(** The packet part of an outbound rewrite. *)
Lemma outbound_rewrite_run w off p s0 t0 s t choose w1 :
  tc_wf (tc_ctx w) -> off = 0%nat \/ off = 14%nat -> is_l4 p = true ->
  (off + 40 + l4_header_size p <= skb_headlen (tc_ctx w))%nat ->
  s0 = take 16 (drop (off + 8) (skb_data (tc_ctx w))) ->
  t0 = take 16 (drop (off + 24) (skb_data (tc_ctx w))) ->
  bytes 16 s -> bytes 16 t ->
  (forall c, choose (set_tc_ctx c w) = (Ok s, set_tc_ctx c w1)) ->
  exists c', (store_bytes (off + 24) t;;
              final ← choose;
              store_bytes (off + 8) final;;
              update_addr_csum (csum_offset_of p (off + 40)) s0 final;;
              update_addr_csum (csum_offset_of p (off + 40)) t0 t;;
              mret TC_ACT_OK) w = (Ok TC_ACT_OK, set_tc_ctx c' w1) /\
    (skb_headlen (tc_ctx w) <= skb_headlen c' <= length (skb_data c'))%nat /\
    rewritten off p s t 0 (skb_data (tc_ctx w)) (skb_data c').
Proof.
  intros [Hb Hh] Hoff Hp Hl4 Hs0 Ht0 Hs Ht Hch.
  destruct (csum_offset_even p (off + 40)) as (k & Hk & Hev & Hk6 & Hkl). specialize (Hkl Hp).
  remember (skb_data (tc_ctx w)) as d eqn:Hd.
  assert (bytes 16 s0 /\ bytes 16 t0) as [Bs0 Bt0] by (subst s0 t0; split; apply slice_bytes16; done || lia).
  destruct (store_bytes_run t w (off + 24)) as (c1 & E1 & D1 & H1); rewrite <- ?Hd in *;
    [done|destruct Ht; lia|unfold offset_ok; destruct Ht; lia|].
  rewrite (prog_bind_Ok _ _ _ _ _ E1), (prog_bind_Ok _ _ _ _ _ (Hch c1)).
  assert (length (skb_data c1) = length d) as L1 by (rewrite D1; apply length_splice; destruct Ht; lia).
  destruct (store_bytes_run s (set_tc_ctx c1 w1) (off + 8)) as (c2 & E2 & D2 & H2); simpl;
    [lia|destruct Hs; lia|unfold offset_ok; destruct Hs; lia|].
  rewrite (prog_bind_Ok _ _ _ _ _ E2), set_tc_ctx_twice. simpl in D2, H2.
  rewrite D1 in D2. replace (off + 24)%nat with (off + 8 + length s)%nat in D2 by (destruct Hs; lia).
  rewrite splice_app in D2 by (destruct Hs; lia).
  assert (length (skb_data c2) = length d) as L2
    by (rewrite D2; apply length_splice; rewrite length_app; destruct Hs, Ht; lia).
  destruct (csum_prog_seq (tc_maps w1) (csum_offset_of p (off + 40)) _ _ _ _
              (update_addr_csum_prog _ _ s0 s Bs0 Hs) (update_addr_csum_prog _ _ t0 t Bt0 Ht)
              (set_tc_ctx c2 w1)) as (c3 & E3 & M3); simpl;
    [done|by apply csum_offset_of_ok|rewrite D2; apply splice_bytes; [apply Forall_app; split; [apply Hs|apply Ht]|done]|lia|lia|].
  exists c3. assert (H3 := M3). destruct H3 as (_ & _ & [_ H3] & _). simpl in H3. split_and!; [|lia|lia|].
  - unfold mbind, Prog_bind in E3 |- *. destruct (update_addr_csum _ s0 s _) as [[u|e] w4]; [|done].
    destruct (update_addr_csum _ t0 t w4) as [[u'|e'] w5]; [|done]. injection E3 as _ ->. done.
  - eapply rewritten_of_moved; [done|apply Hs|apply Ht|lia|exact D2|].
    rewrite Z.sub_0_r, <- Hs0, <- Ht0. exact M3.
Qed.

(** The header part of both TC programs: what [ipv6_offset] and [ptr_at] give. *)
Lemma parse_run {A} w (k : nat -> list Z -> Prog TcWorld A) :
  (ip_off ← ipv6_offset; ipv6hdr ← ptr_at ip_off sizeof_Ipv6Hdr; k ip_off ipv6hdr) w =
  match framing (tc_ctx w) with
  | Some off =>
      if (skb_headlen (tc_ctx w) <? off + 40)%nat then (Err EUnit, w)
      else k off (take 40 (drop off (skb_data (tc_ctx w)))) w
  | None => (Err EUnit, w)
  end.
Proof.
  unfold mbind, Prog_bind at 1. rewrite ipv6_offset_run.
  destruct (framing (tc_ctx w)) as [off|]; [|done].
  unfold Prog_bind, ptr_at. destruct ip6_size as [-> _]. by destruct (_ <? _)%nat.
Qed.

Lemma proxy_of_Some m h sp dp proxy :
  proxy_of m h sp dp = Some proxy -> bytes 16 proxy.
Proof.
  unfold proxy_of. destruct (active_key m) as [k|]; [|done]. rewrite encode_app.
  destruct (_ || _); [done|]. intros E. apply (inj Some) in E as <-. apply bytes_proxy_addr.
Qed.

Lemma dev_wan_bytes m a : maps_wf m -> dev_wan dev_mode m = Some a -> bytes 16 a.
Proof.
  intros Hm. unfold dev_wan. destruct dev_mode; [|done].
  destruct (DEV_WAN_IPV6 m !! 0%nat) eqn:E; [|done].
  case_bool_decide; [|done]. intros [= <-]. by apply (dev_wan_wf _ Hm) in E.
Qed.

Lemma active_key_match {A} m (f : ProxySrcKey -> A) (a : A) :
  match OBFS_KEYS m !! 0%nat with
  | Some k => if is_zero k then a else f k
  | None => a
  end = match active_key m with Some k => f k | None => a end.
Proof. unfold active_key. destruct (OBFS_KEYS m !! 0%nat) as [k|]; [|done]. by destruct (is_zero k). Qed.

(** The maps an outbound rewrite leaves behind. *)
Lemma outbound_maps_rewrite m h s t sp dp proxy :
  outbound dev_mode m h = Rewrite s t -> h_ports h = Some (sp, dp) ->
  proxy_of m h sp dp = Some proxy ->
  outbound_maps dev_mode m h = tracked_maps m t sp dp (proto_num_of (h_proto h)) proxy.
Proof.
  intros Ho Hp Hx. unfold outbound_maps, tracked_maps. rewrite Ho, Hp, Hx.
  by destruct (dev_wan dev_mode m).
Qed.

(** What the specification says of a run of [tc_ingress] on a parsed packet. *)
Definition outbound_ok (w : TcWorld) (h : Header) (v : Verdict) (run : Result BpfErr Z * TcWorld) : Prop :=
  match v with
  | Pass => snd run = w /\ (fst run = Ok TC_ACT_OK \/ fst run = Err EUnit)
  | Drop => run = (Ok TC_ACT_SHOT, w)
  | Rewrite s t => exists c', run =
        (Ok TC_ACT_OK, mkTcWorld (outbound_maps dev_mode (tc_maps w) h) c' (tc_redirect w)) /\
      (skb_headlen (tc_ctx w) <= skb_headlen c' <= length (skb_data c'))%nat /\
      rewritten (h_off h) (h_proto h) s t 0 (skb_data (tc_ctx w)) (skb_data c')
  end.

Lemma try_tc_ingress_no_header w :
  header_of (tc_ctx w) = None -> try_tc_ingress dev_mode w = (Err EUnit, w).
Proof.
  unfold header_of, header_at, try_tc_ingress. rewrite parse_run.
  destruct (framing (tc_ctx w)) as [off|]; [|done]. by destruct (_ <? off + 40)%nat.
Qed.

Lemma try_tc_ingress_header w h :
  tc_wf (tc_ctx w) -> maps_wf (tc_maps w) -> header_of (tc_ctx w) = Some h ->
  outbound_ok w h (outbound dev_mode (tc_maps w) h) (try_tc_ingress dev_mode w).
Proof.
  intros Hwf Hm Hh. unfold header_of in Hh. unfold try_tc_ingress. rewrite parse_run.
  destruct (framing (tc_ctx w)) as [off|] eqn:Ef; [|done]. apply framing_cases in Ef. unfold header_at in Hh. cbv zeta in Hh.
  destruct (_ <? off + 40)%nat eqn:Eh; [done|]. apply Nat.ltb_ge in Eh.
  destruct (header_fields (skb_data (tc_ctx w)) off) as (-> & -> & ->).
  destruct ip6_size as [_ ->].
  set (p := proto_of_byte _) in *. set (src := take 16 (drop (off + 8) _)) in *.
  set (dst := take 16 (drop (off + 24) _)) in *.
  assert (bytes 16 src) as Bsrc by (destruct Hwf; apply slice_bytes16; [done|lia]).
  rewrite match_l4. apply (inj Some) in Hh.
  pose proof (fun s t sp dp proxy => outbound_maps_rewrite (tc_maps w) h s t sp dp proxy) as Hmaps.
  revert Hmaps. unfold outbound at 1 2. subst h. cbn [h_proto h_dst h_src h_ports h_off].
  destruct (is_l4 p) eqn:Ep; cbn [negb]; [|by intros _; split; [|left]].
  destruct (has_prefix dst SYNTHETIC_PREFIX); cbn [negb]; [|by intros _; split; [|left]].
  erewrite prog_bind_Ok by reflexivity.
  change (from_be_bytes [nth 4 dst 0; nth 5 dst 0; nth 6 dst 0; nth 7 dst 0])
    with (domain_id_from_ipv6 dst).
  destruct (NAT_MAP (tc_maps w) !! domain_id_from_ipv6 dst) as [e|] eqn:En; [|done].
  pose proof (ports_run w off p Ep) as Epr.
  destruct (skb_headlen (tc_ctx w) <? off + 40 + l4_header_size p)%nat eqn:El4.
  { intros _. rewrite (prog_bind_Err _ _ _ _ _ Epr). by split; [|right]. }
  apply Nat.ltb_ge in El4. rewrite (prog_bind_Ok _ _ _ _ _ Epr).
  set (sp := from_be_bytes (take 2 (drop (off + 40) _))) in *.
  set (dp := from_be_bytes (take 2 (drop (off + 42) _))) in *.
  erewrite prog_bind_Ok by reflexivity. rewrite active_key_match, client_id_drop by done.
  intros Hmaps. destruct (proxy_of (tc_maps w) _ sp dp) as [proxy|] eqn:Ex0; pose proof Ex0 as Ex;
    unfold proxy_of in Ex; cbn [h_proto h_dst h_src] in Ex;
    destruct (active_key (tc_maps w)) as [k|]; try done; rewrite Ex; [|done].
  specialize (Hmaps _ _ sp dp proxy eq_refl eq_refl Ex0).
  set (w1 := mkTcWorld (tracked_maps (tc_maps w) (origin_ipv6 e) sp dp (proto_num_of p) proxy)
               (tc_ctx w) (tc_redirect w)).
  destruct (outbound_rewrite_run w off p src dst (default proxy (dev_wan dev_mode (tc_maps w)))
              (origin_ipv6 e)
              (choose_final_src dev_mode (origin_ipv6 e) sp dp (proto_num_of p) proxy) w1)
    as (c' & Er & Hc & Hrw); try done.
  - destruct (dev_wan dev_mode (tc_maps w)) as [a|] eqn:Ed; simpl;
      [by apply (dev_wan_bytes (tc_maps w))|by eapply proxy_of_Some].
  - by apply (nat_map_wf _ Hm) in En.
  - intros c. by rewrite choose_final_src_run.
  - exists c'. split_and!; [|lia|lia|done]. rewrite Hmaps. exact Er.
Qed.

(** What [outbound] demands of a run of [tc_ingress] from [w]. *)
Definition implements_outbound (w : TcWorld) (run : Result BpfErr Z * TcWorld) : Prop :=
  match header_of (tc_ctx w) with
  | None => run = (Ok TC_ACT_OK, w)
  | Some h =>
      match outbound dev_mode (tc_maps w) h with
      | Pass => run = (Ok TC_ACT_OK, w)
      | Drop => run = (Ok TC_ACT_SHOT, w)
      | Rewrite s t => exists c', run =
            (Ok TC_ACT_OK, mkTcWorld (outbound_maps dev_mode (tc_maps w) h) c' (tc_redirect w)) /\
          (skb_headlen (tc_ctx w) <= skb_headlen c' <= length (skb_data c'))%nat /\
          rewritten (h_off h) (h_proto h) s t 0 (skb_data (tc_ctx w)) (skb_data c')
      end
  end.

Lemma tc_ingress_run (w : TcWorld) :
  tc_wf (tc_ctx w) -> maps_wf (tc_maps w) -> implements_outbound w (tc_ingress dev_mode w).
Proof.
  intros Hwf Hm. unfold implements_outbound, tc_ingress. destruct (header_of (tc_ctx w)) as [h|] eqn:Eh.
  - pose proof (try_tc_ingress_header w h Hwf Hm Eh) as Hok. unfold outbound_ok in Hok.
    destruct (outbound dev_mode (tc_maps w) h) as [| |s t].
    + destruct (try_tc_ingress dev_mode w) as [r w']. simpl in Hok. by destruct Hok as [-> [-> | ->]].
    + by rewrite Hok.
    + destruct Hok as (c' & -> & ?). by exists c'.
  - by rewrite try_tc_ingress_no_header.
Qed.

(** C3. [tc_ingress] refines the outbound translation.  Packets without an IPv6
    header in the linear part are passed unchanged; parsed packets are passed
    unchanged, dropped unchanged, or rewritten with verdict [TC_ACT_OK], exactly as
    [outbound] says.  A rewritten packet has the new addresses, an L4 checksum
    adjusted so that the checksummed sum is unchanged modulo 65535, and every
    other byte untouched; the only map it may change is [REPLY_TRACK], in dev
    mode. *)
Theorem tc_ingress_refines (w : TcWorld) :
  tc_wf (tc_ctx w) -> maps_wf (tc_maps w) -> implements_outbound w (tc_ingress dev_mode w).
Proof. apply tc_ingress_run. Qed.

(** ** Inbound *)

(** How far the dev-mode fixup moves the checksummed sum. *)
Definition wan_delta (m : BpfMaps) (dst : list Z) : Z :=
  match dev_wan dev_mode m with
  | Some wan => sum16 wan - sum16 dst
  | None => 0
  end.

Lemma dev_csum_fixup_prog m off dst :
  maps_wf m -> bytes 16 dst -> csum_prog m off (- wan_delta m dst) (dev_csum_fixup dev_mode off dst).
Proof.
  intros Hm Hd. unfold wan_delta. pose proof (dev_wan_bytes m) as Hw. revert Hw.
  unfold dev_wan, dev_csum_fixup. destruct dev_mode; intros Hw; [|apply csum_prog_skip].
  intros w Hwm Hok Hb Hh Hl. erewrite prog_bind_Ok by reflexivity. rewrite Hwm.
  destruct (DEV_WAN_IPV6 m !! 0%nat) as [wan|]; [|by apply (csum_prog_skip m)].
  case_bool_decide; [|by apply (csum_prog_skip m)].
  replace (- (sum16 wan - sum16 dst)) with (sum16 dst - sum16 wan) by lia.
  by apply (update_addr_csum_prog m); auto.
Qed.

Lemma prog_bind_assoc {A B} (p : Prog TcWorld unit) (q : Prog TcWorld A) (k : A -> Prog TcWorld B) w :
  ((p;; q) ≫= k) w = (p;; (q ≫= k)) w.
Proof. unfold mbind, Prog_bind. by destruct (p w) as [[u|e] w']. Qed.

(** The packet part of an inbound rewrite, before the redirect. *)
Lemma inbound_rewrite_run {A} w off p s0 t0 s t (k : Prog TcWorld A) :
  tc_wf (tc_ctx w) -> maps_wf (tc_maps w) -> off = 0%nat \/ off = 14%nat -> is_l4 p = true ->
  (off + 40 + l4_header_size p <= skb_headlen (tc_ctx w))%nat ->
  s0 = take 16 (drop (off + 8) (skb_data (tc_ctx w))) ->
  t0 = take 16 (drop (off + 24) (skb_data (tc_ctx w))) ->
  bytes 16 s -> bytes 16 t ->
  let csum := csum_offset_of p (off + 40) in
  exists c', (store_bytes (off + 8) s;;
              store_bytes (off + 24) t;;
              update_addr_csum csum s0 s;;
              update_addr_csum csum t0 t;;
              dev_csum_fixup dev_mode csum t0;;
              on_ctx (fun c => l4_csum_replace c csum 0 0 (Z.lor BPF_F_PSEUDO_HDR BPF_F_MARK_MANGLED_0));;
              k) w = k (set_tc_ctx c' w) /\
    (skb_headlen (tc_ctx w) <= skb_headlen c' <= length (skb_data c'))%nat /\
    rewritten off p s t (wan_delta (tc_maps w) t0) (skb_data (tc_ctx w)) (skb_data c').
Proof.
  intros [Hb Hh] Hm Hoff Hp Hl4 Hs0 Ht0 Hs Ht csum.
  destruct (csum_offset_even p (off + 40)) as (j & Hk & Hev & Hk6 & Hkl). specialize (Hkl Hp).
  remember (skb_data (tc_ctx w)) as d eqn:Hd.
  assert (bytes 16 s0 /\ bytes 16 t0) as [Bs0 Bt0] by (subst s0 t0; split; apply slice_bytes16; done || lia).
  destruct (store_bytes_run s w (off + 8)) as (c1 & E1 & D1 & H1); rewrite <- ?Hd in *;
    [done|destruct Hs; lia|unfold offset_ok; destruct Hs; lia|].
  rewrite (prog_bind_Ok _ _ _ _ _ E1).
  assert (length (skb_data c1) = length d) as L1 by (rewrite D1; apply length_splice; destruct Hs; lia).
  destruct (store_bytes_run t (set_tc_ctx c1 w) (off + 24)) as (c2 & E2 & D2 & H2); simpl;
    [lia|destruct Ht; lia|unfold offset_ok; destruct Ht; lia|].
  rewrite (prog_bind_Ok _ _ _ _ _ E2), set_tc_ctx_twice. simpl in D2, H2.
  rewrite D1 in D2. replace (off + 24)%nat with (off + 8 + length s)%nat in D2 by (destruct Hs; lia).
  rewrite splice_app_r in D2 by (destruct Hs, Ht; lia).
  assert (length (skb_data c2) = length d) as L2
    by (rewrite D2; apply length_splice; rewrite length_app; destruct Hs, Ht; lia).
  destruct (csum_prog_seq (tc_maps w) csum _ _ _ _ (update_addr_csum_prog _ _ s0 s Bs0 Hs)
              (csum_prog_seq _ _ _ _ _ _ (update_addr_csum_prog _ _ t0 t Bt0 Ht)
                 (csum_prog_seq _ _ _ _ _ _ (dev_csum_fixup_prog (tc_maps w) csum t0 Hm Bt0)
                    (mark_mangled_prog _ csum)))
              (set_tc_ctx c2 w)) as (c3 & E3 & M3); simpl;
    [done|by apply csum_offset_of_ok|rewrite D2; apply splice_bytes; [apply Forall_app; split; [apply Hs|apply Ht]|done]|lia|unfold csum; lia|].
  exists c3. assert (H3 := M3). destruct H3 as (_ & _ & [_ H3] & _). simpl in H3. split_and!; [|lia|lia|].
  - rewrite set_tc_ctx_twice in E3. generalize (set_tc_ctx c2 w) as w2, E3. clear.
    unfold mbind, Prog_bind. intros w2 E3.
    destruct (update_addr_csum csum s0 s w2) as [[u1|] w3]; [|done].
    destruct (update_addr_csum csum t0 t w3) as [[u2|] w4]; [|done].
    destruct (dev_csum_fixup dev_mode csum t0 w4) as [[u3|] w5]; [|done].
    by rewrite E3.
  - eapply rewritten_of_moved; [done|apply Hs|apply Ht|lia|exact D2|].
    rewrite <- Hs0, <- Ht0. replace (_ - wan_delta (tc_maps w) t0) with
      (sum16 s - sum16 s0 + (sum16 t - sum16 t0 + (- wan_delta (tc_maps w) t0 + 0))) by lia. exact M3.
Qed.

(** What becomes of a translated reply: sent to the tunnel interface, or dropped
    when none is configured. *)
Definition tunnel (m : BpfMaps) : option Z :=
  match XFRM_IFINDEX m !! 0%nat with
  | Some idx => if idx =? 0 then None else Some idx
  | None => None
  end.

Definition sent (w : TcWorld) (c' : TcContext) : Result BpfErr Z * TcWorld :=
  match tunnel (tc_maps w) with
  | Some idx => (Ok TC_ACT_REDIRECT, mkTcWorld (tc_maps w) c' (Some (idx, 0)))
  | None => (Ok TC_ACT_SHOT, mkTcWorld (tc_maps w) c' (tc_redirect w))
  end.

Definition send_to_tunnel : Prog TcWorld Z :=
  xfrm_ifindex ← gets (fun w => XFRM_IFINDEX (tc_maps w) !! 0%nat);
  match xfrm_ifindex with
  | Some idx => if idx =? 0 then mret TC_ACT_SHOT else redirect idx 0
  | None => mret TC_ACT_SHOT
  end.

Lemma sent_run w c' : send_to_tunnel (set_tc_ctx c' w) = sent w c'.
Proof.
  unfold send_to_tunnel, sent, tunnel, mbind, Prog_bind, gets. simpl.
  destruct (XFRM_IFINDEX (tc_maps w) !! 0%nat) as [idx|]; [|done].
  destruct (idx =? 0); [done|]. unfold redirect. by rewrite redirect_total.
Qed.

Definition inbound_ok (w : TcWorld) (h : Header) (v : Verdict) (run : Result BpfErr Z * TcWorld) : Prop :=
  match v with
  | Pass => snd run = w /\ (fst run = Ok TC_ACT_OK \/ fst run = Err EUnit)
  | Drop => run = (Ok TC_ACT_SHOT, w)
  | Rewrite s t => exists c', run = sent w c' /\
      (skb_headlen (tc_ctx w) <= skb_headlen c' <= length (skb_data c'))%nat /\
      rewritten (h_off h) (h_proto h) s t (wan_delta (tc_maps w) (h_dst h))
        (skb_data (tc_ctx w)) (skb_data c')
  end.

Lemma try_tc_ingress_wan_no_header w :
  header_of (tc_ctx w) = None -> try_tc_ingress_wan dev_mode w = (Err EUnit, w).
Proof.
  unfold header_of, header_at, try_tc_ingress_wan. rewrite parse_run.
  destruct (framing (tc_ctx w)) as [off|]; [|done]. by destruct (_ <? off + 40)%nat.
Qed.

Lemma try_decode_active m addr ctx :
  try_decode_with_active_key (OBFS_KEYS m) addr ctx = (k ← active_key m; decode_proxy_src addr ctx k).
Proof.
  unfold try_decode_with_active_key, active_key. destruct (OBFS_KEYS m !! 0%nat) as [k|]; [|done].
  destruct (is_zero k); [done|]. simpl. by destruct (decode_proxy_src addr ctx k).
Qed.

Lemma try_tc_ingress_wan_header w h :
  tc_wf (tc_ctx w) -> maps_wf (tc_maps w) -> header_of (tc_ctx w) = Some h ->
  inbound_ok w h (inbound (tc_maps w) h) (try_tc_ingress_wan dev_mode w).
Proof.
  intros Hwf Hm Hh. unfold header_of in Hh. unfold try_tc_ingress_wan. rewrite parse_run.
  destruct (framing (tc_ctx w)) as [off|] eqn:Ef; [|done]. apply framing_cases in Ef.
  unfold header_at in Hh. cbv zeta in Hh.
  destruct (_ <? off + 40)%nat eqn:Eh; [done|]. apply Nat.ltb_ge in Eh.
  destruct (header_fields (skb_data (tc_ctx w)) off) as (-> & -> & ->).
  destruct ip6_size as [_ ->].
  set (p := proto_of_byte _) in *. set (src := take 16 (drop (off + 8) _)) in *.
  set (dst := take 16 (drop (off + 24) _)) in *.
  rewrite match_l4. apply (inj Some) in Hh. unfold inbound. subst h.
  cbn [h_proto h_dst h_src h_ports h_off].
  destruct (is_l4 p) eqn:Ep; cbn [negb]; [|by split; [|left]].
  destruct (has_prefix dst PROXY_SRC_PREFIX); cbn [negb]; [|by split; [|left]].
  pose proof (ports_run w off p Ep) as Epr.
  destruct (skb_headlen (tc_ctx w) <? off + 40 + l4_header_size p)%nat eqn:El4.
  { rewrite (prog_bind_Err _ _ _ _ _ Epr). by split; [|right]. }
  apply Nat.ltb_ge in El4. rewrite (prog_bind_Ok _ _ _ _ _ Epr).
  set (sp := from_be_bytes (take 2 (drop (off + 40) _))) in *.
  set (dp := from_be_bytes (take 2 (drop (off + 42) _))) in *.
  erewrite prog_bind_Ok by reflexivity. rewrite try_decode_active.
  destruct (k ← active_key (tc_maps w); _) as [[client_id domain_id]|] eqn:Ed; [|done].
  erewrite prog_bind_Ok by reflexivity.
  destruct (NAT_MAP (tc_maps w) !! domain_id) as [e|]; [|done].
  destruct (decide (src = origin_ipv6 e)) as [Hsrc|Hsrc];
    [|by rewrite (bool_decide_false (src = _)), bool_decide_true].
  rewrite (bool_decide_true (src = _)), bool_decide_false by auto.
  destruct (inbound_rewrite_run w off p src dst (synthetic_ipv6 domain_id)
               (client_vip_from_id24 client_id) send_to_tunnel) as (c' & Er & Hc & Hrw); try done;
    [apply bytes_synthetic|apply bytes_client_vip|].
  exists c'. rewrite <- sent_run. split_and!; [exact Er|lia|lia|done].
Qed.

(** What [inbound] demands of a run of [tc_ingress_wan] from [w]. *)
Definition implements_inbound (w : TcWorld) (run : Result BpfErr Z * TcWorld) : Prop :=
  match header_of (tc_ctx w) with
  | None => run = (Ok TC_ACT_OK, w)
  | Some h =>
      match inbound (tc_maps w) h with
      | Pass => run = (Ok TC_ACT_OK, w)
      | Drop => run = (Ok TC_ACT_SHOT, w)
      | Rewrite s t => exists c', run = sent w c' /\
          (skb_headlen (tc_ctx w) <= skb_headlen c' <= length (skb_data c'))%nat /\
          rewritten (h_off h) (h_proto h) s t (wan_delta (tc_maps w) (h_dst h))
            (skb_data (tc_ctx w)) (skb_data c')
      end
  end.

Lemma tc_ingress_wan_run (w : TcWorld) :
  tc_wf (tc_ctx w) -> maps_wf (tc_maps w) -> implements_inbound w (tc_ingress_wan dev_mode w).
Proof.
  intros Hwf Hm. unfold implements_inbound, tc_ingress_wan. destruct (header_of (tc_ctx w)) as [h|] eqn:Eh.
  - pose proof (try_tc_ingress_wan_header w h Hwf Hm Eh) as Hok. unfold inbound_ok in Hok.
    destruct (inbound (tc_maps w) h) as [| |s t].
    + destruct (try_tc_ingress_wan dev_mode w) as [r w']. simpl in Hok. by destruct Hok as [-> [-> | ->]].
    + by rewrite Hok.
    + destruct Hok as (c' & -> & ?). exists c'. split; [|done]. unfold sent. by destruct (tunnel _).
  - by rewrite try_tc_ingress_wan_no_header.
Qed.

(** C4. [tc_ingress_wan] refines the inbound translation.  Packets without an IPv6
    header in the linear part are passed unchanged; parsed packets are passed
    unchanged, dropped unchanged, or rewritten as [inbound] says and redirected to
    the tunnel interface (dropped when no interface is configured).  In production
    the rewritten packet's checksummed sum is unchanged modulo 65535; in dev mode it
    moves by the difference between the WAN address and the proxy-source address,
    which is what the WAN-side hook left out.  No map changes. *)
Theorem tc_ingress_wan_refines (w : TcWorld) :
  tc_wf (tc_ctx w) -> maps_wf (tc_maps w) -> implements_inbound w (tc_ingress_wan dev_mode w).
Proof. apply tc_ingress_wan_run. Qed.

End runs.

End EbpfRefine.
