(* ===== verification/Xdp.v ===== *)
(** * The WAN firewall: what [xdp_wan] does to a frame

    [wan_filter] is the decision on the parsed frame, with the debug counters the
    dev build bumps.  [xdp_wan] implements it on the raw bytes. *)

From S2P Require Import Prelude Contract Types ProxySrc Platform Ebpf PacketLemmas EbpfSpec EbpfRefine.
Import Contract Types ProxySrc Platform Ebpf PacketLemmas EbpfSpec EbpfRefine.
Local Open Scope Z_scope.

Module Xdp.

(** ** Specification *)

(** The header of an Ethernet frame that carries IPv6. *)
Definition frame_header (d : list Z) : option Header :=
  if (length d <? 14)%nat then None
  else if from_be_bytes (take 2 (drop 12 d)) =? 0x86dd then header_at (mkTc d (length d)) 14
  else None.

(** The connection a reply belongs to, as [REPLY_TRACK] records it. *)
Definition reply_key (h : Header) (sp dp : Z) : ReplyTrackKey :=
  mkReplyTrackKey (h_src h) (to_be16 sp) (to_be16 dp) (proto_num_of (h_proto h)) [0; 0; 0].

Inductive FrameVerdict := FPass | FDrop | FReaddress (dst : list Z).

(** Production: only the proxy-source prefix and ICMPv6 reach the host. *)
Definition wan_allowed (h : Header) : bool :=
  bool_decide (h_proto h = Ipv6Icmp) || has_prefix (h_dst h) PROXY_SRC_PREFIX.

(** Dev mode: also the WAN address, readdressed when the connection is tracked.
    The list holds the debug counters that are bumped, in order. *)
Definition dev_filter (m : BpfMaps) (h : Header) : FrameVerdict * list nat := (
  if bool_decide (h_proto h = Ipv6Icmp) then (FPass, [])
  else if has_prefix (h_dst h) PROXY_SRC_PREFIX then (FPass, [0; 1])
  else match DEV_WAN_IPV6 m !! 0 with
  | None => (FDrop, [0; 7; 5])
  | Some wan =>
      if negb (bool_decide (wan <> ZERO_ADDR) && bool_decide (h_dst h = wan)) then (FDrop, [0; 6; 5])
      else if negb (is_l4 (h_proto h)) then (FPass, [0; 2])
      else match h_ports h with
      | None => (FPass, [0; 2])
      | Some (sp, dp) =>
          match REPLY_TRACK m !! reply_key h sp dp with
          | Some v => (FReaddress (proxy_src v), [0; 2; 3])
          | None => (FPass, [0; 2; 4])
          end
      end
  end)%nat.

Definition bump (idxs : list nat) (m : BpfMaps) : BpfMaps :=
  fold_left (fun m i => set_dbg_counters (alter (fun v => wrapping_add 64 v 1) i (DBG_COUNTERS m)) m) idxs m.

(** The frame and action of a verdict. *)
Definition frame_after (v : FrameVerdict) (d : list Z) : list Z :=
  match v with FReaddress a => splice 38 a d | _ => d end.
Definition frame_action (v : FrameVerdict) : Z :=
  match v with FDrop => XDP_DROP | _ => XDP_PASS end.

(** ** Runs *)

Lemma bump_absent i m :
  DBG_COUNTERS m !! i = None -> set_dbg_counters (alter (fun v => wrapping_add 64 v 1) i (DBG_COUNTERS m)) m = m.
Proof.
  intros Hi. destruct m as [n x o dw r cs]; simpl in *. unfold set_dbg_counters; simpl. f_equal.
  apply list_eq. intros j. destruct (decide (i = j)) as [->|Hne].
  - by rewrite list_lookup_alter_eq, Hi.
  - by rewrite list_lookup_alter_ne.
Qed.

Lemma dbg_inc_run i w :
  dbg_inc i w = (Ok tt, mkXdpWorld (bump [i] (xdp_maps w)) (xdp_data w)).
Proof.
  destruct w as [m d]. unfold dbg_inc, bump. simpl. destruct (DBG_COUNTERS m !! i) as [v|] eqn:E.
  - do 4 f_equal. apply list_eq. intros j. destruct (decide (i = j)) as [->|Hne].
    + rewrite list_lookup_insert_eq by (by apply lookup_lt_Some in E). by rewrite list_lookup_alter_eq, E.
    + by rewrite list_lookup_insert_ne, list_lookup_alter_ne.
  - by rewrite bump_absent.
Qed.

Section runs.
Context `{NT : NetworkTypes} `{NTL : !NetworkTypesLaws}.

(** Framing and header access of [try_xdp_wan]. *)
Lemma frame_run {A} w (k : list Z -> Prog XdpWorld A) (other : Prog XdpWorld A) :
  (ethhdr ← ptr_at_xdp 0 sizeof_EthHdr;
   match ether_type ethhdr with
   | Ok EtherType_Ipv6 => ipv6hdr ← ptr_at_xdp EthHdr_LEN sizeof_Ipv6Hdr; k ipv6hdr
   | _ => other
   end) w =
  (let d := xdp_data w in
   if (length d <? 14)%nat then (Err EUnit, w)
   else if from_be_bytes (take 2 (drop 12 d)) =? 0x86dd then
     if (length d <? 54)%nat then (Err EUnit, w) else k (take 40 (drop 14 d)) w
   else other w).
Proof.
  unfold mbind, Prog_bind, ptr_at_xdp. destruct eth_size as [-> ->], ip6_size as [-> _]. cbv zeta.
  simpl plus. destruct (length (xdp_data w) <? 14)%nat; [done|]. rewrite drop_0.
  set (e := take 14 (xdp_data w)).
  assert (take 2 (drop 12 (xdp_data w)) = take 2 (drop 12 e)) as ->.
  { unfold e. symmetry. rewrite <- (drop_0 (xdp_data w)) at 1. by apply slice_slice. }
  destruct (Z.eqb_spec (from_be_bytes (take 2 (drop 12 e))) 0x86dd) as [He|He].
  - rewrite (proj2 (ether_type_ipv6 e) He). change (14 + 40)%nat with 54%nat. by destruct (length (xdp_data w) <? 54)%nat.
  - destruct (ether_type e) as [[|n]|n] eqn:Et; [|done..]. by apply ether_type_ipv6 in Et.
Qed.

Lemma xdp_wan_production_run (w : XdpWorld) :
  xdp_wan false w =
  (Ok (match frame_header (xdp_data w) with
       | Some h => if wan_allowed h then XDP_PASS else XDP_DROP
       | None => XDP_PASS
       end), w).
Proof.
  unfold xdp_wan, try_xdp_wan. rewrite frame_run. unfold frame_header, header_at. cbv zeta.
  destruct (length (xdp_data w) <? 14)%nat; [done|].
  destruct (_ =? 0x86dd); [|done]. simpl skb_headlen. simpl plus.
  destruct (length (xdp_data w) <? 54)%nat; [done|].
  destruct (header_fields (xdp_data w) 14) as (-> & _ & ->). unfold wan_allowed. cbn [h_proto h_dst].
  simpl skb_data. simpl plus. destruct (decide (proto_of_byte _ = Ipv6Icmp)).
  { by rewrite bool_decide_true. }
  rewrite bool_decide_false by done. unfold dev_dbg_inc, xdp_drop, mbind, Prog_bind, mret, Prog_ret.
  simpl. by destruct (has_prefix _ _).
Qed.

(** C18. The production WAN firewall: an IPv6 packet reaches the host exactly when
    it is ICMPv6 or addressed to the proxy-source prefix; everything that is not
    IPv6, or too short to tell, passes; and the frame, the maps and the debug
    counters are never touched. *)
Theorem xdp_wan_production (w : XdpWorld) :
  xdp_wan false w =
  (Ok (match frame_header (xdp_data w) with
       | Some h => if wan_allowed h then XDP_PASS else XDP_DROP
       | None => XDP_PASS
       end), w).
Proof. apply xdp_wan_production_run. Qed.

(** Ports read by [extract_l4_ports_xdp]. *)
Lemma ports_xdp_run w p :
  is_l4 p = true ->
  extract_l4_ports_xdp 54 p w =
  (if (length (xdp_data w) <? 54 + l4_header_size p)%nat then Err EUnit
   else Ok (from_be_bytes (take 2 (drop 54 (xdp_data w))),
            from_be_bytes (take 2 (drop 56 (xdp_data w)))), w).
Proof.
  intros Hp. destruct l4_size as [Ht Hu].
  assert (forall n, (4 <= n)%nat -> forall (d : list Z), take 2 (take n (drop 54 d)) = take 2 (drop 54 d) /\
            take 2 (drop 2 (take n (drop 54 d))) = take 2 (drop 56 d)) as Hslice.
  { intros n Hn d. rewrite take_take, Nat.min_l by lia. split; [done|].
    change 56%nat with (54 + 2)%nat. apply slice_slice. lia. }
  destruct p; try discriminate Hp; unfold extract_l4_ports_xdp, mbind, Prog_bind, ptr_at_xdp;
    rewrite ?Ht, ?Hu; simpl l4_header_size; destruct (_ <? _)%nat; try done.
  - match goal with |- context [tcp_source ?h] => destruct (tcp_ports h) as [-> ->] end.
    by destruct (Hslice 20%nat ltac:(lia) (xdp_data w)) as [-> ->].
  - match goal with |- context [udp_src ?h] => destruct (udp_ports h) as [-> ->] end.
    by destruct (Hslice 8%nat ltac:(lia) (xdp_data w)) as [-> ->].
Qed.

(** The destination write through the header pointer. *)
Lemma write_dst_addr_run a w :
  (54 <= length (xdp_data w))%nat -> length a = 16%nat ->
  write_dst_addr a w = (Ok tt, mkXdpWorld (xdp_maps w) (splice 38 a (xdp_data w))).
Proof.
  intros Hl Ha. unfold write_dst_addr, modify, set_xdp_data. destruct eth_size as [_ ->], ip6_size as [-> _].
  do 2 f_equal. rewrite set_dst_addr_slice by (rewrite ?length_take, ?length_drop; lia).
  unfold splice. rewrite take_take, Nat.min_l by lia. rewrite Ha, <- (app_assoc _ a), app_assoc, take_take_drop. done.
Qed.

Definition filtered (w : XdpWorld) (v : FrameVerdict * list nat) : Result BpfErr Z * XdpWorld :=
  (Ok (frame_action v.1), mkXdpWorld (bump v.2 (xdp_maps w)) (frame_after v.1 (xdp_data w))).

Lemma REPLY_TRACK_bump l m : REPLY_TRACK (bump l m) = REPLY_TRACK m.
Proof. unfold bump. revert m. induction l as [|i l IH]; [done|]. intros m. simpl. by rewrite IH. Qed.

Lemma DEV_WAN_bump l m : DEV_WAN_IPV6 (bump l m) = DEV_WAN_IPV6 m.
Proof. unfold bump. revert m. induction l as [|i l IH]; [done|]. intros m. simpl. by rewrite IH. Qed.

Lemma bump_app l l' m : bump l' (bump l m) = bump (l ++ l') m.
Proof. unfold bump. by rewrite fold_left_app. Qed.

Lemma maps_wf_bump l m : maps_wf m -> maps_wf (bump l m).
Proof.
  unfold bump. revert m. induction l as [|i l IH]; intros m Hm; [done|]. simpl. apply IH.
  destruct Hm. by constructor.
Qed.

(** The tracked-reply block, entered after counters [0; 2]. *)
Lemma xdp_dev_reply_run w h :
  maps_wf (xdp_maps w) -> header_at (mkTc (xdp_data w) (length (xdp_data w))) 14 = Some h ->
  xdp_dev_reply (take 40 (drop 14 (xdp_data w))) w =
  filtered w (if negb (is_l4 (h_proto h)) then (FPass, [])
              else match h_ports h with
              | None => (FPass, [])
              | Some (sp, dp) =>
                  match REPLY_TRACK (xdp_maps w) !! reply_key h sp dp with
                  | Some v => (FReaddress (proxy_src v), [3%nat])
                  | None => (FPass, [4%nat])
                  end
              end).
Proof.
  intros Hm. unfold header_at. cbv zeta. simpl skb_headlen. simpl skb_data.
  destruct (_ <? 14 + 40)%nat eqn:E54; [done|]. apply Nat.ltb_ge in E54. simpl in E54.
  intros Hh. apply (inj Some) in Hh. subst h. cbn [h_proto h_ports].
  unfold xdp_dev_reply, reply_key. cbv zeta. cbn [h_src h_proto].
  destruct (header_fields (xdp_data w) 14) as (-> & -> & _). destruct eth_size as [_ ->], ip6_size as [_ ->].
  change (14 + 40)%nat with 54%nat. change (14 + 42)%nat with 56%nat.
  change (14 + 6)%nat with 20%nat. change (14 + 8)%nat with 22%nat.
  set (p := proto_of_byte _). rewrite match_l4. destruct (is_l4 p) eqn:Ep; [|by destruct w].
  rewrite ports_xdp_run by done. simpl negb. cbv iota.
  destruct (length (xdp_data w) <? 54 + l4_header_size p)%nat; [by destruct w|].
  destruct (REPLY_TRACK (xdp_maps w) !! _) as [v|] eqn:Ev.
  - rewrite (prog_bind_Ok _ _ _ _ _ (dbg_inc_run 3 w)).
    erewrite prog_bind_Ok; [|apply write_dst_addr_run; simpl; [done|by apply (reply_track_wf _ Hm) in Ev as []]].
    done.
  - by rewrite (prog_bind_Ok _ _ _ _ _ (dbg_inc_run 4 w)).
Qed.

Lemma xdp_wan_dev_run (w : XdpWorld) :
  maps_wf (xdp_maps w) ->
  xdp_wan true w = filtered w (match frame_header (xdp_data w) with
                               | Some h => dev_filter (xdp_maps w) h
                               | None => (FPass, [])
                               end).
Proof.
  intros Hm. unfold xdp_wan, try_xdp_wan. rewrite frame_run. unfold frame_header. cbv zeta.
  destruct (length (xdp_data w) <? 14)%nat; [by destruct w|].
  destruct (_ =? 0x86dd); [|by destruct w].
  pose proof (fun wan => xdp_dev_reply_run (mkXdpWorld (bump [0; 2]%nat (xdp_maps w)) (xdp_data w)) wan) as Hr.
  cbn [xdp_maps xdp_data] in Hr. rewrite REPLY_TRACK_bump in Hr.
  destruct (header_at _ 14) as [h|] eqn:Eh; unfold header_at in Eh; cbv zeta in Eh; simpl skb_headlen in Eh;
    change (14 + 40)%nat with 54%nat in Eh; destruct (length (xdp_data w) <? 54)%nat; try done;
    [|by destruct w].
  specialize (Hr h (maps_wf_bump _ _ Hm) eq_refl).
  apply (inj Some) in Eh. destruct (header_fields (xdp_data w) 14) as (-> & _ & ->).
  assert (proto_of_byte (nth (14 + 6) (xdp_data w) 0) = h_proto h) as -> by by subst h.
  assert (take 16 (drop (14 + 24) (xdp_data w)) = h_dst h) as -> by by subst h.
  clear Eh. unfold dev_filter. destruct (decide (h_proto h = Ipv6Icmp)).
  { rewrite bool_decide_true by done. by destruct w. }
  rewrite bool_decide_false by done. unfold dev_dbg_inc. rewrite (prog_bind_Ok _ _ _ _ _ (dbg_inc_run 0 w)).
  destruct (has_prefix (h_dst h) PROXY_SRC_PREFIX).
  { by rewrite (prog_bind_Ok _ _ _ _ _ (dbg_inc_run 1 _)). }
  erewrite prog_bind_Ok by reflexivity. cbn [xdp_maps]. rewrite DEV_WAN_bump.
  destruct (DEV_WAN_IPV6 (xdp_maps w) !! 0%nat) as [wan|].
  - destruct (bool_decide (wan <> ZERO_ADDR) && bool_decide (h_dst h = wan)); simpl negb; cbv iota.
    + rewrite (prog_bind_Ok _ _ _ _ _ (dbg_inc_run 2 _)). cbn [xdp_maps xdp_data]. rewrite bump_app. simpl app.
      rewrite Hr. unfold filtered. cbn [xdp_maps xdp_data].
      repeat case_match; simplify_eq; done.
    + rewrite (prog_bind_Ok _ _ _ _ _ (dbg_inc_run 6 _)). unfold xdp_drop, dev_dbg_inc.
      by rewrite (prog_bind_Ok _ _ _ _ _ (dbg_inc_run 5 _)).
  - rewrite (prog_bind_Ok _ _ _ _ _ (dbg_inc_run 7 _)). unfold xdp_drop, dev_dbg_inc.
    by rewrite (prog_bind_Ok _ _ _ _ _ (dbg_inc_run 5 _)).
Qed.

(** C19. The dev-mode WAN hook: every frame gets exactly the verdict, the rewritten
    destination and the counter increments that [dev_filter] gives for its header.
    A reply to a tracked connection, addressed to the WAN address, is readdressed
    to the recorded proxy-source address and nothing else of the frame changes. *)
Theorem xdp_wan_dev (w : XdpWorld) :
  maps_wf (xdp_maps w) ->
  xdp_wan true w = filtered w (match frame_header (xdp_data w) with
                               | Some h => dev_filter (xdp_maps w) h
                               | None => (FPass, [])
                               end).
Proof. apply xdp_wan_dev_run. Qed.

End runs.

End Xdp.
