(* ===== verification/NatFlow.v ===== *)
(** * Flows through the data plane: a request, its reply, and the firewall

    The headers of translated packets, and the round trip of a connection: a
    client's packet leaves through [tc_ingress], the origin's reply comes back
    through [xdp_wan] and [tc_ingress_wan], and the client sees a reply from the
    address it contacted. *)

From S2P Require Import Prelude Contract Types ProxySrc Platform Ebpf PacketLemmas EbpfSpec EbpfRefine Xdp.
Import Contract Types ProxySrc Platform Ebpf PacketLemmas EbpfSpec EbpfRefine Xdp.
Local Open Scope Z_scope.

Module NatFlow.

(** ** The header of a translated packet *)

Definition set_addrs (s t : list Z) (h : Header) : Header :=
  mkHeader (h_off h) (h_proto h) s t (h_ports h).

Section readdressed.
Context (off : nat) (p : IpProto) (s t : list Z) (v : Z) (d : list Z).
Context (Hs : length s = 16%nat) (Ht : length t = 16%nat).
Context (Hlen : (csum_offset_of p (off + 40) + 2 <= length d)%nat).

Lemma length_readdressed : length (readdressed off p s t v d) = length d.
Proof.
  destruct (csum_offset_even p (off + 40)) as (k & Hk & _). unfold readdressed.
  rewrite length_write16. apply length_splice. rewrite length_app. lia.
Qed.

Lemma take_readdressed n : (n <= off + 8)%nat -> take n (readdressed off p s t v d) = take n d.
Proof.
  destruct (csum_offset_even p (off + 40)) as (k & Hk & _). intros Hn. unfold readdressed.
  rewrite take_write16 by lia. unfold splice. rewrite take_app_le by (rewrite length_take; lia).
  rewrite take_take. f_equal. lia.
Qed.

Lemma slice_readdressed_low n m :
  (n + m <= off + 8)%nat -> take m (drop n (readdressed off p s t v d)) = take m (drop n d).
Proof. intros H. by rewrite !take_drop_commute, take_readdressed. Qed.

Lemma addrs_readdressed :
  take 16 (drop (off + 8) (readdressed off p s t v d)) = s /\
  take 16 (drop (off + 24) (readdressed off p s t v d)) = t.
Proof.
  destruct (csum_offset_even p (off + 40)) as (k & Hk & _ & Hk6 & _). unfold readdressed.
  rewrite !take_drop_commute, !take_write16 by lia. rewrite <- !take_drop_commute.
  assert (take 32 (drop (off + 8) (splice (off + 8) (s ++ t) d)) = s ++ t) as E.
  { apply slice_splice; rewrite length_app; lia. }
  split.
  - transitivity (take 16 (take 32 (drop (off + 8) (splice (off + 8) (s ++ t) d)))).
    + by rewrite take_take.
    + by rewrite E, take_app_length'.
  - transitivity (take 16 (drop 16 (take 32 (drop (off + 8) (splice (off + 8) (s ++ t) d))))).
    + rewrite slice_slice by lia. do 2 f_equal. lia.
    + by rewrite E, drop_app_length', take_ge by lia.
Qed.

Lemma slice_readdressed_high n m :
  (off + 40 <= n)%nat -> (n + m <= csum_offset_of p (off + 40))%nat ->
  take m (drop n (readdressed off p s t v d)) = take m (drop n d).
Proof.
  intros Hn Hm. unfold readdressed. rewrite take_drop_commute, take_write16, <- take_drop_commute by lia.
  rewrite drop_splice_ge; [done|rewrite length_app; lia|rewrite length_app].
  destruct (csum_offset_even p (off + 40)) as (k & Hk & _). lia.
Qed.

Lemma nth_readdressed i : (i < off + 8)%nat -> nth i (readdressed off p s t v d) 0 = nth i d 0.
Proof.
  intros Hi. destruct (csum_offset_even p (off + 40)) as (k & Hk & _). unfold readdressed.
  rewrite nth_write16_lt by lia. apply nth_splice_lt; lia.
Qed.

End readdressed.

(** Parsing sees through a translation: the same framing, protocol and ports, and
    the new addresses. *)
Lemma header_of_rewritten c c' h s t delta ports :
  header_of c = Some h -> is_l4 (h_proto h) = true -> h_ports h = Some ports ->
  length s = 16%nat -> length t = 16%nat ->
  (skb_headlen c <= length (skb_data c))%nat ->
  (skb_headlen c <= skb_headlen c' <= length (skb_data c'))%nat ->
  rewritten (h_off h) (h_proto h) s t delta (skb_data c) (skb_data c') ->
  header_of c' = Some (set_addrs s t h).
Proof.
  intros Hh Hp Hports Hs Ht Hwf Hlin (v & _ & D & _). unfold header_of in Hh |- *.
  destruct (framing c) as [off|] eqn:Ef; [|done]. unfold header_at in Hh. cbv zeta in Hh.
  destruct (skb_headlen c <? off + 40)%nat eqn:E40; [done|]. apply (inj Some) in Hh. subst h.
  cbn [h_off h_proto h_ports] in *. set (d := skb_data c) in *. set (p := proto_of_byte _) in *.
  destruct (skb_headlen c <? off + 40 + l4_header_size p)%nat eqn:E4; [done|].
  apply Nat.ltb_ge in E40, E4.
  destruct (csum_offset_even p (off + 40)) as (k & Hk & _ & Hk6 & Hkl). specialize (Hkl Hp).
  assert (csum_offset_of p (off + 40) + 2 <= length d)%nat as Hlen by lia.
  assert (framing c' = Some off) as ->.
  { revert Ef. unfold framing. rewrite D. fold d. destruct (lookup_lt_is_Some_2 d 0 ltac:(lia)) as [b Eb].
    assert (readdressed off p s t v d !! 0%nat = Some b) as ->.
    { rewrite <- (lookup_take_lt _ 1) by lia. rewrite take_readdressed by lia. by rewrite lookup_take_lt by lia. }
    rewrite Eb. destruct (_ =? 6); [done|].
    destruct (skb_headlen c <? 14)%nat eqn:E14; [done|]. apply Nat.ltb_ge in E14.
    rewrite (proj2 (Nat.ltb_ge (skb_headlen c') 14)) by lia.
    destruct (_ =? 0x86dd) eqn:Ee; [|done]. intros [= <-]. by rewrite slice_readdressed_low, Ee by lia. }
  unfold header_at. cbv zeta. rewrite (proj2 (Nat.ltb_ge (skb_headlen c') _)) by lia.
  rewrite D, nth_readdressed by lia. fold p. rewrite (proj2 (Nat.ltb_ge (skb_headlen c') _)) by lia.
  destruct (addrs_readdressed off p s t v d Hs Ht Hlen) as [-> ->].
  by rewrite !slice_readdressed_high by lia.
Qed.

Lemma header_of_fields c h ports :
  header_of c = Some h -> h_ports h = Some ports ->
  h_src h = take 16 (drop (h_off h + 8) (skb_data c)) /\
  h_dst h = take 16 (drop (h_off h + 24) (skb_data c)) /\
  (h_off h + 40 + l4_header_size (h_proto h) <= skb_headlen c)%nat.
Proof.
  unfold header_of, header_at. intros Hh Hp. destruct (framing c) as [off|]; [|done]. cbv zeta in Hh.
  destruct (skb_headlen c <? off + 40)%nat; [done|]. apply (inj Some) in Hh. subst h.
  cbn [h_ports h_src h_dst h_off h_proto] in Hp |- *.
  destruct (skb_headlen c <? _)%nat eqn:E; [done|]. by apply Nat.ltb_ge in E.
Qed.

(** ** Configuration equivalence *)

(** Maps that agree on everything the control plane writes: they may differ in the
    tracked connections and the debug counters. *)
Record config_eq (m m' : BpfMaps) : Prop := {
  ce_nat : NAT_MAP m = NAT_MAP m';
  ce_xfrm : XFRM_IFINDEX m = XFRM_IFINDEX m';
  ce_keys : OBFS_KEYS m = OBFS_KEYS m';
  ce_wan : DEV_WAN_IPV6 m = DEV_WAN_IPV6 m'
}.

#[export] Instance config_eq_equiv : Equivalence config_eq.
Proof.
  split.
  - by intros m.
  - intros m m' []. by split.
  - intros m m' m'' [] []. split; congruence.
Qed.

#[export] Instance active_key_proper : Proper (config_eq ==> eq) active_key.
Proof. intros m m' []. unfold active_key. by rewrite ce_keys0. Qed.
#[export] Instance dev_wan_proper dev : Proper (config_eq ==> eq) (dev_wan dev).
Proof. intros m m' []. unfold dev_wan. by rewrite ce_wan0. Qed.
#[export] Instance tunnel_proper : Proper (config_eq ==> eq) tunnel.
Proof. intros m m' []. unfold tunnel. by rewrite ce_xfrm0. Qed.
#[export] Instance proxy_of_proper : Proper (config_eq ==> eq ==> eq ==> eq ==> eq) proxy_of.
Proof. intros m m' E ? h -> ? sp -> ? dp ->. unfold proxy_of. by rewrite E. Qed.
#[export] Instance outbound_proper dev : Proper (config_eq ==> eq ==> eq) (outbound dev).
Proof. intros m m' E ? h ->. 
  unfold outbound. rewrite (ce_nat _ _ E). destruct (h_ports h) as [[sp dp]|]; [|done].
  by rewrite (proxy_of_proper _ _ E h h eq_refl sp sp eq_refl dp dp eq_refl), (dev_wan_proper dev _ _ E). Qed.
#[export] Instance inbound_proper : Proper (config_eq ==> eq ==> eq) inbound.
Proof. intros m m' E ? h ->. 
  unfold inbound. rewrite (ce_nat _ _ E). destruct (h_ports h) as [[sp dp]|]; [|done].
  by rewrite (active_key_proper _ _ E). Qed.
#[export] Instance wan_delta_proper dev : Proper (config_eq ==> eq ==> eq) (wan_delta dev).
Proof. intros m m' E ? a ->. unfold wan_delta. by rewrite E. Qed.

Lemma config_eq_bump l m : config_eq (bump l m) m.
Proof.
  unfold bump. revert m. induction l as [|i l IH]; intros m; [done|]. simpl.
  etransitivity; [apply IH|]. by split.
Qed.

Lemma config_eq_outbound_maps `{BpfHelpers} dev m h : config_eq (outbound_maps dev m h) m.
Proof. unfold outbound_maps. repeat case_match; done. Qed.

Lemma maps_wf_outbound `{BpfHelpers} `{!BpfHelpersLaws} dev m h : maps_wf m -> maps_wf (outbound_maps dev m h).
Proof.
  intros Hm. unfold outbound_maps.
  destruct (outbound dev m h) as [| |s t], (dev_wan dev m) as [wan|], (h_ports h) as [[sp dp]|]; try done.
  destruct (proxy_of m h sp dp) as [proxy|] eqn:Ep; [|done].
  destruct (reply_track_insert _ _ _ _) as [tr|] eqn:Ei; [|done].
  apply reply_track_insert_Some in Ei as ->. destruct Hm as [H1 H2 H3 H4].
  split; simpl; [exact H1|exact H2|exact H3|]. intros k v. rewrite lookup_insert_Some.
  intros [[_ <-]|[_ Hk]]; [|by apply (H4 k)]. by eapply proxy_of_Some.
Qed.

(** ** Requests and replies *)

(** A client's packet to a registered name, with the gateway keyed. *)
Record request (m : BpfMaps) (h : Header) (c d : Z) (e : NatEntry) (k : ProxySrcKey) (sp dp : Z) : Prop := {
  rq_client : uN 24 c;
  rq_domain : uN 24 d;
  rq_src : h_src h = client_vip_from_id24 c;
  rq_dst : h_dst h = synthetic_ipv6 d;
  rq_l4 : is_l4 (h_proto h) = true;
  rq_ports : h_ports h = Some (sp, dp);
  rq_origin : NAT_MAP m !! d = Some e;
  rq_key : active_key m = Some k
}.

(** [hr] answers [h]: addresses and ports exchanged, same protocol. *)
Record reply_to (h hr : Header) : Prop := {
  rp_proto : h_proto hr = h_proto h;
  rp_src : h_src hr = h_dst h;
  rp_dst : h_dst hr = h_src h;
  rp_ports : h_ports hr = prod_swap <$> h_ports h
}.

Definition flow_of (h : Header) (sp dp : Z) : ProxySrcCtx := ProxySrcCtx_new sp dp (proto_num_of (h_proto h)).

(** The proxy-source address of a request. *)
Definition request_proxy (h : Header) (c d : Z) (k : ProxySrcKey) (sp dp : Z) : list Z :=
  proxy_addr (enc64_of c d (flow_of h sp dp) k) (flow_of h sp dp) k.

Lemma request_proxy_of m h c d e k sp dp :
  request m h c d e k sp dp -> proxy_of m h sp dp = Some (request_proxy h c d k sp dp).
Proof.
  intros []. unfold proxy_of. rewrite rq_key0, rq_src0, rq_dst0. unfold client_id_of.
  rewrite client_id_vip by (by apply (uN_weaken 24)).
  rewrite domain_id_synthetic by (by apply (uN_weaken 24)). by apply encode_Some.
Qed.

Lemma request_outbound dev m h c d e k sp dp :
  request m h c d e k sp dp ->
  outbound dev m h = Rewrite (default (request_proxy h c d k sp dp) (dev_wan dev m)) (origin_ipv6 e).
Proof.
  intros R. pose proof (request_proxy_of _ _ _ _ _ _ _ _ R) as Hx. destruct R. unfold outbound.
  rewrite rq_l5, rq_dst0, domain_id_synthetic, rq_origin0, rq_ports0, Hx by (by apply (uN_weaken 24)).
  done.
Qed.

Lemma reply_inbound m h c d e k sp dp hr :
  request m h c d e k sp dp -> maps_wf m -> uN 16 sp -> uN 16 dp ->
  reply_to (set_addrs (request_proxy h c d k sp dp) (origin_ipv6 e) h) hr ->
  inbound m hr = Rewrite (synthetic_ipv6 d) (client_vip_from_id24 c).
Proof.
  intros R Hm Hsp Hdp [Ep Es Ed Eports]. cbn [set_addrs h_proto h_src h_dst h_ports] in *.
  destruct R. rewrite rq_ports0 in Eports. simpl in Eports. unfold inbound.
  rewrite Ep, rq_l5, Ed, Eports, rq_key0, Es. unfold request_proxy at 1. simpl negb.
  change (has_prefix (proxy_addr _ _ _) PROXY_SRC_PREFIX) with true. cbv iota. simpl mbind.
  assert (key_wf k) as Hk.
  { unfold active_key in rq_key0. destruct (OBFS_KEYS m !! 0%nat) eqn:E; [|done].
    destruct (is_zero _); simplify_eq. by apply (keys_wf _ Hm 0%nat). }
  fold (flow_of h sp dp). unfold request_proxy. rewrite encode_decode; try done.
  - rewrite rq_origin0. by rewrite bool_decide_true.
  - unfold flow_of, ctx_wf. simpl. split_and!; try done; by destruct (h_proto h).
Qed.

(** ** Frames and packets *)

Lemma frame_header_of d n h ports :
  (n <= length d)%nat -> header_of (mkTc d n) = Some h -> h_off h = 14%nat -> h_ports h = Some ports ->
  frame_header d = Some h.
Proof.
  intros Hn Hh Ho Hp. unfold header_of, framing in Hh. simpl in Hh. unfold frame_header.
  destruct (d !! 0%nat) as [b|]; [|done]. destruct (Z.shiftr b 4 =? 6).
  { unfold header_at in Hh. repeat case_match; simplify_eq. }
  destruct (n <? 14)%nat eqn:E14; [done|]. apply Nat.ltb_ge in E14.
  rewrite (proj2 (Nat.ltb_ge (length d) 14)) by lia. destruct (_ =? 0x86dd); [|done].
  unfold header_at in *. cbv zeta in *. cbn [skb_headlen skb_data] in *.
  destruct (n <? 14 + 40)%nat eqn:E54; [done|]. apply Nat.ltb_ge in E54.
  rewrite (proj2 (Nat.ltb_ge (length d) (14 + 40))) by lia. apply (inj Some) in Hh. subst h. cbn [h_ports] in Hp.
  destruct (n <? 14 + 40 + _)%nat eqn:E4; [done|]. apply Nat.ltb_ge in E4.
  by rewrite (proj2 (Nat.ltb_ge (length d) (14 + 40 + _))) by lia.
Qed.

(** The destination write of the WAN hook is a translation that leaves the
    checksum word alone. *)
Lemma splice_dst_rewritten d p a :
  is_l4 p = true -> Forall (uN 8) d -> (54 + l4_header_size p <= length d)%nat -> bytes 16 a ->
  rewritten 14 p (take 16 (drop 22 d)) a (sum16 a - sum16 (take 16 (drop 38 d))) d (splice 38 a d).
Proof.
  intros Hp Hd Hl [Ha Hab]. set (s := take 16 (drop 22 d)).
  assert (length s = 16%nat) as Hs by (unfold s; rewrite length_take, length_drop; lia).
  destruct (csum_offset_even p (14 + 40)) as (k & Hk & _ & Hk6 & Hkl). specialize (Hkl Hp).
  assert (csum_offset_of p (14 + 40) + 2 <= length d)%nat as Hc by lia.
  assert (splice 38 a d = splice 22 (s ++ a) d) as E.
  { rewrite <- splice_app_r by lia. rewrite Hs. f_equal. unfold splice. rewrite Hs. unfold s.
    rewrite app_assoc, take_take_drop. symmetry. apply take_drop. }
  assert (splice 38 a d = readdressed 14 p s a (le16 d (csum_offset_of p (14 + 40))) d) as E'.
  { unfold readdressed. change (14 + 8)%nat with 22%nat. rewrite <- E.
    rewrite <- (le16_splice 38 a) by lia. symmetry. apply write16_same; [|rewrite length_splice; lia].
    by apply splice_bytes. }
  exists (le16 d (csum_offset_of p (14 + 40))). split_and!; [by apply uN_le16|done|].
  rewrite E'. apply residue_readdressed; [done..|]. f_equal.
  change (14 + 8)%nat with 22%nat. change (14 + 24)%nat with 38%nat. fold s. lia.
Qed.

(** ** Both directions *)

(** A frame received on the WAN interface, where [loader.rs] attaches [xdp_wan] and
    [tc_ingress_wan]: the kernel runs the second on what the first lets pass, [n]
    bytes of it in the linear part.  [None]: dropped by the first. *)
Definition wan_receive `{NetworkTypes, BpfHelpers} (dev : bool) (m : BpfMaps) (frame : list Z) (n : nat)
    : option (Result BpfErr Z * TcWorld) :=
  match xdp_wan dev (mkXdpWorld m frame) with
  | (Ok a, x) =>
      if a =? XDP_PASS
      then Some (tc_ingress_wan dev (mkTcWorld (xdp_maps x) (mkTc (xdp_data x) n) None))
      else None
  | (Err _, _) => None
  end.

(** The dev-mode WAN address is not itself a proxy-source address, and there is
    room to track one more connection. *)
Definition dev_ready (dev : bool) (m : BpfMaps) : Prop :=
  forall wan, dev_wan dev m = Some wan ->
    has_prefix wan PROXY_SRC_PREFIX = false /\ (size (REPLY_TRACK m) < MAX_ENTRIES)%nat.

Section flows.
Context `{NT : NetworkTypes} `{NTL : !NetworkTypesLaws} `{BH : BpfHelpers}
  `{BHL : !BpfHelpersLaws} `{BHR : !BpfHelpersReliable}.
Context (dev : bool).

Lemma header_ports_u16 c h sp dp :
  tc_wf c -> header_of c = Some h -> h_ports h = Some (sp, dp) -> uN 16 sp /\ uN 16 dp.
Proof.
  intros [Hb Hn] Hh Hp. unfold header_of, header_at in Hh. destruct (framing c) as [off|]; [|done].
  cbv zeta in Hh. destruct (skb_headlen c <? off + 40)%nat; [done|].
  apply (inj Some) in Hh. subst h. cbn [h_ports] in Hp.
  destruct (skb_headlen c <? _)%nat eqn:E; [done|]. apply Nat.ltb_ge in E.
  assert (forall o, (o + 2 <= length (skb_data c))%nat -> uN 16 (from_be_bytes (take 2 (drop o (skb_data c))))) as Hu.
  { intros o Ho. apply (uN_from_be 2). split; [rewrite length_take, length_drop; lia|].
    by apply Forall_take, Forall_drop. }
  simplify_eq. assert (4 <= l4_header_size (proto_of_byte (nth (off + 6) (skb_data c) 0%Z)))%nat
    by (destruct (proto_of_byte _); simpl; lia).
  split; apply Hu; lia.
Qed.

(** Delivery of a reply that [inbound] translates. *)
Lemma tc_wan_stage m frame n h s t idx ports :
  Forall (uN 8) frame -> (n <= length frame)%nat -> maps_wf m ->
  header_of (mkTc frame n) = Some h -> h_ports h = Some ports -> is_l4 (h_proto h) = true ->
  inbound m h = Rewrite s t -> bytes 16 s -> bytes 16 t -> tunnel m = Some idx ->
  exists w2, tc_ingress_wan dev (mkTcWorld m (mkTc frame n) None) = (Ok TC_ACT_REDIRECT, w2) /\
    tc_redirect w2 = Some (idx, 0) /\
    header_of (tc_ctx w2) = Some (set_addrs s t h) /\
    csum_residue (h_off h) (skb_data (tc_ctx w2)) =
      (csum_residue (h_off h) frame + wan_delta dev m (h_dst h)) mod 65535.
Proof.
  intros Hb Hn Hm Hh Hports Hl4 Hin [Hs _] [Ht _] Htun.
  pose proof (tc_ingress_wan_run dev (mkTcWorld m (mkTc frame n) None) (conj Hb Hn) Hm) as Href. unfold implements_inbound in Href.
  simpl in Href. rewrite Hh, Hin in Href. destruct Href as (c' & Er & Hc & Hrw).
  unfold sent in Er. simpl in Er. rewrite Htun in Er.
  exists (mkTcWorld m c' (Some (idx, 0))). split_and!; [done|done| |].
  - by eapply header_of_rewritten.
  - by destruct Hrw as (v & _ & _ & ?).
Qed.

(** The WAN hook on a frame for the proxy-source prefix, in either build. *)
Lemma xdp_stage_proxy m frame h :
  maps_wf m -> frame_header frame = Some h -> is_l4 (h_proto h) = true ->
  has_prefix (h_dst h) PROXY_SRC_PREFIX = true ->
  exists m', xdp_wan dev (mkXdpWorld m frame) = (Ok XDP_PASS, mkXdpWorld m' frame) /\
    config_eq m' m /\ maps_wf m'.
Proof.
  intros Hm Hf Hl4 Hp. assert (h_proto h <> Ipv6Icmp) by by destruct (h_proto h).
  destruct dev.
  - exists (bump [0; 1]%nat m). rewrite xdp_wan_dev_run by done. simpl xdp_data. rewrite Hf. unfold dev_filter.
    rewrite bool_decide_false, Hp by done. split_and!; [done| |].
    + apply config_eq_bump.
    + by apply maps_wf_bump.
  - exists m. rewrite xdp_wan_production_run. simpl xdp_data. rewrite Hf. unfold wan_allowed.
    by rewrite Hp, orb_true_r.
Qed.

(** The WAN hook on a reply to a tracked connection. *)
Lemma xdp_stage_tracked m frame h wan sp dp v :
  dev = true -> maps_wf m -> frame_header frame = Some h -> is_l4 (h_proto h) = true ->
  h_ports h = Some (sp, dp) -> dev_wan dev m = Some wan -> h_dst h = wan ->
  has_prefix wan PROXY_SRC_PREFIX = false -> REPLY_TRACK m !! reply_key h sp dp = Some v ->
  exists m', xdp_wan dev (mkXdpWorld m frame) = (Ok XDP_PASS, mkXdpWorld m' (splice 38 (proxy_src v) frame)) /\
    config_eq m' m /\ maps_wf m'.
Proof.
  intros Hdev Hm Hf Hl4 Hports Hwan Hdst Hp Htr. assert (h_proto h <> Ipv6Icmp) by by destruct (h_proto h).
  subst dev. exists (bump [0; 2; 3]%nat m). rewrite xdp_wan_dev_run by done. simpl xdp_data. rewrite Hf. unfold dev_filter.
  rewrite bool_decide_false, Hdst, Hp by done. simpl xdp_maps. unfold dev_wan in Hwan.
  destruct (DEV_WAN_IPV6 m !! 0%nat) as [a|]; [|done].
  case_bool_decide as Ha; [|done]. apply (inj Some) in Hwan as ->.
  rewrite bool_decide_true, Hl4, Hports, Htr by done. split_and!; [done| |].
  - apply config_eq_bump.
  - by apply maps_wf_bump.
Qed.

Lemma request_run w h c d e k sp dp :
  tc_wf (tc_ctx w) -> maps_wf (tc_maps w) -> header_of (tc_ctx w) = Some h ->
  request (tc_maps w) h c d e k sp dp ->
  let src := default (request_proxy h c d k sp dp) (dev_wan dev (tc_maps w)) in
  exists c', tc_ingress dev w =
      (Ok TC_ACT_OK, mkTcWorld (outbound_maps dev (tc_maps w) h) c' (tc_redirect w)) /\
    header_of c' = Some (set_addrs src (origin_ipv6 e) h) /\
    csum_residue (h_off h) (skb_data c') = csum_residue (h_off h) (skb_data (tc_ctx w)).
Proof.
  intros Hwf Hm Hh R src. pose proof (tc_ingress_run dev w Hwf Hm) as Href. unfold implements_outbound in Href.
  rewrite Hh, (request_outbound _ _ _ _ _ _ _ _ _ R) in Href. destruct Href as (c' & Er & Hc & Hrw).
  exists c'. split_and!; [done| |].
  - eapply header_of_rewritten; [done|apply R|apply R| | |apply Hwf|done|done].
    + unfold src. destruct (dev_wan dev _) as [a|] eqn:Ea; simpl;
        [by apply dev_wan_bytes in Ea as []|done].
    + by apply (nat_map_wf _ Hm d e), R.
  - destruct Hrw as (v & _ & _ & Hr). rewrite Hr, Z.add_0_r. unfold csum_residue. by rewrite Zmod_mod.
Qed.

(** The entry a dev-mode request leaves in [REPLY_TRACK]. *)
Lemma request_tracked m h c d e k sp dp wan hr :
  request m h c d e k sp dp -> dev_wan dev m = Some wan -> (size (REPLY_TRACK m) < MAX_ENTRIES)%nat ->
  reply_to (set_addrs wan (origin_ipv6 e) h) hr ->
  REPLY_TRACK (outbound_maps dev m h) !! reply_key hr dp sp =
  Some (mkReplyTrackValue (request_proxy h c d k sp dp)).
Proof.
  intros R Hwan Hsz [Ep Es Ed Eports]. cbn [set_addrs h_proto h_src h_dst h_ports] in *.
  pose proof (request_proxy_of _ _ _ _ _ _ _ _ R) as Hx. unfold outbound_maps.
  rewrite (request_outbound _ _ _ _ _ _ _ _ _ R), Hwan, (rq_ports _ _ _ _ _ _ _ _ R), Hx.
  destruct (reply_track_insert_total MAX_ENTRIES (REPLY_TRACK m)
              (mkReplyTrackKey (origin_ipv6 e) (to_be16 dp) (to_be16 sp) (proto_num_of (h_proto h)) [0; 0; 0])
              (mkReplyTrackValue (request_proxy h c d k sp dp)) Hsz) as [tr Etr].
  rewrite Etr. apply reply_track_insert_Some in Etr as ->. simpl. unfold reply_key.
  rewrite Ep, Es. by rewrite lookup_insert_eq.
Qed.

(** A reply, once it reaches [tc_ingress_wan] with the proxy-source address. *)
Lemma reply_tc_stage m h c d e k sp dp frame n hr idx :
  request m h c d e k sp dp -> uN 16 sp -> uN 16 dp -> maps_wf m ->
  Forall (uN 8) frame -> (n <= length frame)%nat ->
  header_of (mkTc frame n) = Some hr ->
  reply_to (set_addrs (request_proxy h c d k sp dp) (origin_ipv6 e) h) hr -> tunnel m = Some idx ->
  exists w2, tc_ingress_wan dev (mkTcWorld m (mkTc frame n) None) = (Ok TC_ACT_REDIRECT, w2) /\
    tc_redirect w2 = Some (idx, 0) /\
    header_of (tc_ctx w2) = Some (set_addrs (synthetic_ipv6 d) (client_vip_from_id24 c) hr) /\
    csum_residue (h_off hr) (skb_data (tc_ctx w2)) =
      (csum_residue (h_off hr) frame + wan_delta dev m (request_proxy h c d k sp dp)) mod 65535.
Proof.
  intros R Hsp Hdp Hm Hb Hn Hh Hrep Htun. rewrite <- (rp_dst _ _ Hrep : _ = request_proxy _ _ _ _ _ _).
  eapply tc_wan_stage; try done.
  - rewrite (rp_ports _ _ Hrep). simpl. by rewrite (rq_ports _ _ _ _ _ _ _ _ R).
  - rewrite (rp_proto _ _ Hrep). apply R.
  - by eapply reply_inbound.
  - apply bytes_synthetic.
  - apply bytes_client_vip.
Qed.

Lemma request_config m m1 h c d e k sp dp :
  config_eq m1 m -> request m h c d e k sp dp -> request m1 h c d e k sp dp.
Proof. intros E []. split; try done; by rewrite ?(ce_nat _ _ E), ?E. Qed.

Lemma residue_mod off d : csum_residue off d mod 65535 = csum_residue off d.
Proof. apply Zmod_mod. Qed.

(** What the client side sees of a reply. *)
Definition delivered (m : BpfMaps) (frame : list Z) (n : nat) (hr : Header) (src dst : list Z) (idx : Z) : Prop :=
  exists w2, wan_receive dev m frame n = Some (Ok TC_ACT_REDIRECT, w2) /\
    tc_redirect w2 = Some (idx, 0) /\
    header_of (tc_ctx w2) = Some (set_addrs src dst hr) /\
    csum_residue 14 (skb_data (tc_ctx w2)) = csum_residue 14 frame.

(** A reply addressed to the proxy-source address itself. *)
Lemma reply_direct m h c d e k sp dp frame n hr idx :
  request m h c d e k sp dp -> uN 16 sp -> uN 16 dp -> dev_wan dev m = None -> maps_wf m ->
  Forall (uN 8) frame -> (n <= length frame)%nat ->
  header_of (mkTc frame n) = Some hr -> h_off hr = 14%nat ->
  reply_to (set_addrs (request_proxy h c d k sp dp) (origin_ipv6 e) h) hr -> tunnel m = Some idx ->
  delivered m frame n hr (synthetic_ipv6 d) (client_vip_from_id24 c) idx.
Proof.
  intros R Hsp Hdp Hwan Hm Hb Hn Hh Ho Hrep Htun.
  assert (h_ports hr = Some (dp, sp)) as Hports.
  { destruct Hrep as [_ _ _ ->]. simpl. by rewrite (rq_ports _ _ _ _ _ _ _ _ R). }
  assert (is_l4 (h_proto hr) = true) as Hl4 by (destruct Hrep as [-> _ _ _]; apply R).
  destruct (xdp_stage_proxy m frame hr) as (m' & Ex & Hce & Hm'); [done| |done| |].
  { by eapply frame_header_of. }
  { by destruct Hrep as [_ _ -> _]. }
  destruct (reply_tc_stage m' h c d e k sp dp frame n hr idx) as (w2 & E2 & Hred & Hh2 & Hsum); try done.
  { by eapply request_config. }
  { by rewrite Hce. }
  exists w2. unfold wan_receive. rewrite Ex. simpl. split_and!; [by rewrite E2|done|done|].
  rewrite <- Ho, Hsum. unfold wan_delta. rewrite Hce, Hwan, Z.add_0_r. apply residue_mod.
Qed.

(** A reply addressed to the WAN address, its connection tracked. *)
Lemma reply_tracked m h c d e k sp dp wan frame n hr idx :
  dev = true -> request m h c d e k sp dp -> uN 16 sp -> uN 16 dp -> dev_wan dev m = Some wan -> maps_wf m ->
  has_prefix wan PROXY_SRC_PREFIX = false ->
  REPLY_TRACK m !! reply_key hr dp sp = Some (mkReplyTrackValue (request_proxy h c d k sp dp)) ->
  Forall (uN 8) frame -> (n <= length frame)%nat ->
  header_of (mkTc frame n) = Some hr -> h_off hr = 14%nat ->
  reply_to (set_addrs wan (origin_ipv6 e) h) hr -> tunnel m = Some idx ->
  delivered m frame n hr (synthetic_ipv6 d) (client_vip_from_id24 c) idx.
Proof.
  intros Hdev R Hsp Hdp Hwan Hm Hpre Htr Hb Hn Hh Ho Hrep Htun.
  assert (h_ports hr = Some (dp, sp)) as Hports.
  { destruct Hrep as [_ _ _ ->]. simpl. by rewrite (rq_ports _ _ _ _ _ _ _ _ R). }
  assert (is_l4 (h_proto hr) = true) as Hl4 by (destruct Hrep as [-> _ _ _]; apply R).
  set (proxy := request_proxy h c d k sp dp) in *.
  assert (bytes 16 proxy) as Bp by apply bytes_proxy_addr.
  destruct (xdp_stage_tracked m frame hr wan dp sp (mkReplyTrackValue proxy)) as (m' & Ex & Hce & Hm'); try done.
  { by eapply frame_header_of. }
  { apply Hrep. }
  destruct (header_of_fields _ _ _ Hh Hports) as (Esrc & Edst & Hlen). rewrite Ho in Esrc, Edst, Hlen.
  cbn [skb_data skb_headlen] in Esrc, Edst, Hlen.
  pose proof (splice_dst_rewritten frame (h_proto hr) proxy Hl4 Hb ltac:(lia) Bp) as Hrw.
  change (drop 22 frame) with (drop (14 + 8) frame) in Hrw. change (drop 38 frame) with (drop (14 + 24) frame) in Hrw.
  rewrite <- Esrc, <- Edst in Hrw.
  assert (length (splice 38 proxy frame) = length frame) as Hl
    by (apply length_splice; rewrite (proj1 Bp); lia).
  assert (header_of (mkTc (splice 38 proxy frame) n) = Some (set_addrs (h_src hr) proxy hr)) as Hh'.
  { eapply (header_of_rewritten (mkTc frame n)); try done; [rewrite Esrc, length_take, length_drop; lia
      |simpl; lia|by rewrite Ho]. }
  destruct (reply_tc_stage m' h c d e k sp dp (splice 38 proxy frame) n (set_addrs (h_src hr) proxy hr) idx)
    as (w2 & E2 & Hred & Hh2 & Hsum); try done.
  { by eapply request_config. }
  { apply splice_bytes; [apply Bp|done]. }
  { by rewrite Hl. }
  { destruct Hrep. by split. }
  { by rewrite Hce. }
  exists w2. unfold wan_receive. rewrite Ex. simpl. split_and!; [by rewrite E2|done|done|].
  cbn [set_addrs h_off] in Hsum. rewrite Ho in Hsum. rewrite Hsum.
  destruct Hrw as (_ & _ & _ & ->). unfold wan_delta. rewrite Hce, Hwan.
  rewrite (rp_dst _ _ Hrep). cbn [set_addrs h_src]. fold proxy.
  rewrite Z.add_mod_idemp_l by lia. rewrite <- (residue_mod 14 frame) at 2. f_equal. lia.
Qed.

(** C1. Connections survive the gateway.  A client's TCP or UDP packet to the
    synthetic address of a registered name leaves with the origin as destination
    and a checksum as valid as before; whatever the origin answers, once it arrives
    on the WAN interface, is sent into the tunnel with the client's own address as
    destination and the synthetic address the client contacted as source, its
    checksum again as valid as the origin made it.  In production the reply is
    recognised from its proxy-source address alone; in dev mode through the WAN
    address and the tracked connection.  The replies may be interleaved with any
    traffic that keeps the configuration and the tracked entry. *)
Theorem nat_round_trip (w : TcWorld) (h : Header) (c d : Z) (e : NatEntry) (k : ProxySrcKey) (sp dp : Z) :
  tc_wf (tc_ctx w) -> maps_wf (tc_maps w) -> header_of (tc_ctx w) = Some h ->
  request (tc_maps w) h c d e k sp dp -> dev_ready dev (tc_maps w) ->
  let h1 := set_addrs (default (request_proxy h c d k sp dp) (dev_wan dev (tc_maps w))) (origin_ipv6 e) h in
  exists w1, tc_ingress dev w = (Ok TC_ACT_OK, w1) /\ header_of (tc_ctx w1) = Some h1 /\
    config_eq (tc_maps w1) (tc_maps w) /\ maps_wf (tc_maps w1) /\
    csum_residue (h_off h) (skb_data (tc_ctx w1)) = csum_residue (h_off h) (skb_data (tc_ctx w)) /\
    forall m frame n hr idx,
      config_eq m (tc_maps w1) -> REPLY_TRACK (tc_maps w1) ⊆ REPLY_TRACK m -> maps_wf m ->
      Forall (uN 8) frame -> (n <= length frame)%nat ->
      header_of (mkTc frame n) = Some hr -> h_off hr = 14%nat -> reply_to h1 hr -> tunnel m = Some idx ->
      delivered m frame n hr (synthetic_ipv6 d) (client_vip_from_id24 c) idx.
Proof.
  intros Hwf Hm Hh R Hready h1. destruct (request_run w h c d e k sp dp Hwf Hm Hh R) as (c' & E1 & Hh1 & Hsum).
  destruct (header_ports_u16 _ _ _ _ Hwf Hh (rq_ports _ _ _ _ _ _ _ _ R)) as [Hsp Hdp].
  eexists. split_and!; [exact E1|exact Hh1|apply config_eq_outbound_maps|by apply maps_wf_outbound|done|].
  intros m frame n hr idx Hce Hsub Hm1 Hb Hn Hhr Ho Hrep Htun. simpl in Hce, Hsub.
  assert (config_eq m (tc_maps w)) as Hce' by (etransitivity; [exact Hce|apply config_eq_outbound_maps]).
  pose proof (request_config _ _ _ _ _ _ _ _ _ Hce' R) as R'.
  unfold h1 in Hrep. destruct (dev_wan dev (tc_maps w)) as [wan|] eqn:Ewan; simpl in Hrep.
  - destruct (Hready wan Ewan) as [Hpre Hsz].
    eapply reply_tracked; try done; [by destruct dev|by rewrite Hce'|].
    eapply lookup_weaken; [|exact Hsub]. by eapply request_tracked.
  - eapply reply_direct; try done. by rewrite Hce'.
Qed.

End flows.

End NatFlow.
