(* ===== verification/EbpfSafety.v ===== *)
(** * Safety of the eBPF programs

    What holds of the programs whatever the kernel helpers do: they never reach
    the [unreachable_unchecked] branch, never touch the control-plane maps, and
    end in a known verdict.  Then what the verdicts mean: which replies are let
    into the tunnel, and which packets are refused or overlooked. *)

From S2P Require Import Prelude Contract Types ProxySrc Platform Ebpf PacketLemmas EbpfSpec EbpfRefine Xdp NatFlow.
Import Contract Types ProxySrc Platform Ebpf PacketLemmas EbpfSpec EbpfRefine Xdp NatFlow.
Local Open Scope Z_scope.

Module EbpfSafety.

(** ** A small program logic *)

(** From states in [I], [p] never reaches [Undefined], stays in [I], moves the
    state along [R], and returns values in [Q]. *)
Definition safe {S A} (I : S -> Prop) (R : S -> S -> Prop) (p : Prog S A) (Q : A -> Prop) : Prop :=
  forall s, I s -> match p s with
            | (Ok a, s') => Q a /\ R s s' /\ I s'
            | (Err EUnit, s') => R s s' /\ I s'
            | (Err Undefined, _) => False
            end.

Section logic.
Context {S : Type} {I : S -> Prop} {R : S -> S -> Prop} `{!PreOrder R}.

Lemma safe_ret {A} (a : A) (Q : A -> Prop) : Q a -> safe I R (mret a) Q.
Proof. intros H s Hs. split_and!; [done|reflexivity|done]. Qed.

Lemma safe_bind {A B} (p : Prog S A) (k : A -> Prog S B) P Q :
  safe I R p P -> (forall a, P a -> safe I R (k a) Q) -> safe I R (p ≫= k) Q.
Proof.
  intros Hp Hk s Hs. specialize (Hp s Hs). unfold mbind, Prog_bind.
  destruct (p s) as [[a|[|]] s']; [|done..]. destruct Hp as (Ha & Hr & Hi). specialize (Hk a Ha s' Hi).
  destruct (k a s') as [[b|[|]] s'']; [| |done].
  - destruct Hk as (? & ? & ?). split_and!; [done|by etransitivity|done].
  - destruct Hk. split; [by etransitivity|done].
Qed.

Lemma safe_seq {A B} (p : Prog S A) (q : Prog S B) P Q :
  safe I R p P -> safe I R q Q -> safe I R (p;; q) Q.
Proof. intros Hp Hq. eapply safe_bind; [exact Hp|]. by intros _ _. Qed.

Lemma safe_gets {A} (f : S -> A) Q : (forall s, I s -> Q (f s)) -> safe I R (gets f) Q.
Proof. intros HQ s Hs. split_and!; [by apply HQ|reflexivity|done]. Qed.

Lemma safe_fail {A} Q : safe I R (fail EUnit : Prog S A) Q.
Proof. intros s Hs. split; [reflexivity|done]. Qed.

End logic.

(** ** The TC programs *)

Record tc_inv (w : TcWorld) : Prop := {
  inv_ctx : tc_wf (tc_ctx w);
  inv_maps : maps_wf (tc_maps w)
}.

(** A run keeps the control-plane maps and the packet size. *)
Record tc_kept (w w' : TcWorld) : Prop := {
  kept_config : config_eq (tc_maps w) (tc_maps w');
  kept_length : length (skb_data (tc_ctx w')) = length (skb_data (tc_ctx w))
}.

#[export] Instance tc_kept_preorder : PreOrder tc_kept.
Proof.
  split; [by intros w|]. intros w w' w'' [H1 H2] [H3 H4]. split; [by etransitivity|congruence].
Qed.

Definition tc_safe {A} : Prog TcWorld A -> (A -> Prop) -> Prop := safe tc_inv tc_kept.
Definition any {A} (_ : A) : Prop := True.

Section tc.
Context `{NT : NetworkTypes} `{NTL : !NetworkTypesLaws} `{BH : BpfHelpers} `{BHL : !BpfHelpersLaws}.
Context (dev_mode : bool).

(** A helper that replaces the packet by one of the same length. *)
Lemma safe_on_ctx f :
  (forall c c', tc_wf c -> f c = Some c' -> tc_wf c' /\ length (skb_data c') = length (skb_data c)) ->
  tc_safe (on_ctx f) any.
Proof.
  intros Hf w [Hc Hm]. unfold on_ctx. destruct (f (tc_ctx w)) as [c|] eqn:E; [|done].
  destruct (Hf _ _ Hc E). split_and!; [done|by split|by split].
Qed.

Lemma safe_ptr_at off size :
  tc_safe (ptr_at off size) (bytes size).
Proof.
  intros w Hw. unfold ptr_at. destruct (_ <? _)%nat eqn:E; [done|]. apply Nat.ltb_ge in E.
  split_and!; [|done|done]. destruct (inv_ctx _ Hw) as [Hb Hl].
  split; [rewrite length_take, length_drop; lia|by apply Forall_take, Forall_drop].
Qed.

Lemma safe_load_byte off : tc_safe (load_byte off) any.
Proof. intros w Hw. unfold load_byte. by destruct (skb_load_byte _ _). Qed.

Lemma safe_store_byte off b : uN 8 b -> tc_safe (on_ctx (fun c => skb_store_byte c off b)) any.
Proof.
  intros Hb. apply safe_on_ctx. intros c c' [Hd Hl] E. destruct (store_byte_Some _ _ _ _ Hl E) as (_ & D & L).
  rewrite D, length_insert in *. split; [|done]. split; rewrite D, ?length_insert; [by apply Forall_insert|lia].
Qed.

Lemma safe_csum_replace off to flags :
  flags = BPF_F_PSEUDO_HDR \/ to = 0 /\ flags = Z.lor BPF_F_PSEUDO_HDR BPF_F_MARK_MANGLED_0 -> uN 32 to ->
  tc_safe (on_ctx (fun c => l4_csum_replace c off 0 to flags)) any.
Proof.
  intros Hf Hto. apply safe_on_ctx. intros c c' [Hd Hl] E.
  destruct (csum_replace_Some _ _ _ _ _ Hl Hf Hto E) as (_ & L & v & Hv & D & _).
  rewrite D, length_write16 in *. split; [|done]. split; rewrite D, ?length_write16; [by apply write16_bytes|lia].
Qed.

Lemma safe_update_addr_csum off old new :
  bytes 16 old -> bytes 16 new -> tc_safe (update_addr_csum off old new) any.
Proof.
  intros Ho Hn. unfold update_addr_csum. destruct (csum_diff_sum old new Ho Hn) as [Hd _].
  apply safe_csum_replace; [by left|]. unfold as_u. rewrite wrap_small; [done|].
  apply (uN_weaken 32); [lia|done].
Qed.

Lemma safe_store_bytes s : Forall (uN 8) s -> forall off, tc_safe (store_bytes off s) any.
Proof.
  induction 1 as [|b s Hb Hs IH]; intros off; simpl; [by apply safe_ret|].
  eapply safe_seq; [by apply safe_store_byte|apply IH].
Qed.

Lemma safe_ipv6_offset : tc_safe ipv6_offset any.
Proof.
  unfold ipv6_offset. eapply safe_bind; [apply safe_load_byte|]. intros b _.
  destruct (_ =? 6); [by apply safe_ret|]. eapply safe_bind; [apply safe_ptr_at|]. intros h _.
  destruct (ether_type h) as [[|n]|n]; [by apply safe_ret|apply safe_fail..].
Qed.

Lemma safe_extract_ports off p : is_l4 p = true -> tc_safe (extract_l4_ports off p) any.
Proof.
  intros Hp. destruct p; try done; simpl; (eapply safe_bind; [apply safe_ptr_at|]);
    intros h _; by apply safe_ret.
Qed.

Lemma addrs_bytes h : bytes sizeof_Ipv6Hdr h -> bytes 16 (src_addr h) /\ bytes 16 (dst_addr h).
Proof.
  destruct ip6_size as [-> _]. intros [Hl Hb]. rewrite src_addr_slice, dst_addr_slice.
  split; apply slice_bytes16; done || lia.
Qed.

Lemma safe_choose_final_src origin sp dp pn proxy :
  bytes 16 proxy -> tc_safe (choose_final_src dev_mode origin sp dp pn proxy) (bytes 16).
Proof.
  intros Hp w [Hc Hm]. rewrite choose_final_src_run. split_and!.
  - destruct (dev_wan dev_mode (tc_maps w)) eqn:E; [by apply (dev_wan_bytes dev_mode) in E|done].
  - split; [|done]. unfold tracked_maps. repeat case_match; done.
  - split; [done|]. unfold tracked_maps. simpl. destruct (dev_wan _ _); [|done].
    destruct (reply_track_insert _ _ _ _) as [t|] eqn:E; [|done].
    apply reply_track_insert_Some in E as ->. destruct Hm as [H1 H2 H3 H4].
    split; simpl; [exact H1|exact H2|exact H3|]. intros k v. rewrite lookup_insert_Some.
    intros [[_ <-]|[_ Hk]]; [done|by apply (H4 k)].
Qed.

Lemma encode_bytes c d ctx k addr : encode_proxy_src c d ctx k = Some addr -> bytes 16 addr.
Proof.
  rewrite encode_app. destruct (_ || _); [done|]. intros E. apply (inj Some) in E as <-. apply bytes_proxy_addr.
Qed.

Definition is_action (a : Z) : Prop := a = TC_ACT_OK \/ a = TC_ACT_SHOT \/ a = TC_ACT_REDIRECT.

(** [safe] for each of the program forms the two TC programs are made of. *)
Ltac safe_step :=
  unfold tc_safe;
  match goal with
  | |- safe _ _ (mret _) _ => apply safe_ret; unfold is_action; tauto
  | |- safe _ _ (match ?x with _ => _ end) _ => destruct x eqn:?
  | |- safe _ _ (store_bytes _ _;; _) _ => eapply safe_seq; [apply safe_store_bytes|]
  | |- safe _ _ (update_addr_csum _ _ _;; _) _ => eapply safe_seq; [apply safe_update_addr_csum|]
  end.

Lemma safe_nat_entry d : tc_safe (gets (fun w => NAT_MAP (tc_maps w) !! d))
  (fun r => forall e, r = Some e -> bytes 16 (origin_ipv6 e)).
Proof. apply safe_gets. intros w [_ Hm] e He. by apply (nat_map_wf _ Hm d). Qed.

Lemma safe_try_tc_ingress : tc_safe (try_tc_ingress dev_mode) is_action.
Proof.
  unfold try_tc_ingress. eapply safe_bind; [apply safe_ipv6_offset|]. intros off _.
  eapply safe_bind; [apply safe_ptr_at|]. intros h Hh. apply addrs_bytes in Hh as [Hsrc Hdst].
  rewrite match_l4. destruct (is_l4 (next_hdr h)) eqn:Hl4; [|safe_step].
  safe_step; [safe_step|]. eapply safe_bind; [apply safe_nat_entry|]. intros r Hr.
  destruct r as [e|]; [|safe_step]. specialize (Hr e eq_refl).
  eapply safe_bind; [by apply safe_extract_ports|]. intros [sp dp] _.
  eapply safe_bind; [by apply (safe_gets _ any)|]. intros [k|] _; [|safe_step].
  safe_step; [safe_step|]. safe_step; [|safe_step]. apply encode_bytes in Heqo.
  safe_step; [apply Hr|]. eapply safe_bind; [by apply safe_choose_final_src|]. intros final Hf.
  safe_step; [apply Hf|]. repeat safe_step; done.
Qed.

Lemma safe_dev_csum_fixup off a : bytes 16 a -> tc_safe (dev_csum_fixup dev_mode off a) any.
Proof.
  intros Ha. unfold dev_csum_fixup. destruct dev_mode; [|by apply safe_ret].
  eapply safe_bind; [apply (safe_gets _ (fun r => forall x, r = Some x -> bytes 16 x))|].
  - intros w [_ Hm] x Hx. by apply (dev_wan_wf _ Hm 0%nat).
  - intros [wan|] Hw; [|by apply safe_ret]. case_bool_decide; [|by apply safe_ret].
    apply safe_update_addr_csum; auto.
Qed.

Lemma safe_redirect idx : tc_safe (redirect idx 0) is_action.
Proof.
  intros w [Hc Hm]. unfold redirect, is_action. split_and!; [|by split|by split].
  destruct (redirect_action idx) as [-> | ->]; [by right; right|by right; left].
Qed.

Lemma safe_try_tc_ingress_wan : tc_safe (try_tc_ingress_wan dev_mode) is_action.
Proof.
  unfold try_tc_ingress_wan. eapply safe_bind; [apply safe_ipv6_offset|]. intros off _.
  eapply safe_bind; [apply safe_ptr_at|]. intros h Hh. apply addrs_bytes in Hh as [Hsrc Hdst].
  rewrite match_l4. destruct (is_l4 (next_hdr h)) eqn:Hl4; [|safe_step].
  safe_step; [safe_step|]. eapply safe_bind; [by apply safe_extract_ports|]. intros [sp dp] _.
  eapply safe_bind; [by apply (safe_gets _ any)|]. intros [[c d]|] _; [|safe_step].
  eapply safe_bind; [apply safe_nat_entry|]. intros [e|] Hr; [|safe_step].
  safe_step; [safe_step|].
  safe_step; [apply bytes_synthetic|]. safe_step; [apply bytes_client_vip|].
  safe_step; [done|apply bytes_synthetic|]. safe_step; [done|apply bytes_client_vip|].
  eapply safe_seq; [by apply safe_dev_csum_fixup|].
  eapply safe_seq; [apply safe_csum_replace; [by right|done]|].
  eapply safe_bind; [by apply (safe_gets _ any)|]. intros [idx|] _; [|safe_step].
  safe_step; [safe_step|apply safe_redirect].
Qed.

(** The wrapper of both TC programs: an error becomes [TC_ACT_OK]. *)
Lemma safe_run (p : Prog TcWorld Z) w :
  tc_safe p is_action -> tc_inv w ->
  exists a w', match p w with
    | (Ok action, w) => (Ok action, w)
    | (Err EUnit, w) => (Ok TC_ACT_OK, w)
    | (Err Undefined, w) => (Err Undefined, w)
    end = (Ok a, w') /\ is_action a /\ tc_kept w w' /\ tc_inv w'.
Proof.
  intros Hp Hw. specialize (Hp w Hw). destruct (p w) as [[a|[|]] w']; [| |done].
  - by exists a, w'.
  - exists TC_ACT_OK, w'. split_and!; [done|by left|apply Hp..].
Qed.

(** C11. The TC programs are total and well-behaved even when kernel helpers fail
    half-way: on every packet both return a TC action (never the undefined
    [unreachable_unchecked] branch), the packet keeps its length, stays a byte
    buffer, and the maps the daemon owns (NAT_MAP, keys, interface, WAN address) are
    unchanged. *)
Theorem tc_programs_safe (w : TcWorld) (prog : Prog TcWorld Z) :
  tc_wf (tc_ctx w) -> maps_wf (tc_maps w) ->
  prog = tc_ingress dev_mode \/ prog = tc_ingress_wan dev_mode ->
  exists a w', prog w = (Ok a, w') /\ is_action a /\ config_eq (tc_maps w) (tc_maps w') /\
    length (skb_data (tc_ctx w')) = length (skb_data (tc_ctx w)) /\
    tc_wf (tc_ctx w') /\ maps_wf (tc_maps w').
Proof.
  intros Hc Hm Hprog.
  assert (exists p, tc_safe p is_action /\ prog w = match p w with
    | (Ok action, w) => (Ok action, w)
    | (Err EUnit, w) => (Ok TC_ACT_OK, w)
    | (Err Undefined, w) => (Err Undefined, w)
    end) as (p & Hp & ->).
  { destruct Hprog as [-> | ->]; [exists (try_tc_ingress dev_mode)|exists (try_tc_ingress_wan dev_mode)].
    - split; [apply safe_try_tc_ingress|done].
    - split; [apply safe_try_tc_ingress_wan|done]. }
  destruct (safe_run p w Hp) as (a & w' & E & Ha & [Hk Hl] & [Hc' Hm']); [by split|].
  exists a, w'. split_and!; done.
Qed.

End tc.

End EbpfSafety.
