(* ===== verification/Verdicts.v ===== *)
(** * What the verdicts of the data plane mean

    Which replies enter the tunnel, and which client packets are refused or
    overlooked: authenticity of redirected packets, key rotation, oversized client
    identifiers, and Ethernet frames taken for bare IPv6. *)

From S2P Require Import Prelude Contract Types ProxySrc Platform Ebpf PacketLemmas EbpfSpec EbpfRefine Xdp NatFlow.
Import Contract Types ProxySrc Platform Ebpf PacketLemmas EbpfSpec EbpfRefine Xdp NatFlow.
Local Open Scope Z_scope.

Module Verdicts.

Lemma has_prefix_take a p : bytes 16 a -> bytes 4 p -> has_prefix a p = true <-> take 4 a = p.
Proof.
  intros Ha Hp. bytes_destruct Ha. bytes_destruct Hp. unfold has_prefix. simpl.
  rewrite !andb_true_iff, !Z.eqb_eq. split; [by intros [[[-> ->] ->] ->]|]. by intros [= -> -> -> ->].
Qed.

Lemma active_key_wf m k : maps_wf m -> active_key m = Some k -> key_wf k.
Proof.
  intros Hm. unfold active_key. destruct (OBFS_KEYS m !! 0%nat) eqn:E; [|done].
  destruct (is_zero _); [done|]. intros [= <-]. by apply (keys_wf _ Hm 0%nat).
Qed.

Lemma flow_ctx_wf sp dp p : uN 16 sp -> uN 16 dp -> ctx_wf (ProxySrcCtx_new sp dp (proto_num_of p)).
Proof. intros. unfold ctx_wf. simpl. split_and!; try done; by destruct p. Qed.

(** A genuine reply: for a known origin, to an address this gateway made for this
    very flow with the active key. *)
Definition genuine (m : BpfMaps) (h : Header) : Prop :=
  exists c d e k sp dp, is_l4 (h_proto h) = true /\ h_ports h = Some (sp, dp) /\
    active_key m = Some k /\
    encode_proxy_src c d (ProxySrcCtx_new dp sp (proto_num_of (h_proto h))) k = Some (h_dst h) /\
    NAT_MAP m !! d = Some e /\ h_src h = origin_ipv6 e /\ uN 32 c /\ uN 32 d.

Lemma inbound_rewrite_iff ctx m h :
  tc_wf ctx -> maps_wf m -> header_of ctx = Some h ->
  (exists s t, inbound m h = Rewrite s t) <-> genuine m h.
Proof.
  intros Hc Hm Hh. split.
  - intros (s & t & E). unfold inbound in E. destruct (is_l4 (h_proto h)) eqn:El4; [|done].
    destruct (has_prefix _ _) eqn:Ep; [|done]. simpl in E.
    destruct (h_ports h) as [[sp dp]|] eqn:Eports; [|done].
    destruct (header_ports_u16 _ _ _ _ Hc Hh Eports) as [Hsp Hdp].
    assert (bytes 16 (h_dst h)) as Hdst.
    { destruct (header_of_fields _ _ _ Hh Eports) as (_ & -> & Hl). destruct Hc. apply slice_bytes16; [done|lia]. }
    destruct (active_key m) as [k|] eqn:Ek; [|done]. simpl in E.
    destruct (decode_proxy_src _ _ k) as [[c d]|] eqn:Ed; [|done].
    destruct (NAT_MAP m !! d) as [e|] eqn:En; [|done].
    case_bool_decide as Es; [|done].
    apply decode_Some in Ed as (Hc' & Hd' & Eaddr); [|done|by apply flow_ctx_wf|by eapply active_key_wf].
    exists c, d, e, k, sp, dp. split_and!; try done; try (by apply (uN_weaken 24)).
    rewrite encode_Some by done. f_equal. rewrite <- Eaddr.
    apply has_prefix_take in Ep; [|done|apply PROXY_SRC_PREFIX_bytes]. rewrite <- Ep. apply take_drop.
  - intros (c & d & e & k & sp & dp & El4 & Eports & Ek & Ee & En & Es & Hc0 & Hd0).
    destruct (header_ports_u16 _ _ _ _ Hc Hh Eports) as [Hsp Hdp].
    rewrite encode_app in Ee. destruct (_ || _) eqn:Er; [done|]. apply (inj Some) in Ee.
    exists (synthetic_ipv6 d), (client_vip_from_id24 c). unfold inbound. rewrite El4, <- Ee, Eports, Ek.
    simpl negb. change (has_prefix (proxy_addr _ _ _) PROXY_SRC_PREFIX) with true. cbv iota. simpl mbind.
    apply ids_in_range in Er as [Hc' Hd']; [|done..].
    rewrite encode_decode; [|by apply flow_ctx_wf|by eapply active_key_wf|done|done].
    by rewrite En, bool_decide_true.
Qed.

Section verdicts.
Context `{NT : NetworkTypes} `{NTL : !NetworkTypesLaws} `{BH : BpfHelpers}
  `{BHL : !BpfHelpersLaws} `{BHR : !BpfHelpersReliable}.
Context (dev_mode : bool).

(** C5. Only genuine replies enter the tunnel: [tc_ingress_wan] redirects a packet
    exactly when its source is the registered origin of some domain and its
    destination is the address the encoder gives, under the active key, for a
    client, that domain and the packet's own ports and protocol (and the tunnel
    interface is configured).  Forged addresses, addresses of other flows and
    replies from other hosts never reach a client. *)
Theorem wan_redirect_iff (w : TcWorld) :
  tc_wf (tc_ctx w) -> maps_wf (tc_maps w) ->
  (exists w', tc_ingress_wan dev_mode w = (Ok TC_ACT_REDIRECT, w')) <->
  (exists h idx, header_of (tc_ctx w) = Some h /\ genuine (tc_maps w) h /\ tunnel (tc_maps w) = Some idx).
Proof.
  intros Hc Hm. pose proof (tc_ingress_wan_run dev_mode w Hc Hm) as Href. unfold implements_inbound in Href.
  destruct (header_of (tc_ctx w)) as [h|] eqn:Hh.
  - pose proof (inbound_rewrite_iff _ _ _ Hc Hm Hh) as Hiff.
    destruct (inbound (tc_maps w) h) as [| |s t].
    + split; [by intros [w' E]; rewrite Href in E|]. intros (h' & idx & [= <-] & Hg & _).
      by apply Hiff in Hg as (? & ? & ?).
    + split; [by intros [w' E]; rewrite Href in E|]. intros (h' & idx & [= <-] & Hg & _).
      by apply Hiff in Hg as (? & ? & ?).
    + destruct Href as (c' & -> & _). unfold sent. split.
      * intros [w' E]. destruct (tunnel (tc_maps w)) as [idx|]; [|done].
        exists h, idx. split_and!; [done| |done]. apply Hiff. by exists s, t.
      * intros (h' & idx & _ & _ & ->). by eexists.
  - rewrite Href. split; [by intros [w' E]|]. by intros (h & idx & ? & _).
Qed.

(** C31. Key rotation cuts established flows: a reply that carries an address made
    with the previous key (slot 1) is dropped as soon as the active key (slot 0)
    does not decode it, whatever slot 1 holds. *)
Theorem rotation_drops_reply (w : TcWorld) (h : Header) (k old : ProxySrcKey) (c d sp dp : Z) :
  tc_wf (tc_ctx w) -> maps_wf (tc_maps w) -> header_of (tc_ctx w) = Some h ->
  is_l4 (h_proto h) = true -> h_ports h = Some (sp, dp) ->
  OBFS_KEYS (tc_maps w) = [k; old] ->
  encode_proxy_src c d (ProxySrcCtx_new dp sp (proto_num_of (h_proto h))) old = Some (h_dst h) ->
  decode_proxy_src (h_dst h) (ProxySrcCtx_new dp sp (proto_num_of (h_proto h))) k = None ->
  tc_ingress_wan dev_mode w = (Ok TC_ACT_SHOT, w).
Proof.
  intros Hc Hm Hh Hl4 Hports Hk He Hd. pose proof (tc_ingress_wan_run dev_mode w Hc Hm) as Href. unfold implements_inbound in Href.
  rewrite Hh in Href.
  assert (inbound (tc_maps w) h = Drop) as E; [|by rewrite E in Href].
  rewrite encode_app in He. destruct (_ || _); [done|]. apply (inj Some) in He.
  assert (active_key (tc_maps w) = if is_zero k then None else Some k) as Ek
    by (unfold active_key; by rewrite Hk).
  assert (has_prefix (h_dst h) PROXY_SRC_PREFIX = true) as Hp by by rewrite <- He.
  unfold inbound. rewrite Hl4, Hports, Ek, Hp. cbn [negb]. cbv iota.
  destruct (is_zero k); [done|]. cbn [mbind option_bind]. by rewrite Hd.
Qed.

(** A client whose identifier does not fit 24 bits is cut off: every TCP or UDP
    packet it sends to the synthetic address of a registered name is dropped. *)
Theorem wide_client_dropped (w : TcWorld) (h : Header) (e : NatEntry) (ports : Z * Z) :
  tc_wf (tc_ctx w) -> maps_wf (tc_maps w) -> header_of (tc_ctx w) = Some h ->
  is_l4 (h_proto h) = true -> h_ports h = Some ports ->
  has_prefix (h_dst h) SYNTHETIC_PREFIX = true ->
  NAT_MAP (tc_maps w) !! domain_id_from_ipv6 (h_dst h) = Some e ->
  2 ^ 24 <= client_id_of (h_src h) ->
  tc_ingress dev_mode w = (Ok TC_ACT_SHOT, w).
Proof.
  intros Hc Hm Hh Hl4 Hports Hp He Hid. pose proof (tc_ingress_run dev_mode w Hc Hm) as Href. unfold implements_outbound in Href.
  rewrite Hh in Href.
  assert (outbound dev_mode (tc_maps w) h = Drop) as E; [|by rewrite E in Href].
  unfold outbound, proxy_of. rewrite Hl4, Hp, He, Hports. destruct ports as [sp dp]. simpl.
  destruct (active_key (tc_maps w)) as [k|]; [|done]. rewrite encode_app, CLIENT_ID_MAX_24.
  by rewrite (proj2 (Z.ltb_lt (2 ^ 24 - 1) _)) by lia.
Qed.

(** An Ethernet frame whose destination MAC starts with the nibble 6 is taken
    for a bare IPv6 packet: its seventh byte (the first of the source MAC) is read
    as the next-header field, and unless that byte happens to be 6 or 17 both TC
    programs pass the frame untranslated, whatever IPv6 packet it carries. *)
Theorem mac_nibble_six_untranslated (w : TcWorld) :
  tc_wf (tc_ctx w) -> maps_wf (tc_maps w) -> skb_data (tc_ctx w) <> [] ->
  Z.shiftr (nth 0 (skb_data (tc_ctx w)) 0) 4 = 6 ->
  nth 6 (skb_data (tc_ctx w)) 0 <> 6 -> nth 6 (skb_data (tc_ctx w)) 0 <> 17 ->
  tc_ingress dev_mode w = (Ok TC_ACT_OK, w) /\ tc_ingress_wan dev_mode w = (Ok TC_ACT_OK, w).
Proof.
  intros Hc Hm Hne Hn H6 H17. pose proof (tc_ingress_run dev_mode w Hc Hm) as Hout. unfold implements_outbound in Hout.
  pose proof (tc_ingress_wan_run dev_mode w Hc Hm) as Hin. unfold implements_inbound in Hin.
  assert (framing (tc_ctx w) = Some 0%nat) as Ef.
  { unfold framing. destruct (skb_data (tc_ctx w)) as [|b l]; [done|]. simpl in Hn |- *. by rewrite Hn. }
  unfold header_of in Hout, Hin. rewrite Ef in Hout, Hin. unfold header_at in Hout, Hin. cbv zeta in Hout, Hin.
  destruct (skb_headlen (tc_ctx w) <? 0 + 40)%nat; [done|].
  assert (is_l4 (proto_of_byte (nth (0 + 6) (skb_data (tc_ctx w)) 0)) = false) as El4.
  { simpl plus. unfold proto_of_byte. rewrite (proj2 (Z.eqb_neq _ _) H6), (proj2 (Z.eqb_neq _ _) H17).
    by destruct (_ =? 58). }
  unfold outbound in Hout. unfold inbound in Hin. cbn [h_proto] in Hout, Hin. by rewrite El4 in Hout, Hin.
Qed.

End verdicts.

End Verdicts.
