(* ===== verification/DataPlaneExamples.v ===== *)
(** * Concrete packets through the data plane

    A gateway with one registered name and one key, a client's request and the
    origin's reply, on the concrete platform of [Platform]; the theorems about the
    programs applied to them. *)

From S2P Require Import Prelude Contract Types ProxySrc Platform Ebpf PacketLemmas EbpfSpec EbpfRefine Xdp NatFlow EbpfSafety Verdicts.
Import Contract Types ProxySrc Platform Ebpf PacketLemmas EbpfSpec EbpfRefine Xdp NatFlow EbpfSafety Verdicts.
Local Open Scope Z_scope.

Module DataPlaneExamples.

Definition origin : list Z := [0x26; 0x06; 0x47; 0x00; 0; 0; 0; 0; 0; 0; 0; 0; 0; 0; 0x11; 0x11].
Definition wan_addr : list Z := [0x2a; 0x01; 0x04; 0xf9; 0; 0; 0; 0; 0; 0; 0; 0; 0; 0; 0; 1].
Definition old_key : ProxySrcKey := mkProxySrcKey (replicate 16 0x11) (replicate 16 0x22).

Definition gateway : BpfMaps :=
  mkMaps {[42 := mkNatEntry origin]} [9] [TEST_KEY; old_key] [wan_addr] ∅ (replicate 8 0).

(** A UDP packet: addresses, ports, an empty payload. *)
Definition udp (src dst sport dport : list Z) : list Z :=
  [0x60; 0; 0; 0; 0; 8; 17; 64] ++ src ++ dst ++ sport ++ dport ++ [0; 8; 0x12; 0x34].
Definition eth : list Z := [2; 0; 0; 0; 0; 1; 2; 0; 0; 0; 0; 2; 0x86; 0xdd].

Definition world_of (m : BpfMaps) (d : list Z) : TcWorld := mkTcWorld m (mkTc d (length d)) None.

Definition PORT_A : list Z := [195; 80].
Definition PORT_B : list Z := [1; 187].
Definition request_packet : list Z := udp (client_vip_from_id24 7) (synthetic_ipv6 42) PORT_A PORT_B.
Definition request_header : Header :=
  mkHeader 0 Udp (client_vip_from_id24 7) (synthetic_ipv6 42) (Some (50000, 443)).

Definition proxy_7 : list Z := request_proxy request_header 7 42 TEST_KEY 50000 443.
Definition reply_frame (dst : list Z) : list Z := eth ++ udp origin dst PORT_B PORT_A.
Definition reply_header (dst : list Z) : Header := mkHeader 14 Udp origin dst (Some (443, 50000)).

(** ** Well-formedness *)

Lemma bytes_of_bool (l : list Z) :
  forallb (fun b => (0 <=? b) && (b <? 256)) l = true -> Forall (uN 8) l.
Proof.
  rewrite forallb_forall, Forall_forall. intros H x Hx. apply list_elem_of_In, H in Hx. unfold uN. lia.
Qed.

Ltac bytes_now := apply bytes_of_bool; vm_compute; reflexivity.

Lemma gateway_wf : maps_wf gateway.
Proof.
  split.
  - intros i e. simpl. rewrite lookup_singleton_Some. intros [_ <-]. split; [done|bytes_now].
  - intros [|[|i]] k; simpl; [| |done]; intros [= <-]; [apply test_key_wf|].
    split; split; (done || bytes_now).
  - intros [|i] a; simpl; [|done]. intros [= <-]. split; [done|bytes_now].
  - intros k v. simpl. by rewrite lookup_empty.
Qed.

Lemma request_wf : tc_wf (tc_ctx (world_of gateway request_packet)).
Proof. split; [bytes_now|done]. Qed.

Lemma request_parsed : header_of (tc_ctx (world_of gateway request_packet)) = Some request_header.
Proof. vm_compute. reflexivity. Qed.

Lemma request_ok : request gateway request_header 7 42 (mkNatEntry origin) TEST_KEY 50000 443.
Proof. by split. Qed.

Lemma proxy_7_bytes : bytes 16 proxy_7.
Proof. apply bytes_proxy_addr. Qed.

Lemma reply_frame_bytes dst : bytes 16 dst -> Forall (uN 8) (reply_frame dst).
Proof.
  intros [_ Hd]. unfold reply_frame, udp. rewrite !Forall_app. split_and!; (done || bytes_now).
Qed.

Lemma reply_parsed dst : bytes 16 dst -> header_of (mkTc (reply_frame dst) 62) = Some (reply_header dst).
Proof. intros Hd. bytes_destruct Hd. reflexivity. Qed.

Lemma reply_frame_length dst : bytes 16 dst -> length (reply_frame dst) = 62%nat.
Proof. intros Hd. bytes_destruct Hd. reflexivity. Qed.

Definition reply_world (m : BpfMaps) (dst : list Z) : TcWorld := mkTcWorld m (mkTc (reply_frame dst) 62) None.

Lemma reply_wf m dst : bytes 16 dst -> tc_wf (tc_ctx (reply_world m dst)).
Proof.
  intros Hd. split; [by apply reply_frame_bytes|]. simpl skb_data. rewrite reply_frame_length by done.
  simpl. lia.
Qed.

Lemma gateway_inbound : inbound gateway (reply_header proxy_7) = Rewrite (synthetic_ipv6 42) (client_vip_from_id24 7).
Proof. vm_compute. reflexivity. Qed.

(** ** The theorems at work *)

Lemma tc_ingress_refines_witness :
  exists c', tc_ingress false (world_of gateway request_packet) =
      (Ok TC_ACT_OK, mkTcWorld (outbound_maps false gateway request_header) c' None) /\
    rewritten 0 Udp proxy_7 origin 0 request_packet (skb_data c').
Proof.
  pose proof (tc_ingress_refines false (world_of gateway request_packet) request_wf gateway_wf) as H.
  unfold implements_outbound in H. rewrite request_parsed in H.
  assert (outbound false gateway request_header = Rewrite proxy_7 origin) as E by (vm_compute; reflexivity).
  change (tc_maps (world_of gateway request_packet)) with gateway in H. rewrite E in H.
  destruct H as (c' & Er & _ & Hrw). exists c'. split; [exact Er|exact Hrw].
Defined.

Lemma tc_ingress_wan_refines_witness :
  exists c', tc_ingress_wan false (reply_world gateway proxy_7) =
      (Ok TC_ACT_REDIRECT, mkTcWorld gateway c' (Some (9, 0))) /\
    rewritten 14 Udp (synthetic_ipv6 42) (client_vip_from_id24 7) 0 (reply_frame proxy_7) (skb_data c').
Proof.
  pose proof (tc_ingress_wan_refines false (reply_world gateway proxy_7) (reply_wf _ _ proxy_7_bytes) gateway_wf) as H.
  unfold implements_inbound in H. change (tc_ctx (reply_world gateway proxy_7)) with (mkTc (reply_frame proxy_7) 62) in H at 1.
  change (tc_maps (reply_world gateway proxy_7)) with gateway in H.
  rewrite (reply_parsed _ proxy_7_bytes), gateway_inbound in H.
  destruct H as (c' & Er & _ & Hrw). exists c'. split; [exact Er|exact Hrw].
Defined.

Lemma xdp_wan_production_witness :
  xdp_wan false (mkXdpWorld gateway (reply_frame wan_addr)) =
  (Ok XDP_DROP, mkXdpWorld gateway (reply_frame wan_addr)).
Proof. rewrite (xdp_wan_production (mkXdpWorld gateway (reply_frame wan_addr))). reflexivity. Defined.

Lemma xdp_wan_dev_witness :
  xdp_wan true (mkXdpWorld gateway (reply_frame wan_addr)) =
  (Ok XDP_PASS, mkXdpWorld (bump [0; 2; 4]%nat gateway) (reply_frame wan_addr)).
Proof.
  rewrite (xdp_wan_dev (mkXdpWorld gateway (reply_frame wan_addr)) gateway_wf). reflexivity.
Defined.

Lemma wan_addr_bytes : bytes 16 wan_addr.
Proof. split; [done|bytes_now]. Qed.

(** A dev-mode connection: request out, tracked reply in. *)
Lemma nat_round_trip_witness : exists w1,
  tc_ingress true (world_of gateway request_packet) = (Ok TC_ACT_OK, w1) /\
  delivered true (tc_maps w1) (reply_frame wan_addr) 62 (reply_header wan_addr)
    (synthetic_ipv6 42) (client_vip_from_id24 7) 9.
Proof.
  destruct (nat_round_trip true (world_of gateway request_packet) request_header 7 42 (mkNatEntry origin)
              TEST_KEY 50000 443 request_wf gateway_wf request_parsed request_ok)
    as (w1 & E1 & Hh1 & Hce & Hm1 & _ & Hd).
  - intros wan E. vm_compute in E. apply (inj Some) in E as <-. split; [done|].
    unfold MAX_ENTRIES. simpl REPLY_TRACK. rewrite map_size_empty. lia.
  - exists w1. split; [exact E1|]. apply Hd; [done|done|done|by apply reply_frame_bytes, wan_addr_bytes| | |done| |].
    + by rewrite (reply_frame_length _ wan_addr_bytes).
    + apply (reply_parsed _ wan_addr_bytes).
    + by split.
    + by rewrite Hce.
Defined.

Lemma tc_programs_safe_witness : exists a w',
  tc_ingress true (world_of gateway request_packet) = (Ok a, w') /\ is_action a.
Proof.
  destruct (tc_programs_safe true (world_of gateway request_packet) (tc_ingress true) request_wf gateway_wf)
    as (a & w' & E & Ha & _); [by left|]. exists a, w'. split; [exact E|exact Ha].
Defined.

Lemma wan_redirect_iff_witness : exists w', tc_ingress_wan false (reply_world gateway proxy_7) = (Ok TC_ACT_REDIRECT, w').
Proof.
  apply (wan_redirect_iff false (reply_world gateway proxy_7) (reply_wf _ _ proxy_7_bytes) gateway_wf).
  exists (reply_header proxy_7), 9. split_and!; [apply (reply_parsed _ proxy_7_bytes)| |done].
  exists 7, 42, (mkNatEntry origin), TEST_KEY, 443, 50000. split_and!; try done.
Defined.

Definition old_proxy : list Z := request_proxy request_header 7 42 old_key 50000 443.

Lemma old_proxy_bytes : bytes 16 old_proxy.
Proof. apply bytes_proxy_addr. Qed.

Lemma old_proxy_undecodable : decode_proxy_src old_proxy (ProxySrcCtx_new 50000 443 17) TEST_KEY = None.
Proof. vm_compute. reflexivity. Qed.

Lemma rotation_drops_reply_witness :
  tc_ingress_wan false (reply_world gateway old_proxy) = (Ok TC_ACT_SHOT, reply_world gateway old_proxy).
Proof.
  apply (rotation_drops_reply false (reply_world gateway old_proxy) (reply_header old_proxy) TEST_KEY old_key
           7 42 443 50000 (reply_wf _ _ old_proxy_bytes) gateway_wf (reply_parsed _ old_proxy_bytes));
    [done|done|done| |exact old_proxy_undecodable]. by apply encode_Some.
Defined.

Definition wide_packet : list Z := udp (client_vip_from_id24 0x1000000) (synthetic_ipv6 42) PORT_A PORT_B.

Lemma wide_client_dropped_witness :
  tc_ingress false (world_of gateway wide_packet) = (Ok TC_ACT_SHOT, world_of gateway wide_packet).
Proof.
  apply (wide_client_dropped false (world_of gateway wide_packet)
           (mkHeader 0 Udp (client_vip_from_id24 0x1000000) (synthetic_ipv6 42) (Some (50000, 443)))
           (mkNatEntry origin) (50000, 443)); try done.
  - split; [bytes_now|done].
  - apply gateway_wf.
Defined.

(** The request in an Ethernet frame for a MAC address that starts with 0x60. *)
Definition misframed : list Z := [0x60; 0; 0; 0; 0; 1; 2; 0; 0; 0; 0; 2; 0x86; 0xdd] ++ request_packet.

Lemma mac_nibble_six_untranslated_witness :
  tc_ingress false (world_of gateway misframed) = (Ok TC_ACT_OK, world_of gateway misframed).
Proof.
  apply (mac_nibble_six_untranslated false (world_of gateway misframed)); try done.
  - split; [bytes_now|done].
  - apply gateway_wf.
Defined.

End DataPlaneExamples.
