(* ===== verification/Text.v ===== *)
(** * Text literals

    Rust's [&str] is the list of its Unicode scalar values; [text] turns an ASCII
    literal into one. *)

From Stdlib Require Import Ascii String.
From S2P Require Import Prelude.

Module Text.

(** Text of an ASCII literal. *)
Definition text (s : string) : list Z := map (fun c => Z.of_N (N_of_ascii c)) (list_ascii_of_string s).
Arguments text _%_string_scope.

End Text.
