(* ===== verification/Keys.v ===== *)
(** * Key material of the daemon: [daemon/src/main.rs]

    [parse_proxy_key_hex] and [key_fingerprint].  A Rust [&str] is the list of its
    Unicode scalar values; [len], slicing and digit parsing work on its UTF-8
    bytes, and slicing off a character boundary panics, as in Rust. *)

From S2P Require Import Prelude Types.
Import Types.
Local Open Scope Z_scope.

Module Keys.

(** ** What the code uses of [str] *)

Definition utf8_char (c : Z) : list Z :=
  if c <? 0x80 then [c]
  else if c <? 0x800 then [0xc0 + c / 64; 0x80 + c mod 64]
  else if c <? 0x10000 then [0xe0 + c / 4096; 0x80 + (c / 64) mod 64; 0x80 + c mod 64]
  else [0xf0 + c / 262144; 0x80 + (c / 4096) mod 64; 0x80 + (c / 64) mod 64; 0x80 + c mod 64].

Definition utf8 (s : list Z) : list Z := flat_map utf8_char s.

(** [char::is_whitespace]: the Unicode White_Space property. *)
Definition is_whitespace (c : Z) : bool :=
  ((9 <=? c) && (c <=? 13)) || (c =? 0x20) || (c =? 0x85) || (c =? 0xa0) || (c =? 0x1680)
  || ((0x2000 <=? c) && (c <=? 0x200a)) || (c =? 0x2028) || (c =? 0x2029) || (c =? 0x202f)
  || (c =? 0x205f) || (c =? 0x3000).

Fixpoint trim_start (s : list Z) : list Z :=
  match s with
  | c :: s' => if is_whitespace c then trim_start s' else s
  | [] => []
  end.

Definition trim (s : list Z) : list Z := rev (trim_start (rev (trim_start s))).

(** [str::is_char_boundary] on the UTF-8 bytes. *)
Definition is_char_boundary (b : list Z) (i : nat) : bool :=
  (i =? length b)%nat || match b !! i with Some x => (x <? 0x80) || (0xc0 <=? x) | None => false end.

(** [&s[i..j]]; [None] is a panic. *)
Definition str_slice (b : list Z) (i j : nat) : option (list Z) :=
  if (i <=? j)%nat && is_char_boundary b i && is_char_boundary b j
  then Some (take (j - i) (drop i b)) else None.

(** [(b as char).to_digit(16)]. *)
Definition to_digit16 (b : Z) : option Z :=
  if (48 <=? b) && (b <=? 57) then Some (b - 48)
  else if (97 <=? b) && (b <=? 102) then Some (b - 87)
  else if (65 <=? b) && (b <=? 70) then Some (b - 55)
  else None.

Fixpoint radix16_u8 (acc : Z) (b : list Z) : option Z :=
  match b with
  | [] => Some acc
  | x :: b =>
      match to_digit16 x with
      | None => None
      | Some d => if 255 <? acc * 16 + d then None else radix16_u8 (acc * 16 + d) b
      end
  end.

(** [u8::from_str_radix(s, 16)]: one leading [+] is accepted, a lone sign is not. *)
Definition from_str_radix16_u8 (b : list Z) : option Z :=
  match b with
  | [] => None
  | [x] => if (x =? 43) || (x =? 45) then None else radix16_u8 0 b
  | x :: rest => if x =? 43 then radix16_u8 0 rest else radix16_u8 0 b
  end.

(** ** [parse_proxy_key_hex] *)

Inductive KeyErr := BadLength (len : nat) | InvalidHex (pos : nat) | AllZero.

(** The result of a call that may panic. *)
Inductive Outcome (E A : Type) := Return (r : Result E A) | Panic.
Arguments Return {E A} _.
Arguments Panic {E A}.

(** The loop over the byte positions [i, i+1, ...], [n] of them. *)
Fixpoint parse_bytes (hex : list Z) (n i : nat) : Outcome KeyErr (list Z) :=
  match n with
  | O => Return (Ok [])
  | S n =>
      match str_slice hex (i * 2) (i * 2 + 2) with
      | None => Panic
      | Some s =>
          match from_str_radix16_u8 s with
          | None => Return (Err (InvalidHex (i * 2)))
          | Some v =>
              match parse_bytes hex n (S i) with
              | Return (Ok l) => Return (Ok (v :: l))
              | r => r
              end
          end
      end
  end.

(** The first part, common to the daemon and to [xtask]: trim, length, 32 bytes. *)
Definition parse_key_bytes (hex : list Z) : Outcome KeyErr ProxySrcKey :=
  let hex := utf8 (trim hex) in
  if negb (length hex =? 64)%nat then Return (Err (BadLength (length hex)))
  else match parse_bytes hex 32 0 with
  | Return (Ok bytes) => Return (Ok (mkProxySrcKey (take 16 bytes) (take 16 (drop 16 bytes))))
  | Return (Err e) => Return (Err e)
  | Panic => Panic
  end.

Definition parse_proxy_key_hex (hex : list Z) : Outcome KeyErr ProxySrcKey :=
  match parse_key_bytes hex with
  | Return (Ok key) => if is_zero key then Return (Err AllZero) else Return (Ok key)
  | r => r
  end.

(** ** [key_fingerprint] *)

Definition hex_digit (d : Z) : Z := if d <? 10 then 48 + d else 87 + d.
Definition hex_byte (b : Z) : list Z := [hex_digit (b / 16); hex_digit (b mod 16)].

Definition fp_step (key : ProxySrcKey) (fp : list Z) (i : nat) : list Z :=
  let fp := <[(i mod 4)%nat := Z.lxor (nth (i mod 4) fp 0) (nth i (prince_key key) 0)]> fp in
  <[(i mod 4)%nat := Z.lxor (nth (i mod 4) fp 0) (nth i (siphash_key key) 0)]> fp.

Definition key_fingerprint (key : ProxySrcKey) : list Z :=
  let fp := fold_left (fp_step key) (seq 0 16) (replicate 4 0) in
  hex_byte (nth 0 fp 0) ++ hex_byte (nth 1 fp 0) ++ hex_byte (nth 2 fp 0) ++ hex_byte (nth 3 fp 0).

(** ** Facts *)

Definition ascii (s : list Z) : Prop := Forall (uN 7) s.

Lemma uN7_bound c : uN 7 c -> 0 <= c < 128.
Proof. done. Qed.

Lemma utf8_ascii s : ascii s -> utf8 s = s.
Proof.
  induction 1 as [|c s Hc Hs IH]; [done|]. unfold utf8 in *. simpl. rewrite IH. apply uN7_bound in Hc.
  unfold utf8_char. by rewrite (proj2 (Z.ltb_lt c 0x80)) by lia.
Qed.

Lemma ascii_boundary b i : ascii b -> (i <= length b)%nat -> is_char_boundary b i = true.
Proof.
  intros Hb Hi. unfold is_char_boundary. destruct (Nat.eqb_spec i (length b)) as [|Hne]; [done|].
  destruct (lookup_lt_is_Some_2 b i) as [x Hx]; [lia|]. rewrite Hx. simpl.
  apply (Forall_lookup_1 _ _ _ _ Hb) in Hx. apply uN7_bound in Hx. by rewrite (proj2 (Z.ltb_lt x 0x80)) by lia.
Qed.

Lemma ascii_slice b i j : ascii b -> (i <= j <= length b)%nat -> str_slice b i j = Some (take (j - i) (drop i b)).
Proof.
  intros Hb Hij. unfold str_slice. rewrite !ascii_boundary by (done || lia).
  by rewrite (proj2 (Nat.leb_le i j)) by lia.
Qed.

Lemma trim_start_ws w s : forallb is_whitespace w = true -> trim_start (w ++ s) = trim_start s.
Proof.
  induction w as [|c w IH]; [done|]. simpl. intros [-> Hw]%andb_true_iff. by apply IH.
Qed.

Lemma trim_start_head c s : is_whitespace c = false -> trim_start (c :: s) = c :: s.
Proof. intros H. simpl. by rewrite H. Qed.

(** Surrounding white space does not matter. *)
Lemma trim_padded w w' c s c' :
  forallb is_whitespace w = true -> forallb is_whitespace w' = true ->
  is_whitespace c = false -> is_whitespace c' = false ->
  trim (w ++ (c :: s ++ [c']) ++ w') = c :: s ++ [c'].
Proof.
  intros Hw Hw' Hc Hc'. unfold trim. rewrite trim_start_ws by done.
  rewrite <- app_comm_cons, trim_start_head by done. rewrite app_comm_cons, rev_app_distr.
  rewrite trim_start_ws by (rewrite forallb_forall in *; intros x Hx; apply Hw'; by apply in_rev).
  rewrite app_comm_cons, rev_app_distr. simpl. rewrite Hc'. simpl.
  by rewrite rev_app_distr, rev_involutive.
Qed.

Lemma hex_digit_ok d : 0 <= d < 16 ->
  to_digit16 (hex_digit d) = Some d /\ uN 7 (hex_digit d) /\ is_whitespace (hex_digit d) = false /\ hex_digit d <> 43.
Proof.
  intros H. assert (d = 0 \/ d = 1 \/ d = 2 \/ d = 3 \/ d = 4 \/ d = 5 \/ d = 6 \/ d = 7 \/ d = 8 \/ d = 9
    \/ d = 10 \/ d = 11 \/ d = 12 \/ d = 13 \/ d = 14 \/ d = 15) as Hd by lia.
  destruct_or! Hd; subst d; done.
Qed.

Lemma hex_byte_digits b : uN 8 b -> 0 <= b / 16 < 16 /\ 0 <= b mod 16 < 16.
Proof. intros [? ?]. change (2 ^ 8) with 256 in *. Z.to_euclidean_division_equations; lia. Qed.

Lemma hex_byte_parse b : uN 8 b -> from_str_radix16_u8 (hex_byte b) = Some b.
Proof.
  intros Hb. destruct (hex_byte_digits b Hb) as [Hh Hl]. unfold hex_byte.
  destruct (hex_digit_ok _ Hh) as (Eh & _ & _ & Nh), (hex_digit_ok _ Hl) as (El & _).
  unfold from_str_radix16_u8. rewrite (proj2 (Z.eqb_neq _ _) Nh). simpl. rewrite Eh.
  rewrite (proj2 (Z.ltb_ge 255 _)) by lia. rewrite El.
  destruct Hb as [? Hb]. change (2 ^ 8) with 256 in Hb.
  rewrite (proj2 (Z.ltb_ge 255 _)) by (Z.to_euclidean_division_equations; lia).
  f_equal. Z.to_euclidean_division_equations; lia.
Qed.

Definition hex_of (l : list Z) : list Z := flat_map hex_byte l.

Lemma ascii_hex_of l : Forall (uN 8) l -> ascii (hex_of l).
Proof.
  induction 1 as [|b l Hb Hl IH]; [constructor|]. destruct (hex_byte_digits b Hb) as [Hh Hw].
  simpl. repeat constructor; [apply (hex_digit_ok _ Hh)..|apply (hex_digit_ok _ Hw)|apply (hex_digit_ok _ Hw)|done].
Qed.

Lemma length_hex_of l : length (hex_of l) = (length l * 2)%nat.
Proof. induction l as [|b l IH]; [done|]. simpl in *. by rewrite IH. Qed.

Lemma parse_bytes_hex l : forall pre i,
  Forall (uN 8) l -> ascii pre -> length pre = (i * 2)%nat ->
  parse_bytes (pre ++ hex_of l) (length l) i = Return (Ok l).
Proof.
  induction l as [|b l IH]; intros pre i Hl Hpre Hlen; [done|]. apply Forall_cons in Hl as [Hb Hl].
  cbn [parse_bytes length].
  assert (ascii (pre ++ hex_of (b :: l))) as Ha by (apply Forall_app; split; [done|apply ascii_hex_of; by constructor]).
  rewrite ascii_slice; [|done|rewrite length_app, length_hex_of; simpl; lia].
  replace (i * 2 + 2 - i * 2)%nat with 2%nat by lia. rewrite drop_app_length' by done.
  change (take 2 (hex_of (b :: l))) with (hex_byte b). rewrite hex_byte_parse by done.
  change (hex_of (b :: l)) with (hex_byte b ++ hex_of l). rewrite app_assoc.
  rewrite IH; [done|done| |].
  - apply Forall_app. split; [done|]. apply (ascii_hex_of [b]). by constructor.
  - rewrite length_app. simpl. lia.
Qed.

Lemma radix16_u8_range b : forall acc v, 0 <= acc <= 255 -> radix16_u8 acc b = Some v -> uN 8 v.
Proof.
  induction b as [|x b IH]; simpl; intros acc v Ha E.
  - injection E as <-. unfold uN. change (2 ^ 8) with 256. lia.
  - destruct (to_digit16 x) as [d|] eqn:Ed; [|done].
    destruct (Z.ltb_spec 255 (acc * 16 + d)); [done|]. eapply IH; [|exact E].
    unfold to_digit16 in Ed. repeat case_match; simplify_eq; lia.
Qed.

Lemma from_str_radix16_range b v : from_str_radix16_u8 b = Some v -> uN 8 v.
Proof.
  unfold from_str_radix16_u8. intros E. repeat case_match; simplify_eq;
    by eapply (radix16_u8_range _ 0); [lia|exact E].
Qed.

Lemma parse_bytes_range hex n : forall i l, parse_bytes hex n i = Return (Ok l) -> bytes n l.
Proof.
  induction n as [|n IH]; simpl; intros i l E.
  - injection E as <-. by split.
  - destruct (str_slice _ _ _) as [sl|]; [|done].
    destruct (from_str_radix16_u8 sl) as [v|] eqn:Ev; [|done].
    destruct (parse_bytes hex n (S i)) as [[l'|]|] eqn:Er; [|done..]. injection E as <-.
    destruct (IH _ _ Er) as [Hl Hb]. split; [simpl; congruence|].
    constructor; [by eapply from_str_radix16_range|done].
Qed.

Lemma parse_bytes_ascii hex n : forall i, ascii hex -> ((i + n) * 2 <= length hex)%nat ->
  exists r, parse_bytes hex n i = Return r.
Proof.
  induction n as [|n IH]; simpl; intros i Ha Hl; [by eexists|].
  rewrite ascii_slice by (done || lia). destruct (from_str_radix16_u8 _) as [v|]; [|by eexists].
  destruct (IH (S i) Ha ltac:(lia)) as [[l|e] ->]; by eexists.
Qed.

Lemma ascii_trim s : ascii s -> ascii (trim s).
Proof.
  assert (forall s, ascii s -> ascii (trim_start s)) as Ht.
  { induction 1 as [|c s' Hc Hs IH]; simpl; [constructor|]. destruct (is_whitespace c); [done|by constructor]. }
  intros Hs. unfold trim. apply Forall_rev, Ht, Forall_rev, Ht, Hs.
Qed.

Lemma parse_key_bytes_wf s key :
  parse_key_bytes s = Return (Ok key) -> key_wf key /\ length (utf8 (trim s)) = 64%nat.
Proof.
  unfold parse_key_bytes. destruct (Nat.eqb_spec (length (utf8 (trim s))) 64) as [Hl|]; [|done]. simpl negb.
  destruct (parse_bytes _ 32 0) as [[l|]|] eqn:E; [|done..]. intros [= <-].
  apply parse_bytes_range in E as [Hlen Hb]. split; [|done].
  split; split; simpl; (apply Forall_take; by try apply Forall_drop) || (rewrite length_take, ?length_drop; lia).
Qed.

(** The text form of a key, as an operator writes it. *)
Definition key_hex (key : ProxySrcKey) : list Z := hex_of (prince_key key ++ siphash_key key).

Lemma parse_key_bytes_hex key w w' :
  key_wf key -> forallb is_whitespace w = true -> forallb is_whitespace w' = true ->
  parse_key_bytes (w ++ key_hex key ++ w') = Return (Ok key).
Proof.
  intros [[Hp Hpb] [Hs Hsb]] Hw Hw'. unfold key_hex, parse_key_bytes.
  set (l := prince_key key ++ siphash_key key).
  assert (Forall (uN 8) l) as Hl by (by apply Forall_app).
  assert (length l = 32%nat) as Hlen by (unfold l; rewrite length_app; lia).
  assert (trim (w ++ hex_of l ++ w') = hex_of l) as ->.
  { destruct l as [|a l']; [done|]. destruct (exists_last (l := a :: l')) as (m & z & E); [done|].
    rewrite E in *. apply Forall_app in Hl as [Hm Hz]. apply Forall_cons in Hz as [Hz _].
    destruct m as [|b m]; [simpl in Hlen; lia|]. apply Forall_cons in Hm as [Hb _].
    destruct (hex_byte_digits b Hb) as [H1 _], (hex_byte_digits z Hz) as [_ H2].
    assert (hex_of ((b :: m) ++ [z]) =
            hex_digit (b / 16) :: (hex_digit (b mod 16) :: hex_of m ++ [hex_digit (z / 16)]) ++ [hex_digit (z mod 16)])
      as -> by (unfold hex_of; rewrite flat_map_app; simpl; by rewrite <- app_assoc).
    apply trim_padded; [done..|apply (hex_digit_ok _ H1)|apply (hex_digit_ok _ H2)]. }
  rewrite utf8_ascii by by apply ascii_hex_of. rewrite length_hex_of, Hlen. simpl negb. cbv iota.
  pose proof (parse_bytes_hex l [] 0 Hl ltac:(constructor) eq_refl) as E.
  rewrite Hlen, app_nil_l in E. rewrite E. unfold l. rewrite take_app_length' by done. rewrite drop_app_length' by done.
  rewrite take_ge by lia. by destruct key.
Qed.

(** ** Properties *)

(** C36. A key written as 64 lower-case hexadecimal digits, with any white space around it, is
    read back exactly: every non-zero key is accepted and becomes the key it spells. *)
Theorem parse_key_round_trip (key : ProxySrcKey) (w w' : list Z) :
  key_wf key -> is_zero key = false ->
  forallb is_whitespace w = true -> forallb is_whitespace w' = true ->
  parse_proxy_key_hex (w ++ key_hex key ++ w') = Return (Ok key).
Proof.
  intros Hk Hz Hw Hw'. unfold parse_proxy_key_hex. by rewrite parse_key_bytes_hex, Hz by done.
Qed.

(** Whatever text is given, an accepted key is a well-formed, non-zero 32-byte
    key spelled by exactly 64 bytes of text, and ASCII text is never a panic: it is
    accepted or refused with an error. *)
Theorem parse_key_sound (s : list Z) :
  (forall key, parse_proxy_key_hex s = Return (Ok key) ->
     key_wf key /\ is_zero key = false /\ length (utf8 (trim s)) = 64%nat) /\
  (ascii s -> exists r, parse_proxy_key_hex s = Return r).
Proof.
  unfold parse_proxy_key_hex. split.
  - intros key E. destruct (parse_key_bytes s) as [[k|e]|] eqn:Ek; [|done..].
    destruct (is_zero k) eqn:Ez; [done|]. injection E as <-.
    apply parse_key_bytes_wf in Ek as [Hw Hl]. done.
  - intros Ha. apply ascii_trim in Ha. unfold parse_key_bytes. rewrite utf8_ascii by done.
    destruct (Nat.eqb_spec (length (trim s)) 64) as [Hl|]; simpl negb; [|by eexists].
    destruct (parse_bytes_ascii (trim s) 32 0 Ha) as [[l|e] ->]; [lia| |by eexists].
    cbv iota. destruct (is_zero _); by eexists.
Qed.

(** Two inputs the key parser does not treat as hexadecimal text: pairs of a
    plus sign and a digit are accepted as bytes, and 64 bytes of text with a
    multi-byte character across a pair boundary panic instead of giving an error. *)
Theorem parse_key_odd_inputs :
  parse_proxy_key_hex (concat (replicate 32 [43; 49])) =
    Return (Ok (mkProxySrcKey (replicate 16 1) (replicate 16 1))) /\
  parse_proxy_key_hex ([48; 233] ++ replicate 61 48) = Panic.
Proof. split; vm_compute; reflexivity. Qed.

Definition sample_key : ProxySrcKey := mkProxySrcKey (replicate 16 0xab) (replicate 16 0x07).

Lemma parse_key_round_trip_witness :
  parse_proxy_key_hex ([32; 10] ++ key_hex sample_key ++ [10]) = Return (Ok sample_key).
Proof.
  apply parse_key_round_trip; [|done|done|done].
  split; split; try done; repeat constructor; done.
Defined.

Lemma parse_key_sound_witness : exists r, parse_proxy_key_hex [97; 98] = Return r.
Proof. apply (parse_key_sound [97; 98]). repeat constructor; done. Defined.

End Keys.
