(* ===== verification/Ipv6Text.v ===== *)
(** * Text form of IPv6 addresses

    [Display] and [FromStr] of [std::net::Ipv6Addr], which the daemon, the DNS
    server and [xtask] use to exchange addresses as text ([parse_ipv6] and
    [format_ipv6] of [xtask] are exactly these).  Text is a list of ASCII codes, an
    address its 16 octets. *)

From S2P Require Import Prelude.
Local Open Scope Z_scope.

Module Ipv6Text.

(** ** Segments *)

Fixpoint segments (a : list Z) : list Z :=
  match a with
  | x :: y :: a => (256 * x + y) :: segments a
  | _ => []
  end.

Definition octets (segs : list Z) : list Z := flat_map (fun s => [s / 256; s mod 256]) segs.

(** ** Display *)

Definition hexd (d : Z) : Z := if d <? 10 then 48 + d else 87 + d.

(** [write!(f, "{:x}", n)] for a [u16]. *)
Definition hex16 (n : Z) : list Z :=
  if n <? 16 then [hexd n]
  else if n <? 256 then [hexd (n / 16); hexd (n mod 16)]
  else if n <? 4096 then [hexd (n / 256); hexd (n / 16 mod 16); hexd (n mod 16)]
  else [hexd (n / 4096); hexd (n / 256 mod 16); hexd (n / 16 mod 16); hexd (n mod 16)].

(** [Display] of a [u8]. *)
Definition dec8 (n : Z) : list Z :=
  if n <? 10 then [48 + n]
  else if n <? 100 then [48 + n / 10; 48 + n mod 10]
  else [48 + n / 100; 48 + n / 10 mod 10; 48 + n mod 10].

Definition fmt_ipv4 (o : list Z) : list Z :=
  dec8 (nth 0 o 0) ++ [46] ++ dec8 (nth 1 o 0) ++ [46] ++ dec8 (nth 2 o 0) ++ [46] ++ dec8 (nth 3 o 0).

Definition fmt_subslice (chunk : list Z) : list Z :=
  match chunk with
  | [] => []
  | first :: tail => hex16 first ++ flat_map (fun s => 58 :: hex16 s) tail
  end.

(** The longest run of zero segments, the first of equal ones: (start, length). *)
Fixpoint zero_span (i : nat) (segs : list Z) (current longest : nat * nat) : nat * nat :=
  match segs with
  | [] => longest
  | s :: segs =>
      if s =? 0 then
        let current := (if (current.2 =? 0)%nat then i else current.1, S current.2) in
        zero_span (S i) segs current (if (longest.2 <? current.2)%nat then current else longest)
      else zero_span (S i) segs (0, 0)%nat longest
  end.

Definition is_ipv4_mapped (a : list Z) : bool :=
  bool_decide (take 12 a = replicate 10 0 ++ [255; 255]).

Definition display (a : list Z) : list Z :=
  if is_ipv4_mapped a then [58; 58; 102; 102; 102; 102; 58] ++ fmt_ipv4 (drop 12 a)
  else
    let segs := segments a in
    let zeroes := zero_span 0 segs (0, 0)%nat (0, 0)%nat in
    if (1 <? zeroes.2)%nat
    then fmt_subslice (take zeroes.1 segs) ++ [58; 58] ++ fmt_subslice (drop (zeroes.1 + zeroes.2) segs)
    else fmt_subslice segs.

(** ** FromStr *)

Definition to_digit (radix c : Z) : option Z :=
  let d := if (48 <=? c) && (c <=? 57) then Some (c - 48)
           else if (97 <=? c) && (c <=? 102) then Some (c - 87)
           else if (65 <=? c) && (c <=? 70) then Some (c - 55)
           else None in
  match d with Some d => if d <? radix then Some d else None | None => None end.

(** The digit loop of [read_number]: value, digit count and remaining text, or
    [None] when there are more than [max] digits. *)
Fixpoint read_digits (radix : Z) (max : nat) (s : list Z) (acc : Z) (count : nat)
    : option (Z * nat * list Z) :=
  match s with
  | c :: s' =>
      match to_digit radix c with
      | Some d =>
          if (max <? S count)%nat then None else read_digits radix max s' (acc * radix + d) (S count)
      | None => Some (acc, count, s)
      end
  | [] => Some (acc, count, s)
  end.

Definition read_number (radix : Z) (max : nat) (allow_zero_prefix : bool) (limit : Z) (s : list Z)
    : option (Z * list Z) :=
  let has_leading_zero := match s with c :: _ => c =? 48 | [] => false end in
  match read_digits radix max s 0 0 with
  | None => None
  | Some (v, count, rest) =>
      if (count =? 0)%nat then None
      else if negb allow_zero_prefix && has_leading_zero && (1 <? count)%nat then None
      else if limit <? v then None
      else Some (v, rest)
  end.

Definition read_separator {A} (sep : Z) (index : nat) (inner : list Z -> option (A * list Z)) (s : list Z)
    : option (A * list Z) :=
  if (index =? 0)%nat then inner s
  else match s with
  | c :: s' => if c =? sep then inner s' else None
  | [] => None
  end.

(** [n] more decimal groups of a dotted address, the first of them number [i]. *)
Fixpoint read_ipv4_groups (n i : nat) (s : list Z) : option (list Z * list Z) :=
  match n with
  | O => Some ([], s)
  | S n =>
      match read_separator 46 i (read_number 10 3 false 255) s with
      | None => None
      | Some (g, s') =>
          match read_ipv4_groups n (S i) s' with
          | None => None
          | Some (gs, r) => Some (g :: gs, r)
          end
      end
  end.

Definition read_ipv4_addr (s : list Z) : option (list Z * list Z) := read_ipv4_groups 4 0 s.

(** [read_groups] with [n] slots left, the next one number [i]: the groups read,
    whether they end in an embedded IPv4 address, and the remaining text. *)
Fixpoint read_groups (n i : nat) (s : list Z) : list Z * bool * list Z :=
  match n with
  | O => ([], false, s)
  | S n' =>
      match (if (1 <? n)%nat then read_separator 58 i read_ipv4_addr s else None) with
      | Some (o, s') => ([256 * nth 0 o 0 + nth 1 o 0; 256 * nth 2 o 0 + nth 3 o 0], true, s')
      | None =>
          match read_separator 58 i (read_number 16 4 true 65535) s with
          | None => ([], false, s)
          | Some (g, s') => let '(gs, b, r) := read_groups n' (S i) s' in (g :: gs, b, r)
          end
      end
  end.

Definition read_ipv6_addr (s : list Z) : option (list Z * list Z) :=
  let '(head, head_ipv4, r) := read_groups 8 0 s in
  if (length head =? 8)%nat then Some (head, r)
  else if head_ipv4 then None
  else match r with
  | 58 :: 58 :: r =>
      let limit := (8 - (length head + 1))%nat in
      let '(tail, _, r) := read_groups limit 0 r in
      Some (head ++ replicate (8 - length head - length tail) 0 ++ tail, r)
  | _ => None
  end.

(** [s.parse::<Ipv6Addr>()], as octets. *)
Definition parse (s : list Z) : option (list Z) :=
  match read_ipv6_addr s with
  | Some (segs, []) => Some (octets segs)
  | _ => None
  end.

(** [format_ipv6] and [parse_ipv6] of [xtask]. *)
Definition format_ipv6 (bytes : list Z) : list Z := display bytes.
Definition parse_ipv6 (s : list Z) : Result (list Z) (list Z) :=
  match parse s with Some a => Ok a | None => Err s end.

(** ** Reading back numbers *)

(** The text after a number: it does not continue the number. *)
Definition stops (radix : Z) (r : list Z) : Prop :=
  match r with c :: _ => to_digit radix c = None | [] => True end.

Lemma nibble_cases d : 0 <= d < 16 -> d = 0 \/ d = 1 \/ d = 2 \/ d = 3 \/ d = 4 \/ d = 5 \/ d = 6 \/ d = 7
  \/ d = 8 \/ d = 9 \/ d = 10 \/ d = 11 \/ d = 12 \/ d = 13 \/ d = 14 \/ d = 15.
Proof. lia. Qed.

Lemma hexd_digit d : 0 <= d < 16 -> to_digit 16 (hexd d) = Some d /\ hexd d <> 46.
Proof. intros Hd. apply nibble_cases in Hd. destruct_or! Hd; subst d; done. Qed.

Lemma decd_digit d : 0 <= d < 10 -> to_digit 10 (48 + d) = Some d.
Proof.
  intros Hd. assert (d = 0 \/ d = 1 \/ d = 2 \/ d = 3 \/ d = 4 \/ d = 5 \/ d = 6 \/ d = 7 \/ d = 8 \/ d = 9) as H by lia.
  destruct_or! H; subst d; done.
Qed.

(** Reading the digits [ds], most significant first, of a number that then stops. *)
Lemma read_digits_list radix max ds txt r : forall acc count,
  Forall2 (fun c d => to_digit radix c = Some d) txt ds -> stops radix r ->
  (count + length ds <= max)%nat ->
  read_digits radix max (txt ++ r) acc count =
  Some (fold_left (fun a d => a * radix + d) ds acc, (count + length ds)%nat, r).
Proof.
  intros acc count H Hr. revert acc count. induction H as [|c d txt ds Hc _ IH]; intros acc count Hm; simpl in *.
  - rewrite Nat.add_0_r. destruct r as [|c r]; [done|]. simpl in *. by rewrite Hr.
  - rewrite Hc. rewrite (proj2 (Nat.ltb_ge max (S count))) by lia. rewrite IH by lia. do 2 f_equal. f_equal. lia.
Qed.

Ltac div_lia := Z.to_euclidean_division_equations; lia.

Lemma hex16_digits n : 0 <= n < 65536 -> exists ds,
  Forall2 (fun c d => to_digit 16 c = Some d) (hex16 n) ds /\ (1 <= length ds <= 4)%nat /\
  fold_left (fun a d => a * 16 + d) ds 0 = n.
Proof.
  intros Hn. unfold hex16.
  destruct (Z.ltb_spec n 16); [exists [n]|destruct (Z.ltb_spec n 256); [exists [n / 16; n mod 16]|
    destruct (Z.ltb_spec n 4096); [exists [n / 256; n / 16 mod 16; n mod 16]|
      exists [n / 4096; n / 256 mod 16; n / 16 mod 16; n mod 16]]]];
  (split; [repeat constructor; apply hexd_digit; div_lia|split; simpl; [lia|div_lia]]).
Qed.

Lemma read_hex16 n r : 0 <= n < 65536 -> stops 16 r ->
  read_number 16 4 true 65535 (hex16 n ++ r) = Some (n, r).
Proof.
  intros Hn Hr. destruct (hex16_digits n Hn) as (ds & Hds & Hl & Hv). unfold read_number.
  rewrite (read_digits_list 16 4 ds) by (done || lia). rewrite Hv. simpl.
  destruct (length ds); [lia|]. simpl. by rewrite (proj2 (Z.ltb_ge 65535 n)) by lia.
Qed.

Lemma dec8_digits n : 0 <= n < 256 -> exists ds,
  Forall2 (fun c d => to_digit 10 c = Some d) (dec8 n) ds /\ (1 <= length ds <= 3)%nat /\
  fold_left (fun a d => a * 10 + d) ds 0 = n /\
  ((1 < length ds)%nat -> exists c t, dec8 n = c :: t /\ c <> 48).
Proof.
  intros Hn. unfold dec8.
  destruct (Z.ltb_spec n 10); [exists [n]|destruct (Z.ltb_spec n 100); [exists [n / 10; n mod 10]|
    exists [n / 100; n / 10 mod 10; n mod 10]]];
  (split; [repeat constructor; apply decd_digit; div_lia|split; [simpl; lia|split; [simpl; div_lia|]]]).
  - simpl. lia.
  - intros _. do 2 eexists. split; [reflexivity|]. assert (1 <= n / 10) by div_lia. lia.
  - intros _. do 2 eexists. split; [reflexivity|]. assert (1 <= n / 100) by div_lia. lia.
Qed.

Lemma read_dec8 n r : 0 <= n < 256 -> stops 10 r ->
  read_number 10 3 false 255 (dec8 n ++ r) = Some (n, r).
Proof.
  intros Hn Hr. destruct (dec8_digits n Hn) as (ds & Hds & Hl & Hv & Hz). unfold read_number.
  rewrite (read_digits_list 10 3 ds) by (done || lia). rewrite Hv. simpl.
  destruct (length ds) as [|[|k]] eqn:El; [lia| |].
  - simpl. rewrite andb_false_r. by rewrite (proj2 (Z.ltb_ge 255 n)) by lia.
  - destruct (Hz ltac:(lia)) as (c & t & Ec & Hc). rewrite Ec. simpl.
    rewrite (proj2 (Z.eqb_neq c 48) Hc). simpl. by rewrite (proj2 (Z.ltb_ge 255 n)) by lia.
Qed.

(** ** Text without dots holds no IPv4 address *)

Definition no_dot (s : list Z) : Prop := Forall (fun c => c <> 46) s.

Lemma read_digits_suffix radix max s : forall acc count v n r,
  no_dot s -> read_digits radix max s acc count = Some (v, n, r) -> no_dot r.
Proof.
  induction s as [|c s IH]; simpl; intros acc count v n r Hs E; [by simplify_eq|].
  destruct (to_digit radix c); [|by simplify_eq]. apply Forall_cons_1 in Hs as [_ Hs].
  destruct (max <? S count)%nat; [done|]. by eapply IH.
Qed.

Lemma read_number_suffix radix max z lim s v r :
  no_dot s -> read_number radix max z lim s = Some (v, r) -> no_dot r.
Proof.
  intros Hs. unfold read_number. destruct (read_digits radix max s 0 0) as [[[v' n] r']|] eqn:E; [|done].
  intros E'. apply read_digits_suffix in E; [|done]. repeat case_match; by simplify_eq.
Qed.

Lemma no_dot_ipv4 s : no_dot s -> read_ipv4_addr s = None.
Proof.
  intros Hs. unfold read_ipv4_addr. cbn [read_ipv4_groups read_separator Nat.eqb].
  destruct (read_number 10 3 false 255 s) as [[g s']|] eqn:E; [|done].
  apply read_number_suffix in E; [|done]. destruct s' as [|c s']; [done|]. apply Forall_cons_1 in E as [Hc _].
  by rewrite (proj2 (Z.eqb_neq c 46) Hc).
Qed.

Lemma no_dot_hex16 n : 0 <= n < 65536 -> no_dot (hex16 n).
Proof.
  intros Hn. unfold hex16. repeat case_match; repeat constructor; apply hexd_digit; div_lia.
Qed.

(** ** Reading back groups *)

(** The text of groups that start at slot [i]: all but the first slot preceded by
    a colon. *)
Definition group_text (i : nat) (gs : list Z) : list Z :=
  match i with O => fmt_subslice gs | S _ => flat_map (fun s => 58 :: hex16 s) gs end.

Lemma group_text_cons i g gs :
  group_text i (g :: gs) = (if (i =? 0)%nat then [] else [58]) ++ hex16 g ++ group_text (S i) gs.
Proof. by destruct i. Qed.

Definition u16s (gs : list Z) : Prop := Forall (fun g => 0 <= g < 65536) gs.

Lemma no_dot_group_text gs : forall i, u16s gs -> no_dot (group_text i gs).
Proof.
  induction gs as [|g gs IH]; intros i Hg; [by destruct i; constructor|].
  apply Forall_cons_1 in Hg as [Hg Hgs]. rewrite group_text_cons.
  apply Forall_app. split; [by destruct i; repeat constructor|].
  apply Forall_app. split; [by apply no_dot_hex16|by apply IH].
Qed.

(** What follows the groups: the end of the text, or the double colon. *)
Definition group_end (r : list Z) : Prop := r = [] \/ exists r', r = 58 :: 58 :: r' /\ no_dot r'.

Lemma group_end_no_dot r : group_end r -> no_dot r.
Proof. intros [-> |(r' & -> & H)]; [constructor|]. by repeat constructor. Qed.

Lemma stops_after i gs r : group_end r -> stops 16 (group_text (S i) gs ++ r).
Proof. destruct gs as [|g gs]; [|done]. by intros [-> |(r' & -> & _)]. Qed.

Lemma group_end_no_group i r : group_end r -> read_separator 58 i (read_number 16 4 true 65535) r = None.
Proof. intros [-> |(r' & -> & _)]; by destruct i. Qed.

Lemma read_separator_group {A} i (inner : list Z -> option (A * list Z)) s :
  read_separator 58 i inner ((if (i =? 0)%nat then [] else [58]) ++ s) = inner s.
Proof. by destruct i. Qed.

Lemma no_dot_separator i s : no_dot s -> read_separator 58 i read_ipv4_addr s = None.
Proof.
  intros Hs. unfold read_separator. destruct (i =? 0)%nat; [by apply no_dot_ipv4|].
  destruct s as [|c s]; [done|]. destruct (c =? 58); [|done]. apply no_dot_ipv4.
  by apply Forall_cons_1 in Hs as [_ Hs].
Qed.

Lemma read_groups_text gs : forall n i r,
  u16s gs -> (length gs <= n)%nat -> group_end r ->
  read_groups n i (group_text i gs ++ r) = (gs, false, r).
Proof.
  induction gs as [|g gs IH]; intros n i r Hgs Hn Hr.
  - replace (group_text i [] ++ r) with r by by destruct i.
    destruct n as [|n]; [done|]. cbn [read_groups].
    rewrite no_dot_separator, group_end_no_group by (done || by apply group_end_no_dot).
    by destruct (1 <? S n)%nat.
  - destruct n as [|n]; [simpl in Hn; lia|]. cbn [read_groups].
    rewrite no_dot_separator
      by (apply Forall_app; split; [by apply no_dot_group_text|by apply group_end_no_dot]).
    replace (if (1 <? S n)%nat then None else None) with (@None (list Z * list Z)) by by destruct (1 <? S n)%nat.
    apply Forall_cons_1 in Hgs as [Hg Hgs]. rewrite group_text_cons, <- !app_assoc, read_separator_group.
    rewrite read_hex16 by (done || by apply stops_after). rewrite IH by (done || (simpl in Hn; lia)). done.
Qed.

(** ** The run of zeroes *)

Definition zrange (w : list Z) (r : nat * nat) : Prop :=
  (r.1 + r.2 <= length w)%nat /\ forall k, (r.1 <= k < r.1 + r.2)%nat -> w !! k = Some 0.

Lemma zero_span_range w l : forall i cur longest,
  drop i w = l -> (i + length l = length w)%nat ->
  (cur.2 = 0 \/ cur.1 + cur.2 = i)%nat -> zrange w cur -> zrange w longest ->
  zrange w (zero_span i l cur longest).
Proof.
  induction l as [|x l IH]; intros i cur longest Hl Hlen Hc Hcur Hlong; simpl; [done|]. simpl in Hlen.
  assert (w !! i = Some x) as Hx by (rewrite <- (Nat.add_0_r i), <- lookup_drop; by rewrite Hl).
  assert (drop (S i) w = l) as Hl' by (rewrite <- Nat.add_1_r, <- drop_drop; by rewrite Hl).
  destruct (Z.eqb_spec x 0) as [-> |Hne].
  - set (cur' := (if (cur.2 =? 0)%nat then i else cur.1, S cur.2)).
    assert (zrange w cur' /\ (cur'.1 + cur'.2 = S i)%nat) as [Hcur' Hend].
    { unfold cur'. destruct (Nat.eqb_spec cur.2 0) as [E|E]; simpl.
      - rewrite E. split; [|lia]. split; simpl; [lia|]. intros k Hk. by replace k with i by lia.
      - destruct Hc as [|Hc]; [done|]. destruct Hcur as [_ Hz]. split; [|lia]. split; simpl; [lia|].
        intros k Hk. destruct (decide (k = i)) as [->|]; [done|]. apply Hz. lia. }
    apply IH; [done|lia|by right|done|]. by destruct (longest.2 <? S cur.2)%nat.
  - apply IH; [done|lia|by left| |done]. split; simpl; [lia|]. intros k Hk. lia.
Qed.

Lemma zrange_split w r : zrange w r -> w = take r.1 w ++ replicate r.2 0 ++ drop (r.1 + r.2) w.
Proof.
  intros [Hl Hz]. rewrite <- (take_drop r.1 w) at 1. f_equal.
  rewrite <- (take_drop r.2 (drop r.1 w)) at 1. rewrite drop_drop. f_equal.
  apply list_eq. intros k. destruct (Nat.lt_ge_cases k r.2) as [Hk|Hk].
  - rewrite lookup_take_lt, lookup_drop, lookup_replicate_2 by done. apply Hz. lia.
  - rewrite !lookup_ge_None_2; [done| |]; rewrite ?length_replicate, ?length_take; lia.
Qed.

(** ** Round trip *)

Lemma octets_segments a : bytes 16 a -> octets (segments a) = a.
Proof.
  intros Ha. bytes_destruct Ha. cbn [segments octets flat_map app].
  unfold uN in *. change (2 ^ 8) with 256 in *.
  repeat (apply (f_equal2 (@cons Z)); [div_lia|]). reflexivity.
Qed.

Lemma segments_u16 a : bytes 16 a -> u16s (segments a) /\ length (segments a) = 8%nat.
Proof.
  intros Ha. bytes_destruct Ha. simpl. split; [|done]. unfold uN in *. change (2 ^ 8) with 256 in *.
  repeat (constructor; [lia|]). constructor.
Qed.

Lemma parse_groups a : bytes 16 a -> parse (fmt_subslice (segments a)) = Some a.
Proof.
  intros Ha. destruct (segments_u16 a Ha) as [Hu Hl]. unfold parse, read_ipv6_addr.
  rewrite <- (app_nil_r (fmt_subslice _)). change (fmt_subslice (segments a)) with (group_text 0 (segments a)).
  rewrite read_groups_text by (done || (by left) || lia). rewrite Hl. simpl. by rewrite octets_segments.
Qed.

(** The compressed form: [head], a double colon for at least two zero groups, [tail]. *)
Lemma parse_compressed head tail n :
  u16s head -> u16s tail -> (2 <= n)%nat -> (length head + n + length tail = 8)%nat ->
  parse (fmt_subslice head ++ [58; 58] ++ fmt_subslice tail) = Some (octets (head ++ replicate n 0 ++ tail)).
Proof.
  intros Hh Ht Hn Hlen. unfold parse, read_ipv6_addr.
  change (fmt_subslice head) with (group_text 0 head). change (fmt_subslice tail) with (group_text 0 tail).
  rewrite read_groups_text; [|done|lia|right; eexists; split; [reflexivity|by apply no_dot_group_text]].
  rewrite (proj2 (Nat.eqb_neq (length head) 8)) by lia. cbn [app].
  rewrite <- (app_nil_r (group_text 0 tail)), read_groups_text by (done || (by left) || lia).
  by replace (8 - length head - length tail)%nat with n by lia.
Qed.

Lemma parse_mapped o : bytes 4 o ->
  parse ([58; 58; 102; 102; 102; 102; 58] ++ fmt_ipv4 o) = Some (replicate 10 0 ++ [255; 255] ++ o).
Proof.
  intros Ho. bytes_destruct Ho. unfold uN in *. change (2 ^ 8) with 256 in *.
  assert (read_ipv4_addr (fmt_ipv4 [z; z0; z1; z2]) = Some ([z; z0; z1; z2], [])) as E.
  { unfold fmt_ipv4, read_ipv4_addr. cbn [nth read_ipv4_groups].
    unfold read_separator. cbn [Nat.eqb]. rewrite read_dec8 by done. cbn [app].
    rewrite Z.eqb_refl, read_dec8 by done. cbn [app]. rewrite Z.eqb_refl, read_dec8 by done. cbn [app].
    rewrite Z.eqb_refl. rewrite <- (app_nil_r (dec8 z2)), read_dec8 by done. done. }
  unfold parse, read_ipv6_addr.
  assert (forall s, read_groups 8 0 (58 :: s) = ([], false, 58 :: s)) as E0 by done.
  cbn [app]. rewrite E0. cbn [length Nat.eqb].
  assert (forall s, read_groups 7 0 (102 :: 102 :: 102 :: 102 :: 58 :: s) =
            let '(gs, b, r) := read_groups 6 1 (58 :: s) in (65535 :: gs, b, r)) as E1 by done.
  change (8 - (0 + 1))%nat with 7%nat. rewrite E1. cbn [read_groups]. change (1 <? 6)%nat with true. cbv iota.
  change (read_separator 58 1 read_ipv4_addr (58 :: fmt_ipv4 [z; z0; z1; z2]))
    with (read_ipv4_addr (fmt_ipv4 [z; z0; z1; z2])). rewrite E. cbn [nth length app replicate Nat.sub].
  f_equal. cbn [octets flat_map app].
  repeat (apply (f_equal2 (@cons Z)); [div_lia|]). reflexivity.
Qed.

Lemma parse_display (a : list Z) : bytes 16 a -> parse (display a) = Some a.
Proof.
  intros Ha. unfold display, is_ipv4_mapped. case_bool_decide as Hm.
  - rewrite parse_mapped; [|destruct Ha as [Hl Hb]; split; [rewrite length_drop; lia|by apply Forall_drop]].
    f_equal. rewrite <- (take_drop 12 a) at 2. by rewrite Hm.
  - destruct (segments_u16 a Ha) as [Hu Hl]. cbv zeta.
    pose proof (zero_span_range (segments a) (segments a) 0 (0, 0)%nat (0, 0)%nat) as Hz.
    set (zs := zero_span _ _ _ _) in *. destruct (Nat.ltb_spec 1 zs.2) as [H1|]; [|by apply parse_groups].
    assert (zrange (segments a) zs) as Hr.
    { apply Hz; [done|done|by left| |]; (split; simpl; [lia|intros; lia]). }
    rewrite (parse_compressed _ _ zs.2).
    + f_equal. rewrite <- zrange_split by done. by apply octets_segments.
    + by apply Forall_take.
    + by apply Forall_drop.
    + lia.
    + destruct Hr as [Hr _]. rewrite length_take, length_drop. lia.
Qed.

End Ipv6Text.
