(* ===== verification/Db.v ===== *)
(** * The domain table: [migrations/001_initial.sql] and [dns-server/src/db.rs]

    The [domains] table with its two uniqueness constraints, the sequence
    [domain_id_seq] and the notification trigger, and the three operations of the
    [DbOps] trait as the SQL statements of its Postgres implementation.  Postgres'
    text conversions for [inet] are operations of the class [Postgres]. *)

From S2P Require Import Prelude Contract ProxySrc Ipv6Text.
Import Contract ProxySrc Ipv6Text.
Local Open Scope Z_scope.

Module Db.

(** ** The trait *)

(** A row as the queries return it: addresses as text. *)
Record DomainRow := mkDomainRow {
  row_domain_id : Z;
  row_domain : list Z;
  row_origin_ipv6 : list Z;
  row_synthetic_ipv6 : list Z;
  row_ttl_seconds : option Z
}.

Inductive DbErr := Unavailable | InvalidInet | UniqueViolation | SequenceExhausted.

(** A database operation: it may fail and may change the database. *)
Definition DbM (D A : Type) : Type := D -> Result DbErr A * D.

Class DbOps (D : Type) := {
  find_by_domain : list Z -> DbM D (option DomainRow);
  insert_domain : Z -> list Z -> list Z -> list Z -> Z -> DbM D (Z * list Z);
  next_domain_id : DbM D Z
}.

(** ** The schema *)

(** A stored row: the [inet] columns hold addresses. *)
Record Stored := mkStored {
  s_id : Z;
  s_domain : list Z;
  s_origin : list Z;
  s_synthetic : list Z;
  s_ttl : option Z
}.

(** The table, the next value of the sequence, and the payloads sent so far on the
    channel [domain_changes], oldest first. *)
Record Database := mkDatabase {
  domains : list Stored;
  seq_next : Z;
  channel : list Z
}.

(** The database after the migration. *)
Definition initial_db : Database := mkDatabase [] 1 [].

(** A connection pool: the database and the faults of the queries to come.  A query
    may be refused before it runs, or run with its answer lost on the way back. *)
Inductive Fault := NoFault | Refused | AnswerLost.
Record PgPool := mkPgPool { pg : Database; faults : list Fault }.

Class Postgres := {
  inet_in : list Z -> option (list Z);   (** [$n::inet] *)
  host : list Z -> list Z                 (** [host(x)::text] *)
}.

(** Both conversions agree with Rust's text form of addresses. *)
Class PostgresLaws `{Postgres} : Prop := {
  inet_in_display : forall a, bytes 16 a -> inet_in (display a) = Some a;
  parse_host : forall a, bytes 16 a -> parse (host a) = Some a
}.

(** Text conversions that write and read addresses as Rust does. *)
#[global] Instance rust_inet : Postgres := { inet_in := parse; host := display }.
#[global] Instance rust_inet_laws : PostgresLaws (H := rust_inet).
Proof. split; apply parse_display. Qed.

Definition find_domain (t : list Stored) (d : list Z) : option Stored :=
  find (fun r => bool_decide (s_domain r = d)) t.
Definition find_id (t : list Stored) (i : Z) : option Stored := find (fun r => s_id r =? i) t.

(** A query on the pool; with no faults left to come, it succeeds in reaching the
    database. *)
Definition run_query {A} (q : Database -> Result DbErr A * Database) : DbM PgPool A := fun p =>
  let '(r, db) := q (pg p) in
  match faults p with
  | Refused :: fs => (Err Unavailable, mkPgPool (pg p) fs)
  | AnswerLost :: fs => (Err Unavailable, mkPgPool db fs)
  | NoFault :: fs => (r, mkPgPool db fs)
  | [] => (r, mkPgPool db [])
  end.

(** [DO UPDATE SET origin_ipv6 = .., ttl_seconds = ..] on the row of name [d]; the id
    and the synthetic address stay. *)
Definition set_origin (d o : list Z) (ttl : Z) (r : Stored) : Stored :=
  if bool_decide (s_domain r = d)
  then mkStored (s_id r) (s_domain r) o (s_synthetic r) (Some ttl) else r.

Section postgres.
Context `{Postgres}.

Definition row_of (r : Stored) : DomainRow :=
  mkDomainRow (s_id r) (s_domain r) (host (s_origin r)) (host (s_synthetic r)) (s_ttl r).

(** [SELECT .. FROM domains WHERE domain = $1] *)
Definition select_domain (d : list Z) (db : Database) : Result DbErr (option DomainRow) * Database :=
  (Ok (row_of <$> find_domain (domains db) d), db).

(** [INSERT .. ON CONFLICT (domain) DO UPDATE .. RETURNING ..]: a new row, or the
    existing one with a new origin and ttl; the trigger notifies its [domain_id]. *)
Definition upsert (id : Z) (d : list Z) (origin synthetic : list Z) (ttl : Z) (db : Database)
    : Result DbErr (Z * list Z) * Database :=
  match inet_in origin, inet_in synthetic with
  | Some o, Some s =>
      match find_domain (domains db) d with
      | Some r =>
          (Ok (s_id r, host (s_synthetic r)),
           mkDatabase (set_origin d o ttl <$> domains db) (seq_next db) (channel db ++ [s_id r]))
      | None =>
          match find_id (domains db) id with
          | Some _ => (Err UniqueViolation, db)
          | None => (Ok (id, host s),
                     mkDatabase (domains db ++ [mkStored id d o s (Some ttl)]) (seq_next db)
                                (channel db ++ [id]))
          end
      end
  | _, _ => (Err InvalidInet, db)
  end.

(** [SELECT nextval('domain_id_seq')]: a [bigint], read as [i64] and cast to [i32]. *)
Definition nextval (db : Database) : Result DbErr Z * Database :=
  if 2 ^ 63 - 1 <? seq_next db then (Err SequenceExhausted, db)
  else (Ok (as_i 32 (seq_next db)), mkDatabase (domains db) (seq_next db + 1) (channel db)).

#[global] Instance PgPool_DbOps : DbOps PgPool := {
  find_by_domain d := run_query (select_domain d);
  insert_domain id d origin synthetic ttl := run_query (upsert id d origin synthetic ttl);
  next_domain_id := run_query nextval
}.

(** ** Invariant *)

(** Names and ids are unique; every row carries the synthetic address of its id,
    16-byte addresses, and an id already drawn from the sequence. *)
Record db_wf (db : Database) : Prop := {
  wf_domains : NoDup (s_domain <$> domains db);
  wf_ids : NoDup (s_id <$> domains db);
  wf_rows : Forall (fun r => 1 <= s_id r < seq_next db /\ bytes 16 (s_origin r) /\
                      s_synthetic r = synthetic_ipv6 (as_u 32 (s_id r))) (domains db)
}.

Lemma initial_db_wf : db_wf initial_db.
Proof. split; constructor. Qed.

Lemma find_domain_Some t d r : find_domain t d = Some r -> r ∈ t /\ s_domain r = d.
Proof.
  unfold find_domain. intros E. apply find_some in E as [Hin Hd].
  apply bool_decide_eq_true in Hd. by rewrite list_elem_of_In.
Qed.

Lemma find_domain_app t t' d r : find_domain t d = Some r -> find_domain (t ++ t') d = Some r.
Proof.
  unfold find_domain. induction t as [|x t IH]; [done|]. simpl. by case_bool_decide.
Qed.

Lemma find_domain_snoc t r : find_domain t (s_domain r) = None -> find_domain (t ++ [r]) (s_domain r) = Some r.
Proof.
  unfold find_domain. induction t as [|x t IH]; simpl; [by rewrite bool_decide_true|]. by case_bool_decide.
Qed.

Lemma find_domain_unique t r :
  NoDup (s_domain <$> t) -> r ∈ t -> find_domain t (s_domain r) = Some r.
Proof.
  induction t as [|x t IH]; intros Hn Hr; [by apply not_elem_of_nil in Hr|]. simpl in Hn |- *.
  apply NoDup_cons in Hn as [Hx Hn]. case_bool_decide as E.
  - apply elem_of_cons in Hr as [->|Hr]; [done|]. exfalso. apply Hx. rewrite E. by apply list_elem_of_fmap_2.
  - apply elem_of_cons in Hr as [->|Hr]; [done|]. by apply IH.
Qed.

Lemma find_domain_None t d : find_domain t d = None <-> d ∉ s_domain <$> t.
Proof.
  split.
  - intros E Hin. apply list_elem_of_fmap in Hin as (r & -> & Hr). apply list_elem_of_In in Hr.
    pose proof (find_none _ _ E r Hr) as Hf. simpl in Hf. by rewrite bool_decide_true in Hf.
  - intros Hd. destruct (find_domain t d) as [r|] eqn:E; [|done].
    apply find_domain_Some in E as [Hr <-]. exfalso. apply Hd. by apply list_elem_of_fmap_2.
Qed.

Lemma id_unique db r r' : NoDup (s_id <$> domains db) -> r ∈ domains db -> r' ∈ domains db -> s_id r = s_id r' -> r = r'.
Proof.
  generalize (domains db) as t. induction t as [|x t IH]; intros Hn Hr Hr' E; [by apply not_elem_of_nil in Hr|].
  simpl in Hn. apply NoDup_cons in Hn as [Hx Hn].
  apply elem_of_cons in Hr as [->|Hr], Hr' as [->|Hr']; try done.
  - exfalso. apply Hx. rewrite E. by apply list_elem_of_fmap_2.
  - exfalso. apply Hx. rewrite <- E. by apply list_elem_of_fmap_2.
  - by apply IH.
Qed.

(** ** The operations preserve the invariant *)

Context `{!PostgresLaws}.

Lemma nextval_wf db r db' :
  db_wf db -> nextval db = (r, db') -> db_wf db' /\ domains db' = domains db /\ channel db' = channel db.
Proof.
  intros Hwf. unfold nextval. destruct (_ <? _); intros [= <- <-]; [done|]. split; [|done].
  destruct Hwf as [H1 H2 H3]. split; simpl; [done..|]. eapply Forall_impl; [exact H3|].
  intros x (? & ? & ?). split_and!; [lia..|done|done].
Qed.

(** The update of the conflicting row keeps names, ids and synthetic addresses. *)
Lemma set_origin_fields d o ttl r :
  s_domain (set_origin d o ttl r) = s_domain r /\ s_id (set_origin d o ttl r) = s_id r /\
  s_synthetic (set_origin d o ttl r) = s_synthetic r.
Proof. unfold set_origin. by case_bool_decide. Qed.

Lemma set_origin_fmap d o ttl (t : list Stored) :
  s_domain <$> (set_origin d o ttl <$> t) = s_domain <$> t /\ s_id <$> (set_origin d o ttl <$> t) = s_id <$> t.
Proof.
  rewrite <- !list_fmap_compose. split; apply list_fmap_ext; intros i r _; apply set_origin_fields.
Qed.

Lemma find_set_origin d o ttl t d' :
  find_domain (set_origin d o ttl <$> t) d' = set_origin d o ttl <$> find_domain t d'.
Proof.
  unfold find_domain. induction t as [|r t IH]; [done|]. simpl.
  destruct (set_origin_fields d o ttl r) as (-> & _). by case_bool_decide.
Qed.

Lemma upsert_wf id d o ttl db r db' :
  db_wf db -> bytes 16 o -> 1 <= id < seq_next db ->
  upsert id d (display o) (display (synthetic_ipv6 (as_u 32 id))) ttl db = (r, db') -> db_wf db'.
Proof.
  intros [H1 H2 H3] Ho Hid. unfold upsert. rewrite inet_in_display by done.
  rewrite inet_in_display by apply bytes_synthetic. destruct (find_domain (domains db) d) as [x|] eqn:Ed.
  - intros [= <- <-]. destruct (set_origin_fmap d o ttl (domains db)) as [E1 E2]. split; simpl.
    + by rewrite E1.
    + by rewrite E2.
    + apply Forall_fmap. eapply Forall_impl; [exact H3|]. intros y (? & ? & ?). simpl.
      destruct (set_origin_fields d o ttl y) as (_ & -> & ->). split; [done|split; [|done]].
      unfold set_origin. by case_bool_decide.
  - destruct (find_id (domains db) id) as [x|] eqn:Ei; intros [= <- <-]; [by split|]. split; simpl.
    + rewrite fmap_app. apply NoDup_app. split_and!; [done| |apply NoDup_singleton].
      intros y Hy Hy'. apply list_elem_of_singleton in Hy' as ->. by apply find_domain_None in Ed.
    + rewrite fmap_app. apply NoDup_app. split_and!; [done| |apply NoDup_singleton].
      intros y Hy Hy'. apply list_elem_of_singleton in Hy' as ->. simpl in Hy.
      apply list_elem_of_fmap in Hy as (z & -> & Hz). apply list_elem_of_In in Hz.
      pose proof (find_none _ _ Ei z Hz) as Hf. simpl in Hf. by rewrite Z.eqb_refl in Hf.
    + apply Forall_app. split; [done|]. constructor; [|constructor]. split; [done|by split].
Qed.

(** A failed insertion changes nothing; a successful one returns the text of the
    synthetic address now stored for the name. *)
Lemma upsert_Err id d o s ttl db e db' : upsert id d o s ttl db = (Err e, db') -> db' = db.
Proof. unfold upsert. intros E. by repeat case_match; simplify_eq. Qed.

Lemma upsert_Ok id d o ttl db sid txt db' :
  db_wf db -> bytes 16 o ->
  upsert id d (display o) (display (synthetic_ipv6 (as_u 32 id))) ttl db = (Ok (sid, txt), db') ->
  exists r, find_domain (domains db') d = Some r /\ s_id r = sid /\ txt = host (s_synthetic r) /\
    s_origin r = o /\ bytes 16 (s_synthetic r).
Proof.
  intros Hwf Ho. unfold upsert. rewrite !inet_in_display by (done || apply bytes_synthetic).
  destruct (find_domain (domains db) d) as [x|] eqn:Ed.
  - intros [= <- <- <-]. exists (set_origin d o ttl x). simpl. rewrite find_set_origin, Ed.
    destruct (set_origin_fields d o ttl x) as (_ & -> & ->). apply find_domain_Some in Ed as [Hx Hd].
    destruct Hwf as [_ _ H3]. rewrite Forall_forall in H3. destruct (H3 x Hx) as (_ & _ & Hs).
    repeat (split; [done|]). split; [unfold set_origin; by rewrite bool_decide_true|].
    rewrite Hs. apply bytes_synthetic.
  - destruct (find_id _ _); intros [= <- <- <-]. simpl. eexists. split.
    + rewrite find_domain_snoc by done. reflexivity.
    + repeat (split; [done|]). apply bytes_synthetic.
Qed.

(** Whatever is inserted, a registered name keeps its id and synthetic address. *)
Lemma upsert_stable id d o s ttl db r db' x :
  db_wf db -> find_domain (domains db) (s_domain x) = Some x -> upsert id d o s ttl db = (r, db') ->
  exists x', find_domain (domains db') (s_domain x) = Some x' /\
    s_id x' = s_id x /\ s_synthetic x' = s_synthetic x.
Proof.
  intros Hwf Hx. unfold upsert. destruct (inet_in o) as [o'|]; [|intros [= <- <-]; by exists x].
  destruct (inet_in s) as [s'|]; [|intros [= <- <-]; by exists x].
  destruct (find_domain (domains db) d) as [y|] eqn:Ed.
  - intros [= <- <-]. simpl. exists (set_origin d o' ttl x). rewrite find_set_origin, Hx.
    split; [done|]. apply set_origin_fields.
  - destruct (find_id (domains db) id); intros [= <- <-]; [by exists x|]. simpl. exists x.
    split; [|done]. by apply find_domain_app.
Qed.

(** A successful insertion announces exactly the name's id and leaves the rows of
    other names alone. *)
Lemma upsert_announces id d o s ttl db sid txt db' :
  upsert id d o s ttl db = (Ok (sid, txt), db') ->
  channel db' = channel db ++ [sid] /\
  forall d', d' <> d -> find_domain (domains db') d' = find_domain (domains db) d'.
Proof.
  unfold upsert. destruct (inet_in o) as [o'|]; [|done]. destruct (inet_in s) as [s'|]; [|done].
  destruct (find_domain (domains db) d) as [y|] eqn:Ed.
  - intros [= <- <- <-]. split; [done|]. intros d' Hd. simpl. rewrite find_set_origin.
    destruct (find_domain (domains db) d') as [r|] eqn:E; [|done]. apply find_domain_Some in E as [_ E]. simpl.
    unfold set_origin. rewrite bool_decide_false by congruence. done.
  - destruct (find_id (domains db) id); intros [= <- <- <-]. split; [done|]. intros d' Hd. simpl.
    destruct (find_domain (domains db) d') as [r|] eqn:E; [by apply find_domain_app|].
    apply find_domain_None. apply find_domain_None in E. rewrite fmap_app. simpl.
    intros Hin. apply elem_of_app in Hin as [Hin|Hin]; [done|]. by apply list_elem_of_singleton in Hin.
Qed.

End postgres.

End Db.
