(* ===== verification/Dns.v ===== *)
(** * The DNS server's query handler: [dns-server/src/handler.rs], [resolver.rs]

    [handle_query] and [handle_aaaa] over any implementation of the [DbOps] trait.
    DNS messages and names come from the hickory crates: the message is the record
    of the fields the code sets, and its wire form and the ASCII form of a name are
    operations of the class [Hickory].  [ipv6_lookup] is the upstream resolver. *)

From S2P Require Import Prelude Contract ProxySrc Ipv6Text Db.
Import Contract ProxySrc Ipv6Text Db.
Local Open Scope Z_scope.

Module Dns.

(** ** DNS messages *)

Inductive MessageType := Query_ | Response_.
Inductive ResponseCode := NoError | FormErr | ServFail | NXDomain | RCode_Other (n : Z).
Inductive RecordType := AAAA | A | RecordType_Other (n : Z).

Section messages.
Context {Name : Type}.

Record Query := mkQuery { query_name : Name; query_type : RecordType }.

(** An AAAA record of class IN. *)
Record AaaaRecord := mkRecord { record_name : Name; record_ttl : Z; record_addr : list Z }.

Record Message := mkMessage {
  msg_id : Z;
  message_type : MessageType;
  op_code : Z;
  recursion_desired : bool;
  recursion_available : bool;
  queries : list Query;
  answers : list AaaaRecord;
  response_code : ResponseCode
}.

Definition set_response_code (c : ResponseCode) (m : Message) : Message :=
  mkMessage (msg_id m) (message_type m) (op_code m) (recursion_desired m) (recursion_available m)
            (queries m) (answers m) c.
Definition add_answer (r : AaaaRecord) (m : Message) : Message :=
  mkMessage (msg_id m) (message_type m) (op_code m) (recursion_desired m) (recursion_available m)
            (queries m) (answers m ++ [r]) (response_code m).

(** The response both [handle_query] and [servfail] start from. *)
Definition response_to (request : Message) : Message :=
  mkMessage (msg_id request) Response_ (op_code request) (recursion_desired request) true
            (queries request) [] NoError.

End messages.
Arguments Query : clear implicits.
Arguments AaaaRecord : clear implicits.
Arguments Message : clear implicits.

Class Hickory := {
  Name : Type;
  to_ascii : Name -> list Z;
  from_vec : list Z -> option (Message Name);
  to_vec : Message Name -> option (list Z)
}.

(** ** The upstream resolver *)

Inductive ResolveError := Proto (no_records_found : bool) | ResolveError_Other.

Definition lookup_aaaa (ipv6_lookup : list Z -> Result ResolveError (list (list Z))) (domain : list Z)
    : Result ResolveError (option (list Z)) :=
  match ipv6_lookup domain with
  | Ok lookup => Ok (head lookup)
  | Err e =>
      let is_no_records := match e with Proto b => b | _ => false end in
      if is_no_records then Ok None else Err e
  end.

(** ** The handler *)

Inductive HandlerErr := BadQuery | DbError (e : DbErr) | BadAddress | EncodeError.

Definition HM (D A : Type) : Type := D -> Result HandlerErr A * D.
#[global] Instance HM_ret {D} : MRet (HM D) := fun A a d => (Ok a, d).
#[global] Instance HM_bind {D} : MBind (HM D) := fun A B k p d =>
  match p d with
  | (Ok a, d') => k a d'
  | (Err e, d') => (Err e, d')
  end.
Definition hfail {D A} (e : HandlerErr) : HM D A := fun d => (Err e, d).

(** A database call followed by [?]. *)
Definition db {D A} (q : DbM D A) : HM D A := fun d =>
  match q d with
  | (Ok a, d') => (Ok a, d')
  | (Err e, d') => (Err (DbError e), d')
  end.

(** [trim_end_matches('.')] and [to_lowercase], on the ASCII form of a name. *)
Fixpoint trim_start_dots (s : list Z) : list Z :=
  match s with
  | c :: s' => if c =? 46 then trim_start_dots s' else s
  | [] => []
  end.
Definition trim_end_dots (s : list Z) : list Z := rev (trim_start_dots (rev s)).
Definition to_lowercase (s : list Z) : list Z :=
  (fun c => if (65 <=? c) && (c <=? 90) then c + 32 else c) <$> s.

Section handler.
Context `{Hickory} {D : Type} `{DbOps D}.
Context (ipv6_lookup : list Z -> Result ResolveError (list (list Z))).

Definition domain_of (name : Name) : list Z := to_lowercase (trim_end_dots (to_ascii name)).

(** [Record::from_rdata] .. [add_answer] .. [set_response_code(NoError)]. *)
Definition answer_with (name : Name) (ttl : Z) (addr : list Z) (response : Message Name) : Message Name :=
  set_response_code NoError (add_answer (mkRecord name ttl addr) response).

Definition handle_aaaa (name : Name) (response : Message Name) : HM D (Message Name) :=
  let domain_str := domain_of name in
  found ← db (find_by_domain domain_str);
  match found with
  | Some row =>
      match parse (row_synthetic_ipv6 row) with
      | None => hfail BadAddress
      | Some synthetic =>
          let ttl := as_u 32 (default 300 (row_ttl_seconds row)) in
          mret (answer_with name ttl synthetic response)
      end
  | None =>
      match lookup_aaaa ipv6_lookup domain_str with
      | Ok None => mret (set_response_code NXDomain response)
      | Err _ => mret (set_response_code ServFail response)
      | Ok (Some origin_ipv6) =>
          domain_id ← db next_domain_id;
          let synthetic := synthetic_ipv6 (as_u 32 domain_id) in
          let ttl := 300 in
          stored ← db (insert_domain domain_id domain_str (display origin_ipv6) (display synthetic) ttl);
          match parse stored.2 with
          | None => hfail BadAddress
          | Some synthetic_ipv6 => mret (answer_with name ttl synthetic_ipv6 response)
          end
      end
  end.

Definition encode (m : Message Name) : HM D (list Z) :=
  match to_vec m with Some b => mret b | None => hfail EncodeError end.

Definition handle_query (data : list Z) : HM D (list Z) :=
  match from_vec data with
  | None => hfail BadQuery
  | Some request =>
      let response := response_to request in
      match queries request with
      | [] => encode (set_response_code FormErr response)
      | query :: _ =>
          response ← (match query_type query with
                      | AAAA => handle_aaaa (query_name query) response
                      | A => mret (set_response_code NoError response)
                      | _ => mret (set_response_code NoError response)
                      end);
          encode response
      end
  end.

(** [servfail] of [main.rs]. *)
Definition servfail (query_bytes : list Z) : option (list Z) :=
  match from_vec query_bytes with
  | None => None
  | Some request => to_vec (set_response_code ServFail (response_to request))
  end.

End handler.

End Dns.
