(* ===== verification/DnsSpec.v ===== *)
(** * What the DNS handler does

    The shape of every response, the exact effect of an AAAA query on a healthy
    database, and what failures leave behind. *)

From S2P Require Import Prelude Contract ProxySrc Ipv6Text Db Dns.
Import Contract ProxySrc Ipv6Text Db Dns.
Local Open Scope Z_scope.

Module DnsSpec.

(** ** Responses *)

Section shape.
Context `{HK : Hickory} {D : Type} `{DbOps D}.
Context (ipv6_lookup : list Z -> Result ResolveError (list (list Z))).

(** [m] answers [request]: the same id, operation, recursion bit and questions,
    marked as a response, with at most the one record asked for. *)
Record responds (request m : Message Name) : Prop := {
  rs_id : msg_id m = msg_id request;
  rs_type : message_type m = Response_;
  rs_op : op_code m = op_code request;
  rs_rd : recursion_desired m = recursion_desired request;
  rs_ra : recursion_available m = true;
  rs_queries : queries m = queries request;
  rs_answers : answers m = [] \/
    exists q qs ttl addr, queries request = q :: qs /\ query_type q = AAAA /\
      answers m = [mkRecord (query_name q) ttl addr] /\ response_code m = NoError
}.

Lemma responds_empty request c : responds request (set_response_code c (response_to request)).
Proof. split; try done. by left. Qed.

Lemma handle_aaaa_responds request q qs d m d' :
  queries request = q :: qs -> query_type q = AAAA ->
  handle_aaaa ipv6_lookup (query_name q) (response_to request) d = (Ok m, d') -> responds request m.
Proof.
  intros Hq Ht. unfold handle_aaaa, mbind, HM_bind, mret, HM_ret, hfail. cbv zeta.
  assert (forall ttl addr, responds request (answer_with (query_name q) ttl addr (response_to request))) as Ha.
  { intros ttl addr. split; try done. right. by exists q, qs, ttl, addr. }
  destruct (db (find_by_domain _) d) as [[[row|]|] d1]; [| |done].
  - destruct (parse _); [|done]. intros [= <- <-]. apply Ha.
  - destruct (lookup_aaaa _ _) as [[o|]|]; [|intros [= <- <-]; apply responds_empty..].
    destruct (db next_domain_id d1) as [[id|] d2]; [|done].
    destruct (db (insert_domain _ _ _ _ _) d2) as [[st|] d3]; [|done].
    destruct (parse st.2); [|done]. intros [= <- <-]. apply Ha.
Qed.

(** C23. Every response the handler produces answers its own query: the request's
    id, operation code, recursion-desired bit and question section are echoed, it
    is marked as a response with recursion available, and it carries either no
    record or exactly one AAAA record for the name asked, with NOERROR. *)
Theorem handle_query_responds (data bytes : list Z) (d d' : D) :
  handle_query ipv6_lookup data d = (Ok bytes, d') ->
  exists request m, from_vec data = Some request /\ to_vec m = Some bytes /\ responds request m.
Proof.
  unfold handle_query. destruct (from_vec data) as [request|]; [|done].
  assert (forall m d1, encode m d1 = (Ok bytes, d') -> to_vec m = Some bytes) as He.
  { intros m d1. unfold encode. destruct (to_vec m); [|done]. by intros [= -> ->]. }
  destruct (queries request) as [|q qs] eqn:Eq.
  - intros E. apply He in E. eexists request, _. split_and!; [done|exact E|apply responds_empty].
  - unfold mbind, HM_bind.
    destruct (query_type q) eqn:Et; [|intros E; apply He in E; eexists request, _;
      split_and!; [done|exact E|apply responds_empty]..].
    destruct (handle_aaaa _ _ _ _) as [[m|] d1] eqn:Em; [|done]. intros E. apply He in E.
    exists request, m. split_and!; [done..|]. by eapply handle_aaaa_responds.
Qed.

End shape.

(** ** Effect on a healthy database *)

Section effect.
Context `{HK : Hickory} `{PG : Postgres} `{PGL : !PostgresLaws}.
Context (ipv6_lookup : list Z -> Result ResolveError (list (list Z))).
Context (lookup_bytes : forall d l, ipv6_lookup d = Ok l -> Forall (bytes 16) l).

Lemma lookup_aaaa_bytes d o : lookup_aaaa ipv6_lookup d = Ok (Some o) -> bytes 16 o.
Proof.
  unfold lookup_aaaa. destruct (ipv6_lookup d) as [l|e] eqn:E.
  - destruct l as [|x l]; [done|]. intros [= <-]. by apply lookup_bytes, Forall_cons_1 in E as [E _].
  - by repeat case_match.
Qed.

(** What an AAAA query for [name] should do to a healthy database [d]. *)
Definition aaaa_spec (name : Name) (response : Message Name) (d : Database) : Message Name * Database :=
  match find_domain (domains d) (domain_of name) with
  | Some r => (answer_with name (as_u 32 (default 300 (s_ttl r))) (s_synthetic r) response, d)
  | None =>
      match lookup_aaaa ipv6_lookup (domain_of name) with
      | Ok None => (set_response_code NXDomain response, d)
      | Err _ => (set_response_code ServFail response, d)
      | Ok (Some o) =>
          let id := seq_next d in
          (answer_with name 300 (synthetic_ipv6 id) response,
           mkDatabase (domains d ++ [mkStored id (domain_of name) o (synthetic_ipv6 id) (Some 300)])
                      (id + 1) (channel d ++ [id]))
      end
  end.

Lemma row_synthetic_bytes d r : db_wf d -> r ∈ domains d -> bytes 16 (s_synthetic r).
Proof.
  intros [_ _ H3] Hr. rewrite Forall_forall in H3. destruct (H3 r Hr) as (_ & _ & ->). apply bytes_synthetic.
Qed.

Lemma find_id_fresh d : db_wf d -> find_id (domains d) (seq_next d) = None.
Proof.
  intros [_ _ H3]. destruct (find_id _ _) as [r|] eqn:E; [|done]. apply find_some in E as [Hr Hid].
  apply list_elem_of_In in Hr. rewrite Forall_forall in H3. destruct (H3 r Hr) as (Hb & _). lia.
Qed.

Lemma as_i32_small x : 0 <= x < 2 ^ 31 -> as_i 32 x = x.
Proof.
  intros Hx. unfold as_i. rewrite wrap_small; [lia|]. unfold uN. change (2 ^ (32 - 1)) with (2 ^ 31).
  change (2 ^ 32) with (2 ^ 31 + 2 ^ 31). lia.
Qed.

Lemma as_u32_small x : 0 <= x < 2 ^ 31 -> as_u 32 x = x.
Proof. intros Hx. apply wrap_small. unfold uN. change (2 ^ 32) with (2 ^ 31 + 2 ^ 31). lia. Qed.

(** The insertion of a fresh name under the id just drawn. *)
Lemma upsert_fresh d dom o :
  db_wf d -> 1 <= seq_next d < 2 ^ 31 -> bytes 16 o -> find_domain (domains d) dom = None ->
  let id := seq_next d in
  upsert id dom (display o) (display (synthetic_ipv6 (as_u 32 id))) 300
    (mkDatabase (domains d) (id + 1) (channel d)) =
  (Ok (id, host (synthetic_ipv6 id)),
   mkDatabase (domains d ++ [mkStored id dom o (synthetic_ipv6 id) (Some 300)]) (id + 1) (channel d ++ [id])).
Proof.
  intros Hwf Hseq Ho Ed id. unfold upsert. rewrite as_u32_small by lia.
  rewrite !inet_in_display by (done || apply bytes_synthetic). simpl.
  by rewrite Ed, find_id_fresh.
Qed.

Lemma handle_aaaa_run name response d :
  db_wf d -> 1 <= seq_next d < 2 ^ 31 ->
  handle_aaaa ipv6_lookup name response (mkPgPool d []) =
  (Ok (aaaa_spec name response d).1, mkPgPool (aaaa_spec name response d).2 []).
Proof.
  intros Hwf Hseq. unfold handle_aaaa, mbind, HM_bind, db, aaaa_spec. cbv zeta. simpl.
  unfold run_query at 1. simpl. destruct (find_domain (domains d) (domain_of name)) as [r|] eqn:Ed; simpl.
  - pose proof (find_domain_Some _ _ _ Ed) as [Hr _].
    rewrite parse_host by by apply (row_synthetic_bytes d). done.
  - destruct (lookup_aaaa ipv6_lookup _) as [[o|]|] eqn:El; [|done..].
    pose proof (lookup_aaaa_bytes _ _ El) as Ho. unfold run_query at 1. simpl. unfold nextval.
    rewrite (proj2 (Z.ltb_ge (2 ^ 63 - 1) (seq_next d))) by (change (2 ^ 63) with (2 ^ 31 * 2 ^ 32); nia).
    rewrite as_i32_small by lia. unfold run_query. simpl. rewrite upsert_fresh by done. simpl.
    rewrite parse_host by apply bytes_synthetic. done.
Qed.

Lemma aaaa_spec_wf name response d :
  db_wf d -> 1 <= seq_next d < 2 ^ 31 -> db_wf (aaaa_spec name response d).2.
Proof.
  intros Hwf Hseq. unfold aaaa_spec. destruct (find_domain _ _) as [r|] eqn:Ed; [done|].
  destruct (lookup_aaaa _ _) as [[o|]|] eqn:El; [|done..]. apply lookup_aaaa_bytes in El. simpl.
  eapply (upsert_wf (seq_next d) (domain_of name) o 300 (mkDatabase (domains d) (seq_next d + 1) (channel d)));
    [|done|simpl; lia|by apply upsert_fresh].
  destruct Hwf as [H1 H2 H3]. split; simpl; [done..|]. eapply Forall_impl; [exact H3|].
  intros x (? & ? & ?). split; [lia|by split].
Qed.

(** C14. The effect of an AAAA query on a healthy database, on every branch.  A
    registered name is answered with its stored synthetic address and ttl and
    nothing changes.  An unregistered name is looked up: no record gives NXDOMAIN,
    a failing resolver SERVFAIL, both without touching the database; an address
    registers the name under the next id, announces the id on the notification
    channel, and answers with the id's synthetic address.  The table stays
    well-formed. *)
Theorem aaaa_query_effect (name : Name) (response : Message Name) (d : Database) :
  db_wf d -> 1 <= seq_next d < 2 ^ 31 ->
  handle_aaaa ipv6_lookup name response (mkPgPool d []) =
    (Ok (aaaa_spec name response d).1, mkPgPool (aaaa_spec name response d).2 []) /\
  db_wf (aaaa_spec name response d).2.
Proof. intros Hwf Hseq. split; [by apply handle_aaaa_run|by apply aaaa_spec_wf]. Qed.

(** ** Failures *)

(** The table and the channel, which failed queries must not change. *)
Definition same_table (d d' : Database) : Prop := domains d = domains d' /\ channel d = channel d'.

Lemma run_query_fault {A} (q : Database -> Result DbErr A * Database) p r p' :
  run_query q p = (r, p') ->
  (r = Err Unavailable /\ (pg p' = pg p \/ exists r', q (pg p) = (r', pg p'))) \/ q (pg p) = (r, pg p').
Proof.
  unfold run_query. destruct (q (pg p)) as [r' d']. destruct (faults p) as [|[] fs]; intros [= <- <-];
    [by right|by right|left; split; [done|by left]|left; split; [done|right; by exists r']].
Qed.

(** [d'] is [d] with the whole registration of [dom] under the address [o]: its row
    and its announcement, nothing else. *)
Definition registered (dom o : list Z) (d d' : Database) : Prop :=
  exists r, find_domain (domains d') dom = Some r /\ s_origin r = o /\
    channel d' = channel d ++ [s_id r] /\
    forall dom', dom' <> dom -> find_domain (domains d') dom' = find_domain (domains d) dom'.

Lemma nextval_fault p r p' :
  db_wf (pg p) -> run_query nextval p = (r, p') -> same_table (pg p) (pg p') /\ db_wf (pg p') /\
  forall id, r = Ok id -> 1 <= seq_next (pg p) < 2 ^ 31 -> 1 <= id < seq_next (pg p').
Proof.
  intros Hwf E. assert (same_table (pg p) (pg p') /\ db_wf (pg p')) as [H1 H2].
  { apply run_query_fault in E as [[_ [->|[r' E]]]|E]; [done|..];
      destruct (nextval_wf _ _ _ Hwf E) as (? & ? & ?); done. }
  split; [exact H1|]. split; [exact H2|]. intros id -> Hseq.
  apply run_query_fault in E as [[? _]|E]; [done|]. unfold nextval in E.
  destruct (_ <? _); [done|]. injection E as <- <-. rewrite as_i32_small by lia. simpl. lia.
Qed.

Lemma insert_fault p id dom o r p' :
  db_wf (pg p) -> bytes 16 o -> 1 <= id < seq_next (pg p) ->
  run_query (upsert id dom (display o) (display (synthetic_ipv6 (as_u 32 id))) 300) p = (r, p') ->
  db_wf (pg p') /\
  match r with
  | Ok (_, txt) => is_Some (parse txt)
  | Err _ => pg p' = pg p \/ registered dom o (pg p) (pg p')
  end.
Proof.
  intros Hwf Ho Hid E. apply run_query_fault in E as [[-> [->|[r' E]]]|E].
  - split; [done|by left].
  - split; [by eapply upsert_wf|]. destruct r' as [[sid txt]|e]; [|left; by eapply upsert_Err].
    right. destruct (upsert_announces _ _ _ _ _ _ _ _ _ E) as [Hc Hd].
    apply upsert_Ok in E as (x & Hx & <- & _ & Hxo & _); [|done..]. by exists x.
  - split; [by eapply upsert_wf|]. destruct r as [[sid txt]|e]; [|left; by eapply upsert_Err].
    apply upsert_Ok in E as (x & _ & _ & -> & _ & Hb); [|done..]. rewrite parse_host by done. by eexists.
Qed.

(** C15. A query that ends in an error is all or nothing.  Whichever of its database
    calls are refused or lose their answer, in any pattern, the table stays
    well-formed, and the table and the notifications are either as they were (at
    most an id of the sequence is lost) or hold the complete registration of the
    name under the address the resolver gave, announced once. *)
Theorem handler_error_atomic (name : Name) (response : Message Name) (p p' : PgPool) (e : HandlerErr) :
  db_wf (pg p) -> 1 <= seq_next (pg p) < 2 ^ 31 ->
  handle_aaaa ipv6_lookup name response p = (Err e, p') ->
  db_wf (pg p') /\
  (same_table (pg p) (pg p') \/
   exists o, lookup_aaaa ipv6_lookup (domain_of name) = Ok (Some o) /\
     registered (domain_of name) o (pg p) (pg p')).
Proof.
  intros Hwf Hseq. unfold handle_aaaa, mbind, HM_bind, db. cbv zeta. simpl.
  destruct (run_query (select_domain _) p) as [r1 p1] eqn:E1.
  assert (pg p1 = pg p) as Ep1 by (apply run_query_fault in E1 as [[_ [?|[r' E1]]]|E1]; [done|by injection E1 as _ <-..]).
  destruct r1 as [[row|]|e1]; [| |intros [= _ <-]; rewrite Ep1; split; [done|by left]].
  { apply run_query_fault in E1 as [[? _]|E1]; [done|]. injection E1 as Er _.
    destruct (find_domain _ _) as [r|] eqn:Ed; simplify_eq/=.
    rewrite parse_host; [done|]. apply (row_synthetic_bytes (pg p)); [done|]. by apply find_domain_Some in Ed as []. }
  destruct (lookup_aaaa _ _) as [[o|]|] eqn:El; [|done..]. pose proof (lookup_aaaa_bytes _ _ El) as Ho.
  destruct (run_query nextval p1) as [r2 p2] eqn:E2. rewrite <- Ep1 in Hwf, Hseq.
  destruct (nextval_fault _ _ _ Hwf E2) as (Hs2 & Hwf2 & Hid). rewrite Ep1 in Hs2.
  destruct r2 as [id|e2]; [|intros [= _ <-]; split; [done|by left]].
  destruct (run_query (upsert _ _ _ _ _) p2) as [r3 p3] eqn:E3.
  destruct (insert_fault _ _ _ _ _ _ Hwf2 Ho (Hid id eq_refl Hseq) E3) as [Hwf3 H3].
  destruct r3 as [[sid txt]|e3]; [destruct H3 as [a Ha]; simpl; by rewrite Ha|].
  intros [= _ <-]. split; [done|]. destruct H3 as [->|(r & Hf & Hr & Hc & Hd)]; [by left|right].
  destruct Hs2 as [Hs2 Hc2]. exists o. split; [done|]. exists r. rewrite Hs2, Hc2. done.
Qed.

End effect.

End DnsSpec.
