(* ===== verification/DnsRace.v ===== *)
(** * Concurrent AAAA queries

    Every query runs in its own task, and the tasks share the database: the three
    database calls of [handle_aaaa] of different tasks interleave freely.  A task
    is the state between two calls, [task_step] is one call with what follows it up
    to the next, and [step] lets any task move. *)

From S2P Require Import Prelude Contract ProxySrc Ipv6Text Db Dns DnsSpec.
Import Contract ProxySrc Ipv6Text Db Dns DnsSpec.
Local Open Scope Z_scope.

Module DnsRace.

Inductive Task :=
| Asked (d : list Z)                       (** before [find_by_domain] *)
| Missed (d o : list Z)                    (** resolved upstream, before [next_domain_id] *)
| Numbered (d o : list Z) (id : Z)         (** before [insert_domain] *)
| Answered (d addr : list Z)               (** returned a record with this address *)
| Refused (d : list Z).                    (** returned no record, or failed *)

Section race.
Context `{PG : Postgres} `{PGL : !PostgresLaws}.

(** One database call of [handle_aaaa], and what the task does with its result. *)
Definition task_step (ipv6_lookup : list Z -> Result ResolveError (list (list Z))) (t : Task) (db : Database)
    : Task * Database :=
  match t with
  | Asked d =>
      match select_domain d db with
      | (Ok (Some row), db) =>
          match parse (row_synthetic_ipv6 row) with
          | Some a => (Answered d a, db)
          | None => (Refused d, db)
          end
      | (Ok None, db) =>
          match lookup_aaaa ipv6_lookup d with
          | Ok (Some o) => (Missed d o, db)
          | _ => (Refused d, db)
          end
      | (Err _, db) => (Refused d, db)
      end
  | Missed d o =>
      match nextval db with
      | (Ok id, db) => (Numbered d o id, db)
      | (Err _, db) => (Refused d, db)
      end
  | Numbered d o id =>
      match upsert id d (display o) (display (synthetic_ipv6 (as_u 32 id))) 300 db with
      | (Ok (_, txt), db) =>
          match parse txt with
          | Some a => (Answered d a, db)
          | None => (Refused d, db)
          end
      | (Err _, db) => (Refused d, db)
      end
  | t => (t, db)
  end.

(** Upstream answers are IPv6 addresses. *)
Definition lookup_ok (ipv6_lookup : list Z -> Result ResolveError (list (list Z))) : Prop :=
  forall d l, ipv6_lookup d = Ok l -> Forall (bytes 16) l.

(** The server: the database and the tasks started so far.  The sequence is
    followed as long as its values fit [i32]. *)
Inductive step : Database * list Task -> Database * list Task -> Prop :=
| step_arrive db ts d : step (db, ts) (db, ts ++ [Asked d])
| step_task db ts i t lookup t' db' :
    ts !! i = Some t -> lookup_ok lookup -> seq_next db < 2 ^ 31 ->
    task_step lookup t db = (t', db') -> step (db, ts) (db', <[i := t']> ts)
| step_fault db ts i t d :
    ts !! i = Some t -> (t = Asked d \/ (exists o, t = Missed d o) \/ exists o id, t = Numbered d o id) ->
    step (db, ts) (db, <[i := Refused d]> ts).

Definition reachable (s : Database * list Task) : Prop := rtc step (initial_db, []) s.

(** ** Invariant *)

Definition task_ok (db : Database) (t : Task) : Prop :=
  match t with
  | Asked _ | Refused _ => True
  | Missed _ o => bytes 16 o
  | Numbered _ o id => bytes 16 o /\ 1 <= id < seq_next db
  | Answered d a => exists r, find_domain (domains db) d = Some r /\ s_synthetic r = a
  end.

Record inv (s : Database * list Task) : Prop := {
  inv_db : db_wf s.1;
  inv_seq : 1 <= seq_next s.1;
  inv_tasks : Forall (task_ok s.1) s.2
}.

(** How the database may move under one call: rows keep their name, id and address. *)
Record grows (db db' : Database) : Prop := {
  gr_seq : seq_next db <= seq_next db';
  gr_rows : forall d r, find_domain (domains db) d = Some r ->
    exists r', find_domain (domains db') d = Some r' /\ s_id r' = s_id r /\ s_synthetic r' = s_synthetic r
}.

Lemma grows_refl db : grows db db.
Proof. split; [lia|]. intros d r Hr. by exists r. Qed.

Lemma task_ok_grows db db' t : grows db db' -> task_ok db t -> task_ok db' t.
Proof.
  intros [Hs Hr]. destruct t as [d|d o|d o id|d a|d]; simpl; try done.
  - intros [? ?]. split; [done|lia].
  - intros (r & Hf & <-). destruct (Hr d r Hf) as (r' & Hf' & _ & Hs'). by exists r'.
Qed.

Lemma task_step_ok lookup t db t' db' :
  db_wf db -> 1 <= seq_next db < 2 ^ 31 -> lookup_ok lookup -> task_ok db t ->
  task_step lookup t db = (t', db') ->
  db_wf db' /\ grows db db' /\ task_ok db' t'.
Proof.
  intros Hwf Hseq Hl Ht. pose proof (grows_refl db) as Hg.
  destruct t as [d|d o|d o id|d a|d]; simpl; [| | |by intros [= <- <-]..].
  - destruct (find_domain (domains db) d) as [r|] eqn:Ed; simpl.
    + pose proof (find_domain_Some _ _ _ Ed) as [Hr _].
      rewrite parse_host by by apply (row_synthetic_bytes db). intros [= <- <-].
      split; [done|]. split; [done|]. by exists r.
    + destruct (lookup_aaaa lookup d) as [[o|]|] eqn:El; intros [= <- <-]; [|done..].
      split; [done|]. split; [done|]. by eapply lookup_aaaa_bytes.
  - destruct (nextval db) as [r db1] eqn:En. pose proof (nextval_wf _ _ _ Hwf En) as (Hwf1 & Hd1 & _).
    unfold nextval in En. destruct (_ <? _); injection En as <- <-; intros [= <- <-]; [done|].
    split; [done|]. simpl in Ht. split.
    + split; simpl; [lia|]. intros d' r' Hr'. by exists r'.
    + simpl. rewrite as_i32_small by lia. split; [done|lia].
  - destruct Ht as [Ho Hid]. destruct (upsert _ _ _ _ _ _) as [[[sid txt]|e] db1] eqn:Eu.
    + pose proof (upsert_wf _ _ _ _ _ _ _ Hwf Ho Hid Eu) as Hwf1.
      assert (grows db db1) as Hg1.
      { split.
        - unfold upsert in Eu. repeat case_match; simplify_eq; simpl; lia.
        - intros d' r' Hr'. pose proof (find_domain_Some _ _ _ Hr') as [_ Hd']. subst d'. exact (upsert_stable _ _ _ _ _ _ _ _ r' Hwf Hr' Eu). }
      apply upsert_Ok in Eu as (r & Hf & _ & -> & _ & Hb); [|done..].
      rewrite parse_host by done. intros [= <- <-]. split; [done|]. split; [done|]. by exists r.
    + apply upsert_Err in Eu as ->. by intros [= <- <-].
Qed.

Lemma race_step_inv s s' : step s s' -> inv s -> inv s'.
Proof.
  intros Hs [Hwf Hseq Hts]. destruct Hs as [db ts d|db ts i t lookup t' db' Hi Hl Hlt Et|db ts i t d Hi Ht]; simpl in *.
  - split; simpl; [done..|]. apply Forall_app. split; [done|]. by constructor.
  - destruct (task_step_ok lookup t db t' db') as (Hwf' & Hg & Ht'); [done|lia|done| |done|].
    { by apply (Forall_lookup_1 _ _ _ _ Hts Hi). }
    split; simpl; [done|destruct Hg; lia|]. apply Forall_insert; [|done].
    eapply Forall_impl; [exact Hts|]. intros x. by apply task_ok_grows.
  - split; simpl; [done..|]. by apply Forall_insert.
Qed.

Lemma race_reachable_inv s : reachable s -> inv s.
Proof.
  unfold reachable. revert s. apply (rtc_ind_r inv).
  - split; simpl; [apply initial_db_wf|lia|constructor].
  - intros y z _ Hs Hi. by eapply race_step_inv.
Qed.

(** C10. First writer wins, under every interleaving.  However the database calls of
    concurrent queries interleave, and whichever of them fail, all queries for one
    name that are answered are answered with the same address, which is the one
    stored for the name; and queries for different names never share an address. *)
Theorem race_answers_agree (db : Database) (ts : list Task) (d d' a a' : list Z) :
  reachable (db, ts) -> seq_next db <= 2 ^ 31 ->
  Answered d a ∈ ts -> Answered d' a' ∈ ts ->
  (a = a' <-> d = d') /\ exists r, find_domain (domains db) d = Some r /\ s_synthetic r = a.
Proof.
  intros Hr Hseq Ha Ha'. destruct (race_reachable_inv _ Hr) as [Hwf _ Hts]. simpl in *.
  rewrite Forall_forall in Hts. destruct (Hts _ Ha) as (r & Hf & Hs), (Hts _ Ha') as (r' & Hf' & Hs').
  split; [|by exists r]. pose proof (find_domain_Some _ _ _ Hf) as [Hin Hd].
  pose proof (find_domain_Some _ _ _ Hf') as [Hin' Hd']. split; [|intros ->; congruence].
  intros <-. destruct Hwf as [_ Hids Hrows]. rewrite Forall_forall in Hrows.
  destruct (Hrows r Hin) as (Hb & _ & E), (Hrows r' Hin') as (Hb' & _ & E').
  assert (s_id r = s_id r') as Hid.
  { rewrite <- (as_u32_small (s_id r)), <- (as_u32_small (s_id r')) by lia.
    rewrite <- (domain_id_synthetic (as_u 32 (s_id r))), <- (domain_id_synthetic (as_u 32 (s_id r')))
      by (apply uN_wrap; lia).
    congruence. }
  rewrite <- Hd, <- Hd'. f_equal. by eapply id_unique.
Qed.

(** ** Tasks are the handler *)

(** The task of a query, moved three times without interference, ends as
    [handle_aaaa] does: answered with the address the specification gives, or
    without a record, and with the same database. *)
Lemma task_steps_handler `{HK : Hickory} lookup name (response : Message Name) db :
  lookup_ok lookup -> db_wf db -> 1 <= seq_next db < 2 ^ 31 ->
  let '(t1, db1) := task_step lookup (Asked (domain_of name)) db in
  let '(t2, db2) := task_step lookup t1 db1 in
  let '(t3, db3) := task_step lookup t2 db2 in
  db3 = (aaaa_spec lookup name response db).2 /\
  (t3 = Refused (domain_of name) /\ answers (aaaa_spec lookup name response db).1 = answers response \/
   exists a ttl, t3 = Answered (domain_of name) a /\
     answers (aaaa_spec lookup name response db).1 = answers response ++ [mkRecord name ttl a]).
Proof.
  intros Hl Hwf Hseq. unfold aaaa_spec. cbn [task_step]. unfold select_domain.
  destruct (find_domain (domains db) (domain_of name)) as [r|] eqn:Ed; simpl.
  - pose proof (find_domain_Some _ _ _ Ed) as [Hr _].
    rewrite parse_host by by apply (row_synthetic_bytes db). simpl. split; [done|]. right. by do 2 eexists.
  - destruct (lookup_aaaa lookup _) as [[o|]|] eqn:El; [|simpl; split; [done|by left]..].
    assert (bytes 16 o) as Ho by (by eapply lookup_aaaa_bytes). unfold nextval. cbn [task_step].
    unfold nextval. rewrite (proj2 (Z.ltb_ge (2 ^ 63 - 1) (seq_next db))) by (change (2 ^ 63) with (2 ^ 31 * 2 ^ 32); nia).
    rewrite as_i32_small by lia. cbn [task_step]. rewrite upsert_fresh by done.
    rewrite parse_host by apply bytes_synthetic. simpl. split; [done|]. right. by do 2 eexists.
Qed.

End race.

End DnsRace.
