(* ===== verification/DnsServer.v ===== *)
(** * The DNS server's receive loop: [dns-server/src/main.rs]

    Queries are received one by one; each takes a permit of a semaphore and runs
    as a task under a timeout, or is answered at once with SERVFAIL when no permit
    is left.  The state is the semaphore, the drop counter, the tasks in flight and
    the replies given so far, one entry per query that is done with. *)

From S2P Require Import Prelude Contract ProxySrc Ipv6Text Db Dns DnsSpec.
Import Contract ProxySrc Ipv6Text Db Dns DnsSpec.
Local Open Scope Z_scope.

Module DnsServer.

Definition DEFAULT_MAX_CONCURRENT_QUERIES : nat := 256.
Definition SATURATION_LOG_INTERVAL : Z := 100.

(** A datagram: its bytes and where it came from. *)
Record Datagram := mkDatagram { data : list Z; src : Z }.

Record Server := mkServer {
  permits : nat;
  dropped_count : Z;
  in_flight : list Datagram;
  replies : list (Datagram * option (list Z));   (** [None]: nothing could be sent back *)
  warnings : list Z                              (** the drop counts that were logged *)
}.

Definition server_start (max_concurrent : nat) : Server := mkServer max_concurrent 0 [] [] [].

(** How a task ends: the handler returned in time, or the timeout elapsed.  A panic of
    the task, which the handler's code nowhere raises, is not an outcome. *)
Inductive TaskEnd := Finished (r : Result HandlerErr (list Z)) | Elapsed.

Section server.
Context `{HK : Hickory}.

(** One turn of the receive loop. *)
Definition receive (q : Datagram) (s : Server) : Server :=
  match permits s with
  | S p => mkServer p (dropped_count s) (in_flight s ++ [q]) (replies s) (warnings s)
  | O =>
      let n := wrapping_add 64 (dropped_count s) 1 in
      mkServer O n (in_flight s) (replies s ++ [(q, servfail (data q))])
        (if n mod SATURATION_LOG_INTERVAL =? 1 then warnings s ++ [n] else warnings s)
  end.

(** The reply of a task: the handler's response, or SERVFAIL on error or timeout. *)
Definition task_reply (q : Datagram) (e : TaskEnd) : option (list Z) :=
  match e with
  | Finished (Ok response) => Some response
  | Finished (Err _) => servfail (data q)
  | Elapsed => servfail (data q)
  end.

(** The end of the [i]-th task in flight: its reply, and its permit given back. *)
Definition finish (i : nat) (e : TaskEnd) (s : Server) : option Server :=
  match in_flight s !! i with
  | None => None
  | Some q => Some (mkServer (S (permits s)) (dropped_count s) (delete i (in_flight s))
                             (replies s ++ [(q, task_reply q e)]) (warnings s))
  end.

Inductive server_step : list Datagram * Server -> list Datagram * Server -> Prop :=
| step_receive got s q : server_step (got, s) (got ++ [q], receive q s)
| step_finish got s i e s' : finish i e s = Some s' -> server_step (got, s) (got, s').

(** Histories: the datagrams received and the server they lead to. *)
Definition server_reachable (max : nat) (h : list Datagram * Server) : Prop :=
  rtc server_step ([], server_start max) h.

(** ** Accounting *)

Record accounts (max : nat) (h : list Datagram * Server) : Prop := {
  ac_permits : (permits h.2 + length (in_flight h.2))%nat = max;
  ac_queries : Permutation h.1 (in_flight h.2 ++ (replies h.2).*1)
}.

Lemma receive_accounts max got s q : accounts max (got, s) -> accounts max (got ++ [q], receive q s).
Proof.
  intros [Hp Hq]. simpl in *. unfold receive. destruct (permits s) as [|p] eqn:Ep; split; simpl.
  - lia.
  - rewrite Hq, fmap_app. simpl. solve_Permutation.
  - rewrite length_app. simpl. lia.
  - rewrite Hq. solve_Permutation.
Qed.

Lemma finish_accounts max got s i e s' :
  accounts max (got, s) -> finish i e s = Some s' -> accounts max (got, s').
Proof.
  intros [Hp Hq] E. simpl in *. unfold finish in E. destruct (in_flight s !! i) as [q|] eqn:Ei; [|done].
  injection E as <-. pose proof (lookup_lt_Some _ _ _ Ei) as Hlt. split; simpl.
  - rewrite length_delete by done. lia.
  - rewrite Hq, fmap_app. simpl. rewrite (delete_Permutation _ _ _ Ei) at 1. solve_Permutation.
Qed.

Lemma reachable_accounts max h : server_reachable max h -> accounts max h.
Proof.
  unfold server_reachable. revert h. apply (rtc_ind_r (accounts max)).
  - split; simpl; [lia|done].
  - intros y z _ Hs Hi. destruct Hs as [got s q|got s i e s' E].
    + by apply receive_accounts.
    + by eapply finish_accounts.
Qed.

(** Queries that parse and whose SERVFAIL can be encoded. *)
Definition refusable (q : Datagram) : Prop := is_Some (servfail (data q)).

Lemma reachable_replied max h q r :
  server_reachable max h -> (q, r) ∈ replies h.2 -> refusable q -> is_Some r.
Proof.
  unfold server_reachable. intros Hr. revert q r. revert h Hr.
  apply (rtc_ind_r (fun h => forall q r, (q, r) ∈ replies h.2 -> refusable q -> is_Some r)).
  - intros q r Hin. by apply not_elem_of_nil in Hin.
  - intros y z _ Hs IH q r Hin Hq. destruct Hs as [got s q0|got s i e s' E]; simpl in *.
    + unfold receive in Hin. destruct (permits s); simpl in Hin; [|by eapply IH].
      apply elem_of_app in Hin as [Hin|Hin]; [by eapply IH|].
      apply list_elem_of_singleton in Hin as [= -> ->]. done.
    + unfold finish in E. destruct (in_flight s !! i) as [q0|]; [|done]. injection E as <-. simpl in Hin.
      apply elem_of_app in Hin as [Hin|Hin]; [by eapply IH|].
      apply list_elem_of_singleton in Hin as [= -> ->]. destruct e as [[b|]|]; [by eexists|done..].
Qed.

(** C16. The receive loop under every interleaving of arrivals and task ends: the
    permits left and the tasks in flight always add up to the limit, so no more than
    the limit run at once; every datagram received is either in flight or has been
    dealt with, exactly once; and a query that can be refused at all always gets a
    packet back, whether it was handled, failed, timed out or was shed. *)
Theorem server_accounting (max : nat) (got : list Datagram) (s : Server) :
  server_reachable max (got, s) ->
  (permits s + length (in_flight s))%nat = max /\
  Permutation got (in_flight s ++ (replies s).*1) /\
  (forall q r, (q, r) ∈ replies s -> refusable q -> is_Some r).
Proof.
  intros Hr. destruct (reachable_accounts _ _ Hr) as [Hp Hq]. split; [done|]. split; [done|].
  intros q r. by apply (reachable_replied max (got, s)).
Qed.

End server.

End DnsServer.
