(* ===== verification/DnsMain.v ===== *)
(** * The DNS server's [main]: [dns-server/src/main.rs]

    Configuration from the environment, the stages before the socket is bound, and
    the receive loop as a function of the events it meets.  The runtime's semaphore
    refuses limits above an eighth of the address space with a panic. *)

From Stdlib Require Import Ascii String.
From S2P Require Import Prelude Text Contract ProxySrc Keys Ipv6Text Db Dns DnsSpec DnsServer.
Import Text.
Local Open Scope Z_scope.
Local Open Scope list_scope.

Module DnsMain.

(** ** [SocketAddr::from_str] *)

Inductive SocketAddr := V4 (ip : list Z) (port : Z) | V6 (ip : list Z) (port scope_id : Z).

(** A literal character, and a number of any length below the limit. *)
Definition read_char (c : Z) (s : list Z) : option (list Z) :=
  match s with x :: s => if x =? c then Some s else None | [] => None end.
Definition read_uint (limit : Z) (s : list Z) : option (Z * list Z) :=
  Ipv6Text.read_number 10 (List.length s) true limit s.

Definition read_port (s : list Z) : option (Z * list Z) :=
  match read_char 58 s with Some s => read_uint 65535 s | None => None end.

Definition read_scope_id (s : list Z) : option (Z * list Z) :=
  match read_char 37 s with Some s => read_uint (2 ^ 32 - 1) s | None => None end.

Definition read_socket_addr_v4 (s : list Z) : option (SocketAddr * list Z) :=
  match Ipv6Text.read_ipv4_addr s with
  | None => None
  | Some (ip, s) => match read_port s with Some (port, s) => Some (V4 ip port, s) | None => None end
  end.

Definition read_socket_addr_v6 (s : list Z) : option (SocketAddr * list Z) :=
  match read_char 91 s with
  | None => None
  | Some s =>
      match Ipv6Text.read_ipv6_addr s with
      | None => None
      | Some (segs, s) =>
          let '(scope_id, s) := default (0, s) (read_scope_id s) in
          match read_char 93 s with
          | None => None
          | Some s =>
              match read_port s with
              | Some (port, s) => Some (V6 (Ipv6Text.octets segs) port scope_id, s)
              | None => None
              end
          end
      end
  end.

(** The whole text has to be used up. *)
Definition parse_socket_addr (s : list Z) : option SocketAddr :=
  match (match read_socket_addr_v4 s with Some r => Some r | None => read_socket_addr_v6 s end) with
  | Some (a, []) => Some a
  | _ => None
  end.

(** ** Configuration *)

Record Config := mkConfig {
  database_url : list Z;
  listen_addr : list Z;
  max_concurrent : Z;
  query_timeout : Z      (** seconds *)
}.

Definition DEFAULT_QUERY_TIMEOUT_SECS : Z := 5.

(** [std::env::var(name).ok().and_then(|v| v.parse().ok()).unwrap_or(default)], for
    [usize] and [u64] alike. *)
Definition env_number (name : list Z) (dflt : Z) (vars : gmap (list Z) (list Z)) : Z :=
  match vars !! name with
  | Some v => default dflt (parse_u 64 (Keys.utf8 v))
  | None => dflt
  end.

Inductive MainErr := NotSet | NoDatabase | BadListenAddr | BindFailed | RecvFailed.

Definition read_config (vars : gmap (list Z) (list Z)) : Result MainErr Config :=
  match vars !! text "DATABASE_URL" with
  | None => Err NotSet
  | Some url =>
      Ok (mkConfig url
            (default (text "0.0.0.0:53") (vars !! text "LISTEN_ADDR"))
            (env_number (text "MAX_CONCURRENT_QUERIES") (Z.of_nat DnsServer.DEFAULT_MAX_CONCURRENT_QUERIES) vars)
            (env_number (text "QUERY_TIMEOUT_SECS") DEFAULT_QUERY_TIMEOUT_SECS vars))
  end.

(** The largest number of permits the runtime's semaphore takes. *)
Definition MAX_PERMITS : Z := 2 ^ 61 - 1.

(** The stages up to the bound socket, given whether the database and the socket
    come up. *)
Definition dns_main (pool_up bind_ok : bool) (vars : gmap (list Z) (list Z))
    : Keys.Outcome MainErr (Config * SocketAddr * DnsServer.Server) :=
  match read_config vars with
  | Err e => Keys.Return (Err e)
  | Ok cfg =>
      if negb pool_up then Keys.Return (Err NoDatabase)
      else match parse_socket_addr (Keys.utf8 (listen_addr cfg)) with
      | None => Keys.Return (Err BadListenAddr)
      | Some socket_addr =>
          if MAX_PERMITS <? max_concurrent cfg then Keys.Panic
          else if negb bind_ok then Keys.Return (Err BindFailed)
          else Keys.Return (Ok (cfg, socket_addr, DnsServer.server_start (Z.to_nat (max_concurrent cfg))))
      end
  end.

(** ** The loop *)

(** A datagram arrives, receiving fails, or the [i]-th task in flight ends. *)
Inductive Event := Arrives (q : DnsServer.Datagram) | RecvFails | TaskEnds (i : nat) (e : DnsServer.TaskEnd).

Section loop.
Context `{HK : Dns.Hickory}.

Fixpoint serve (events : list Event) (s : DnsServer.Server) : option MainErr * DnsServer.Server :=
  match events with
  | [] => (None, s)
  | Arrives q :: events => serve events (DnsServer.receive q s)
  | RecvFails :: _ => (Some RecvFailed, s)
  | TaskEnds i e :: events => serve events (default s (DnsServer.finish i e s))
  end.

(** The datagrams received before the loop ended. *)
Fixpoint received (events : list Event) : list DnsServer.Datagram :=
  match events with
  | [] => []
  | Arrives q :: events => q :: received events
  | RecvFails :: _ => []
  | TaskEnds _ _ :: events => received events
  end.

Lemma serve_steps events : forall got s,
  rtc DnsServer.server_step (got, s) (got ++ received events, (serve events s).2).
Proof.
  induction events as [|[q| |i e] events IH]; intros got s; cbn [serve received].
  - rewrite app_nil_r. apply rtc_refl.
  - eapply rtc_l; [apply DnsServer.step_receive|]. specialize (IH (got ++ [q]) (DnsServer.receive q s)).
    by rewrite <- app_assoc in IH.
  - rewrite app_nil_r. apply rtc_refl.
  - destruct (DnsServer.finish i e s) as [s'|] eqn:E; cbn [default]; [|apply IH].
    eapply rtc_l; [by apply (DnsServer.step_finish _ _ i e)|]. apply IH.
Qed.

Lemma serve_ends events : forall s, (serve events s).1 = None <-> RecvFails ∉ events.
Proof.
  induction events as [|[q| |i e] events IH]; intros s; cbn [serve].
  - split; [intros _; apply not_elem_of_nil|done].
  - rewrite IH, not_elem_of_cons. split; [by split|by intros [_ ?]].
  - split; [done|]. intros H. destruct H. by left.
  - rewrite IH, not_elem_of_cons. split; [by split|by intros [_ ?]].
Qed.

(** ** What the configuration means *)

(** [n] is the number the variable holds; or it is the default, and the variable is
    unset or holds no number of 64 bits. *)
Definition configured (vars : gmap (list Z) (list Z)) (name : list Z) (dflt n : Z) : Prop :=
  (exists v, vars !! name = Some v /\ parse_u 64 (Keys.utf8 v) = Some n) \/
  (n = dflt /\ forall v, vars !! name = Some v -> parse_u 64 (Keys.utf8 v) = None).

Lemma env_number_configured vars name dflt n : env_number name dflt vars = n <-> configured vars name dflt n.
Proof.
  unfold env_number, configured. destruct (vars !! name) as [v|].
  - destruct (parse_u 64 (Keys.utf8 v)) as [k|] eqn:E; simpl; split.
    + intros <-. left. by exists v.
    + intros [(v' & [= <-] & ?)|[_ H]]; [congruence|]. by rewrite (H v eq_refl) in E.
    + intros <-. right. split; [done|]. by intros v' [= <-].
    + intros [(v' & [= <-] & ?)|[-> _]]; [congruence|done].
  - split; [intros <-; right; by split|]. intros [(v & ? & _)|[-> _]]; done.
Qed.

(** What [main] has read when it has a usable configuration. *)
Record reads (vars : gmap (list Z) (list Z)) (cfg : Config) (addr : SocketAddr) : Prop := {
  rd_url : vars !! text "DATABASE_URL" = Some (database_url cfg);
  rd_listen : listen_addr cfg = default (text "0.0.0.0:53") (vars !! text "LISTEN_ADDR");
  rd_addr : parse_socket_addr (Keys.utf8 (listen_addr cfg)) = Some addr;
  rd_limit : configured vars (text "MAX_CONCURRENT_QUERIES") 256 (max_concurrent cfg);
  rd_timeout : configured vars (text "QUERY_TIMEOUT_SECS") 5 (query_timeout cfg)
}.

Lemma read_config_reads vars cfg addr :
  reads vars cfg addr <-> read_config vars = Ok cfg /\ parse_socket_addr (Keys.utf8 (listen_addr cfg)) = Some addr.
Proof.
  unfold read_config. split.
  - intros [H1 H2 H3 H4 H5]. split; [|done]. rewrite H1, <- H2. apply env_number_configured in H4, H5.
    change (Z.of_nat DnsServer.DEFAULT_MAX_CONCURRENT_QUERIES) with 256. unfold DEFAULT_QUERY_TIMEOUT_SECS.
    rewrite H4, H5. by destruct cfg.
  - destruct (vars !! text "DATABASE_URL") as [url|] eqn:E; [|by intros [? _]]. intros [[= <-] H].
    split; [done|done|done|by apply env_number_configured..].
Qed.

(** C24. What the DNS server's [main] makes of its environment.  It reaches its loop
    exactly when DATABASE_URL is set, the pool comes up, the listen address (0.0.0.0:53
    if LISTEN_ADDR is unset) parses, the limit is one the semaphore takes and the
    socket binds; it then starts with the limit of MAX_CONCURRENT_QUERIES, or 256 if
    that is unset or no number, as many permits and no task, and with the time-out of
    QUERY_TIMEOUT_SECS, or 5 seconds.  It panics exactly when all is well up to a limit
    above what the semaphore takes.  The loop ends only when receiving fails. *)
Theorem dns_main_exact (pool_up bind_ok : bool) (vars : gmap (list Z) (list Z)) :
  (forall cfg addr s0, dns_main pool_up bind_ok vars = Keys.Return (Ok (cfg, addr, s0)) <->
     pool_up = true /\ bind_ok = true /\ reads vars cfg addr /\ max_concurrent cfg <= MAX_PERMITS /\
     s0 = DnsServer.mkServer (Z.to_nat (max_concurrent cfg)) 0 [] [] []) /\
  (dns_main pool_up bind_ok vars = Keys.Panic <->
     pool_up = true /\ exists cfg addr, reads vars cfg addr /\ MAX_PERMITS < max_concurrent cfg) /\
  (forall events s, (serve events s).1 = None <-> RecvFails ∉ events).
Proof.
  split; [|split; [|exact serve_ends]].
  - intros cfg addr s0. rewrite read_config_reads. unfold dns_main. split.
    + destruct (read_config vars) as [c|]; [|done]. destruct pool_up; [|done]. cbn [negb].
      destruct (parse_socket_addr _) as [a|] eqn:Ea; [|done]. destruct (Z.ltb_spec MAX_PERMITS (max_concurrent c)); [done|].
      destruct bind_ok; [|done]. by intros [= <- <- <-].
    + intros (-> & -> & [-> ->] & Hle & ->). cbn [negb]. by rewrite (proj2 (Z.ltb_ge _ _) Hle).
  - unfold dns_main. setoid_rewrite read_config_reads. split.
    + destruct (read_config vars) as [c|]; [|done]. destruct pool_up; [|done]. cbn [negb].
      destruct (parse_socket_addr _) as [a|] eqn:Ea; [|done].
      destruct (Z.ltb_spec MAX_PERMITS (max_concurrent c)); [|by destruct bind_ok]. intros _. split; [done|by exists c, a].
    + intros (-> & cfg & addr & [-> ->] & Hlt). cbn [negb]. by rewrite (proj2 (Z.ltb_lt _ _) Hlt).
Qed.

End loop.

End DnsMain.
