(* ===== verification/Daemon.v ===== *)
(** * The daemon: [daemon/src/db.rs], [maps.rs], [resolver.rs]

    Reconnection with exponential backoff, the write operations on [NAT_MAP], the
    bulk load at start, one notification of the listener, and one round of the
    periodic resolver.  Writing a BPF map and Postgres' text form of integers are
    operations of classes. *)

From S2P Require Import Prelude Types Ipv6Text Contract ProxySrc Db Dns.
From S2P Require Import Platform Ebpf.
Import Types Ipv6Text Contract ProxySrc Db Dns.
Local Open Scope Z_scope.

Module Daemon.

(** ** Backoff: [listen_for_changes] *)

(** Durations in nanoseconds, as [std::time::Duration] has them. *)
Definition secs (n : Z) : Z := n * 1000000000.
Definition HEALTHY_RUN_THRESHOLD : Z := secs 5.
Definition INITIAL_BACKOFF : Z := secs 1.
Definition MAX_BACKOFF : Z := secs 30.

Definition next_backoff (elapsed backoff : Z) : Z :=
  if HEALTHY_RUN_THRESHOLD <=? elapsed then INITIAL_BACKOFF
  else Z.min (backoff * 2) MAX_BACKOFF.

(** One turn of the supervisor: the pool cannot be created, or [run_listener] ran
    for some time and came back, with or without an error. *)
Inductive Turn := PoolFails | Ran (elapsed : Z) (ok : bool).

(** What the supervisor does: it logs "reconnecting in n s", sleeps, or gives up. *)
Inductive Act := LogRetry (seconds : Z) | LogExit | Sleep (d : Z) | GiveUp.

Fixpoint listen_for_changes (turns : list Turn) (backoff : Z) : list Act :=
  match turns with
  | [] => []
  | PoolFails :: _ => [GiveUp]
  | Ran elapsed ok :: turns =>
      let log := if ok then LogExit else LogRetry (backoff / secs 1) in
      let backoff := next_backoff elapsed backoff in
      log :: Sleep backoff :: listen_for_changes turns backoff
  end.

(** ** [i32::from_str] on notification payloads *)

Definition in_i32 (n : Z) : bool := (- 2 ^ 31 <=? n) && (n <? 2 ^ 31).

Fixpoint radix10 (sign acc : Z) (s : list Z) : option Z :=
  match s with
  | [] => Some acc
  | c :: s =>
      if (48 <=? c) && (c <=? 57) then
        let acc := acc * 10 + sign * (c - 48) in
        if in_i32 acc then radix10 sign acc s else None
      else None
  end.

Definition parse_i32 (s : list Z) : option Z :=
  match s with
  | [] => None
  | [c] => if (c =? 43) || (c =? 45) then None else radix10 1 0 s
  | c :: rest => if c =? 43 then radix10 1 0 rest else if c =? 45 then radix10 (-1) 0 rest else radix10 1 0 s
  end.

(** [NEW.domain_id::text]. *)
Class PostgresInt := { int4_text : Z -> list Z }.
Class PostgresIntLaws `{PostgresInt} : Prop := {
  parse_int4_text : forall n, in_i32 n = true -> parse_i32 (int4_text n) = Some n
}.

(** ** NAT_MAP from user space: [BpfMaps] *)

(** [map.insert(key, entry, 0)] and [map.remove(&key)] on a BPF hash map of the given
    capacity; [None] is an error. *)
Class NatMapSyscalls := {
  nat_insert : nat -> gmap Z NatEntry -> Z -> NatEntry -> option (gmap Z NatEntry);
  nat_remove : gmap Z NatEntry -> Z -> option (gmap Z NatEntry)
}.
Class NatMapLaws `{NatMapSyscalls} : Prop := {
  nat_insert_Some : forall n m k v m', nat_insert n m k v = Some m' -> m' = <[k := v]> m;
  nat_insert_room : forall n m k v, is_Some (m !! k) \/ (size m < n)%nat -> is_Some (nat_insert n m k v);
  nat_insert_full : forall n m k v, m !! k = None -> (n <= size m)%nat -> nat_insert n m k v = None;
  nat_remove_Some : forall m k m', nat_remove m k = Some m' -> m' = delete k m;
  nat_remove_present : forall m k, is_Some (m !! k) -> is_Some (nat_remove m k)
}.

Inductive DaemonErr :=
| InsertFailed | BadOrigin | BadPayload | QueryFailed | ConnectFailed | ListenFailed | RecvFailed.

Section maps.
Context `{NatMapSyscalls}.

Definition insert_nat_entry (domain_id : Z) (origin : list Z) (m : gmap Z NatEntry)
    : Result DaemonErr unit * gmap Z NatEntry :=
  match nat_insert Ebpf.MAX_ENTRIES m domain_id (mkNatEntry origin) with
  | Some m' => (Ok tt, m')
  | None => (Err InsertFailed, m)
  end.

Definition remove_nat_entry (domain_id : Z) (m : gmap Z NatEntry) : Result DaemonErr unit * gmap Z NatEntry :=
  (Ok tt, default m (nat_remove m domain_id)).

(** The loop of [bulk_load_from_db] over the fetched rows (id, origin text). *)
Fixpoint bulk_insert (rows : list (Z * list Z)) (m : gmap Z NatEntry)
    : Result DaemonErr unit * gmap Z NatEntry :=
  match rows with
  | [] => (Ok tt, m)
  | (domain_id, origin_ipv6_text) :: rows =>
      match parse origin_ipv6_text with
      | None => (Err BadOrigin, m)
      | Some origin =>
          match nat_insert Ebpf.MAX_ENTRIES m (as_u 32 domain_id) (mkNatEntry origin) with
          | None => (Err InsertFailed, m)
          | Some m => bulk_insert rows m
          end
      end
  end.

Context `{Postgres}.

(** [up]: the query for the rows is answered. *)
Definition bulk_load_from_db (up : bool) (db : Database) (m : gmap Z NatEntry)
    : Result DaemonErr nat * gmap Z NatEntry :=
  if negb up then (Err QueryFailed, m) else
  let rows := (fun r => (s_id r, host (s_origin r))) <$> domains db in
  let count := length rows in
  match bulk_insert rows m with
  | (Ok _, m) => (Ok count, m)
  | (Err e, m) => (Err e, m)
  end.

(** ** One notification of [run_listener] *)

(** [SELECT .. WHERE domain_id = $1], the origin column as text. *)
Definition select_id (id : Z) (db : Database) : option (list Z) :=
  (fun r => host (s_origin r)) <$> find_id (domains db) id.

(** After the fetch: write the map; a failed write is only logged. *)
Definition apply_row (domain_id : Z) (row : option (list Z)) (m : gmap Z NatEntry)
    : Result DaemonErr unit * gmap Z NatEntry :=
  match row with
  | Some origin_ipv6_text =>
      match parse origin_ipv6_text with
      | None => (Err BadOrigin, m)
      | Some origin => (Ok tt, (insert_nat_entry (as_u 32 domain_id) origin m).2)
      end
  | None => (Ok tt, m)
  end.

(** An error ends the session: [run_listener] returns it. *)
Definition on_notification (up : bool) (payload : list Z) (db : Database) (m : gmap Z NatEntry)
    : Result DaemonErr unit * gmap Z NatEntry :=
  match parse_i32 payload with
  | None => (Err BadPayload, m)
  | Some domain_id =>
      if negb up then (Err QueryFailed, m) else apply_row domain_id (select_id domain_id db) m
  end.

(** What one turn of the loop meets: the payload received ([None]: [recv] fails),
    whether the query is answered, and the table it sees. *)
Record Note := mkNote { note_payload : option (list Z); note_up : bool; note_db : Database }.

(** The loop of [run_listener]; [None]: still listening. *)
Fixpoint listen_loop (notes : list Note) (m : gmap Z NatEntry) : option DaemonErr * gmap Z NatEntry :=
  match notes with
  | [] => (None, m)
  | n :: notes =>
      match note_payload n with
      | None => (Some RecvFailed, m)
      | Some payload =>
          match on_notification (note_up n) payload (note_db n) m with
          | (Err e, m) => (Some e, m)
          | (Ok _, m) => listen_loop notes m
          end
      end
  end.

Definition run_listener (connected listening : bool) (notes : list Note) (m : gmap Z NatEntry)
    : option DaemonErr * gmap Z NatEntry :=
  if negb connected then (Some ConnectFailed, m)
  else if negb listening then (Some ListenFailed, m)
  else listen_loop notes m.

(** ** [resolve_all] *)

(** [UPDATE domains SET origin_ipv6 = $1::inet WHERE domain_id = $2], with its
    trigger; [None] is a query error. *)
Definition update_origin (text : list Z) (id : Z) (db : Database) : option Database :=
  match inet_in text with
  | None => None
  | Some o =>
      Some (mkDatabase ((fun r => if s_id r =? id then mkStored (s_id r) (s_domain r) o (s_synthetic r) (s_ttl r)
                                  else r) <$> domains db)
              (seq_next db)
              (channel db ++ (s_id <$> filter (fun r => s_id r = id) (domains db))))
  end.

(** [execute] of the UPDATE under the faults to come: whether it was answered with
    success, and the database after it. *)
Definition execute_update (ups : list Fault) (text : list Z) (id : Z) (db : Database) : bool * Database :=
  match update_origin text id db with
  | None => (false, db)
  | Some db' =>
      match ups with
      | Refused :: _ => (false, db)
      | AnswerLost :: _ => (false, db')
      | _ => (true, db')
      end
  end.

(** The loop over the fetched rows (id, name, origin text). *)
Fixpoint resolve_rows (ipv6_lookup : list Z -> Result ResolveError (list (list Z))) (ups : list Fault)
    (rows : list (Z * list Z * list Z)) (db : Database) (m : gmap Z NatEntry)
    : Result DaemonErr unit * Database * gmap Z NatEntry :=
  match rows with
  | [] => (Ok tt, db, m)
  | (domain_id, domain, origin_ipv6_text) :: rows =>
      match ipv6_lookup domain with
      | Ok (new_ip :: _) =>
          let new_ip_str := display new_ip in
          if bool_decide (new_ip_str <> origin_ipv6_text) then
            match execute_update ups new_ip_str domain_id db with
            | (false, db) => (Err QueryFailed, db, m)
            | (true, db) =>
                match insert_nat_entry (as_u 32 domain_id) new_ip m with
                | (Err e, m) => (Err e, db, m)
                | (Ok _, m) => resolve_rows ipv6_lookup (tail ups) rows db m
                end
            end
          else resolve_rows ipv6_lookup ups rows db m
      | _ => resolve_rows ipv6_lookup ups rows db m
      end
  end.

Definition resolve_all (ipv6_lookup : list Z -> Result ResolveError (list (list Z))) (up : bool) (ups : list Fault)
    (db : Database) (m : gmap Z NatEntry) : Result DaemonErr unit * Database * gmap Z NatEntry :=
  if negb up then (Err QueryFailed, db, m) else
  resolve_rows ipv6_lookup ups ((fun r => (s_id r, s_domain r, host (s_origin r))) <$> domains db) db m.

(** One tick of [run_periodic_resolver]: what the resolver answers and which queries
    fail.  An error of a round is logged and the next tick comes. *)
Record Tick := mkTick {
  tick_lookup : list Z -> Result ResolveError (list (list Z));
  tick_up : bool;
  tick_ups : list Fault
}.

Definition resolver_tick (s : Database * gmap Z NatEntry) (t : Tick) : Database * gmap Z NatEntry :=
  let '(_, db, m) := resolve_all (tick_lookup t) (tick_up t) (tick_ups t) s.1 s.2 in (db, m).

Definition run_periodic_resolver (ticks : list Tick) (s : Database * gmap Z NatEntry)
    : Database * gmap Z NatEntry := fold_left resolver_tick ticks s.

End maps.

End Daemon.
