(* ===== verification/DaemonSpec.v ===== *)
(** * What the daemon's pieces do

    The backoff schedule, integer payloads, the bulk load, and one undisturbed
    round of the resolver. *)

From S2P Require Import Prelude Types Ipv6Text Contract ProxySrc Platform Ebpf Db Dns DnsSpec Daemon.
Import Types Ipv6Text Contract ProxySrc Db Dns DnsSpec Daemon.
Local Open Scope Z_scope.

Module DaemonSpec.

(** ** Backoff *)

Definition unhealthy (t : Turn) : Prop :=
  match t with Ran e _ => e < HEALTHY_RUN_THRESHOLD | PoolFails => False end.

Definition sleeps (acts : list Act) : list Z :=
  flat_map (fun a => match a with Sleep d => [d] | _ => [] end) acts.

Definition backoff_ok (b : Z) : Prop := secs 1 <= b <= secs 30.

Lemma next_backoff_ok e b : backoff_ok b -> backoff_ok (next_backoff e b).
Proof.
  unfold backoff_ok, next_backoff, secs, HEALTHY_RUN_THRESHOLD, INITIAL_BACKOFF, MAX_BACKOFF, secs.
  destruct (_ <=? _); lia.
Qed.

Lemma sleeps_ok turns : forall b, backoff_ok b -> Forall backoff_ok (sleeps (listen_for_changes turns b)).
Proof.
  induction turns as [|[|e ok] turns IH]; intros b Hb; simpl; [constructor..|].
  apply (next_backoff_ok e) in Hb. assert (Forall backoff_ok (next_backoff e b :: sleeps (listen_for_changes turns (next_backoff e b)))).
  { constructor; [done|by apply IH]. }
  by destruct ok.
Qed.

Lemma sleeps_unhealthy turns : forall j, Forall unhealthy turns ->
  sleeps (listen_for_changes turns (Z.min (secs (2 ^ Z.of_nat j)) (secs 30))) =
  (fun k => Z.min (secs (2 ^ Z.of_nat (j + S k))) (secs 30)) <$> seq 0 (length turns).
Proof.
  induction turns as [|[|e ok] turns IH]; intros j Hu; [done|by apply Forall_cons_1 in Hu as [[] _]|].
  apply Forall_cons_1 in Hu as [He Hu]. simpl in He. cbn [listen_for_changes length seq fmap list_fmap].
  assert (next_backoff e (Z.min (secs (2 ^ Z.of_nat j)) (secs 30)) = Z.min (secs (2 ^ Z.of_nat (S j))) (secs 30)) as ->.
  { unfold next_backoff. rewrite (proj2 (Z.leb_gt _ _)) by lia. unfold MAX_BACKOFF, secs.
    rewrite Nat2Z.inj_succ, Z.pow_succ_r by lia. pose proof (Z.pow_pos_nonneg 2 (Z.of_nat j)). lia. }
  assert (sleeps ((if ok then LogExit else LogRetry (Z.min (secs (2 ^ Z.of_nat j)) (secs 30) / secs 1))
    :: Sleep (Z.min (secs (2 ^ Z.of_nat (S j))) (secs 30))
    :: listen_for_changes turns (Z.min (secs (2 ^ Z.of_nat (S j))) (secs 30))) =
    Z.min (secs (2 ^ Z.of_nat (S j))) (secs 30)
    :: sleeps (listen_for_changes turns (Z.min (secs (2 ^ Z.of_nat (S j))) (secs 30)))) as -> by by destruct ok.
  rewrite IH by done. f_equal; [by rewrite Nat.add_1_r|].
  rewrite <- seq_shift, <- list_fmap_compose. apply list_fmap_ext. intros i k _. simpl. do 4 f_equal. lia.
Qed.

(** C27. The reconnection schedule: whatever happens, every pause is between 1 and 30
    seconds; as long as no run lasts 5 seconds the pauses double, 2, 4, 8, 16, and
    stay at 30; a run of 5 seconds or more brings the next pause back to 1 second. *)
Theorem backoff_schedule (turns : list Turn) :
  Forall backoff_ok (sleeps (listen_for_changes turns INITIAL_BACKOFF)) /\
  (Forall unhealthy turns ->
   sleeps (listen_for_changes turns INITIAL_BACKOFF) =
   (fun k => Z.min (secs (2 ^ Z.of_nat (S k))) (secs 30)) <$> seq 0 (length turns)) /\
  (forall e ok b, HEALTHY_RUN_THRESHOLD <= e ->
   sleeps (listen_for_changes (Ran e ok :: turns) b) =
   INITIAL_BACKOFF :: sleeps (listen_for_changes turns INITIAL_BACKOFF)).
Proof.
  split_and!.
  - apply sleeps_ok. unfold backoff_ok, INITIAL_BACKOFF, secs. lia.
  - intros Hu. exact (sleeps_unhealthy turns 0 Hu).
  - intros e ok b He. simpl. unfold next_backoff. rewrite (proj2 (Z.leb_le _ _) He). by destruct ok.
Qed.

Lemma backoff_schedule_witness :
  sleeps (listen_for_changes (replicate 6 (Ran 0 false)) INITIAL_BACKOFF) =
  [secs 2; secs 4; secs 8; secs 16; secs 30; secs 30].
Proof.
  destruct (backoff_schedule (replicate 6 (Ran 0 false))) as (_ & H & _).
  rewrite H by (repeat constructor; done). reflexivity.
Defined.

(** ** Decimal payloads *)

#[global] Instance decimal_int4 : PostgresInt := {
  int4_text n := if n <? 0 then 45 :: dec 11 (- n) else dec 11 n
}.

Lemma radix10_app sign s s' : forall acc, radix10 sign acc (s ++ s') =
  match radix10 sign acc s with Some acc' => radix10 sign acc' s' | None => None end.
Proof.
  induction s as [|c s IH]; intros acc; simpl; [done|].
  destruct (_ && _); [|done]. destruct (in_i32 _); [apply IH|done].
Qed.

Lemma in_i32_spec n : in_i32 n = true <-> - 2 ^ 31 <= n < 2 ^ 31.
Proof. unfold in_i32. rewrite andb_true_iff, Z.leb_le, Z.ltb_lt. done. Qed.

Lemma radix10_dec sign fuel : forall n, sign = 1 \/ sign = -1 ->
  0 <= n < 10 ^ Z.of_nat fuel -> in_i32 (sign * n) = true ->
  fuel <> O -> radix10 sign 0 (dec fuel n) = Some (sign * n).
Proof.
  induction fuel as [|fuel IH]; intros n Hs Hn Hi Hf; [done|]. cbn [dec].
  destruct (Z.ltb_spec n 10) as [Hlt|Hge].
  - cbn [radix10]. rewrite (proj2 (Z.leb_le 48 (48 + n))), (proj2 (Z.leb_le (48 + n) 57)) by lia. cbn [andb].
    replace (0 * 10 + sign * (48 + n - 48)) with (sign * n) by lia. by rewrite Hi.
  - rewrite Nat2Z.inj_succ, Z.pow_succ_r in Hn by lia. apply in_i32_spec in Hi.
    assert (0 <= n mod 10 < 10) as Hm by (apply Z.mod_pos_bound; lia).
    pose proof (Z.div_mod n 10 ltac:(lia)) as Hdm. assert (1 <= n / 10) by (apply Z.div_le_lower_bound; lia).
    rewrite radix10_app, IH; [|done| |apply in_i32_spec; destruct Hs as [-> | ->]; lia|].
    + cbn [radix10]. rewrite (proj2 (Z.leb_le 48 (48 + n mod 10))), (proj2 (Z.leb_le (48 + n mod 10) 57)) by lia.
      cbn [andb]. replace (sign * (n / 10) * 10 + sign * (48 + n mod 10 - 48)) with (sign * n) by (destruct Hs as [-> | ->]; lia).
      by rewrite (proj2 (in_i32_spec _)).
    + split; [lia|]. apply Z.div_lt_upper_bound; lia.
    + intros ->. change (10 ^ Z.of_nat 0) with 1 in Hn. lia.
Qed.

Lemma dec_head fuel : forall n, fuel <> O -> 0 <= n < 10 ^ Z.of_nat fuel ->
  exists c l, dec fuel n = c :: l /\ 48 <= c <= 57.
Proof.
  induction fuel as [|fuel IH]; intros n Hf Hn; [done|]. cbn [dec].
  destruct (Z.ltb_spec n 10); [exists (48 + n), []; split; [done|lia]|].
  rewrite Nat2Z.inj_succ, Z.pow_succ_r in Hn by lia.
  destruct (IH (n / 10)) as (c & l & -> & Hc).
  - intros ->. change (10 ^ Z.of_nat 0) with 1 in Hn. lia.
  - split; [apply Z.div_pos; lia|apply Z.div_lt_upper_bound; lia].
  - exists c, (l ++ [48 + n mod 10]). done.
Qed.

Lemma parse_i32_digits c l : 48 <= c <= 57 -> parse_i32 (c :: l) = radix10 1 0 (c :: l).
Proof.
  intros Hc. unfold parse_i32. rewrite (proj2 (Z.eqb_neq c 43)), (proj2 (Z.eqb_neq c 45)) by lia. by destruct l.
Qed.

#[global] Instance decimal_int4_laws : PostgresIntLaws.
Proof.
  split. intros n Hn. pose proof (proj1 (in_i32_spec n) Hn) as Hb. change (2 ^ 31) with 2147483648 in Hb.
  unfold int4_text, decimal_int4. destruct (Z.ltb_spec n 0).
  - destruct (dec_head 11 (- n)) as (c & l & E & Hc); [done|change (10 ^ Z.of_nat 11) with 100000000000; lia|].
    pose proof (radix10_dec (-1) 11 (- n)) as Hr. rewrite E in *.
    change (parse_i32 (45 :: c :: l)) with (radix10 (-1) 0 (c :: l)). rewrite Hr; [f_equal; lia|by right|change (10 ^ Z.of_nat 11) with 100000000000; lia| |done].
    by replace (-1 * - n) with n by lia.
  - destruct (dec_head 11 n) as (c & l & E & Hc); [done|change (10 ^ Z.of_nat 11) with 100000000000; lia|].
    pose proof (radix10_dec 1 11 n) as Hr. rewrite E in *. rewrite parse_i32_digits by done.
    rewrite Hr; [f_equal; lia|by left|change (10 ^ Z.of_nat 11) with 100000000000; lia| |done].
    by rewrite Z.mul_1_l.
Qed.

(** ** NAT_MAP in step with the table *)

(** A BPF hash map that accepts entries until it is full. *)
#[global] Instance bounded_nat_map : NatMapSyscalls := {
  nat_insert n m k v :=
    if decide (is_Some (m !! k)) then Some (<[k := v]> m)
    else if (size m <? n)%nat then Some (<[k := v]> m) else None;
  nat_remove m k := if decide (is_Some (m !! k)) then Some (delete k m) else None
}.

#[global] Instance bounded_nat_map_laws : NatMapLaws.
Proof.
  split; simpl.
  - intros. by repeat case_match; simplify_eq.
  - intros n m k v [Hk|Hs]; [by rewrite decide_True|]. case_decide; [done|].
    by rewrite (proj2 (Nat.ltb_lt _ _) Hs).
  - intros n m k v Hk Hn. rewrite decide_False by (rewrite Hk; by intros []).
    by rewrite (proj2 (Nat.ltb_ge _ _) Hn).
  - intros m k m' E. by case_decide; simplify_eq.
  - intros m k Hk. by rewrite decide_True.
Qed.

(** The key of a row, and its entry. *)
Definition key_of (r : Stored) : Z := as_u 32 (s_id r).
Definition entry_of (r : Stored) : NatEntry := mkNatEntry (s_origin r).

Definition in_sync (t : list Stored) (m : gmap Z NatEntry) : Prop :=
  forall r, r ∈ t -> m !! key_of r = Some (entry_of r).

Lemma key_of_inj db r r' :
  db_wf db -> seq_next db <= 2 ^ 31 -> r ∈ domains db -> r' ∈ domains db -> key_of r = key_of r' -> r = r'.
Proof.
  intros Hwf Hseq Hr Hr' E. pose proof Hwf as [_ Hids Hrows]. rewrite Forall_forall in Hrows.
  destruct (Hrows r Hr) as (? & _), (Hrows r' Hr') as (? & _).
  unfold key_of in E. rewrite !as_u32_small in E by lia. by eapply id_unique.
Qed.

Section sync.
Context `{NS : NatMapSyscalls} `{NSL : !NatMapLaws} `{PG : Postgres} `{PGL : !PostgresLaws}.

Lemma bulk_insert_run t : forall m,
  Forall (fun r => bytes 16 (s_origin r)) t -> NoDup (key_of <$> t) ->
  (size m + length t <= Ebpf.MAX_ENTRIES)%nat ->
  exists m', bulk_insert ((fun r => (s_id r, host (s_origin r))) <$> t) m = (Ok tt, m') /\
    in_sync t m' /\ forall k, k ∉ key_of <$> t -> m' !! k = m !! k.
Proof.
  induction t as [|r t IH]; intros m Hb Hn Hs; [by exists m; split; [|split; [intros x Hx; by apply not_elem_of_nil in Hx|]]|].
  simpl in *. apply Forall_cons_1 in Hb as [Hr Hb]. apply NoDup_cons in Hn as [Hk Hn].
  rewrite parse_host by done. fold (key_of r). fold (entry_of r).
  destruct (nat_insert_room Ebpf.MAX_ENTRIES m (key_of r) (entry_of r)) as [m1 E1]; [right; lia|].
  rewrite E1. apply nat_insert_Some in E1 as ->.
  destruct (IH (<[key_of r := entry_of r]> m)) as (m' & E & Hsync & Hrest); [done..| |].
  { rewrite map_size_insert. destruct (m !! key_of r); simpl; lia. }
  exists m'. split; [done|]. split.
  - intros x Hx. apply elem_of_cons in Hx as [->|Hx]; [|by apply Hsync].
    rewrite Hrest by done. by rewrite lookup_insert_eq.
  - intros k Hnk. apply not_elem_of_cons in Hnk as [Hne Hnk]. rewrite Hrest by done. by rewrite lookup_insert_ne.
Qed.

Lemma NoDup_keys db : db_wf db -> seq_next db <= 2 ^ 31 -> NoDup (key_of <$> domains db).
Proof.
  intros Hwf Hseq. apply NoDup_fmap_2_strong.
  - intros x y Hx Hy. by apply (key_of_inj db).
  - destruct Hwf as [_ Hids _]. by apply NoDup_fmap_1 in Hids.
Qed.

Lemma bulk_load_run db :
  db_wf db -> seq_next db <= 2 ^ 31 -> (length (domains db) <= Ebpf.MAX_ENTRIES)%nat ->
  exists m, bulk_load_from_db true db ∅ = (Ok (length (domains db)), m) /\ in_sync (domains db) m /\
    forall k e, m !! k = Some e -> k ∈ key_of <$> domains db.
Proof.
  intros Hwf Hseq Hlen.
  destruct (bulk_insert_run (domains db) ∅) as (m & E & Hsync & Hrest).
  - destruct Hwf as [_ _ H3]. eapply Forall_impl; [exact H3|]. by intros x (_ & ? & _).
  - by apply NoDup_keys.
  - by rewrite map_size_empty.
  - exists m. unfold bulk_load_from_db. rewrite E, length_fmap. split; [done|]. split; [done|].
    intros k e Hk. destruct (decide (k ∈ key_of <$> domains db)) as [|Hn]; [done|].
    by rewrite Hrest, lookup_empty in Hk.
Qed.

(** After the bulk load at start, [NAT_MAP] holds exactly the table: every row's
    origin under its id, and no other entry. *)
Theorem bulk_load_exact (db : Database) :
  db_wf db -> seq_next db <= 2 ^ 31 -> (length (domains db) <= Ebpf.MAX_ENTRIES)%nat ->
  exists m, bulk_load_from_db true db ∅ = (Ok (length (domains db)), m) /\ in_sync (domains db) m /\
    forall k e, m !! k = Some e -> exists r, r ∈ domains db /\ k = key_of r /\ e = entry_of r.
Proof.
  intros Hwf Hseq Hlen. destruct (bulk_load_run db Hwf Hseq Hlen) as (m & E & Hs & Hk).
  exists m. split; [done|]. split; [done|]. intros k e He. pose proof (Hk k e He) as Hin.
  apply list_elem_of_fmap in Hin as (r & -> & Hr). exists r. split; [done|]. split; [done|].
  rewrite (Hs r Hr) in He. by injection He as <-.
Qed.

(** ** A session of the listener *)

(** A turn that lets the session go on: a number is received and the query answered. *)
Definition note_ok (n : Note) : Prop :=
  (exists p id, note_payload n = Some p /\ parse_i32 p = Some id) /\ note_up n = true.

(** The key a turn may write. *)
Definition note_key (n : Note) (k : Z) : Prop :=
  exists p id, note_payload n = Some p /\ parse_i32 p = Some id /\ k = as_u 32 id.

Lemma apply_row_effect id row m r m' :
  apply_row id row m = (r, m') ->
  (forall k, k <> as_u 32 id -> m' !! k = m !! k) /\
  ((forall txt, row = Some txt -> is_Some (parse txt)) -> r = Ok tt).
Proof.
  unfold apply_row. destruct row as [txt|]; [|intros [= <- <-]; done].
  destruct (parse txt) as [o|] eqn:Ep.
  - intros [= <- <-]. split; [|done]. intros k Hk. unfold insert_nat_entry.
    destruct (nat_insert _ _ _ _) as [m1|] eqn:E; [|done]. apply nat_insert_Some in E as ->. by apply lookup_insert_ne.
  - intros [= <- <-]. split; [done|]. intros H. destruct (H txt eq_refl) as [? ?]. congruence.
Qed.

Lemma select_id_parses db id txt : db_wf db -> select_id id db = Some txt -> is_Some (parse txt).
Proof.
  intros [_ _ H3]. unfold select_id. destruct (find_id _ _) as [r|] eqn:E; [|done]. intros [= <-].
  apply find_some in E as [Hr _]. apply list_elem_of_In in Hr. rewrite Forall_forall in H3.
  destruct (H3 r Hr) as (_ & Hb & _). rewrite parse_host by done. by eexists.
Qed.

Lemma on_notification_effect n p m r m' :
  db_wf (note_db n) -> note_payload n = Some p -> on_notification (note_up n) p (note_db n) m = (r, m') ->
  (forall k, ~ note_key n k -> m' !! k = m !! k) /\ (r = Ok tt <-> note_ok n).
Proof.
  intros Hwf Hp. unfold on_notification, note_ok. destruct (parse_i32 p) as [id|] eqn:Ei.
  - destruct (note_up n); cbn [negb]; intros E.
    + destruct (apply_row_effect _ _ _ _ _ E) as [Hk Hok]. split.
      * intros k Hn. apply Hk. intros ->. apply Hn. by exists p, id.
      * split; [intros _; split; [by exists p, id|done]|]. intros _. apply Hok.
        intros txt Ht. by eapply select_id_parses.
    + injection E as <- <-. split; [done|]. split; [done|by intros [_ ?]].
  - intros [= <- <-]. split; [done|]. split; [done|]. intros [(p' & id & Hp' & Hi) _]. congruence.
Qed.

(** C25. A session of the listener ends exactly when receiving fails, a payload is not
    an [i32], or a query is not answered; a missing row or a full NAT_MAP does not end
    it.  Whatever happens, only the entries of ids received are written. *)
Theorem listener_session (notes : list Note) (m m' : gmap Z NatEntry) (e : option DaemonErr) :
  Forall (fun n => db_wf (note_db n)) notes -> run_listener true true notes m = (e, m') ->
  (e = None <-> Forall note_ok notes) /\
  (forall k, (forall n, n ∈ notes -> ~ note_key n k) -> m' !! k = m !! k).
Proof.
  unfold run_listener. simpl negb. cbv iota. revert m. induction notes as [|n notes IH]; intros m Hwf; cbn [listen_loop].
  { intros [= <- <-]. split; [done|done]. }
  apply Forall_cons_1 in Hwf as [Hn Hwf]. destruct (note_payload n) as [p|] eqn:Ep.
  - destruct (on_notification _ p _ m) as [r m1] eqn:E.
    destruct (on_notification_effect n p m r m1 Hn Ep E) as [Hk Hok]. destruct r as [[]|err].
    + intros E'. destruct (IH m1 Hwf E') as [He Hk']. rewrite Forall_cons. split; [rewrite He; tauto|].
      intros k Hnk. rewrite Hk' by (intros x Hx; apply Hnk; by right). apply Hk, Hnk. by left.
    + intros [= <- <-]. split; [|intros k Hnk; apply Hk, Hnk; by left].
      split; [done|]. rewrite Forall_cons. intros [H _]. by apply Hok in H.
  - intros [= <- <-]. split; [|done]. split; [done|]. rewrite Forall_cons.
    intros [[(p & id & Hp & _) _] _]. congruence.
Qed.

(** ** One round of the resolver *)

Context (ipv6_lookup : list Z -> Result ResolveError (list (list Z))).
Context (lookup_bytes : forall d l, ipv6_lookup d = Ok l -> Forall (bytes 16) l).

(** A row after resolution: the first address the resolver gives, if any. *)
Definition resolved (r : Stored) : Stored :=
  match ipv6_lookup (s_domain r) with
  | Ok (ip :: _) => mkStored (s_id r) (s_domain r) ip (s_synthetic r) (s_ttl r)
  | _ => r
  end.

Lemma resolved_fields r :
  s_id (resolved r) = s_id r /\ s_domain (resolved r) = s_domain r /\ s_synthetic (resolved r) = s_synthetic r.
Proof. unfold resolved. by repeat case_match. Qed.

(** Updating the row [r] of a table without duplicate ids. *)
Lemma update_row pre r t ip :
  NoDup (s_id <$> (pre ++ r :: t)) ->
  (fun x => if s_id x =? s_id r then mkStored (s_id x) (s_domain x) ip (s_synthetic x) (s_ttl x) else x)
    <$> (pre ++ r :: t) =
  pre ++ mkStored (s_id r) (s_domain r) ip (s_synthetic r) (s_ttl r) :: t.
Proof.
  intros Hn. rewrite fmap_app, fmap_cons in Hn. rewrite fmap_app, fmap_cons. apply NoDup_app in Hn as (_ & Hd & Hn).
  apply NoDup_cons in Hn as [Hr _]. rewrite Z.eqb_refl.
  assert (forall l : list Stored, s_id r ∉ s_id <$> l -> (fun x => if s_id x =? s_id r
    then mkStored (s_id x) (s_domain x) ip (s_synthetic x) (s_ttl x) else x) <$> l = l) as Hid.
  { intros l Hl. rewrite <- (list_fmap_id l) at 2. apply list_fmap_ext. intros i x Hx. simpl.
    destruct (Z.eqb_spec (s_id x) (s_id r)) as [E|]; [|done]. exfalso. apply Hl. rewrite <- E.
    by apply list_elem_of_fmap_2, (list_elem_of_lookup_2 _ i). }
  rewrite (Hid t) by done. rewrite (Hid pre); [done|].
  intros Hin. apply (Hd _ Hin). by left.
Qed.

Lemma in_sync_update pre r r' t m :
  NoDup (key_of <$> (pre ++ r :: t)) -> key_of r' = key_of r -> in_sync (pre ++ r :: t) m ->
  in_sync (pre ++ r' :: t) (<[key_of r := entry_of r']> m).
Proof.
  intros Hn Hk Hs x Hx. rewrite fmap_app, fmap_cons in Hn. apply NoDup_app in Hn as (_ & Hd & Hn).
  apply NoDup_cons in Hn as [Hr _]. apply elem_of_app in Hx as [Hx|Hx].
  - rewrite lookup_insert_ne; [apply Hs; apply elem_of_app; by left|].
    intros E. apply (Hd (key_of x)); [by apply list_elem_of_fmap_2|]. rewrite <- E. by left.
  - apply elem_of_cons in Hx as [->|Hx]; [rewrite Hk; by rewrite lookup_insert_eq|].
    rewrite lookup_insert_ne; [apply Hs; apply elem_of_app; right; by right|].
    intros E. apply Hr. rewrite E. by apply list_elem_of_fmap_2.
Qed.

Lemma resolve_rows_run t : forall pre db m,
  domains db = pre ++ t -> NoDup (s_id <$> domains db) -> NoDup (key_of <$> domains db) ->
  Forall (fun r => bytes 16 (s_origin r)) t -> in_sync (domains db) m ->
  exists db' m', resolve_rows ipv6_lookup [] ((fun r => (s_id r, s_domain r, host (s_origin r))) <$> t) db m =
      (Ok tt, db', m') /\
    domains db' = pre ++ (resolved <$> t) /\ seq_next db' = seq_next db /\ in_sync (domains db') m'.
Proof.
  induction t as [|r t IH]; intros pre db m Ht Hids Hkeys Hb Hs.
  { exists db, m. by rewrite Ht in *. }
  apply Forall_cons_1 in Hb as [Hr Hb]. rewrite fmap_cons. cbn [resolve_rows].
  rewrite fmap_cons. unfold resolved at 1.
  assert (forall db1 m1 r', s_id r' = s_id r -> domains db1 = pre ++ r' :: t -> seq_next db1 = seq_next db ->
    in_sync (domains db1) m1 ->
    exists db' m', resolve_rows ipv6_lookup [] ((fun r => (s_id r, s_domain r, host (s_origin r))) <$> t) db1 m1 =
      (Ok tt, db', m') /\ domains db' = pre ++ r' :: (resolved <$> t) /\ seq_next db' = seq_next db /\
      in_sync (domains db') m') as Hnext.
  { intros db1 m1 r' Hid Hd1 Hq1 Hs1. destruct (IH (pre ++ [r']) db1 m1) as (db' & m' & E & Hd & Hq & Hsy); try done.
    - by rewrite Hd1, <- app_assoc.
    - rewrite Hd1. rewrite Ht in Hids. by rewrite fmap_app, fmap_cons, Hid, <- fmap_cons, <- fmap_app.
    - rewrite Hd1. rewrite Ht in Hkeys. rewrite fmap_app, fmap_cons in Hkeys |- *. unfold key_of at 2.
      by rewrite Hid.
    - exists db', m'. rewrite <- app_assoc in Hd. by rewrite Hq, Hq1. }
  destruct (ipv6_lookup (s_domain r)) as [[|ip l]|] eqn:El; [by apply Hnext| |by apply Hnext].
  pose proof (lookup_bytes _ _ El) as Hip. apply Forall_cons_1 in Hip as [Hip _].
  case_bool_decide as Htext.
  - unfold execute_update, update_origin. rewrite inet_in_display by done. rewrite Ht in *. rewrite update_row by done.
    unfold insert_nat_entry. fold (key_of r).
    destruct (nat_insert_room Ebpf.MAX_ENTRIES m (key_of r) (mkNatEntry ip)) as [m1 E1].
    { left. rewrite (Hs r); [by eexists|]. apply elem_of_app. right. by left. }
    rewrite E1. apply nat_insert_Some in E1 as ->. apply Hnext; [done..|]. simpl.
    by apply (in_sync_update pre r (mkStored (s_id r) (s_domain r) ip (s_synthetic r) (s_ttl r)) t).
  - assert (s_origin r = ip) as <-.
    { apply (inj Some). by rewrite <- (parse_display ip), Htext, parse_host. }
    destruct r as [i d o sy tt']. by apply Hnext.
Qed.

(** C26. One undisturbed round of the periodic resolver keeps table and map together:
    it succeeds, every row whose name resolves gets the first address the resolver
    gives and keeps its id, name and synthetic address, rows that do not resolve stay
    as they are, and [NAT_MAP] agrees with the new table if it agreed with the old. *)
Theorem resolve_all_in_sync (db : Database) (m : gmap Z NatEntry) :
  db_wf db -> seq_next db <= 2 ^ 31 -> in_sync (domains db) m ->
  exists db' m', resolve_all ipv6_lookup true [] db m = (Ok tt, db', m') /\
    domains db' = resolved <$> domains db /\ in_sync (domains db') m' /\ db_wf db'.
Proof.
  intros Hwf Hseq Hs. pose proof (NoDup_keys db Hwf Hseq) as Hkeys. destruct Hwf as [H1 H2 H3].
  destruct (resolve_rows_run (domains db) [] db m) as (db' & m' & E & Hd & Hq & Hs'); try done.
  { eapply Forall_impl; [exact H3|]. by intros x (_ & ? & _). }
  simpl in Hd. exists db', m'. split; [done|]. split; [done|]. split; [done|]. split; rewrite Hd.
  - rewrite <- list_fmap_compose. erewrite list_fmap_ext; [exact H1|]. intros i x _. apply resolved_fields.
  - rewrite <- list_fmap_compose. erewrite list_fmap_ext; [exact H2|]. intros i x _. apply resolved_fields.
  - apply Forall_fmap. eapply Forall_impl; [exact H3|]. intros x (Hb & Ho & Hsy). simpl.
    destruct (resolved_fields x) as (-> & _ & ->). rewrite Hq. split; [done|]. split; [|done].
    unfold resolved. destruct (ipv6_lookup (s_domain x)) as [[|ip l]|] eqn:El; [done| |done].
    by apply lookup_bytes, Forall_cons_1 in El as [? _].
Qed.

End sync.

End DaemonSpec.
