(* ===== verification/ResolverRounds.v ===== *)
(** * The periodic resolver over many rounds: [daemon/src/resolver.rs]

    [run_periodic_resolver] ticks forever and only logs the errors of a round.
    Whatever the upstream resolver answers and whichever queries fail or lose their
    answer, the table keeps its shape, and NAT_MAP is right for every row that has
    not been announced to the listener since. *)

From S2P Require Import Prelude Types Ipv6Text Contract ProxySrc Platform Ebpf Db Dns DnsSpec Daemon DaemonSpec.
Import Types Ipv6Text Contract ProxySrc Db Dns DnsSpec Daemon DaemonSpec.
Local Open Scope Z_scope.

Module ResolverRounds.

(** The columns the resolver never writes. *)
Definition fixed_columns (r : Stored) : Z * list Z * list Z * option Z :=
  (s_id r, s_domain r, s_synthetic r, s_ttl r).

Definition with_origin (id : Z) (ip : list Z) (r : Stored) : Stored :=
  if s_id r =? id then mkStored (s_id r) (s_domain r) ip (s_synthetic r) (s_ttl r) else r.

Lemma with_origin_fixed id ip r : fixed_columns (with_origin id ip r) = fixed_columns r.
Proof. unfold with_origin. by destruct (s_id r =? id). Qed.

Lemma with_origin_id id ip r : s_id (with_origin id ip r) = s_id r.
Proof. pose proof (with_origin_fixed id ip r) as E. by injection E. Qed.

Lemma with_origin_key id ip r : key_of (with_origin id ip r) = key_of r.
Proof. unfold key_of. by rewrite with_origin_id. Qed.

Lemma fixed_ids (t t' : list Stored) : fixed_columns <$> t = fixed_columns <$> t' -> s_id <$> t = s_id <$> t'.
Proof. intros E. apply (f_equal (fmap (fun c => c.1.1.1))) in E. by rewrite <- !list_fmap_compose in E. Qed.

Lemma fixed_domains (t t' : list Stored) :
  fixed_columns <$> t = fixed_columns <$> t' -> s_domain <$> t = s_domain <$> t'.
Proof. intros E. apply (f_equal (fmap (fun c => c.1.1.2))) in E. by rewrite <- !list_fmap_compose in E. Qed.

Section rounds.
Context `{NS : NatMapSyscalls} `{NSL : !NatMapLaws} `{PG : Postgres} `{PGL : !PostgresLaws}.

(** ** The UPDATE *)

Lemma update_origin_run id ip db : bytes 16 ip ->
  update_origin (display ip) id db =
  Some (mkDatabase (with_origin id ip <$> domains db) (seq_next db)
          (channel db ++ (s_id <$> filter (fun r => s_id r = id) (domains db)))).
Proof. intros Hip. unfold update_origin. by rewrite inet_in_display. Qed.

Lemma with_origin_wf id ip db c : db_wf db -> bytes 16 ip ->
  db_wf (mkDatabase (with_origin id ip <$> domains db) (seq_next db) c).
Proof.
  intros [H1 H2 H3] Hip.
  assert (fixed_columns <$> (with_origin id ip <$> domains db) = fixed_columns <$> domains db) as Hf.
  { rewrite <- list_fmap_compose. apply list_fmap_ext. intros i r _. apply with_origin_fixed. }
  split; cbn [domains seq_next].
  - by rewrite (fixed_domains _ _ Hf).
  - by rewrite (fixed_ids _ _ Hf).
  - apply Forall_fmap. eapply Forall_impl; [exact H3|]. intros r (Hb & Ho & Hs). simpl.
    pose proof (with_origin_fixed id ip r) as E. injection E as Eid _ Es _. rewrite Eid, Es.
    split; [done|]. split; [|done]. unfold with_origin. by destruct (s_id r =? id).
Qed.

(** ** The invariant of a run *)

(** [lost]: answers of UPDATEs may be lost.  [n]: the notifications sent before the run. *)
Record rounds_inv (lost : bool) (n : nat) (db0 : Database) (db : Database) (m : gmap Z NatEntry) : Prop := {
  ri_db : db_wf db;
  ri_seq : seq_next db = seq_next db0;
  ri_fixed : fixed_columns <$> domains db = fixed_columns <$> domains db0;
  ri_sent : (n <= length (channel db))%nat;
  ri_keys : forall r, r ∈ domains db -> is_Some (m !! key_of r);
  ri_rows : forall r, r ∈ domains db ->
    m !! key_of r = Some (entry_of r) \/ (lost = true /\ s_id r ∈ drop n (channel db))
}.

Lemma announced_more n (l l' : list Z) x : (n <= length l)%nat -> x ∈ drop n l -> x ∈ drop n (l ++ l').
Proof. intros Hn Hx. rewrite drop_app_le by done. apply elem_of_app. by left. Qed.

(** An executed UPDATE whose answer is lost: the rows it changed are announced. *)
Lemma lost_inv n db0 db m id ip db' :
  rounds_inv true n db0 db m -> bytes 16 ip -> update_origin (display ip) id db = Some db' ->
  rounds_inv true n db0 db' m.
Proof.
  intros [Hwf Hseq Hfix Hn Hkeys Hrows] Hip. rewrite update_origin_run by done. intros [= <-].
  split; cbn [domains seq_next channel]; [by apply with_origin_wf|done| | | |].
  - rewrite <- Hfix, <- list_fmap_compose. apply list_fmap_ext. intros i r _. apply with_origin_fixed.
  - rewrite length_app. lia.
  - intros r' Hr'. apply list_elem_of_fmap in Hr' as (r & -> & Hr). rewrite with_origin_key. by apply Hkeys.
  - intros r' Hr'. apply list_elem_of_fmap in Hr' as (r & -> & Hr). rewrite with_origin_key, ?with_origin_id.
    destruct (Z.eqb_spec (s_id r) id) as [E|E].
    + right. split; [done|]. rewrite drop_app_le by done. apply elem_of_app. right.
      apply list_elem_of_fmap_2. by apply list_elem_of_filter.
    + unfold with_origin. rewrite (proj2 (Z.eqb_neq _ _) E).
      destruct (Hrows r Hr) as [H|[_ H]]; [by left|right]. split; [done|by apply announced_more].
Qed.

(** An answered UPDATE followed by the map write. *)
Lemma written_inv lost n db0 db m id ip db' :
  rounds_inv lost n db0 db m -> seq_next db0 <= 2 ^ 31 -> bytes 16 ip -> id ∈ s_id <$> domains db ->
  update_origin (display ip) id db = Some db' ->
  exists m', insert_nat_entry (as_u 32 id) ip m = (Ok tt, m') /\ rounds_inv lost n db0 db' m'.
Proof.
  intros [Hwf Hseq Hfix Hn Hkeys Hrows] Hsq Hip Hid. rewrite update_origin_run by done. intros [= <-].
  apply list_elem_of_fmap in Hid as (x & -> & Hx). unfold insert_nat_entry. fold (key_of x).
  destruct (nat_insert_room Ebpf.MAX_ENTRIES m (key_of x) (mkNatEntry ip)) as [m' E]; [left; by apply Hkeys|].
  rewrite E. apply nat_insert_Some in E as ->. eexists. split; [done|].
  split; cbn [domains seq_next channel]; [by apply with_origin_wf|done| | | |].
  - rewrite <- Hfix, <- list_fmap_compose. apply list_fmap_ext. intros i r _. apply with_origin_fixed.
  - rewrite length_app. lia.
  - intros r' Hr'. apply list_elem_of_fmap in Hr' as (r & -> & Hr). rewrite with_origin_key, ?with_origin_id.
    destruct (Hkeys r Hr) as [e He]. destruct (decide (key_of x = key_of r)) as [->|Hne].
    + rewrite lookup_insert_eq. by eexists.
    + rewrite lookup_insert_ne by done. by exists e.
  - intros r' Hr'. apply list_elem_of_fmap in Hr' as (r & -> & Hr). rewrite with_origin_key, ?with_origin_id.
    destruct (Z.eqb_spec (s_id r) (s_id x)) as [Ei|Ei].
    + left. assert (key_of r = key_of x) as -> by (unfold key_of; congruence). rewrite lookup_insert_eq.
      unfold entry_of, with_origin. by rewrite (proj2 (Z.eqb_eq _ _) Ei).
    + rewrite lookup_insert_ne by (intros Ek; apply Ei; f_equal; symmetry; eapply key_of_inj; [exact Hwf|lia|done..]).
      unfold with_origin. rewrite (proj2 (Z.eqb_neq _ _) Ei).
      destruct (Hrows r Hr) as [H|[Hl H]]; [by left|right]. split; [done|by apply announced_more].
Qed.

Definition lookup_ok (ipv6_lookup : list Z -> Result ResolveError (list (list Z))) : Prop :=
  forall d l, ipv6_lookup d = Ok l -> Forall (bytes 16) l.

Lemma resolve_rows_inv lost n db0 lookup rows : forall ups db m r db' m',
  lookup_ok lookup -> seq_next db0 <= 2 ^ 31 -> (AnswerLost ∈ ups -> lost = true) ->
  Forall (fun row => row.1.1 ∈ s_id <$> domains db0) rows -> rounds_inv lost n db0 db m ->
  resolve_rows lookup ups rows db m = (r, db', m') -> rounds_inv lost n db0 db' m'.
Proof.
  induction rows as [|[[id d] txt] rows IH]; intros ups db m r db' m' Hl Hsq Hlost Hids Hi; cbn [resolve_rows].
  { by intros [= _ <- <-]. }
  apply Forall_cons_1 in Hids as [Hid Hids]. destruct (lookup d) as [[|ip l]|] eqn:El; [by eapply IH| |by eapply IH].
  pose proof (Hl _ _ El) as Hip. apply Forall_cons_1 in Hip as [Hip _]. case_bool_decide; [|by eapply IH].
  assert (id ∈ s_id <$> domains db) as Hid'.
  { by rewrite (fixed_ids _ _ (ri_fixed _ _ _ _ _ Hi)). }
  unfold execute_update. destruct (update_origin (display ip) id db) as [db1|] eqn:Eu; [|by intros [= _ <- <-]].
  assert (forall ups', (forall f, f ∈ ups' -> f ∈ ups) ->
    (let (r0, m0) := insert_nat_entry (as_u 32 id) ip m in
     match r0 with Ok _ => resolve_rows lookup ups' rows db1 m0 | Err e => (Err e, db1, m0) end) = (r, db', m') ->
    rounds_inv lost n db0 db' m') as Hgo.
  { intros ups' Hsub. destruct (written_inv _ _ _ _ _ _ _ _ Hi Hsq Hip Hid' Eu) as (m1 & -> & Hi1).
    apply IH; auto. }
  destruct ups as [|[] ups].
  - apply Hgo. done.
  - apply Hgo. intros f Hf. by right.
  - by intros [= _ <- <-].
  - intros [= _ <- <-]. rewrite Hlost in Hi |- * by by left. by eapply lost_inv.
Qed.

(** [fetch_all] gives the ids of the table. *)
Lemma fetched_ids db0 db :
  fixed_columns <$> domains db = fixed_columns <$> domains db0 ->
  Forall (fun row => row.1.1 ∈ s_id <$> domains db0)
    ((fun r => (s_id r, s_domain r, host (s_origin r))) <$> domains db).
Proof.
  intros Hf. rewrite Forall_fmap, Forall_forall. intros r Hr. simpl.
  rewrite <- (fixed_ids _ _ Hf). by apply list_elem_of_fmap_2.
Qed.

Definition tick_ok (lost : bool) (t : Tick) : Prop :=
  lookup_ok (tick_lookup t) /\ (AnswerLost ∈ tick_ups t -> lost = true).

Lemma rounds_run lost n db0 ticks : forall db m,
  seq_next db0 <= 2 ^ 31 -> Forall (tick_ok lost) ticks -> rounds_inv lost n db0 db m ->
  rounds_inv lost n db0 (run_periodic_resolver ticks (db, m)).1 (run_periodic_resolver ticks (db, m)).2.
Proof.
  unfold run_periodic_resolver. induction ticks as [|t ticks IH]; intros db m Hsq Ht Hi; [done|].
  apply Forall_cons_1 in Ht as [[Hl Hlost] Ht]. cbn [fold_left]. unfold resolver_tick at 2 4. cbn [fst snd].
  unfold resolve_all. destruct (tick_up t); cbn [negb]; [|by apply IH].
  destruct (resolve_rows _ _ _ db m) as [[r db1] m1] eqn:E. apply IH; [done|done|].
  eapply resolve_rows_inv; [exact Hl|done|exact Hlost|apply fetched_ids, (ri_fixed _ _ _ _ _ Hi)|exact Hi|exact E].
Qed.

(** C17. The periodic resolver is safe over any number of rounds, whatever the
    upstream resolver answers and whichever queries are refused or lose their
    answer: the table stays well-formed, with the ids, names, synthetic addresses
    and ttls it had, and NAT_MAP holds the current origin of every row, unless the
    answer of its UPDATE was lost, in which case the row has been announced to the
    listener since. *)
Theorem resolver_rounds_safe (ticks : list Tick) (db : Database) (m : gmap Z NatEntry) :
  db_wf db -> seq_next db <= 2 ^ 31 -> in_sync (domains db) m -> Forall (fun t => lookup_ok (tick_lookup t)) ticks ->
  let '(db', m') := run_periodic_resolver ticks (db, m) in
  db_wf db' /\ fixed_columns <$> domains db' = fixed_columns <$> domains db /\
  (forall r, r ∈ domains db' ->
     m' !! key_of r = Some (entry_of r) \/ s_id r ∈ drop (length (channel db)) (channel db')) /\
  (Forall (fun t => AnswerLost ∉ tick_ups t) ticks -> in_sync (domains db') m').
Proof.
  intros Hwf Hsq Hs Ht.
  assert (forall lost, rounds_inv lost (length (channel db)) db db m) as H0.
  { intros lost. split; try done.
    - intros r Hr. rewrite (Hs r Hr). by eexists.
    - intros r Hr. left. by apply Hs. }
  pose proof (rounds_run true (length (channel db)) db ticks db m Hsq) as Ht1. pose proof (rounds_run false (length (channel db)) db ticks db m Hsq) as Ht2.
  destruct (run_periodic_resolver ticks (db, m)) as [db' m']. cbn [fst snd] in *.
  destruct Ht1 as [Hwf' _ Hf _ _ Hr]; [|apply H0|].
  { eapply Forall_impl; [exact Ht|]. intros t Hl. by split. }
  split; [done|]. split; [done|]. split; [intros r Hin; destruct (Hr r Hin) as [?|[_ ?]]; [by left|by right]|].
  intros Hno r Hin. destruct Ht2 as [_ _ _ _ _ Hr2]; [|apply H0|destruct (Hr2 r Hin) as [?|[? _]]; done].
  rewrite Forall_forall in *. intros t Hin'. split; [by apply Ht|]. intros Hlost. by destruct (Hno t Hin').
Qed.

End rounds.

End ResolverRounds.
