(* ===== verification/Sync.v ===== *)
(** * Keeping NAT_MAP in step with the table

    The DNS server, the daemon's [main], its listener task and its resolver task run
    concurrently and meet in the database, the notification channel and [NAT_MAP].
    Each step below is one query or one map write of one of them; between two steps of
    a task the others may move.  [main] selects the rows and writes them to NAT_MAP
    one by one before it spawns the two tasks; the listener's session opens only some
    time after that, with [LISTEN], and may end at any time.  A notification reaches
    the session that is open when it is sent, in order; without a session, or when
    the session ends before it is handled, it is lost. *)

From S2P Require Import Prelude Types Ipv6Text Contract ProxySrc Platform Ebpf Db Dns DnsSpec Daemon DaemonSpec ResolverRounds.
Import Types Ipv6Text Contract ProxySrc Db Dns DnsSpec Daemon DaemonSpec ResolverRounds.
Local Open Scope Z_scope.

Module Sync.

(** Where [main] and the listener task it spawns are: before the SELECT of the bulk
    load, with rows left to write, without a LISTEN session (not yet connected, or
    pausing before a reconnection), waiting in [recv], before the row fetch, or before
    the map write with the fetched row. *)
Inductive Listener :=
| LBoot
| LLoad (rows : list (Z * list Z))
| LOff
| LWait
| LGot (id : Z)
| LRow (id : Z) (row : option (list Z)).

(** Where the resolver is: not spawned yet, between rounds, before the next row, or
    between the UPDATE of a row and the map write. *)
Inductive Resolver :=
| ROff
| RIdle
| RRows (rows : list (Z * list Z * list Z))
| RUpdated (id : Z) (ip : list Z) (rows : list (Z * list Z * list Z)).

(** [st_lost] records history and is read by no step: the ids whose last announcement
    no session received or kept, or whose entry was last written by a resolver that
    had been overtaken. *)
Record State := mkState {
  st_db : Database;
  st_map : gmap Z NatEntry;
  st_queue : list (list Z);
  st_listener : Listener;
  st_resolver : Resolver;
  st_lost : gset Z
}.

Inductive Actor := DnsServer | Main | Connect | Disconnect | ListenerTask | ResolverTask.

(** A LISTEN session is open. *)
Definition listening (l : Listener) : bool :=
  match l with LWait | LGot _ | LRow _ _ => true | LBoot | LLoad _ | LOff => false end.

(** The bulk load is over. *)
Definition loaded (l : Listener) : bool :=
  match l with LBoot | LLoad _ => false | LOff | LWait | LGot _ | LRow _ _ => true end.

(** The id the listener is working on. *)
Definition in_hand (l : Listener) : gset Z :=
  match l with LGot id | LRow id _ => {[id]} | _ => ∅ end.

(** The ids whose notification is queued or in hand. *)
Definition pending (s : State) : gset Z :=
  list_to_set (omap parse_i32 (st_queue s)) ∪ in_hand (st_listener s).

Definition set_resolver (r : Resolver) (s : State) : State :=
  mkState (st_db s) (st_map s) (st_queue s) (st_listener s) r (st_lost s).

(** The table is followed while ids fit [i32] and NAT_MAP can hold it. *)
Definition table_fits (db : Database) : Prop :=
  seq_next db <= 2 ^ 31 /\ (length (domains db) <= Ebpf.MAX_ENTRIES)%nat.

Section sync.
Context `{NS : NatMapSyscalls} `{PG : Postgres} `{PI : PostgresInt}.

(** What becomes of the notifications for [ids]: an open session queues them; before
    the SELECT of the bulk load they are not needed; otherwise they are lost. *)
Definition announce (l : Listener) (ids : list Z) (q : list (list Z)) (lost : gset Z) : list (list Z) * gset Z :=
  if listening l then (q ++ (int4_text <$> ids), lost ∖ list_to_set ids)
  else match l with LBoot => (q, lost) | _ => (q, lost ∪ list_to_set ids) end.

(** The table moves to [db'], and what that announced is delivered or lost. *)
Definition with_db (db' : Database) (s : State) : State :=
  let sent := drop (length (channel (st_db s))) (channel db') in
  let a := announce (st_listener s) sent (st_queue s) (st_lost s) in
  mkState db' (st_map s) a.1 (st_listener s) (st_resolver s) a.2.

(** The resolver's map write: a write of the origin the table has repairs the entry; a
    write of another one (the origin changed after the resolver's UPDATE) spoils it
    unless the newer origin's notification is still to be handled. *)
Definition lost_by_write (id : Z) (ip : list Z) (s : State) : gset Z :=
  if bool_decide (s_origin <$> find_id (domains (st_db s)) id = Some ip) then st_lost s ∖ {[id]}
  else if bool_decide (id ∈ pending s) then st_lost s else st_lost s ∪ {[id]}.

Inductive step : Actor -> State -> State -> Prop :=
| step_nextval s id db' :
    nextval (st_db s) = (Ok id, db') -> table_fits db' -> step DnsServer s (with_db db' s)
| step_insert s id d o x db' :
    bytes 16 o -> 1 <= id < seq_next (st_db s) ->
    upsert id d (display o) (display (synthetic_ipv6 (as_u 32 id))) 300 (st_db s) = (Ok x, db') -> table_fits db' ->
    step DnsServer s (with_db db' s)
| step_select db m q r lost :                      (** [bulk_load_from_db], row by row *)
    step Main (mkState db m q LBoot r lost)
      (mkState db m q (LLoad ((fun x => (s_id x, host (s_origin x))) <$> domains db)) r lost)
| step_load db m q id txt rows r lost origin m' :
    parse txt = Some origin -> nat_insert Ebpf.MAX_ENTRIES m (as_u 32 id) (mkNatEntry origin) = Some m' ->
    step Main (mkState db m q (LLoad ((id, txt) :: rows)) r lost) (mkState db m' q (LLoad rows) r lost)
| step_spawn db m q lost :
    step Main (mkState db m q (LLoad []) ROff lost) (mkState db m q LOff RIdle lost)
| step_listen db m q r lost :                      (** [LISTEN] answered *)
    step Connect (mkState db m q LOff r lost) (mkState db m [] LWait r lost)
| step_end s :                                     (** [run_listener] returns *)
    listening (st_listener s) = true ->
    step Disconnect s (mkState (st_db s) (st_map s) [] LOff (st_resolver s) (st_lost s ∪ pending s))
| step_recv db m p q r lost id :
    parse_i32 p = Some id ->
    step ListenerTask (mkState db m (p :: q) LWait r lost) (mkState db m q (LGot id) r lost)
| step_fetch db m q r lost id :
    step ListenerTask (mkState db m q (LGot id) r lost) (mkState db m q (LRow id (select_id id db)) r lost)
| step_apply db m q r lost id row :
    step ListenerTask (mkState db m q (LRow id row) r lost) (mkState db (apply_row id row m).2 q LWait r lost)
| step_round s :
    st_resolver s = RIdle ->
    step ResolverTask s
      (set_resolver (RRows ((fun r => (s_id r, s_domain r, host (s_origin r))) <$> domains (st_db s))) s)
| step_same s row rows :                           (** no address, or the same one *)
    st_resolver s = RRows (row :: rows) -> step ResolverTask s (set_resolver (RRows rows) s)
| step_update s id d txt rows ip db' :
    st_resolver s = RRows ((id, d, txt) :: rows) ->
    bytes 16 ip -> display ip <> txt -> update_origin (display ip) id (st_db s) = Some db' ->
    step ResolverTask s (set_resolver (RUpdated id ip rows) (with_db db' s))
| step_update_lost s id d txt rows ip db' :        (** the UPDATE runs, its answer is lost *)
    st_resolver s = RRows ((id, d, txt) :: rows) ->
    bytes 16 ip -> display ip <> txt -> update_origin (display ip) id (st_db s) = Some db' ->
    step ResolverTask s (set_resolver RIdle (with_db db' s))
| step_write db m q l id ip rows lost :
    step ResolverTask (mkState db m q l (RUpdated id ip rows) lost)
      (mkState db (insert_nat_entry (as_u 32 id) ip m).2 q l
         (match (insert_nat_entry (as_u 32 id) ip m).1 with Ok _ => RRows rows | Err _ => RIdle end)
         (lost_by_write id ip (mkState db m q l (RUpdated id ip rows) lost)))
| step_abort s rows :                              (** a query of the round fails *)
    st_resolver s = RRows rows -> step ResolverTask s (set_resolver RIdle s)
| step_done s :
    st_resolver s = RRows [] -> step ResolverTask s (set_resolver RIdle s).

(** Steps of the given actors only, and of all of them. *)
Definition steps (who : Actor -> Prop) (s s' : State) : Prop := exists a, who a /\ step a s s'.
Definition any_step (s s' : State) : Prop := exists a, step a s s'.

(** The daemon before its bulk load, next to a database. *)
Definition boot (db : Database) : State := mkState db ∅ [] LBoot ROff ∅.

(** Nothing in flight: all notifications handled, both tasks at rest. *)
Definition quiescent (s : State) : Prop :=
  st_queue s = [] /\ st_listener s = LWait /\ st_resolver s = RIdle.

(** ** The invariant *)

Definition right_entry (m : gmap Z NatEntry) (r : Stored) : Prop := m !! key_of r = Some (entry_of r).

(** What makes row [r] right, now or in the end, if it is not given up as lost: a
    queued notification, the listener at work on it, the bulk load about to write it,
    or the map entry. *)
Definition row_ok (s : State) (r : Stored) : Prop :=
  s_id r ∈ st_lost s \/ int4_text (s_id r) ∈ st_queue s \/
  match st_listener s with
  | LBoot => True
  | LLoad rows => (s_id r, host (s_origin r)) ∈ rows \/ right_entry (st_map s) r
  | LGot id | LRow id _ => id = s_id r \/ right_entry (st_map s) r
  | LOff | LWait => right_entry (st_map s) r
  end.

Definition known (db : Database) (id : Z) : Prop := exists r, r ∈ domains db /\ s_id r = id.

(** The rows being loaded are the table's, except for lost ones; a row fetched by the
    listener is current unless its id is queued again. *)
Definition listener_ok (s : State) : Prop :=
  match st_listener s with
  | LBoot => st_queue s = [] /\ st_resolver s = ROff
  | LLoad rows => st_queue s = [] /\ st_resolver s = ROff /\
      forall id txt, (id, txt) ∈ rows -> known (st_db s) id /\
        forall r, r ∈ domains (st_db s) -> s_id r = id -> id ∈ st_lost s \/ txt = host (s_origin r)
  | LOff => st_queue s = []
  | LWait => True
  | LGot id => known (st_db s) id
  | LRow id row => known (st_db s) id /\
      forall r, r ∈ domains (st_db s) -> s_id r = id -> int4_text id ∈ st_queue s \/ row = Some (host (s_origin r))
  end.

Definition resolver_ok (db : Database) (r : Resolver) : Prop :=
  match r with
  | ROff | RIdle => True
  | RRows rows => forall x, x ∈ rows -> known db x.1.1
  | RUpdated id ip rows => known db id /\ forall x, x ∈ rows -> known db x.1.1
  end.

Record inv (s : State) : Prop := {
  iv_db : db_wf (st_db s);
  iv_fits : table_fits (st_db s);
  iv_queue : Forall (fun p => exists id, p = int4_text id /\ known (st_db s) id) (st_queue s);
  iv_listener : listener_ok s;
  iv_resolver : resolver_ok (st_db s) (st_resolver s);
  iv_map : forall k e, st_map s !! k = Some e -> k ∈ key_of <$> domains (st_db s);
  iv_rows : forall r, r ∈ domains (st_db s) -> row_ok s r
}.

Context `{NSL : !NatMapLaws} `{PGL : !PostgresLaws} `{PIL : !PostgresIntLaws}.

(** ** Changes of the table *)

Lemma find_with_origin id ip (t : list Stored) d :
  find_domain (with_origin id ip <$> t) d = with_origin id ip <$> find_domain t d.
Proof.
  unfold find_domain. induction t as [|x t IH]; [done|]. rewrite fmap_cons. simpl.
  pose proof (with_origin_fixed id ip x) as E. injection E as _ -> _ _. by case_bool_decide.
Qed.

(** One row, with id [i], is new or changed, and announced; no row goes away. *)
Record touches (i : Z) (db db' : Database) : Prop := {
  to_sent : channel db' = channel db ++ [i];
  to_known : known db' i;
  to_new : forall r, r ∈ domains db' -> s_id r = i \/ r ∈ domains db;
  to_old : forall r, r ∈ domains db -> known db' (s_id r)
}.

Lemma upsert_touches id d o s ttl db x db' :
  db_wf db -> upsert id d o s ttl db = (Ok x, db') -> exists i, touches i db db' /\ seq_next db' = seq_next db.
Proof.
  intros Hwf. unfold upsert. destruct (inet_in o) as [o'|]; [|done]. destruct (inet_in s) as [s'|]; [|done].
  destruct (find_domain (domains db) d) as [y|] eqn:Ed.
  - intros [= <- <-]. pose proof (find_domain_Some _ _ _ Ed) as [Hy Hd]. exists (s_id y). split; [|done].
    assert (forall r, r ∈ domains db -> exists r', r' ∈ set_origin d o' ttl <$> domains db /\ s_id r' = s_id r) as Hk.
    { intros r Hr. exists (set_origin d o' ttl r). split; [by apply list_elem_of_fmap_2|apply set_origin_fields]. }
    split; [done|by apply Hk| |exact Hk].
    intros r Hr. apply list_elem_of_fmap in Hr as (r0 & -> & Hr0).
    destruct (decide (s_domain r0 = d)) as [E|E]; [left|right].
    + destruct (set_origin_fields d o' ttl r0) as (_ & -> & _).
      pose proof (find_domain_unique _ _ (wf_domains _ Hwf) Hr0) as Eu. congruence.
    + unfold set_origin. by rewrite bool_decide_false.
  - destruct (find_id (domains db) id); [done|]. intros [= <- <-]. exists id. split; [split|done].
    + done.
    + eexists. split; [apply elem_of_app; right; apply list_elem_of_singleton; reflexivity|done].
    + intros r Hr. apply elem_of_app in Hr as [Hr|Hr]; [by right|]. apply list_elem_of_singleton in Hr as ->. by left.
    + intros r Hr. exists r. split; [apply elem_of_app; by left|done].
Qed.

Lemma filter_none {A} (P : A -> Prop) `{forall x, Decision (P x)} (l : list A) :
  (forall x, x ∈ l -> ~ P x) -> filter P l = [].
Proof.
  induction l as [|x l IH]; intros Hl; [done|]. rewrite filter_cons, decide_False by (apply Hl; by left).
  apply IH. intros y Hy. apply Hl. by right.
Qed.

(** The row with an id, among rows with distinct ids. *)
Lemma filter_id (t : list Stored) x :
  NoDup (s_id <$> t) -> x ∈ t -> s_id <$> filter (fun r => s_id r = s_id x) t = [s_id x].
Proof.
  induction t as [|y t IH]; intros Hn Hx; [by apply not_elem_of_nil in Hx|].
  rewrite fmap_cons in Hn. apply NoDup_cons in Hn as [Hy Hn]. rewrite filter_cons. apply elem_of_cons in Hx as [->|Hx].
  - rewrite decide_True by done. rewrite fmap_cons. f_equal. rewrite filter_none; [done|].
    intros z Hz E. apply Hy. rewrite <- E. by apply list_elem_of_fmap_2.
  - rewrite decide_False; [by apply IH|]. intros E. apply Hy. rewrite E. by apply list_elem_of_fmap_2.
Qed.

Lemma update_touches id ip db db' :
  db_wf db -> bytes 16 ip -> known db id -> update_origin (display ip) id db = Some db' ->
  touches id db db' /\ db_wf db' /\ (table_fits db -> table_fits db').
Proof.
  intros Hwf Hip (x & Hx & <-). rewrite update_origin_run by done. intros [= <-].
  assert (forall r, r ∈ domains db -> exists r', r' ∈ with_origin (s_id x) ip <$> domains db /\ s_id r' = s_id r) as Hk.
  { intros r Hr. exists (with_origin (s_id x) ip r). split; [by apply list_elem_of_fmap_2|apply with_origin_id]. }
  split; [split|split].
  - cbn [channel]. f_equal. apply filter_id; [apply Hwf|done].
  - by apply Hk.
  - intros r Hr. apply list_elem_of_fmap in Hr as (r0 & -> & Hr0). rewrite with_origin_id.
    destruct (Z.eqb_spec (s_id r0) (s_id x)) as [|E]; [by left|right]. unfold with_origin.
    by rewrite (proj2 (Z.eqb_neq _ _) E).
  - exact Hk.
  - by apply with_origin_wf.
  - intros [Hs Hl]. split; [done|]. cbn [domains]. by rewrite length_fmap.
Qed.

(** ** The invariant is kept *)

Lemma row_id_i32 s r : inv s -> r ∈ domains (st_db s) -> in_i32 (s_id r) = true.
Proof.
  intros Hi Hr. destruct (iv_db _ Hi) as [_ _ H3], (iv_fits _ Hi) as [Hseq _].
  rewrite Forall_forall in H3. destruct (H3 r Hr) as (? & _).
  unfold in_i32. rewrite andb_true_iff, Z.leb_le, Z.ltb_lt. lia.
Qed.

Lemma known_id s id : inv s -> known (st_db s) id -> parse_i32 (int4_text id) = Some id.
Proof. intros Hi (r & Hr & <-). by apply parse_int4_text, (row_id_i32 s). Qed.

Lemma row_unique s r r' :
  inv s -> r ∈ domains (st_db s) -> r' ∈ domains (st_db s) -> s_id r = s_id r' -> r = r'.
Proof. intros Hi. apply id_unique, (iv_db _ Hi). Qed.

Lemma known_row s r : inv s -> r ∈ domains (st_db s) -> find_id (domains (st_db s)) (s_id r) = Some r.
Proof.
  intros Hi Hr. destruct (find_id (domains (st_db s)) (s_id r)) as [x|] eqn:E.
  - apply find_some in E as [Hx Hid]. apply list_elem_of_In in Hx. apply Z.eqb_eq in Hid. f_equal. by eapply row_unique.
  - apply list_elem_of_In in Hr. pose proof (find_none _ _ E r Hr) as Hf. simpl in Hf. by rewrite Z.eqb_refl in Hf.
Qed.

Lemma row_bytes s r : inv s -> r ∈ domains (st_db s) -> bytes 16 (s_origin r).
Proof. intros Hi Hr. destruct (iv_db _ Hi) as [_ _ H3]. rewrite Forall_forall in H3. by destruct (H3 r Hr) as (_ & ? & _). Qed.

(** A known id is pending when its text is queued or the listener has it in hand. *)
Lemma queued_pending s id : inv s -> known (st_db s) id ->
  int4_text id ∈ st_queue s \/ id ∈ in_hand (st_listener s) <-> id ∈ pending s.
Proof.
  intros Hi Hk. unfold pending. rewrite elem_of_union, elem_of_list_to_set, list_elem_of_omap.
  split; (intros [H|H]; [left|by right]).
  - exists (int4_text id). split; [done|by apply (known_id s)].
  - destruct H as (p & Hp & E). pose proof (iv_queue _ Hi) as Hq. rewrite Forall_forall in Hq.
    destruct (Hq p Hp) as (j & -> & Hj). rewrite (known_id s j) in E by done. by injection E as ->.
Qed.

Lemma known_mono i db db' id : touches i db db' -> known db id -> known db' id.
Proof. intros Ht (r & Hr & <-). by eapply to_old. Qed.

Lemma resolver_mono db db' r :
  (forall id, known db id -> known db' id) -> resolver_ok db r -> resolver_ok db' r.
Proof. intros Hk. destruct r as [| |rows|id ip rows]; simpl; [done|done|auto|]. intros [H1 H2]. auto. Qed.

Lemma set_resolver_inv s r :
  inv s -> loaded (st_listener s) = true -> resolver_ok (st_db s) r -> inv (set_resolver r s).
Proof.
  intros [Hwf Hfit Hq Hl Hr Hm Hrows] Hd Hr'. split; try done. unfold listener_ok in *. simpl in *.
  by destruct (st_listener s).
Qed.

(** Delivery of the announcement of [i]. *)
Lemma with_db_sent i db' s : touches i (st_db s) db' ->
  with_db db' s =
  let a := announce (st_listener s) [i] (st_queue s) (st_lost s) in
  mkState db' (st_map s) a.1 (st_listener s) (st_resolver s) a.2.
Proof. intros Ht. unfold with_db. by rewrite (to_sent _ _ _ Ht), drop_app_length. Qed.

(** Rows other than the announced one keep their standing; the announced one is
    queued, lost, or yet to be selected. *)
Lemma announce_row i q lost l j :
  let a := announce l [i] q lost in
  (int4_text j ∈ q -> int4_text j ∈ a.1) /\
  (j <> i -> j ∈ lost -> j ∈ a.2) /\
  (i ∈ a.2 \/ int4_text i ∈ a.1 \/ l = LBoot).
Proof.
  unfold announce. destruct l; simpl; split_and!; intros; try done; try set_solver; auto.
Qed.

Lemma announce_listener i s db' :
  inv s -> touches i (st_db s) db' -> listener_ok (with_db db' s).
Proof.
  intros Hi Ht. rewrite (with_db_sent i) by done. pose proof (iv_listener _ Hi) as Hl.
  unfold listener_ok, announce in *. cbn [st_listener st_queue st_db st_lost st_resolver] in *.
  destruct (st_listener s) as [|rows| | |id|id row]; cbn [listening fst snd]; try done.
  - destruct Hl as (Hq & Hr & Hl). split; [done|]. split; [done|]. intros id txt Hin. destruct (Hl id txt Hin) as [Hk Hx].
    split; [by eapply known_mono|]. intros r Hr' <-. destruct (to_new _ _ _ Ht r Hr') as [->|Hold]; [left; set_solver|].
    destruct (Hx r Hold eq_refl); [left; set_solver|by right].
  - by eapply known_mono.
  - destruct Hl as [Hk Hx]. split; [by eapply known_mono|]. intros r Hr' <-.
    destruct (to_new _ _ _ Ht r Hr') as [->|Hold]; [left; apply elem_of_app; right; by left|].
    destruct (Hx r Hold eq_refl); [left; apply elem_of_app; by left|by right].
Qed.

Lemma with_db_inv i s db' :
  inv s -> touches i (st_db s) db' -> db_wf db' -> table_fits db' -> inv (with_db db' s).
Proof.
  intros Hi Ht Hwf' Hfit'. pose proof (announce_listener i s db' Hi Ht) as Hl'.
  destruct Hi as [Hwf Hfit Hq _ Hr Hm Hrows]. rewrite (with_db_sent i) in * by done. cbv zeta in *.
  split; cbn [st_db st_map st_queue st_listener st_resolver st_lost]; [done|done| |done| | |].
  - assert (Forall (fun p => exists id, p = int4_text id /\ known db' id) (st_queue s)) as Hq'.
    { eapply Forall_impl; [exact Hq|]. intros p (j & -> & Hj). exists j. split; [done|by eapply known_mono]. }
    unfold announce. destruct (listening _); [|by destruct (st_listener s)]. apply Forall_app. split; [done|].
    constructor; [|constructor]. exists i. split; [done|apply Ht].
  - eapply resolver_mono; [|done]. intros id. by apply (known_mono i).
  - intros k e He. apply Hm in He. apply list_elem_of_fmap in He as (y & -> & Hy).
    destruct (to_old _ _ _ Ht y Hy) as (y' & Hy' & Eid). unfold key_of. rewrite <- Eid. by apply (list_elem_of_fmap_2 key_of).
  - intros y Hy. destruct (announce_row i (st_queue s) (st_lost s) (st_listener s) (s_id y)) as (H1 & H2 & H3).
    unfold row_ok. cbn [st_queue st_listener st_map st_lost]. destruct (decide (s_id y = i)) as [<-|Hne].
    { destruct H3 as [H3|[H3| ->]]; auto. }
    destruct (to_new _ _ _ Ht y Hy) as [|Hin]; [done|]. destruct (Hrows y Hin) as [H|[H|H]]; auto.
Qed.

(** Drawing an id announces nothing. *)
Lemma announce_nil l q lost : announce l [] q lost = (q, lost).
Proof. unfold announce. destruct l; simpl; f_equal; try apply app_nil_r; set_solver. Qed.

Lemma with_db_silent db1 db2 s : channel db1 = channel (st_db s) -> with_db db2 (with_db db1 s) = with_db db2 s.
Proof. intros Hc. unfold with_db. simpl. by rewrite Hc, drop_all, announce_nil. Qed.

Lemma nextval_inv s db' : inv s -> db_wf db' -> table_fits db' ->
  domains db' = domains (st_db s) -> channel db' = channel (st_db s) -> inv (with_db db' s).
Proof.
  intros [Hwf Hfit Hq Hl Hr Hm Hrows] Hwf' Hfit' Hd Hc. unfold with_db. rewrite Hc, drop_all.
  rewrite announce_nil.
  assert (forall id, known db' id = known (st_db s) id) as Hk by (intros id; unfold known; by rewrite Hd).
  split; cbn [st_db st_map st_queue st_listener st_resolver st_lost fst snd]; try done.
  - eapply Forall_impl; [exact Hq|]. intros p (j & ? & ?). exists j. by rewrite Hk.
  - unfold listener_ok in *. simpl. rewrite Hd. destruct (st_listener s); rewrite ?Hk; try done.
    destruct Hl as (H1 & H2 & H3). split; [done|]. split; [done|]. intros id txt. rewrite Hk. apply H3.
  - eapply resolver_mono; [|done]. intros id. by rewrite Hk.
  - by rewrite Hd.
  - rewrite Hd. exact Hrows.
Qed.

(** NAT_MAP has room for every row of a table that fits. *)
Lemma map_room db (m : gmap Z NatEntry) r :
  db_wf db -> table_fits db -> (forall k e, m !! k = Some e -> k ∈ key_of <$> domains db) -> r ∈ domains db ->
  is_Some (m !! key_of r) \/ (size m < Ebpf.MAX_ENTRIES)%nat.
Proof.
  intros Hwf [Hseq Hlen] Hm Hr. destruct (m !! key_of r) as [e|] eqn:E; [left; by eexists|right].
  pose proof (NoDup_keys db Hwf Hseq) as Hn.
  assert (size (dom m) < size (list_to_set (C := gset Z) (key_of <$> domains db)))%nat as Hlt.
  { apply subset_size. split.
    - intros k Hk. apply elem_of_dom in Hk as [e He]. apply elem_of_list_to_set. by eapply Hm.
    - intros Hsub. assert (key_of r ∈ dom m) as Hin.
      { apply Hsub, elem_of_list_to_set. by apply list_elem_of_fmap_2. }
      apply elem_of_dom in Hin as [e He]. congruence. }
  rewrite size_dom, size_list_to_set, length_fmap in Hlt by done. lia.
Qed.

Lemma insert_known s x o : inv s -> x ∈ domains (st_db s) ->
  insert_nat_entry (as_u 32 (s_id x)) o (st_map s) = (Ok tt, <[key_of x := mkNatEntry o]> (st_map s)).
Proof.
  intros Hi Hx. unfold insert_nat_entry. fold (key_of x).
  destruct (nat_insert_room Ebpf.MAX_ENTRIES (st_map s) (key_of x) (mkNatEntry o)) as [m' E].
  - eapply (map_room (st_db s)); [apply Hi..|done].
  - rewrite E. by apply nat_insert_Some in E as ->.
Qed.

(** A map write for row [x]: the other rows keep their entries and no foreign key
    appears. *)
Lemma written_other s x e y : inv s -> x ∈ domains (st_db s) -> y ∈ domains (st_db s) -> s_id y <> s_id x ->
  right_entry (st_map s) y -> right_entry (<[key_of x := e]> (st_map s)) y.
Proof.
  intros Hi Hx Hy Hne H. unfold right_entry. rewrite lookup_insert_ne; [done|]. intros Ek. apply Hne.
  destruct (iv_fits _ Hi). by apply (key_of_inj (st_db s)) in Ek as ->; [|apply Hi|..].
Qed.

Lemma written_keys s x e k e' : inv s -> x ∈ domains (st_db s) ->
  <[key_of x := e]> (st_map s) !! k = Some e' -> k ∈ key_of <$> domains (st_db s).
Proof.
  intros Hi Hx. rewrite lookup_insert_Some. intros [[<- _]|[_ He]]; [by apply list_elem_of_fmap_2|by eapply iv_map].
Qed.

(** ** The steps of [main] *)

Lemma select_inv db m q r lost :
  inv (mkState db m q LBoot r lost) ->
  inv (mkState db m q (LLoad ((fun x => (s_id x, host (s_origin x))) <$> domains db)) r lost).
Proof.
  intros Hi. pose proof Hi as [Hwf Hfit Hq [Hq0 Hr0] Hr Hm Hrows]. simpl in *.
  split; simpl; try done; unfold listener_ok, row_ok; simpl.
  - split; [done|]. split; [done|]. intros id txt Hin. apply list_elem_of_fmap in Hin as (x & [= -> ->] & Hx).
    split; [by exists x|]. intros y Hy E. right. by rewrite (row_unique _ y x Hi Hy Hx E).
  - intros y Hy. right. right. left. by apply (list_elem_of_fmap_2 (fun x => (s_id x, host (s_origin x)))).
Qed.

Lemma load_inv db m q id txt rows r lost origin m' :
  inv (mkState db m q (LLoad ((id, txt) :: rows)) r lost) -> parse txt = Some origin ->
  nat_insert Ebpf.MAX_ENTRIES m (as_u 32 id) (mkNatEntry origin) = Some m' ->
  inv (mkState db m' q (LLoad rows) r lost).
Proof.
  intros Hi Hp E. apply nat_insert_Some in E as ->. pose proof Hi as [Hwf Hfit Hq (Hq0 & Hr0 & Hl) Hr Hm Hrows].
  simpl in *. destruct (Hl id txt) as [(x & Hx & <-) Htxt]; [by left|]. fold (key_of x).
  split; simpl; try done; unfold listener_ok, row_ok; simpl.
  - split; [done|]. split; [done|]. intros id' txt' Hin. apply Hl. by right.
  - intros k e He. by eapply (written_keys _ x _ _ _ Hi).
  - intros y Hy. destruct (Hrows y Hy) as [H|[H|H]]; simpl in H; [by left|right; by left|].
    destruct (decide (s_id y = s_id x)) as [Ey|Hne].
    + assert (y = x) as -> by by eapply (row_unique _ _ _ Hi).
      destruct (Htxt x Hx eq_refl) as [Hlost| ->]; [by left|]. right. right. right.
      rewrite parse_host in Hp by by eapply row_bytes. injection Hp as <-. apply lookup_insert_eq.
    + right. right. destruct H as [H|H]; [left|right; by eapply (written_other _ x _ _ Hi)].
      apply elem_of_cons in H as [[= E _]|H]; [by destruct Hne|done].
Qed.

Lemma spawn_inv db m q lost :
  inv (mkState db m q (LLoad []) ROff lost) -> inv (mkState db m q LOff RIdle lost).
Proof.
  intros [Hwf Hfit Hq (Hq0 & Hr0 & Hl) Hr Hm Hrows]. split; try done.
  intros y Hy. destruct (Hrows y Hy) as [H|[H|[H|H]]]; simpl in *; [by left|right; by left| |right; by right].
  by apply not_elem_of_nil in H.
Qed.

(** ** The steps of a session *)

Lemma listen_inv db m q r lost : inv (mkState db m q LOff r lost) -> inv (mkState db m [] LWait r lost).
Proof.
  intros [Hwf Hfit Hq Hl Hr Hm Hrows]. unfold listener_ok in Hl. simpl in *. subst q. by split.
Qed.

(** What the end of a session takes away is recorded as lost. *)
Lemma end_inv s : inv s -> listening (st_listener s) = true ->
  inv (mkState (st_db s) (st_map s) [] LOff (st_resolver s) (st_lost s ∪ pending s)).
Proof.
  intros Hi Hon. pose proof Hi as [Hwf Hfit Hq Hl Hr Hm Hrows]. split; simpl; try done.
  intros y Hy. unfold row_ok. simpl. rewrite elem_of_union, <- (queued_pending s) by (done || by exists y).
  destruct (Hrows y Hy) as [H|[H|H]]; [by left; left|left; right; by left|].
  destruct (st_listener s) as [|rows| | |id|id row]; try done; simpl.
  - right. by right.
  - destruct H as [->|H]; [|by right; right]. left. right. right. by apply elem_of_singleton.
  - destruct H as [->|H]; [|by right; right]. left. right. right. by apply elem_of_singleton.
Qed.

(** ** The steps of the listener *)

Lemma recv_inv db m p q r lost id :
  inv (mkState db m (p :: q) LWait r lost) -> parse_i32 p = Some id -> inv (mkState db m q (LGot id) r lost).
Proof.
  intros Hi E. pose proof Hi as [Hwf Hfit Hq Hl Hr Hm Hrows]. simpl in *.
  apply Forall_cons_1 in Hq as [(j & -> & Hj) Hq].
  assert (j = id) as -> by (rewrite (known_id _ j Hi Hj) in E; by injection E).
  split; simpl; try done. intros y Hy. destruct (Hrows y Hy) as [H|[H|H]]; unfold row_ok; simpl in *; [by left| |auto].
  apply elem_of_cons in H as [H|H]; [|auto]. right. right. left. apply (inj Some).
  rewrite <- (known_id _ _ Hi Hj), <- H. apply (known_id _ _ Hi). by exists y.
Qed.

Lemma fetch_inv db m q r lost id :
  inv (mkState db m q (LGot id) r lost) -> inv (mkState db m q (LRow id (select_id id db)) r lost).
Proof.
  intros Hi. pose proof Hi as [Hwf Hfit Hq Hl Hr Hm Hrows]. split; try done.
  split; [done|]. simpl. intros y Hy <-. right. unfold select_id.
  pose proof (known_row _ y Hi Hy) as E. cbn [st_db] in E. by rewrite E.
Qed.

(** The listener's map write for row [x]: with the row's own text the entry is right,
    and no other key changes. *)
Lemma apply_row_map s x row : inv s -> x ∈ domains (st_db s) ->
  let m' := (apply_row (s_id x) row (st_map s)).2 in
  (row = Some (host (s_origin x)) -> m' = <[key_of x := entry_of x]> (st_map s)) /\
  (m' = st_map s \/ exists e, m' = <[key_of x := e]> (st_map s)).
Proof.
  intros Hi Hx. cbv zeta. unfold apply_row. split.
  - intros ->. rewrite parse_host by by eapply row_bytes. simpl. by rewrite insert_known.
  - destruct row as [txt|]; [|by left]. destruct (parse txt) as [o|]; [|by left].
    right. simpl. rewrite insert_known by done. by eexists.
Qed.

Lemma apply_inv db m q r lost id row :
  inv (mkState db m q (LRow id row) r lost) -> inv (mkState db (apply_row id row m).2 q LWait r lost).
Proof.
  intros Hi. pose proof Hi as [Hwf Hfit Hq [(x & Hx & <-) Hl] Hr Hm Hrows]. simpl in *.
  destruct (apply_row_map _ x row Hi Hx) as [Hself Hap]. simpl in *. split; simpl; try done.
  - intros k e. destruct Hap as [-> |(e' & ->)]; [apply Hm|by apply (written_keys _ x _ _ _ Hi)].
  - intros y Hy. destruct (Hrows y Hy) as [H|[H|H]]; unfold row_ok; simpl in *; [auto..|].
    destruct (decide (s_id y = s_id x)) as [Ey|Hne].
    + assert (y = x) as -> by by eapply (row_unique _ _ _ Hi). destruct (Hl x Hx eq_refl) as [Hin|E]; [auto|].
      right. right. rewrite Hself by done. apply lookup_insert_eq.
    + right. right. destruct H as [E|H]; [by destruct Hne|]. destruct Hap as [-> |(e & ->)]; [done|].
      by eapply (written_other _ x _ _ Hi).
Qed.

(** ** The steps of the resolver *)

Lemma running_loaded s : inv s -> st_resolver s <> ROff -> loaded (st_listener s) = true.
Proof. intros Hi Hr. pose proof (iv_listener _ Hi) as Hl. unfold listener_ok in Hl. by destruct (st_listener s) as [|rows| | |?|? ?]; destruct_and?. Qed.

Lemma update_inv s id d txt rows ip db' :
  inv s -> st_resolver s = RRows ((id, d, txt) :: rows) -> bytes 16 ip ->
  update_origin (display ip) id (st_db s) = Some db' ->
  inv (with_db db' s) /\ resolver_ok db' (RUpdated id ip rows) /\ loaded (st_listener s) = true.
Proof.
  intros Hi Er Hip Hu. pose proof (iv_resolver _ Hi) as Hr. rewrite Er in Hr.
  assert (known (st_db s) id) as Hk by (apply (Hr (id, d, txt)); by left).
  destruct (update_touches id ip (st_db s) db' (iv_db _ Hi) Hip Hk Hu) as (Ht & Hwf & Hfit). split_and!.
  - apply (with_db_inv id); [done..|]. apply Hfit, Hi.
  - split; [by eapply known_mono|]. intros x Hx. eapply known_mono; [done|]. apply Hr. by right.
  - apply running_loaded; [done|]. by rewrite Er.
Qed.

Lemma write_inv db m q l id ip rows lost :
  let s := mkState db m q l (RUpdated id ip rows) lost in inv s ->
  inv (mkState db (insert_nat_entry (as_u 32 id) ip m).2 q l
         (match (insert_nat_entry (as_u 32 id) ip m).1 with Ok _ => RRows rows | Err _ => RIdle end)
         (lost_by_write id ip s)).
Proof.
  intros s Hi. assert (loaded l = true) as Hld by by apply (running_loaded _ Hi).
  pose proof Hi as [Hwf Hfit Hq Hl [(x & Hx & <-) Hr] Hm Hrows]. unfold s in Hm, Hx, Hq, Hl, Hr. simpl in Hm, Hx, Hq, Hr.
  pose proof (insert_known s x ip Hi Hx) as E. unfold s in E. cbn [st_map] in E. rewrite E. cbn [fst snd].
  split; simpl; try done.
  - unfold listener_ok in *. by destruct l.
  - intros k e He. by eapply (written_keys _ x _ _ _ Hi).
  - intros y Hy. unfold row_ok, lost_by_write. cbn [st_queue st_listener st_map st_lost].
    rewrite (known_row s x Hi Hx). simpl fmap. destruct (decide (s_id y = s_id x)) as [Ey|Hne].
    + assert (y = x) as -> by by eapply (row_unique _ _ _ Hi). case_bool_decide as Eo.
      * right. right. injection Eo as <-. assert (right_entry (<[key_of x := entry_of x]> m) x) as Hx' by apply lookup_insert_eq.
        destruct l; try done; by right.
      * case_bool_decide as Ep; [|left; set_solver]. apply (queued_pending s) in Ep; [|done|by exists x].
        right. destruct Ep as [Ep|Ep]; [by left|right]. unfold s in Ep. destruct l; simpl in Ep; set_solver.
    + assert (s_id y ∈ lost -> s_id y ∈ (if bool_decide (Some (s_origin x) = Some ip) then lost ∖ {[s_id x]}
        else if bool_decide (s_id x ∈ pending s) then lost else lost ∪ {[s_id x]})) as Hk.
      { intros H. repeat case_bool_decide; set_solver. }
      destruct (Hrows y Hy) as [H|[H|H]]; [left; by apply Hk|right; by left|]. right. right.
      pose proof (written_other s x (mkNatEntry ip) y Hi Hx Hy Hne) as Hw. unfold s in H, Hw. simpl in H, Hw.
      destruct l; try done; try (by apply Hw); destruct H as [H|H]; auto.
Qed.

(** ** All steps *)

Lemma any_step_inv s s' : any_step s s' -> inv s -> inv s'.
Proof.
  intros (a & Hs) Hi. destruct Hs.
  - destruct (nextval_wf _ _ _ (iv_db _ Hi) H) as (Hwf & Hd & Hc). by apply nextval_inv.
  - destruct (upsert_touches _ _ _ _ _ _ _ _ (iv_db _ Hi) H1) as (i & Ht & _).
    apply (with_db_inv i); [done..| |done]. by eapply upsert_wf; [apply Hi| | |].
  - by apply select_inv.
  - by eapply load_inv.
  - by apply spawn_inv.
  - by eapply listen_inv.
  - by apply end_inv.
  - by eapply recv_inv.
  - by apply fetch_inv.
  - by apply apply_inv.
  - apply set_resolver_inv; [done|apply running_loaded; [done|by rewrite H]|].
    intros x Hx. apply list_elem_of_fmap in Hx as (y & -> & Hy). by exists y.
  - apply set_resolver_inv; [done|apply running_loaded; [done|by rewrite H]|].
    pose proof (iv_resolver _ Hi) as Hr. rewrite H in Hr. intros x Hx. apply Hr. by right.
  - by destruct (update_inv s id d txt rows ip db' Hi H H0 H2) as (Hi' & Hr & Hl); apply set_resolver_inv.
  - by destruct (update_inv s id d txt rows ip db' Hi H H0 H2) as (Hi' & Hr & Hl); apply set_resolver_inv.
  - by apply write_inv.
  - apply set_resolver_inv; [done|apply running_loaded; [done|by rewrite H]|done].
  - apply set_resolver_inv; [done|apply running_loaded; [done|by rewrite H]|done].
Qed.

(** A name in the table keeps its id and its synthetic address, whoever moves. *)
Lemma row_kept s s' d r : any_step s s' -> inv s -> find_domain (domains (st_db s)) d = Some r ->
  exists r', find_domain (domains (st_db s')) d = Some r' /\ s_id r' = s_id r /\ s_synthetic r' = s_synthetic r.
Proof.
  intros (a & Hs) Hi Hf.
  assert (forall id ip db', bytes 16 ip -> update_origin (display ip) id (st_db s) = Some db' ->
    exists r', find_domain (domains db') d = Some r' /\ s_id r' = s_id r /\ s_synthetic r' = s_synthetic r) as Hu.
  { intros id ip db' Hip. rewrite update_origin_run by done. intros [= <-]. exists (with_origin id ip r). cbn [domains].
    rewrite find_with_origin, Hf. split; [done|]. pose proof (with_origin_fixed id ip r) as E. by injection E. }
  destruct Hs; try (by exists r); simpl; eauto.
  - destruct (nextval_wf _ _ _ (iv_db _ Hi) H) as (_ & -> & _). by exists r.
  - pose proof (find_domain_Some _ _ _ Hf) as [_ <-]. by eapply upsert_stable; [apply Hi| |].
Qed.

Lemma rows_kept s s' d r : rtc any_step s s' -> inv s -> find_domain (domains (st_db s)) d = Some r ->
  inv s' /\ exists r', find_domain (domains (st_db s')) d = Some r' /\ s_id r' = s_id r /\ s_synthetic r' = s_synthetic r.
Proof.
  intros Hs. revert r. induction Hs as [s|s s1 s' H1 _ IH]; intros r Hi Hf; [split; [done|by exists r]|].
  destruct (row_kept s s1 d r H1 Hi Hf) as (r1 & Hf1 & Hid & Hsy).
  destruct (IH r1) as [Hi' (r' & ? & ? & ?)]; [by eapply any_step_inv|done|]. split; [done|].
  exists r'. split_and!; [done|congruence..].
Qed.



(** ** Consequences *)

Lemma actor_steps (who : Actor -> Prop) a s s' : who a -> rtc (step a) s s' -> rtc (steps who) s s'.
Proof. intros Ha. apply rtc_subrel. intros x y H. by exists a. Qed.

Lemma steps_any who s s' : rtc (steps who) s s' -> rtc any_step s s'.
Proof. apply rtc_subrel. intros x y (a & _ & H). by exists a. Qed.



(** The steps of [main] are the bulk load, when nothing else moves in between. *)
Lemma load_steps db rows : forall m m', bulk_insert rows m = (Ok tt, m') ->
  rtc (step Main) (mkState db m [] (LLoad rows) ROff ∅) (mkState db m' [] LOff RIdle ∅).
Proof.
  induction rows as [|[id txt] rows IH]; intros m m'; simpl.
  - intros [= <-]. apply rtc_once, step_spawn.
  - destruct (parse txt) as [o|] eqn:Ep; [|done]. destruct (nat_insert _ _ _ _) as [m1|] eqn:Ei; [|done].
    intros E. eapply rtc_l; [by eapply step_load|]. by apply IH.
Qed.

Lemma loaded_run db n m : bulk_load_from_db true db ∅ = (Ok n, m) ->
  rtc (step Main) (boot db) (mkState db m [] LOff RIdle ∅).
Proof.
  unfold bulk_load_from_db. simpl negb. cbv iota. destruct (bulk_insert _ _) as [[[]|e] m'] eqn:E; intros [= _ <-].
  eapply rtc_l; [apply step_select|]. by apply load_steps.
Qed.

(** The three steps of the listener for one notification are [on_notification], when
    nothing else moves in between. *)
Lemma notification_steps db m p q r lost id :
  parse_i32 p = Some id ->
  rtc (step ListenerTask) (mkState db m (p :: q) LWait r lost)
    (mkState db (on_notification true p db m).2 q LWait r lost).
Proof.
  intros E. unfold on_notification. rewrite E. simpl negb. cbv iota.
  eapply rtc_l; [by apply step_recv|]. eapply rtc_l; [apply step_fetch|]. apply rtc_once, step_apply.
Qed.


End sync.

End Sync.
