(* ===== verification/ControlPlaneExamples.v ===== *)
(** * Concrete runs of the control plane

    A table with one name, queries and notifications on it, and three runs after
    which NAT_MAP and the table disagree for good. *)

From Stdlib Require Import Ascii String.
From S2P Require Import Prelude Text Types Ipv6Text Contract ProxySrc Platform Ebpf Db Dns DnsSpec DnsRace DnsServer DnsMain Daemon DaemonSpec Sync Drain.
Import Text Types Ipv6Text Contract ProxySrc Db Dns DnsSpec Daemon DaemonSpec.
Local Open Scope Z_scope.
Local Open Scope list_scope.

Module ControlPlaneExamples.

Definition ip (n : Z) : list Z := [0x20; 0x01; 0x0d; 0xb8; 0; 0; 0; 0; 0; 0; 0; 0; 0; 0; 0; n].
Definition NAME_A : list Z := [97; 46; 116].
Definition NAME_B : list Z := [98; 46; 116].

Definition row_a (o : list Z) : Stored := mkStored 1 NAME_A o (synthetic_ipv6 1) (Some 300).
Definition row_b (o : list Z) : Stored := mkStored 2 NAME_B o (synthetic_ipv6 2) (Some 300).
Definition db_a : Database := mkDatabase [row_a (ip 1)] 2 [1].
Definition map_a : gmap Z NatEntry := {[1 := mkNatEntry (ip 1)]}.

Lemma ip_bytes n : uN 8 n -> bytes 16 (ip n).
Proof. intros Hn. split; [done|]. repeat (apply Forall_cons_2; [done|]). constructor. Qed.

Lemma db_a_wf : db_wf db_a.
Proof.
  split; simpl.
  - apply NoDup_singleton.
  - apply NoDup_singleton.
  - constructor; [|constructor]. simpl. split; [lia|]. split; [by apply ip_bytes|done].
Qed.

Lemma db_a_fits : Sync.table_fits db_a.
Proof. split; [simpl; lia|]. unfold Ebpf.Ebpf.MAX_ENTRIES. simpl. lia. Qed.

Lemma map_a_loaded : bulk_load_from_db true db_a ∅ = (Ok (List.length (domains db_a)), map_a).
Proof. reflexivity. Qed.

(** ** Disagreement *)

Definition db_ab : Database := mkDatabase [row_a (ip 1); row_b (ip 2)] 3 [1; 2].

Lemma rtc_here {A} (R : relation A) x y : x = y -> rtc R x y.
Proof. intros ->. apply rtc_refl. Qed.

Ltac fits_now := split; [simpl; lia|unfold Ebpf.Ebpf.MAX_ENTRIES; simpl; lia].
Ltac actor a := eapply rtc_l; [exists a; split; [done|]|].

(** The daemon after the bulk load, and with its first session open. *)
Definition booted : Sync.State := Sync.mkState db_a map_a [] Sync.LOff Sync.RIdle ∅.
Definition opened : Sync.State := Sync.mkState db_a map_a [] Sync.LWait Sync.RIdle ∅.

Lemma booted_run who : who Sync.Main -> rtc (Sync.steps who) (Sync.boot db_a) booted.
Proof. intros Hw. eapply Sync.actor_steps; [exact Hw|]. by eapply Sync.loaded_run, map_a_loaded. Qed.

Lemma opened_run who : who Sync.Main -> who Sync.Connect -> rtc (Sync.steps who) (Sync.boot db_a) opened.
Proof.
  intros Hm Hc. eapply rtc_r; [by apply booted_run|]. exists Sync.Connect. split; [done|apply Sync.step_listen].
Qed.

(** The DNS server registers a second name in two queries. *)
Lemma register_steps s : Sync.st_db s = db_a ->
  rtc (Sync.step Sync.DnsServer) s (Sync.with_db db_ab (Sync.with_db (mkDatabase [row_a (ip 1)] 3 [1]) s)).
Proof.
  intros E. eapply rtc_l; [|apply rtc_once].
  - eapply (Sync.step_nextval _ 2 (mkDatabase [row_a (ip 1)] 3 [1])); [by rewrite E|fits_now].
  - eapply (Sync.step_insert _ 2 NAME_B (ip 2) _ db_ab);
      [by apply ip_bytes|simpl; lia|vm_compute; reflexivity|fits_now].
Qed.

(** A name registered after the bulk load and before the first LISTEN. *)
Lemma early_run : rtc (Sync.steps (fun a => a <> Sync.ResolverTask /\ a <> Sync.Disconnect)) (Sync.boot db_a)
  (Sync.mkState db_ab map_a [] Sync.LWait Sync.RIdle {[2]}).
Proof.
  etransitivity; [by apply booted_run|].
  etransitivity; [eapply (Sync.actor_steps _ Sync.DnsServer); [done|by apply register_steps]|].
  actor Sync.Connect; [apply Sync.step_listen|]. apply rtc_here. vm_compute. reflexivity.
Qed.

(** A name registered while a session is open that ends before the listener gets to it. *)
Lemma reconnect_run : rtc (Sync.steps (fun a => a <> Sync.ResolverTask)) (Sync.boot db_a)
  (Sync.mkState db_ab map_a [] Sync.LWait Sync.RIdle {[2]}).
Proof.
  etransitivity; [by apply opened_run|].
  etransitivity; [eapply (Sync.actor_steps _ Sync.DnsServer); [done|by apply register_steps]|].
  actor Sync.Disconnect; [by apply Sync.step_end|].
  actor Sync.Connect; [apply Sync.step_listen|]. apply rtc_here. vm_compute. reflexivity.
Qed.

Definition db_a2 : Database := mkDatabase [row_a (ip 2)] 3 [1; 1].
Definition db_a3 : Database := mkDatabase [row_a (ip 3)] 3 [1; 1; 1].
Definition map_of (n : Z) : gmap Z NatEntry := {[1 := mkNatEntry (ip n)]}.

Ltac turn i := actor Sync.ListenerTask; [by apply (Sync.step_recv _ _ _ _ _ _ i)|];
  actor Sync.ListenerTask; [apply Sync.step_fetch|]; actor Sync.ListenerTask; [apply Sync.step_apply|].

(** The resolver writes the table, a delayed registration overwrites the origin and
    its notification is handled, and only then the resolver writes the map. *)
Lemma resolver_run : rtc (Sync.steps (fun a => a <> Sync.Disconnect)) (Sync.boot db_a)
  (Sync.mkState db_a3 (map_of 2) [] Sync.LWait Sync.RIdle {[1]}).
Proof.
  etransitivity; [by apply opened_run|].
  actor Sync.DnsServer.
  { eapply (Sync.step_nextval _ 2 (mkDatabase [row_a (ip 1)] 3 [1])); [done|fits_now]. }
  actor Sync.ResolverTask; [by apply Sync.step_round|].
  actor Sync.ResolverTask.
  { eapply (Sync.step_update _ _ _ _ _ (ip 2) db_a2); [reflexivity|by apply ip_bytes|done|vm_compute; reflexivity]. }
  actor Sync.DnsServer.
  { eapply (Sync.step_insert _ 2 NAME_A (ip 3) _ db_a3);
      [by apply ip_bytes|simpl; lia|vm_compute; reflexivity|fits_now]. }
  turn 1. turn 1.
  actor Sync.ResolverTask; [apply Sync.step_write|].
  actor Sync.ResolverTask; [by apply Sync.step_done|]. apply rtc_here. vm_compute. reflexivity.
Qed.

Lemma not_in_sync (t : list Stored) m r : r ∈ t -> m !! key_of r <> Some (entry_of r) -> ~ in_sync t m.
Proof. intros Hr Hm Hs. by apply Hm, Hs. Qed.

(** C29. NAT_MAP can end up wrong with nothing left to correct it, in three ways: a
    notification sent between the bulk load and the first LISTEN is lost, and so is one
    sent in a session that ends before it is handled, so that a new name has no entry;
    and a map write of the resolver that is overtaken by a newer origin leaves the older
    one in the map.  All runs end with a session open, every task at rest and no
    notification pending. *)
Theorem sync_can_diverge :
  (exists s, rtc (Sync.steps (fun a => a <> Sync.ResolverTask /\ a <> Sync.Disconnect)) (Sync.boot db_a) s /\
     Sync.quiescent s /\ ~ in_sync (domains (Sync.st_db s)) (Sync.st_map s)) /\
  (exists s, rtc (Sync.steps (fun a => a <> Sync.ResolverTask)) (Sync.boot db_a) s /\
     Sync.quiescent s /\ ~ in_sync (domains (Sync.st_db s)) (Sync.st_map s)) /\
  (exists s, rtc (Sync.steps (fun a => a <> Sync.Disconnect)) (Sync.boot db_a) s /\
     Sync.quiescent s /\ ~ in_sync (domains (Sync.st_db s)) (Sync.st_map s)).
Proof.
  split_and!; eexists; (split; [first [exact early_run|exact reconnect_run|exact resolver_run]|split; [done|]]).
  - apply (not_in_sync _ _ (row_b (ip 2))); [right; by left|]. vm_compute. discriminate.
  - apply (not_in_sync _ _ (row_b (ip 2))); [right; by left|]. vm_compute. discriminate.
  - apply (not_in_sync _ _ (row_a (ip 3))); [by left|]. vm_compute. discriminate.
Qed.

(** ** Convergence *)







Lemma bulk_load_exact_witness : exists m, bulk_load_from_db true db_a ∅ = (Ok 1%nat, m) /\ in_sync (domains db_a) m.
Proof.
  destruct (bulk_load_exact db_a db_a_wf) as (m & E & Hs & _); [apply db_a_fits..|]. exists m. split; [exact E|exact Hs].
Defined.

(** A new name is announced and fetched. *)
Definition note_b : Note := mkNote (Some (int4_text 2)) true (mkDatabase [row_a (ip 1); row_b (ip 2)] 3 [1; 2]).

Lemma listener_session_witness : exists m', run_listener true true [note_b] map_a = (None, m') /\ m' !! 1 = map_a !! 1.
Proof.
  destruct (run_listener true true [note_b] map_a) as [e m'] eqn:E.
  assert (Forall (fun n => db_wf (note_db n)) [note_b]) as Hwf.
  { constructor; [|constructor]. split; simpl.
    - apply (bool_decide_unpack _). vm_compute. done.
    - apply (bool_decide_unpack _). vm_compute. done.
    - repeat (constructor; [simpl; split; [lia|]; split; [by apply ip_bytes|done]|]). constructor. }
  destruct (listener_session [note_b] map_a m' e Hwf E) as [He Hk]. exists m'. split.
  - f_equal. apply He. constructor; [|constructor]. split; [|done]. exists (int4_text 2), 2. split; [done|].
    vm_compute. reflexivity.
  - apply Hk. intros n Hn (p & id & Hp & Hi & Hid). apply list_elem_of_singleton in Hn as ->.
    injection Hp as <-. vm_compute in Hi. injection Hi as <-. discriminate Hid.
Defined.

Definition lookup_2 (d : list Z) : Result ResolveError (list (list Z)) := Ok [ip 2].

Lemma lookup_2_bytes d l : lookup_2 d = Ok l -> Forall (bytes 16) l.
Proof. intros [= <-]. constructor; [by apply ip_bytes|constructor]. Qed.

Lemma map_a_sync : in_sync (domains db_a) map_a.
Proof. intros r Hr. apply list_elem_of_singleton in Hr as ->. done. Qed.

Lemma resolve_all_in_sync_witness : exists db' m',
  resolve_all lookup_2 true [] db_a map_a = (Ok tt, db', m') /\ domains db' = [row_a (ip 2)] /\ in_sync (domains db') m'.
Proof.
  destruct (resolve_all_in_sync lookup_2 lookup_2_bytes db_a map_a db_a_wf) as (db' & m' & E & Hd & Hs & _);
    [apply db_a_fits|apply map_a_sync|]. exists db', m'. split; [exact E|]. split; [rewrite Hd; reflexivity|exact Hs].
Defined.

(** ** Queries *)

(** A wire form for the examples: id, then the name of one AAAA question; the reply
    is the id and the answered address. *)
#[local] Instance sample_wire : Hickory := {
  Name := list Z;
  to_ascii n := n;
  from_vec b := match b with
                | i :: n => Some (mkMessage i Query_ 0 true false [mkQuery n AAAA] [] NoError)
                | [] => None
                end;
  to_vec m := Some (msg_id m :: flat_map record_addr (answers m))
}.

Definition name_b : Name := NAME_B.
Definition blank_response : Message Name := response_to (mkMessage 7 Query_ 0 true false [] [] NoError).

Lemma handle_query_responds_witness : exists request m,
  from_vec (7 :: NAME_A) = Some request /\ to_vec m = Some (7 :: synthetic_ipv6 1) /\ responds request m.
Proof.
  apply (handle_query_responds lookup_2 (7 :: NAME_A) (7 :: synthetic_ipv6 1)
           (mkPgPool db_a []) (mkPgPool db_a [])). vm_compute. reflexivity.
Defined.

Lemma aaaa_query_effect_witness :
  handle_aaaa lookup_2 name_b blank_response (mkPgPool db_a []) =
  (Ok (answer_with name_b 300 (synthetic_ipv6 2) blank_response),
   mkPgPool db_ab []).
Proof.
  destruct (aaaa_query_effect lookup_2 lookup_2_bytes name_b
              blank_response db_a db_a_wf) as [E _]; [simpl; lia|].
  rewrite E. reflexivity.
Defined.

(** The insertion runs and its answer is lost. *)
Lemma handler_error_atomic_witness : db_wf db_ab /\
  (same_table db_a db_ab \/ exists o, lookup_aaaa lookup_2 (domain_of name_b) = Ok (Some o) /\
     registered (domain_of name_b) o db_a db_ab).
Proof.
  apply (handler_error_atomic lookup_2 lookup_2_bytes name_b blank_response
           (mkPgPool db_a [NoFault; NoFault; AnswerLost]) (mkPgPool db_ab []) (DbError Unavailable));
    [apply db_a_wf|simpl; lia|vm_compute; reflexivity].
Defined.

(** ** Racing registrations *)

Lemma lookup_2_ok : DnsRace.lookup_ok lookup_2.
Proof. exact lookup_2_bytes. Qed.

(** Two queries for one name draw ids 1 and 2; the second one inserts first. *)
Definition raced : Database := mkDatabase [mkStored 2 NAME_A (ip 2) (synthetic_ipv6 2) (Some 300)] 3 [2; 2].

Ltac task i := eapply rtc_l; [eapply (DnsRace.step_task _ _ i _ lookup_2);
  [reflexivity|exact lookup_2_ok|simpl; lia|vm_compute; reflexivity]|].

Lemma race_run : DnsRace.reachable
  (raced, [DnsRace.Answered NAME_A (synthetic_ipv6 2); DnsRace.Answered NAME_A (synthetic_ipv6 2)]).
Proof.
  unfold DnsRace.reachable.
  eapply rtc_l; [apply (DnsRace.step_arrive _ _ NAME_A)|]. eapply rtc_l; [apply (DnsRace.step_arrive _ _ NAME_A)|].
  task 0%nat. task 1%nat. task 0%nat. task 1%nat. task 1%nat. task 0%nat.
  apply rtc_here. vm_compute. reflexivity.
Qed.

Lemma race_answers_agree_witness :
  exists r, find_domain (domains raced) NAME_A = Some r /\ s_synthetic r = synthetic_ipv6 2.
Proof.
  apply (DnsRace.race_answers_agree raced _ NAME_A NAME_A (synthetic_ipv6 2) (synthetic_ipv6 2) race_run);
    [simpl; lia|by left|by left].
Defined.

(** ** Load shedding *)

Definition query_1 : DnsServer.Datagram := DnsServer.mkDatagram (1 :: NAME_A) 1001.
Definition query_2 : DnsServer.Datagram := DnsServer.mkDatagram (2 :: NAME_B) 1002.

(** One permit, two queries: the second is refused at once, the first times out. *)
Definition shed : DnsServer.Server :=
  DnsServer.mkServer 1 1 [] [(query_2, Some [2]); (query_1, Some [1])] [1].

Lemma shed_run : DnsServer.server_reachable 1 ([query_1; query_2], shed).
Proof.
  unfold DnsServer.server_reachable.
  eapply rtc_l; [apply (DnsServer.step_receive _ _ query_1)|].
  eapply rtc_l; [apply (DnsServer.step_receive _ _ query_2)|].
  eapply rtc_l; [eapply (DnsServer.step_finish _ _ 0 DnsServer.Elapsed); reflexivity|].
  apply rtc_here. vm_compute. reflexivity.
Qed.

Lemma server_accounting_witness : (DnsServer.permits shed + length (DnsServer.in_flight shed))%nat = 1%nat.
Proof. apply (DnsServer.server_accounting 1 [query_1; query_2] shed shed_run). Defined.

(** ** A configured server *)

Definition dns_vars (limit : list Z) : gmap (list Z) (list Z) :=
  list_to_map [(text "DATABASE_URL", text "postgres://db"); (text "MAX_CONCURRENT_QUERIES", limit);
               (text "LISTEN_ADDR", text "[::1]:53")].

(** The limit is read from the environment; what is no number gives the default. *)
Example limits_read :
  (DnsMain.max_concurrent <$> match DnsMain.read_config (dns_vars (text "2")) with Ok c => Some c | Err _ => None end) = Some 2 /\
  (DnsMain.max_concurrent <$> match DnsMain.read_config (dns_vars (text "many")) with Ok c => Some c | Err _ => None end) = Some 256.
Proof. split; vm_compute; reflexivity. Qed.

End ControlPlaneExamples.
