(* ===== verification/Loader.v ===== *)
(** * Start-up of the daemon: [daemon/src/loader.rs]

    Waiting for the tunnel interface, reading its index, finding the WAN address in
    dev mode, and the map writes of [load_and_attach] in their order.  Loading and
    attaching programs is the kernel's business: each such step succeeds or fails. *)

From S2P Require Import Prelude Contract Types ProxySrc Platform Ebpf EbpfSpec Keys Daemon.
Import Contract Types ProxySrc Platform Ebpf EbpfSpec.
Local Open Scope Z_scope.

Module Loader.

(** ** [wait_for_interface] *)

(** One turn of the poll loop: whether the interface exists when looked up and, if
    not, what ends the pause. *)
Inductive Wake := CtrlC | Sigterm | Timer.
Inductive WaitErr := NoHandler | Interrupted | Terminated.

Fixpoint poll_interface (polls : list (bool * Wake)) : option (Result WaitErr unit) :=
  match polls with
  | [] => None                                  (** still waiting *)
  | (true, _) :: _ => Some (Ok tt)
  | (false, CtrlC) :: _ => Some (Err Interrupted)
  | (false, Sigterm) :: _ => Some (Err Terminated)
  | (false, Timer) :: polls => poll_interface polls
  end.

(** [handler_ok]: the SIGTERM handler could be registered. *)
Definition wait_for_interface (handler_ok : bool) (polls : list (bool * Wake)) : option (Result WaitErr unit) :=
  if handler_ok then poll_interface polls else Some (Err NoHandler).

(** ** [ifindex] *)

(** [str::parse::<u32>], on the text's UTF-8 bytes. *)
Definition parse_u32 (s : list Z) : option Z := parse_u 32 s.

Inductive LoadErr := StepFailed (n : nat) | NoIfindex | BadIfindex | NoWanAddress | WriteFailed.

(** The contents of [/sys/class/net/<name>/ifindex], if it can be read. *)
Definition ifindex (file : option (list Z)) : Result LoadErr Z :=
  match file with
  | None => Err NoIfindex
  | Some s => match parse_u32 (Keys.utf8 (Keys.trim s)) with Some n => Ok n | None => Err BadIfindex end
  end.

(** ** [get_wan_ipv6] *)

(** An address reported by [getifaddrs]: its interface and, for IPv6, its octets. *)
Record IfAddr := mkIfAddr { ifa_name : list Z; ifa_ip : option (list Z) }.

(** [Ipv6Addr::is_unicast_link_local]: fe80::/10. *)
Definition is_unicast_link_local (ip : list Z) : bool :=
  (nth 0 ip 0 =? 0xfe) && (Z.land (nth 1 ip 0) 0xc0 =? 0x80).

Fixpoint find_wan (iface : list Z) (addrs : list IfAddr) : Result LoadErr (list Z) :=
  match addrs with
  | [] => Err NoWanAddress
  | a :: addrs =>
      if bool_decide (ifa_name a = iface) then
        match ifa_ip a with
        | Some ip => if negb (is_unicast_link_local ip) then Ok ip else find_wan iface addrs
        | None => find_wan iface addrs
        end
      else find_wan iface addrs
  end.

(** [None]: [getifaddrs] failed. *)
Definition get_wan_ipv6 (iface : list Z) (addrs : option (list IfAddr)) : Result LoadErr (list Z) :=
  match addrs with
  | None => Err NoWanAddress
  | Some l => find_wan iface l
  end.

(** ** [load_and_attach] *)

(** The maps of a freshly loaded object: arrays of zeroes, empty hash maps. *)
Definition ZERO_KEY : ProxySrcKey := mkProxySrcKey (replicate 16 0) (replicate 16 0).
Definition fresh_maps : BpfMaps :=
  mkMaps ∅ [0] [ZERO_KEY; ZERO_KEY] [ZERO_ADDR] ∅ (replicate 8 0).

(** [Array::set]: out of bounds is an error. *)
Definition array_set {A} (i : nat) (x : A) (l : list A) : option (list A) :=
  if (i <? length l)%nat then Some (<[i := x]> l) else None.

Definition set_xfrm_ifindex (l : list Z) (m : BpfMaps) : BpfMaps :=
  mkMaps (NAT_MAP m) l (OBFS_KEYS m) (DEV_WAN_IPV6 m) (REPLY_TRACK m) (DBG_COUNTERS m).
Definition set_obfs_keys (l : list ProxySrcKey) (m : BpfMaps) : BpfMaps :=
  mkMaps (NAT_MAP m) (XFRM_IFINDEX m) l (DEV_WAN_IPV6 m) (REPLY_TRACK m) (DBG_COUNTERS m).
Definition set_dev_wan (l : list (list Z)) (m : BpfMaps) : BpfMaps :=
  mkMaps (NAT_MAP m) (XFRM_IFINDEX m) (OBFS_KEYS m) l (REPLY_TRACK m) (DBG_COUNTERS m).

(** The map writes of start-up. *)
Inductive MapWrite := WXfrmIfindex | WActiveKey | WPrevKey | WDevWan.

(** What the environment supplies: the outcome of each load and attach step, the
    ifindex file of the tunnel interface, the interface addresses, and whether a map
    can be opened and written. *)
Record Env := mkEnv {
  attach_steps : list bool;
  ifindex_file : option (list Z);
  if_addrs : option (list IfAddr);
  writes_ok : MapWrite -> bool
}.

(** Opening a map and setting one of its elements. *)
Definition write_map {A} (env : Env) (w : MapWrite) (i : nat) (x : A) (l : list A) : option (list A) :=
  if writes_ok env w then array_set i x l else None.

(** The first failing attach step, if any. *)
Fixpoint first_failure (n : nat) (l : list bool) : option nat :=
  match l with
  | [] => None
  | true :: l => first_failure (S n) l
  | false :: _ => Some n
  end.

(** The map writes, on success paired with the configured maps.  The programs are
    already attached when the first of them happens. *)
Definition configure (dev : bool) (wan_iface : list Z) (active_key : ProxySrcKey) (prev_key : option ProxySrcKey)
    (env : Env) (m : BpfMaps) : Result LoadErr BpfMaps * BpfMaps :=
  match ifindex (ifindex_file env) with
  | Err e => (Err e, m)
  | Ok xfrm_idx =>
      match write_map env WXfrmIfindex 0 xfrm_idx (XFRM_IFINDEX m) with
      | None => (Err WriteFailed, m)
      | Some l =>
          let m := set_xfrm_ifindex l m in
          match write_map env WActiveKey 0 active_key (OBFS_KEYS m) with
          | None => (Err WriteFailed, m)
          | Some ks =>
              let m := set_obfs_keys ks m in
              match (match prev_key with
                     | Some prev => write_map env WPrevKey 1 prev (OBFS_KEYS m)
                     | None => Some (OBFS_KEYS m)
                     end) with
              | None => (Err WriteFailed, m)
              | Some ks =>
                  let m := set_obfs_keys ks m in
                  if dev then
                    match get_wan_ipv6 wan_iface (if_addrs env) with
                    | Err e => (Err e, m)
                    | Ok wan_ipv6 =>
                        match write_map env WDevWan 0 wan_ipv6 (DEV_WAN_IPV6 m) with
                        | None => (Err WriteFailed, m)
                        | Some l => let m := set_dev_wan l m in (Ok m, m)
                        end
                    end
                  else (Ok m, m)
              end
          end
      end
  end.

(** The result, and the maps as the attached programs see them afterwards. *)
Definition load_and_attach (dev : bool) (wan_iface : list Z) (active_key : ProxySrcKey)
    (prev_key : option ProxySrcKey) (env : Env) : Result LoadErr BpfMaps * BpfMaps :=
  match first_failure 0 (attach_steps env) with
  | Some n => (Err (StepFailed n), fresh_maps)
  | None => configure dev wan_iface active_key prev_key env fresh_maps
  end.

(** ** What start-up leaves behind *)

Definition configured (active_key : ProxySrcKey) (prev_key : option ProxySrcKey) (idx : Z) (wan : list Z) : BpfMaps :=
  mkMaps ∅ [idx] [active_key; default ZERO_KEY prev_key] [wan] ∅ (replicate 8 0).

Lemma active_key_nth m key : OBFS_KEYS m !! 0%nat = Some key -> is_zero key = false -> active_key m = Some key.
Proof. intros E Hz. unfold active_key. by rewrite E, Hz. Qed.

Lemma active_key_zero m : OBFS_KEYS m !! 0%nat = Some ZERO_KEY -> active_key m = None.
Proof. intros E. unfold active_key. by rewrite E. Qed.

(** Every way the writes can end: done, or given up with the active slot still zero
    or already holding the key. *)
Lemma configure_run dev iface key prev env r m :
  is_zero key = false -> configure dev iface key prev env fresh_maps = (r, m) ->
  NAT_MAP m = ∅ /\
  match r with
  | Ok m' => m' = m /\ exists idx wan, ifindex (ifindex_file env) = Ok idx /\ m = configured key prev idx wan /\
      (if dev then get_wan_ipv6 iface (if_addrs env) = Ok wan else wan = ZERO_ADDR)
  | Err _ => active_key m = None \/ active_key m = Some key
  end.
Proof.
  intros Hz. unfold configure, write_map, array_set.
  assert (active_key fresh_maps = None) as H0 by by apply active_key_zero.
  destruct (ifindex _) as [idx|e]; [|intros [= <- <-]; split; [done|by left]].
  destruct (writes_ok env WXfrmIfindex); [|intros [= <- <-]; split; [done|by left]]. cbn.
  destruct (writes_ok env WActiveKey); [|intros [= <- <-]; split; [done|left; by apply active_key_zero]]. cbn.
  assert (forall m, OBFS_KEYS m !! 0%nat = Some key -> active_key m = None \/ active_key m = Some key) as Hk.
  { intros m' Hm'. right. by apply active_key_nth. }
  destruct prev as [p|]; [destruct (writes_ok env WPrevKey); [|intros [= <- <-]; split; [done|by apply Hk]]|]; cbn;
    (destruct dev; [|intros [= <- <-]; split; [done|]; split; [done|]; by exists idx, ZERO_ADDR]);
    (destruct (get_wan_ipv6 iface _) as [wan|e] eqn:Ew; [|intros [= <- <-]; split; [done|by apply Hk]]);
    (destruct (writes_ok env WDevWan); [|intros [= <- <-]; split; [done|by apply Hk]]); cbn;
    intros [= <- <-]; (split; [done|]; split; [done|]; by exists idx, wan).
Qed.

Lemma find_wan_ok iface addrs ip :
  find_wan iface addrs = Ok ip ->
  is_unicast_link_local ip = false /\ mkIfAddr iface (Some ip) ∈ addrs.
Proof.
  induction addrs as [|[n o] addrs IH]; simpl; [done|]. case_bool_decide as En; simpl.
  - destruct o as [ip'|]; [|intros H; destruct (IH H); split; [done|by right]].
    destruct (is_unicast_link_local ip') eqn:El; simpl.
    + intros H. destruct (IH H). split; [done|by right].
    + intros [= <-]. split; [done|]. subst n. by left.
  - intros H. destruct (IH H). split; [done|by right].
Qed.

(** A daemon that starts is ready, and one that fails stays closed.  If
    [load_and_attach] succeeds, every attach step succeeded, the data plane's active
    key is the key the operator configured, the tunnel interface is the one whose
    index was read, NAT_MAP is still empty, and in dev mode the WAN address is an
    address of the WAN interface that is not link-local.  If it fails, at whatever
    step, the active slot is zero or holds that key. *)
Theorem load_and_attach_ready (dev : bool) (iface : list Z) (key : ProxySrcKey) (prev : option ProxySrcKey)
    (env : Env) (r : Result LoadErr BpfMaps) (m : BpfMaps) :
  is_zero key = false -> load_and_attach dev iface key prev env = (r, m) ->
  match r with
  | Ok m' => m' = m /\ Forall (eq true) (attach_steps env) /\ active_key m = Some key /\ NAT_MAP m = ∅ /\
      exists idx, ifindex (ifindex_file env) = Ok idx /\ XFRM_IFINDEX m = [idx] /\
        (dev = true -> exists wan addrs, if_addrs env = Some addrs /\ DEV_WAN_IPV6 m = [wan] /\
           is_unicast_link_local wan = false /\ mkIfAddr iface (Some wan) ∈ addrs)
  | Err _ => active_key m = None \/ active_key m = Some key
  end.
Proof.
  intros Hz. unfold load_and_attach.
  assert (forall l n, first_failure n l = None -> Forall (eq true) l) as Hff.
  { induction l as [|[|] l IH]; intros n; simpl; [by constructor| |done]. intros H. constructor; [done|by eapply IH]. }
  destruct (first_failure 0 (attach_steps env)) as [n|] eqn:Ef; [intros [= <- <-]; left; by apply active_key_zero|].
  intros E. apply configure_run in E as [Hn E]; [|done]. destruct r as [m'|e]; [|done].
  destruct E as (-> & idx & wan & Hi & -> & Hw).
  split; [done|]. split; [by eapply Hff|]. split; [by apply active_key_nth|]. split; [done|].
  exists idx. split; [done|]. split; [done|]. intros ->. unfold get_wan_ipv6 in Hw.
  destruct (if_addrs env) as [addrs|] eqn:Ea; [|done]. destruct (find_wan_ok _ _ _ Hw) as [Hl Hin].
  by exists wan, addrs.
Qed.

Definition demo_env : Env :=
  mkEnv [true; true; true] (Some [55; 10])
    (Some [mkIfAddr [101] (Some ([0xfe; 0x80] ++ replicate 14 0)); mkIfAddr [101] (Some ([0x20; 0x01] ++ replicate 14 1))])
    (fun _ => true).
Definition demo_key : ProxySrcKey := mkProxySrcKey (replicate 16 1) (replicate 16 2).

Lemma load_and_attach_ready_witness :
  active_key (configured demo_key None 7 ([0x20; 0x01] ++ replicate 14 1)) = Some demo_key.
Proof.
  pose proof (load_and_attach_ready true [101] demo_key None demo_env
    (Ok (configured demo_key None 7 ([0x20; 0x01] ++ replicate 14 1)))
    (configured demo_key None 7 ([0x20; 0x01] ++ replicate 14 1)) eq_refl eq_refl) as (_ & _ & H & _). exact H.
Defined.

(** Waiting for the interface ends exactly as the events decide: with success
    when the interface is seen before any signal, with an error when a signal comes
    first, and never while neither has happened. *)
Theorem wait_for_interface_spec (n : nat) (e : bool) (wake : Wake) (rest : list (bool * Wake)) :
  let polls := replicate n (false, Timer) ++ (e, wake) :: rest in
  wait_for_interface true (replicate n (false, Timer)) = None /\
  (e = true -> wait_for_interface true polls = Some (Ok tt)) /\
  (e = false -> wake <> Timer -> exists err, wait_for_interface true polls = Some (Err err)).
Proof.
  cbv zeta. unfold wait_for_interface. induction n as [|n IH]; simpl; [|done]. split_and!; [done|by intros ->|].
  intros -> Hw. destruct wake; [by eexists|by eexists|done].
Qed.

Lemma wait_for_interface_spec_witness :
  wait_for_interface true [(false, Timer); (false, Timer); (true, Timer)] = Some (Ok tt).
Proof. apply (wait_for_interface_spec 2 true Timer []). reflexivity. Defined.

End Loader.
