(* ===== verification/Startup.v ===== *)
(** * Start-up of the daemon: [main] of [daemon/src/main.rs]

    [main] reads its environment, takes the keys out of it, waits for the tunnel,
    loads and configures the programs, fills NAT_MAP and starts its two tasks.  Each
    stage may end the process.  The state is the environment of the process and the
    maps as the attached programs see them. *)

From Stdlib Require Import Ascii String.
From S2P Require Import Prelude Text Contract Types ProxySrc Platform Ebpf EbpfSpec EbpfRefine Keys Ipv6Text Db Dns.
From S2P Require Import DnsSpec Daemon DaemonSpec Sync Loader.
Import Text Contract Types ProxySrc Platform Ebpf EbpfSpec EbpfRefine.
Local Open Scope Z_scope.
Local Open Scope list_scope.

Module Startup.

Abbreviation Vars := (gmap (list Z) (list Z)).

Definition DATABASE_URL : list Z := text "DATABASE_URL".
Definition INTERFACE_NAME : list Z := text "INTERFACE_NAME".
Definition WAN_INTERFACE : list Z := text "WAN_INTERFACE".
Definition PROXY_ADDR_KEY_HEX : list Z := text "PROXY_ADDR_KEY_HEX".
Definition PROXY_ADDR_PREV_KEY_HEX : list Z := text "PROXY_ADDR_PREV_KEY_HEX".

(** The variables with Unicode values, and the maps once the programs are attached. *)
Record Main := mkMain { vars : Vars; plane : option BpfMaps }.

(** How [main] ends before it serves: an error, a panic, or not at all while the
    interface is missing. *)
Inductive MainEnd :=
| NotSet (var : list Z)
| InvalidKey (var : list Z) (e : Keys.KeyErr)
| KeyPanic
| Waiting
| WaitFailed (e : Loader.WaitErr)
| LoadFailed (e : Loader.LoadErr)
| NoDatabase
| BulkLoadFailed (e : Daemon.DaemonErr)
| NoNatMap.

(** What the outside does: the signal handler, the polls for the interface, the load steps, the
    database (reachable, its rows answered) and the table, and NAT_MAP's descriptor. *)
Record Host := mkHost {
  handler_ok : bool;
  polls : list (bool * Loader.Wake);
  load_env : Loader.Env;
  pool_up : bool;
  rows_up : bool;
  table : Db.Database;
  nat_map_found : bool
}.

(** ** A state monad with early return *)

Definition MM (A : Type) : Type := Main -> (MainEnd + A) * Main.
#[global] Instance MM_ret : MRet MM := fun A a s => (inr a, s).
#[global] Instance MM_bind : MBind MM := fun A B k p s =>
  match p s with
  | (inr a, s') => k a s'
  | (inl e, s') => (inl e, s')
  end.
Definition exit_with {A} (e : MainEnd) : MM A := fun s => (inl e, s).

(** [std::env::var(name).context(..)?] *)
Definition require (name : list Z) : MM (list Z) := fun s =>
  match vars s !! name with
  | Some v => (inr v, s)
  | None => (inl (NotSet name), s)
  end.

Definition remove_var (name : list Z) : MM unit := fun s => (inr tt, mkMain (delete name (vars s)) (plane s)).

Definition parse_key (name hex : list Z) : MM ProxySrcKey :=
  match Keys.parse_proxy_key_hex hex with
  | Keys.Return (Ok key) => mret key
  | Keys.Return (Err e) => exit_with (InvalidKey name e)
  | Keys.Panic => exit_with KeyPanic
  end.

Definition read_active_key : MM ProxySrcKey :=
  hex ← require PROXY_ADDR_KEY_HEX;
  _ ← remove_var PROXY_ADDR_KEY_HEX;
  parse_key PROXY_ADDR_KEY_HEX hex.

Definition read_prev_key : MM (option ProxySrcKey) := fun s =>
  match vars s !! PROXY_ADDR_PREV_KEY_HEX with
  | Some hex =>
      (_ ← remove_var PROXY_ADDR_PREV_KEY_HEX;
       key ← parse_key PROXY_ADDR_PREV_KEY_HEX hex;
       mret (Some key)) s
  | None => (inr None, s)
  end.

Definition set_nat_map (n : gmap Z NatEntry) (m : BpfMaps) : BpfMaps :=
  mkMaps n (XFRM_IFINDEX m) (OBFS_KEYS m) (DEV_WAN_IPV6 m) (REPLY_TRACK m) (DBG_COUNTERS m).

Section main.
Context `{NS : Daemon.NatMapSyscalls} `{PG : Db.Postgres}.
Context (dev : bool) (host : Host).

Definition await_interface : MM unit :=
  match Loader.wait_for_interface (handler_ok host) (polls host) with
  | None => exit_with Waiting
  | Some (Err e) => exit_with (WaitFailed e)
  | Some (Ok _) => mret tt
  end.

Definition load (wan_interface : list Z) (active_key : ProxySrcKey) (prev_key : option ProxySrcKey) : MM BpfMaps :=
  fun s =>
    let '(r, m) := Loader.load_and_attach dev wan_interface active_key prev_key (load_env host) in
    match r with
    | Err e => (inl (LoadFailed e), mkMain (vars s) (Some m))
    | Ok bpf => (inr bpf, mkMain (vars s) (Some bpf))
    end.

Definition bulk_load (bpf : BpfMaps) : MM nat := fun s =>
  let '(r, n) := Daemon.bulk_load_from_db (rows_up host) (table host) (NAT_MAP bpf) in
  let s := mkMain (vars s) (Some (set_nat_map n bpf)) in
  match r with
  | Err e => (inl (BulkLoadFailed e), s)
  | Ok count => (inr count, s)
  end.

(** Up to the point where both tasks run. *)
Definition daemon_main : MM nat :=
  database_url ← require DATABASE_URL;
  interface_name ← require INTERFACE_NAME;
  wan_interface ← require WAN_INTERFACE;
  active_key ← read_active_key;
  prev_key ← read_prev_key;
  _ ← await_interface;
  bpf ← load wan_interface active_key prev_key;
  _ ← (if pool_up host then mret tt else exit_with NoDatabase);
  count ← bulk_load bpf;
  _ ← (if nat_map_found host then mret tt else exit_with NoNatMap);
  mret count.

(** ** What each stage does *)

Lemma MM_bind_inv {A B} (p : MM A) (k : A -> MM B) s r s' :
  (p ≫= k) s = (r, s') ->
  (exists e, p s = (inl e, s') /\ r = inl e) \/ (exists a s1, p s = (inr a, s1) /\ k a s1 = (r, s')).
Proof.
  unfold mbind, MM_bind. destruct (p s) as [[e|a] s1]; intros E; [left|right].
  - injection E as <- <-. by exists e.
  - by exists a, s1.
Qed.

Lemma require_run name s : require name s = (match vars s !! name with Some v => inr v | None => inl (NotSet name) end, s).
Proof. unfold require. by destruct (vars s !! name). Qed.

(** A key that is accepted is well-formed and not zero. *)
Definition usable (hex : list Z) (key : ProxySrcKey) : Prop :=
  Keys.parse_proxy_key_hex hex = Keys.Return (Ok key) /\ key_wf key /\ is_zero key = false.

Lemma parse_key_run name hex s r s' : parse_key name hex s = (r, s') ->
  s' = s /\ match r with
            | inr key => usable hex key
            | inl e => (exists k, e = InvalidKey name k) \/ e = KeyPanic
            end.
Proof.
  unfold parse_key. destruct (Keys.parse_proxy_key_hex hex) as [[key|e]|] eqn:E; intros [= <- <-].
  - split; [done|]. unfold usable. split; [done|]. unfold Keys.parse_proxy_key_hex in E.
    destruct (Keys.parse_key_bytes hex) as [[k|e]|] eqn:Ek; [|done..].
    destruct (is_zero k) eqn:Ez; [done|]. injection E as <-.
    apply Keys.parse_key_bytes_wf in Ek as [Hw _]. done.
  - split; [done|]. left. by exists e.
  - split; [done|by right].
Qed.

Lemma load_run iface key prev s r s' : is_zero key = false -> load iface key prev s = (r, s') ->
  vars s' = vars s /\ exists m, plane s' = Some m /\ (active_key m = None \/ active_key m = Some key) /\
  match r with
  | inr bpf => bpf = m /\ exists idx wan, m = Loader.configured key prev idx wan /\
      (wan = ZERO_ADDR \/ exists addrs, Loader.if_addrs (load_env host) = Some addrs /\
                            Loader.mkIfAddr iface (Some wan) ∈ addrs)
  | inl e => exists l, e = LoadFailed l
  end.
Proof.
  intros Hz. unfold load, Loader.load_and_attach. destruct (Loader.first_failure 0 _) as [n|].
  { intros [= <- <-]. split; [done|]. eexists. split; [done|]. split; [left; by apply Loader.active_key_zero|by eexists]. }
  destruct (Loader.configure _ _ _ _ _ _) as [r0 m] eqn:E. apply Loader.configure_run in E as [_ E]; [|done].
  destruct r0 as [bpf|e]; intros [= <- <-]; (split; [done|]).
  - destruct E as (-> & idx & wan & _ & -> & Hw). eexists. split; [done|].
    split; [right; by apply Loader.active_key_nth|]. split; [done|]. exists idx, wan. split; [done|].
    destruct dev; [right|by left]. unfold Loader.get_wan_ipv6 in Hw.
    destruct (Loader.if_addrs (load_env host)) as [addrs|]; [|done].
    apply Loader.find_wan_ok in Hw as [_ Hin]. by exists addrs.
  - exists m. split; [done|]. split; [done|by exists e].
Qed.

Lemma bulk_load_stage bpf s r s' : bulk_load bpf s = (r, s') ->
  vars s' = vars s /\ exists n, plane s' = Some (set_nat_map n bpf) /\
  match r with
  | inr count => Daemon.bulk_load_from_db (rows_up host) (table host) (NAT_MAP bpf) = (Ok count, n)
  | inl e => exists d, e = BulkLoadFailed d
  end.
Proof.
  unfold bulk_load. destruct (Daemon.bulk_load_from_db _ _ _) as [[count|e] n]; intros [= <- <-];
    (split; [done|]; exists n; split; [done|]); [done|by exists e].
Qed.

(** An error of reading the key [name]. *)
Definition bad_key (name : list Z) (e : MainEnd) : Prop := (exists k, e = InvalidKey name k) \/ e = KeyPanic.

Lemma read_active_key_run s r s' : read_active_key s = (r, s') ->
  (r = inl (NotSet PROXY_ADDR_KEY_HEX) /\ s' = s /\ vars s !! PROXY_ADDR_KEY_HEX = None) \/
  (exists hex, vars s !! PROXY_ADDR_KEY_HEX = Some hex /\
     s' = mkMain (delete PROXY_ADDR_KEY_HEX (vars s)) (plane s) /\
     match r with inr key => usable hex key | inl e => bad_key PROXY_ADDR_KEY_HEX e end).
Proof.
  intros E. unfold read_active_key in E.
  apply MM_bind_inv in E as [(e & E & ->)|(hex & s1 & E & E')]; rewrite require_run in E.
  - left. destruct (vars s !! _) eqn:Ev; [done|]. by injection E as <- <-.
  - destruct (vars s !! PROXY_ADDR_KEY_HEX) as [x|] eqn:Ev; [|done]. injection E as -> <-. right. exists hex.
    apply MM_bind_inv in E' as [(e & E & _)|(u & s2 & E & E')]; [done|]. injection E as <- <-.
    apply parse_key_run in E' as [-> H]. done.
Qed.

(** The previous key, when one is given. *)
Definition prev_usable (v : Vars) (prev : option ProxySrcKey) : Prop :=
  match v !! PROXY_ADDR_PREV_KEY_HEX, prev with
  | None, None => True
  | Some hex, Some key => usable hex key
  | _, _ => False
  end.

Lemma read_prev_key_run s r s' : read_prev_key s = (r, s') ->
  s' = mkMain (delete PROXY_ADDR_PREV_KEY_HEX (vars s)) (plane s) /\
  match r with inr prev => prev_usable (vars s) prev | inl e => bad_key PROXY_ADDR_PREV_KEY_HEX e end.
Proof.
  unfold read_prev_key, prev_usable. destruct (vars s !! PROXY_ADDR_PREV_KEY_HEX) as [hex|] eqn:Ev; intros E.
  - apply MM_bind_inv in E as [(e & E & _)|(u & s1 & E & E')]; [done|]. injection E as <- <-.
    apply MM_bind_inv in E' as [(e & E & ->)|(key & s2 & E & E')].
    + apply parse_key_run in E as [-> H]. done.
    + apply parse_key_run in E as [-> H]. injection E' as <- <-. done.
  - injection E as <- <-. split; [|done]. rewrite delete_id by done. by destruct s.
Qed.

Lemma await_run s r s' : await_interface s = (r, s') -> s' = s.
Proof. unfold await_interface. by destruct (Loader.wait_for_interface _ _) as [[|]|]; intros [= _ <-]. Qed.

Lemma guard_run (b : bool) (e : MainEnd) s r s' :
  (if b then mret tt else exit_with e : MM unit) s = (r, s') -> s' = s.
Proof. destruct b; by intros [= _ <-]. Qed.

(** The variables once both keys have been taken out. *)
Definition keys_taken (v : Vars) : Vars := delete PROXY_ADDR_PREV_KEY_HEX (delete PROXY_ADDR_KEY_HEX v).

Lemma prev_after_active v : (delete PROXY_ADDR_KEY_HEX v : Vars) !! PROXY_ADDR_PREV_KEY_HEX = v !! PROXY_ADDR_PREV_KEY_HEX.
Proof. by apply lookup_delete_ne. Qed.

(** The variables read before the key is. *)
Definition read_first : list (list Z) := [DATABASE_URL; INTERFACE_NAME; WAN_INTERFACE].

(** How far [main] gets before the programs are loaded. *)
Lemma main_prefix v r s' : daemon_main (mkMain v None) = (r, s') ->
  (exists e, r = inl e /\ plane s' = None /\
     ((exists x, x ∈ read_first /\ v !! x = None /\ e = NotSet x /\ vars s' = v) \/
      vars s' !! PROXY_ADDR_KEY_HEX = None)) \/
  (exists wan hex key prev,
     v !! PROXY_ADDR_KEY_HEX = Some hex /\ usable hex key /\ prev_usable v prev /\
     (bpf ← load wan key prev;
      _ ← (if pool_up host then mret tt else exit_with NoDatabase);
      count ← bulk_load bpf;
      _ ← (if nat_map_found host then mret tt else exit_with NoNatMap);
      mret count) (mkMain (keys_taken v) None) = (r, s')).
Proof.
  intros E. unfold daemon_main in E.
  assert (forall name (e : MainEnd) (s1 : Main), require name (mkMain v None) = (inl e, s1) ->
    s1 = mkMain v None /\ v !! name = None /\ e = NotSet name) as Hreq.
  { intros name e s1 H. rewrite require_run in H. cbn [vars] in H. destruct (v !! name); [done|]. by injection H as <- <-. }
  assert (forall name x (s1 : Main), require name (mkMain v None) = (inr x, s1) -> s1 = mkMain v None) as Hreq'.
  { intros name x s1 H. rewrite require_run in H. destruct (vars _ !! _); [|done]. by injection H as _ <-. }
  do 3 (apply MM_bind_inv in E as [(e & E1 & ->)|(? & ? & E1 & E)];
    [apply Hreq in E1 as (-> & Hv & ->); left; eexists; split; [done|]; split; [done|]; left; eexists; split;
       [|by split_and!]; unfold read_first; rewrite !elem_of_cons; tauto|apply Hreq' in E1 as ->]).
  apply MM_bind_inv in E as [(e & E1 & ->)|(key & s1 & E1 & E)];
    apply read_active_key_run in E1 as [(Er & -> & Hv)|(hex & Hhex & -> & Hkey)]; try done.
  { left. injection Er as ->. eexists. split; [done|]. split; [done|by right]. }
  { left. exists e. split; [done|]. split; [done|right]. apply lookup_delete_eq. }
  cbn [vars plane] in *.
  apply MM_bind_inv in E as [(e & E1 & ->)|(prev & s1 & E1 & E)]; apply read_prev_key_run in E1 as [-> Hprev];
    cbn [vars plane] in *.
  { left. exists e. split; [done|]. split; [done|right]. cbn [vars]. rewrite lookup_delete_ne by done. apply lookup_delete_eq. }
  apply MM_bind_inv in E as [(e & E1 & ->)|(u & s1 & E1 & E)]; apply await_run in E1 as ->.
  { left. exists e. split; [done|]. split; [done|right]. cbn [vars]. rewrite lookup_delete_ne by done. apply lookup_delete_eq. }
  right. eexists _, hex, key, prev. split; [done|]. split; [done|]. split; [|exact E].
  unfold prev_usable in *. by rewrite prev_after_active in Hprev.
Qed.

(** The maps while and after [main] runs: closed, or open under the configured key. *)
Definition closed_or_keyed (key : ProxySrcKey) (m : BpfMaps) : Prop :=
  active_key m = None \/ active_key m = Some key.

Lemma load_closed iface key prev s r s' : is_zero key = false -> load iface key prev s = (r, s') ->
  exists m, plane s' = Some m /\ closed_or_keyed key m /\ vars s' = vars s /\ forall bpf, r = inr bpf -> bpf = m.
Proof.
  intros Hz E. apply load_run in E as (Hv & m & Hp & Hm & Hr); [|done]. exists m. split; [done|].
  split; [exact Hm|]. split; [done|].
  intros bpf ->. by destruct Hr.
Qed.

(** C13. The daemon fails closed.  However start-up ends, no program is attached unless
    PROXY_ADDR_KEY_HEX held a valid key, and an attached data plane has either no key,
    so that it translates nothing, or exactly that key.  The key does not stay in the
    process environment, with one exception: when DATABASE_URL, INTERFACE_NAME or
    WAN_INTERFACE is not set, [main] returns that error before it reads the key, and
    the environment is as it was. *)
Theorem daemon_fails_closed (v : Vars) (r : MainEnd + nat) (s : Main) :
  daemon_main (mkMain v None) = (r, s) ->
  (plane s = None \/
   exists hex key m, v !! PROXY_ADDR_KEY_HEX = Some hex /\
     Keys.parse_proxy_key_hex hex = Keys.Return (Ok key) /\ plane s = Some m /\ closed_or_keyed key m) /\
  (vars s !! PROXY_ADDR_KEY_HEX = None \/
   exists x, x ∈ read_first /\ v !! x = None /\ r = inl (NotSet x) /\ vars s = v).
Proof.
  intros E. apply main_prefix in E as [(e & -> & Hp & He)|(wan & hex & key & prev & Hhex & Hu & _ & E)].
  { split; [by left|]. destruct He as [(x & Hin & Hx & -> & Hv)|He]; [right; by exists x|by left]. }
  pose proof Hu as (Hparse & _ & Hz).
  assert (vars s = keys_taken v /\ exists m, plane s = Some m /\ closed_or_keyed key m) as [Hv (m & Hp & Hm)].
  { apply MM_bind_inv in E as [(e & E1 & _)|(bpf & s1 & E1 & E)].
    { apply load_closed in E1 as (m & ? & ? & ? & _); [|done]. split; [done|by exists m]. }
    apply load_closed in E1 as (m & Hp & Hm & Hv & Hb); [|done]. rewrite (Hb bpf eq_refl) in E.
    apply MM_bind_inv in E as [(e & E1 & _)|(u & s2 & E1 & E)].
    { apply guard_run in E1 as ->. split; [done|by exists m]. }
    apply guard_run in E1 as ->.
    apply MM_bind_inv in E as [(e & E1 & _)|(count & s2 & E1 & E)];
      apply bulk_load_stage in E1 as (Hv2 & n & Hp2 & _).
    { split; [rewrite Hv2, Hv; done|]. eexists. split; [done|exact Hm]. }
    apply MM_bind_inv in E as [(e & E1 & _)|(u' & s3 & E1 & E)].
    - apply guard_run in E1 as ->. split; [rewrite Hv2, Hv; done|]. eexists. split; [done|exact Hm].
    - apply guard_run in E1 as ->. injection E as _ <-.
      split; [rewrite Hv2, Hv; done|]. eexists. split; [done|exact Hm]. }
  split; [right; by exists hex, key, m|]. left. rewrite Hv. unfold keys_taken.
  rewrite lookup_delete_ne by done. apply lookup_delete_eq.
Qed.

Context `{NSL : !Daemon.NatMapLaws} `{PGL : !Db.PostgresLaws}.

(** Interface addresses are 16 bytes. *)
Definition addrs_ok : Prop :=
  forall addrs a ip, Loader.if_addrs (load_env host) = Some addrs -> Loader.mkIfAddr a (Some ip) ∈ addrs -> bytes 16 ip.

Lemma zero_bytes : bytes 16 ZERO_ADDR.
Proof. split; [done|]. by repeat constructor. Qed.

Lemma configured_wf key prev idx wan n :
  key_wf key -> (forall p, prev = Some p -> key_wf p) -> bytes 16 wan ->
  (forall k e, n !! k = Some e -> bytes 16 (origin_ipv6 e)) ->
  maps_wf (set_nat_map n (Loader.configured key prev idx wan)).
Proof.
  intros Hk Hp Hw Hn. split; [exact Hn| | |].
  - intros [|[|i]] k; [|..|done]; intros [= <-]; [done|]. destruct prev as [p|]; [by apply Hp|].
    split; split; (done || by repeat constructor).
  - intros [|i] a; [|done]. by intros [= <-].
  - intros k x. cbn [set_nat_map Loader.configured REPLY_TRACK]. by rewrite lookup_empty.
Qed.

(** C12. A daemon that runs is ready: when [main] has started its tasks, the data plane
    uses the key the operator set, NAT_MAP holds the origin of every row of the table
    (exactly the bulk load the listener and the resolver start from), the maps are
    well-formed, and neither key is left in the process environment. *)
Theorem daemon_running_ready (v : Vars) (count : nat) (s : Main) :
  Db.db_wf (table host) -> Sync.table_fits (table host) -> addrs_ok ->
  daemon_main (mkMain v None) = (inr count, s) ->
  exists hex key m, v !! PROXY_ADDR_KEY_HEX = Some hex /\ Keys.parse_proxy_key_hex hex = Keys.Return (Ok key) /\
    plane s = Some m /\ active_key m = Some key /\ maps_wf m /\
    count = List.length (Db.domains (table host)) /\
    Daemon.bulk_load_from_db true (table host) ∅ = (Ok count, NAT_MAP m) /\
    DaemonSpec.in_sync (Db.domains (table host)) (NAT_MAP m) /\
    vars s !! PROXY_ADDR_KEY_HEX = None /\ vars s !! PROXY_ADDR_PREV_KEY_HEX = None.
Proof.
  intros Hwf Hfit Haddr E.
  apply main_prefix in E as [(e & ? & _)|(wan & hex & key & prev & Hhex & Hu & Hprev & E)]; [done|].
  pose proof Hu as (Hparse & Hkw & Hz).
  apply MM_bind_inv in E as [(? & _ & ?)|(bpf & s1 & E1 & E)]; [done|].
  apply load_run in E1 as (Hv & m & Hp & _ & -> & idx & waddr & -> & Hwan); [|done].
  apply MM_bind_inv in E as [(? & _ & ?)|(u & s2 & E1 & E)]; [done|].
  apply guard_run in E1 as ->.
  apply MM_bind_inv in E as [(? & _ & ?)|(c & s2 & E1 & E)]; [done|].
  apply bulk_load_stage in E1 as (Hv2 & n & Hp2 & Hb).
  apply MM_bind_inv in E as [(? & _ & ?)|(u' & s3 & E1 & E)]; [done|].
  apply guard_run in E1 as ->. injection E as <- <-.
  change (NAT_MAP (Loader.configured key prev idx waddr)) with (∅ : gmap Z NatEntry) in Hb.
  assert (rows_up host = true) as Hup.
  { unfold Daemon.bulk_load_from_db in Hb. by destruct (rows_up host). }
  rewrite Hup in Hb. pose proof Hfit as [Hseq Hlen].
  destruct (DaemonSpec.bulk_load_run (table host) Hwf Hseq Hlen) as (n' & Eb & Hsync & Hkeys).
  rewrite Hb in Eb. injection Eb as -> <-.
  assert (vars s2 = keys_taken v) as Hvars by (rewrite Hv2, Hv; done).
  exists hex, key, (set_nat_map n (Loader.configured key prev idx waddr)).
  split; [done|]. split; [done|]. split; [done|]. split; [|split; [|split; [done|split; [done|split; [done|split]]]]].
  - by apply Loader.active_key_nth.
  - apply configured_wf; [done| | |].
    + intros p ->. unfold prev_usable in Hprev. destruct (v !! PROXY_ADDR_PREV_KEY_HEX); [|done]. apply Hprev.
    + destruct Hwan as [->|(addrs & Ha & Hin)]; [apply zero_bytes|by eapply Haddr].
    + intros k e He. pose proof (Hkeys k e He) as Hin. apply list_elem_of_fmap in Hin as (r & -> & Hr).
      rewrite (Hsync r Hr) in He. injection He as <-. destruct Hwf as [_ _ H3]. rewrite Forall_forall in H3.
      by destruct (H3 r Hr) as (_ & ? & _).
  - rewrite Hvars. unfold keys_taken. rewrite lookup_delete_ne by done. apply lookup_delete_eq.
  - rewrite Hvars. apply lookup_delete_eq.
Qed.

End main.

End Startup.
