(* ===== verification/System.v ===== *)
(** * The system: from a DNS answer to the origin and back

    The control plane's table and [NAT_MAP] meet the data plane: what the DNS
    server answers is what [tc_ingress] translates.  Also the limits of that
    promise: ids beyond 24 bits, gateways without a key, and dev-mode clients that
    share a port. *)

From S2P Require Import Prelude Contract Types ProxySrc Platform Ebpf PacketLemmas EbpfSpec EbpfRefine Xdp NatFlow Verdicts.
From S2P Require Import Ipv6Text Db Dns DnsSpec Daemon DaemonSpec.
Import Contract Types ProxySrc Platform Ebpf PacketLemmas EbpfSpec EbpfRefine Xdp NatFlow Verdicts.
Local Open Scope Z_scope.

Module System.

Section system.
Context `{NT : NetworkTypes} `{NTL : !NetworkTypesLaws} `{BH : BpfHelpers}
  `{BHL : !BpfHelpersLaws} `{BHR : !BpfHelpersReliable}.
Context (dev : bool).

(** The origin the gateway forwards to for a row of the table. *)
Definition forwards_to (r : Db.Stored) (h : Header) (k : ProxySrcKey) (c sp dp : Z) (m : BpfMaps) : Header :=
  set_addrs (default (request_proxy h c (Db.s_id r) k sp dp) (dev_wan dev m)) (Db.s_origin r) h.

(** A row of a well-formed table that is in NAT_MAP is translated. *)
Lemma routed (d : Db.Database) (w : TcWorld) (name : list Z) (r : Db.Stored)
    (h : Header) (k : ProxySrcKey) (c sp dp : Z) :
  Db.db_wf d -> NAT_MAP (tc_maps w) !! DaemonSpec.key_of r = Some (DaemonSpec.entry_of r) ->
  Db.find_domain (Db.domains d) name = Some r -> Db.s_id r < 2 ^ 24 ->
  tc_wf (tc_ctx w) -> maps_wf (tc_maps w) -> header_of (tc_ctx w) = Some h ->
  h_src h = client_vip_from_id24 c -> uN 24 c -> h_dst h = Db.s_synthetic r ->
  is_l4 (h_proto h) = true -> h_ports h = Some (sp, dp) -> active_key (tc_maps w) = Some k ->
  exists w1, tc_ingress dev w = (Ok TC_ACT_OK, w1) /\
    header_of (tc_ctx w1) = Some (forwards_to r h k c sp dp (tc_maps w)) /\
    csum_residue (h_off h) (skb_data (tc_ctx w1)) = csum_residue (h_off h) (skb_data (tc_ctx w)).
Proof.
  intros [_ _ Hrows] Hn Hf Hid Hwf Hm Hh Hsrc Hc Hdst Hl4 Hports Hk.
  apply Db.find_domain_Some in Hf as [Hr _]. rewrite Forall_forall in Hrows.
  destruct (Hrows r Hr) as (Hlow & _ & Hs). change (2 ^ 24) with 16777216 in Hid.
  assert (as_u 32 (Db.s_id r) = Db.s_id r) as Eid by (apply wrap_small; unfold uN; change (2 ^ 32) with 4294967296; lia).
  rewrite Eid in Hs. unfold DaemonSpec.key_of in Hn. rewrite Eid in Hn.
  destruct (request_run dev w h c (Db.s_id r) (DaemonSpec.entry_of r) k sp dp Hwf Hm Hh) as (c' & E & Hh' & Hsum).
  - split; try done; [unfold uN; change (2 ^ 24) with 16777216; lia|congruence].
  - eexists. split; [exact E|]. split; [exact Hh'|exact Hsum].
Qed.

(** C32. Names registered after the sixteen-millionth are unreachable: packets to the
    synthetic address of a row whose id does not fit 24 bits are dropped, although
    the DNS server answers with it and NAT_MAP holds its origin. *)
Theorem late_name_dropped (d : Db.Database) (w : TcWorld) (name : list Z) (r : Db.Stored)
    (h : Header) (ports : Z * Z) :
  Db.db_wf d -> Db.seq_next d <= 2 ^ 31 -> DaemonSpec.in_sync (Db.domains d) (NAT_MAP (tc_maps w)) ->
  Db.find_domain (Db.domains d) name = Some r -> 2 ^ 24 <= Db.s_id r ->
  tc_wf (tc_ctx w) -> maps_wf (tc_maps w) -> header_of (tc_ctx w) = Some h ->
  h_dst h = Db.s_synthetic r -> is_l4 (h_proto h) = true -> h_ports h = Some ports ->
  tc_ingress dev w = (Ok TC_ACT_SHOT, w).
Proof.
  intros [_ _ Hrows] Hseq Hsync Hf Hid Hwf Hm Hh Hdst Hl4 Hports.
  apply Db.find_domain_Some in Hf as [Hr _]. rewrite Forall_forall in Hrows.
  destruct (Hrows r Hr) as (Hlow & _ & Hs).
  rewrite DnsSpec.as_u32_small in Hs by lia. pose proof (Hsync r Hr) as Hn. unfold DaemonSpec.key_of in Hn.
  rewrite DnsSpec.as_u32_small in Hn by lia.
  pose proof (tc_ingress_run dev w Hwf Hm) as Href. unfold implements_outbound in Href. rewrite Hh in Href.
  assert (outbound dev (tc_maps w) h = Drop) as E; [|by rewrite E in Href].
  assert (domain_id_from_ipv6 (h_dst h) = Db.s_id r) as Ed.
  { rewrite Hdst, Hs. apply domain_id_synthetic. unfold uN. change (2 ^ 32) with (2 ^ 31 + 2 ^ 31). lia. }
  assert (has_prefix (h_dst h) SYNTHETIC_PREFIX = true) as Ep by by rewrite Hdst, Hs.
  unfold outbound, proxy_of. rewrite Hl4, Ep, Ed, Hn, Hports. destruct ports as [sp dp]. cbn [negb]. cbv iota.
  destruct (active_key (tc_maps w)) as [k|]; [|done]. rewrite encode_app, DOMAIN_ID_MAX_24.
  by rewrite (proj2 (Z.ltb_lt (2 ^ 24 - 1) (Db.s_id r))), orb_true_r by lia.
Qed.

(** C28. Without a key the gateway fails closed: as long as the active slot is zero
    (between the attachment of the programs and the write of the key), no packet is
    translated in either direction; packets for synthetic addresses are dropped or
    passed on unchanged, never rewritten. *)
Theorem unkeyed_fails_closed (w : TcWorld) (prog : Prog TcWorld Z) :
  tc_wf (tc_ctx w) -> maps_wf (tc_maps w) -> active_key (tc_maps w) = None ->
  prog = tc_ingress dev \/ prog = tc_ingress_wan dev ->
  prog w = (Ok TC_ACT_OK, w) \/ prog w = (Ok TC_ACT_SHOT, w).
Proof.
  intros Hwf Hm Hk [-> | ->].
  - pose proof (tc_ingress_run dev w Hwf Hm) as Href. unfold implements_outbound in Href. destruct (header_of (tc_ctx w)) as [h|]; [|by left].
    destruct (outbound dev (tc_maps w) h) as [| |s t] eqn:E; [by left|by right|].
    unfold outbound, proxy_of in E. rewrite Hk in E. repeat case_match; done.
  - pose proof (tc_ingress_wan_run dev w Hwf Hm) as Href. unfold implements_inbound in Href. destruct (header_of (tc_ctx w)) as [h|]; [|by left].
    destruct (inbound (tc_maps w) h) as [| |s t] eqn:E; [by left|by right|].
    unfold inbound in E. rewrite Hk in E. simpl in E. repeat case_match; done.
Qed.

(** C30. Dev-mode connections of different clients collide: tracked connections are
    keyed by origin, ports and protocol only.  When a second client uses the same
    source port towards the same origin, the origin's replies to the first client
    are from then on delivered to the second one. *)
Theorem dev_flows_collide (w : TcWorld) (wan : list Z) (h1 h2 : Header) (c1 c2 d1 d2 : Z)
    (e1 e2 : NatEntry) (k : ProxySrcKey) (sp dp : Z) :
  tc_wf (tc_ctx w) -> maps_wf (tc_maps w) -> dev_wan true (tc_maps w) = Some wan -> dev_ready true (tc_maps w) ->
  request (tc_maps w) h1 c1 d1 e1 k sp dp -> request (tc_maps w) h2 c2 d2 e2 k sp dp ->
  h_proto h1 = h_proto h2 -> origin_ipv6 e1 = origin_ipv6 e2 -> header_of (tc_ctx w) = Some h2 ->
  exists w1, tc_ingress true w = (Ok TC_ACT_OK, w1) /\
    forall frame n hr idx,
      Forall (uN 8) frame -> (n <= length frame)%nat -> header_of (mkTc frame n) = Some hr -> h_off hr = 14%nat ->
      reply_to (set_addrs wan (origin_ipv6 e1) h1) hr -> tunnel (tc_maps w) = Some idx ->
      delivered true (tc_maps w1) frame n hr (synthetic_ipv6 d2) (client_vip_from_id24 c2) idx.
Proof.
  intros Hwf Hm Hwan Hready R1 R2 Hp Ho Hh.
  destruct (request_run true w h2 c2 d2 e2 k sp dp Hwf Hm Hh R2) as (c' & E & _ & _).
  destruct (header_ports_u16 _ _ _ _ Hwf Hh (rq_ports _ _ _ _ _ _ _ _ R2)) as [Hsp Hdp].
  destruct (Hready wan Hwan) as [Hpre Hsz]. eexists. split; [exact E|].
  intros frame n hr idx Hb Hn Hhr Hoff Hrep Htun. cbn [tc_maps] in *.
  assert (reply_to (set_addrs wan (origin_ipv6 e2) h2) hr) as Hrep2.
  { destruct Hrep as [A1 A2 A3 A4]. cbn [set_addrs h_proto h_src h_dst h_ports] in *.
    split; cbn [set_addrs h_proto h_src h_dst h_ports]; [congruence|congruence|done|].
    rewrite A4, (rq_ports _ _ _ _ _ _ _ _ R1). by rewrite (rq_ports _ _ _ _ _ _ _ _ R2). }
  pose proof (config_eq_outbound_maps true (tc_maps w) h2) as Hce.
  eapply (reply_tracked true _ h2 c2 d2 e2 k sp dp wan); try done.
  - by eapply request_config.
  - by rewrite Hce.
  - by apply maps_wf_outbound.
  - by eapply request_tracked.
  - by rewrite Hce.
Qed.

End system.

End System.
