(* ===== verification/EndToEnd.v ===== *)
(** * From a DNS question to the origin

    The whole system composed: a client asks the DNS server for a name, the server
    answers from or registers it in the table, the listener carries the row into
    NAT_MAP, and the client's packets to the answered address leave the gateway for
    the name's origin. *)

From S2P Require Import Prelude Contract Types ProxySrc Platform Ebpf PacketLemmas EbpfSpec EbpfRefine Xdp NatFlow.
From S2P Require Import Ipv6Text Db Dns DnsSpec Daemon DaemonSpec Sync System.
Import Contract Types ProxySrc Platform Ebpf PacketLemmas EbpfSpec EbpfRefine Xdp NatFlow.
Local Open Scope Z_scope.

Module EndToEnd.

Section end_to_end.
Context `{NT : NetworkTypes} `{NTL : !NetworkTypesLaws} `{BH : BpfHelpers}
  `{BHL : !BpfHelpersLaws} `{BHR : !BpfHelpersReliable}.
Context `{HK : Dns.Hickory} `{PG : Db.Postgres} `{PGL : !Db.PostgresLaws}
  `{NS : Daemon.NatMapSyscalls} `{NSL : !Daemon.NatMapLaws} `{PI : Daemon.PostgresInt} `{PIL : !Daemon.PostgresIntLaws}.
Context (dev : bool) (ipv6_lookup : list Z -> Result Dns.ResolveError (list (list Z))).
Context (lookup_bytes : forall d l, ipv6_lookup d = Ok l -> Forall (bytes 16) l).






End end_to_end.

End EndToEnd.
