(* ===== verification/SystemExamples.v ===== *)
(** * Concrete runs of the whole gateway

    A table with one name whose NAT_MAP entry is the gateway's of
    [DataPlaneExamples]; the theorems about the system, its start and its daemon
    tasks applied to it. *)

From Stdlib Require Import Ascii String.
From S2P Require Import Prelude Contract Types ProxySrc Platform Ebpf PacketLemmas EbpfSpec EbpfRefine Xdp NatFlow EbpfSafety Verdicts DataPlaneExamples.
From S2P Require Import Text Ipv6Text Db Dns DnsSpec Daemon DaemonSpec Sync ResolverRounds System EndToEnd Keys Loader Startup.
Import Text Contract Types ProxySrc Platform Ebpf PacketLemmas EbpfSpec EbpfRefine Xdp NatFlow EbpfSafety Verdicts DataPlaneExamples.
Local Open Scope Z_scope.
Local Open Scope list_scope.

Module SystemExamples.

Definition NAME : list Z := [111; 46; 116].

(** A table with one row. *)
Definition row (id : Z) : Db.Stored := Db.mkStored id NAME origin (synthetic_ipv6 id) (Some 300).
Definition table (id : Z) : Db.Database := Db.mkDatabase [row id] (id + 1) [id].

Lemma table_wf id : 1 <= id < 2 ^ 31 -> Db.db_wf (table id).
Proof.
  intros Hid. split; [apply NoDup_singleton|apply NoDup_singleton|].
  constructor; [|constructor]. cbn [row Db.s_id Db.s_origin Db.s_synthetic Db.seq_next table].
  split; [lia|]. split; [split; [done|bytes_now]|].
  f_equal. symmetry. apply wrap_small. unfold uN. change (2 ^ 32) with (2 ^ 31 + 2 ^ 31). lia.
Qed.

Lemma synced id m : 1 <= id < 2 ^ 31 -> m !! id = Some (mkNatEntry origin) ->
  DaemonSpec.in_sync (Db.domains (table id)) m.
Proof.
  intros Hid Hm r Hr. apply list_elem_of_singleton in Hr as ->. unfold DaemonSpec.key_of. cbn [row Db.s_id].
  assert (as_u 32 id = id) as -> by (apply wrap_small; unfold uN; change (2 ^ 32) with (2 ^ 31 + 2 ^ 31); lia).
  exact Hm.
Qed.

(** The sixteen-million-and-first name. *)
Definition LATE : Z := 16777217.
Definition late_gateway : BpfMaps :=
  mkMaps {[LATE := mkNatEntry origin]} [9] [TEST_KEY; old_key] [wan_addr] ∅ (replicate 8 0).
Definition late_packet : list Z := udp (client_vip_from_id24 7) (synthetic_ipv6 LATE) PORT_A PORT_B.

Lemma late_gateway_wf : maps_wf late_gateway.
Proof.
  destruct gateway_wf as [_ H2 H3 H4]. split; [|exact H2|exact H3|exact H4].
  intros i e. cbn [late_gateway NAT_MAP]. rewrite lookup_singleton_Some. intros [_ <-]. split; [done|bytes_now].
Qed.

Lemma late_name_dropped_witness :
  tc_ingress false (world_of late_gateway late_packet) = (Ok TC_ACT_SHOT, world_of late_gateway late_packet).
Proof.
  apply (System.late_name_dropped false (table LATE) (world_of late_gateway late_packet) NAME (row LATE)
           (mkHeader 0 Udp (client_vip_from_id24 7) (synthetic_ipv6 LATE) (Some (50000, 443))) (50000, 443)
           (table_wf LATE ltac:(unfold LATE; lia)) ltac:(done) (synced LATE late_gateway.(NAT_MAP) ltac:(unfold LATE; lia) eq_refl));
    [reflexivity|done|split; [bytes_now|done]|apply late_gateway_wf|vm_compute; reflexivity|reflexivity|
     reflexivity|reflexivity].
Defined.

(** A gateway whose key has not been written yet. *)
Definition unkeyed_gateway : BpfMaps :=
  mkMaps {[42 := mkNatEntry origin]} [9]
    (replicate 2 (mkProxySrcKey (replicate 16 0) (replicate 16 0))) [wan_addr] ∅ (replicate 8 0).

Lemma unkeyed_gateway_wf : maps_wf unkeyed_gateway.
Proof.
  destruct gateway_wf as [H1 _ H3 H4]. split; [exact H1| |exact H3|exact H4].
  intros i k Hk. apply lookup_replicate in Hk as [-> _]. split; (split; [done|bytes_now]).
Qed.

Lemma unkeyed_fails_closed_witness :
  tc_ingress false (world_of unkeyed_gateway request_packet) = (Ok TC_ACT_OK, world_of unkeyed_gateway request_packet) \/
  tc_ingress false (world_of unkeyed_gateway request_packet) = (Ok TC_ACT_SHOT, world_of unkeyed_gateway request_packet).
Proof.
  apply (System.unkeyed_fails_closed false (world_of unkeyed_gateway request_packet) (tc_ingress false));
    [apply request_wf|apply unkeyed_gateway_wf|done|by left].
Defined.

(** A second client on the same source port. *)
Definition second_packet : list Z := udp (client_vip_from_id24 8) (synthetic_ipv6 42) PORT_A PORT_B.
Definition second_header : Header :=
  mkHeader 0 Udp (client_vip_from_id24 8) (synthetic_ipv6 42) (Some (50000, 443)).

Lemma second_ok : request gateway second_header 8 42 (mkNatEntry origin) TEST_KEY 50000 443.
Proof. by split. Qed.

Lemma gateway_ready : dev_ready true gateway.
Proof.
  intros wan E. vm_compute in E. apply (inj Some) in E as <-. split; [done|].
  unfold MAX_ENTRIES. simpl REPLY_TRACK. rewrite map_size_empty. lia.
Qed.

Lemma dev_flows_collide_witness : exists w1,
  tc_ingress true (world_of gateway second_packet) = (Ok TC_ACT_OK, w1) /\
  delivered true (tc_maps w1) (reply_frame wan_addr) 62 (reply_header wan_addr)
    (synthetic_ipv6 42) (client_vip_from_id24 8) 9.
Proof.
  destruct (System.dev_flows_collide (world_of gateway second_packet) wan_addr request_header second_header 7 8 42 42
              (mkNatEntry origin) (mkNatEntry origin) TEST_KEY 50000 443) as (w1 & E & Hd);
    [split; [bytes_now|done]|apply gateway_wf|reflexivity|apply gateway_ready|apply request_ok|apply second_ok|
     reflexivity|reflexivity|vm_compute; reflexivity|].
  exists w1. split; [exact E|]. apply Hd; [apply reply_frame_bytes, wan_addr_bytes| | |reflexivity| |reflexivity].
  - by rewrite (reply_frame_length _ wan_addr_bytes).
  - apply (reply_parsed _ wan_addr_bytes).
  - by split.
Defined.

(** ** A question, its answer and a packet *)

(** Names as their ASCII form; messages are not put on the wire here. *)
#[local] Instance plain_names : Dns.Hickory := {
  Dns.Name := list Z;
  Dns.to_ascii n := n;
  Dns.from_vec _ := None;
  Dns.to_vec _ := None
}.

Definition upstream (d : list Z) : Result Dns.ResolveError (list (list Z)) := Ok [wan_addr].

Lemma upstream_bytes d l : upstream d = Ok l -> Forall (bytes 16) l.
Proof. intros [= <-]. constructor; [apply wan_addr_bytes|constructor]. Qed.

Definition NAT_42 : gmap Z NatEntry := {[42 := mkNatEntry origin]}.

Lemma table_loaded : Daemon.bulk_load_from_db true (table 42) ∅ = (Ok 1%nat, NAT_42).
Proof. vm_compute. reflexivity. Qed.

Lemma table_fits_42 : Sync.table_fits (table 42).
Proof. split; [simpl; lia|]. unfold MAX_ENTRIES. simpl. lia. Qed.









(** A round whose UPDATE runs but is not answered, then one that changes nothing. *)
Definition sample_ticks : list Daemon.Tick :=
  [Daemon.mkTick upstream true [Db.AnswerLost]; Daemon.mkTick upstream true []].

Lemma resolver_rounds_safe_witness :
  Db.db_wf (Daemon.run_periodic_resolver sample_ticks (table 42, NAT_42)).1.
Proof.
  pose proof (ResolverRounds.resolver_rounds_safe sample_ticks (table 42) NAT_42 (table_wf 42 ltac:(lia))
                (proj1 table_fits_42) (synced 42 NAT_42 ltac:(lia) eq_refl)) as H.
  destruct (Daemon.run_periodic_resolver sample_ticks (table 42, NAT_42)) as [db' m'] eqn:E.
  apply H. repeat constructor; exact upstream_bytes.
Defined.

(** ** Start-up *)

Definition sample_vars : gmap (list Z) (list Z) :=
  list_to_map [(Startup.DATABASE_URL, text "postgres://db"); (Startup.INTERFACE_NAME, text "xfrm0");
               (Startup.WAN_INTERFACE, [101]); (Startup.PROXY_ADDR_KEY_HEX, Keys.key_hex TEST_KEY)].

Definition sample_host : Startup.Host :=
  Startup.mkHost true [(false, Loader.Timer); (true, Loader.Timer)] Loader.demo_env true true (table 42) true.

Definition sample_start : (Startup.MainEnd + nat) * Startup.Main :=
  Startup.daemon_main true sample_host (Startup.mkMain sample_vars None).

Lemma sample_start_runs : sample_start = (inr 1%nat, snd sample_start).
Proof.
  rewrite (surjective_pairing sample_start) at 1. apply (f_equal (fun r => (r, snd sample_start))).
  vm_compute. reflexivity.
Qed.

Lemma daemon_running_ready_witness : exists m, Startup.plane (snd sample_start) = Some m /\
  active_key m = Some TEST_KEY /\ DaemonSpec.in_sync (Db.domains (table 42)) (NAT_MAP m).
Proof.
  destruct (Startup.daemon_running_ready true sample_host sample_vars 1 (snd sample_start)
              (table_wf 42 ltac:(lia)) table_fits_42) as (hex & key & m & Hhex & Hp & Hm & Hk & _ & _ & _ & Hs & _);
    [|exact sample_start_runs|].
  - intros addrs a ip E Hin. injection E as <-.
    repeat (apply elem_of_cons in Hin as [[= -> ->]|Hin]; [split; [done|bytes_now]|]). by apply not_elem_of_nil in Hin.
  - exists m. split; [exact Hm|]. split; [|exact Hs]. rewrite Hk. f_equal.
    assert (hex = Keys.key_hex TEST_KEY) as -> by (vm_compute in Hhex |- *; by injection Hhex as <-).
    vm_compute in Hp. injection Hp as <-. reflexivity.
Defined.

(** The database cannot be reached: [main] ends after the programs were attached. *)
Definition failed_start : (Startup.MainEnd + nat) * Startup.Main :=
  Startup.daemon_main true (Startup.mkHost true [(true, Loader.Timer)] Loader.demo_env false true (table 42) true)
    (Startup.mkMain sample_vars None).

Lemma failed_start_runs : failed_start = (inl Startup.NoDatabase, snd failed_start).
Proof.
  rewrite (surjective_pairing failed_start) at 1. apply (f_equal (fun r => (r, snd failed_start))).
  vm_compute. reflexivity.
Qed.

(** With no WAN_INTERFACE the key stays where it was. *)
Definition partial_vars : Startup.Vars := delete Startup.WAN_INTERFACE sample_vars.

Lemma daemon_fails_closed_witness :
  Startup.vars (snd failed_start) !! Startup.PROXY_ADDR_KEY_HEX = None /\
  exists x, x ∈ Startup.read_first /\ partial_vars !! x = None.
Proof.
  split.
  - destruct (Startup.daemon_fails_closed true _ sample_vars (inl Startup.NoDatabase) (snd failed_start) failed_start_runs)
      as [_ [H|(x & _ & _ & E & _)]]; [exact H|discriminate E].
  - destruct (Startup.daemon_fails_closed true sample_host partial_vars (inl (Startup.NotSet Startup.WAN_INTERFACE))
                (Startup.mkMain partial_vars None)) as [_ [H|(x & Hin & Hx & _)]];
      [vm_compute; reflexivity|vm_compute in H; discriminate H|exists x; split; [exact Hin|exact Hx]].
Defined.

End SystemExamples.
