(* ===== verification/Xtask.v ===== *)
(** * Workspace automation: [xtask/src/main.rs]

    [verify_contract] compares the configuration files with [contract.toml],
    [build_ebpf] runs the compiler only after that, and [decode_proxy_src] is the
    operator's command that decodes an address the gateway sent from.  The file
    system, the TOML parser and [cargo] are parameters. *)

From Stdlib Require Import Ascii String.
From S2P Require Import Prelude Text Types ProxySrc Keys Ipv6Text Dns.
Import Text Types ProxySrc.
Local Open Scope Z_scope.
Local Open Scope list_scope.

Module Xtask.

(** ** [contract.toml] as this tool reads it *)

Record Address := mkAddress { synthetic_prefix_cidr : list Z }.
Record Xfrm := mkXfrm { if_id : Z }.
Record Contract := mkContract { address : Address; xfrm : Xfrm }.

(** The outside of the tool: the output of [cargo locate-project] (as text, if it ran
    and printed UTF-8), the file system (an error value for a file that cannot be
    read), the TOML parser and whether a [cargo] command succeeds, if it can be run. *)
Class Workspace := {
  IoError : Type;
  locate_project : option (list Z);
  read_to_string : list Z -> Result IoError (list Z);
  toml_from_str : list Z -> option Contract;
  cargo_status : list (list Z) -> option bool
}.

Inductive XtaskErr :=
| NoWorkspace | NoParent (** the [expect] of [workspace_root] panics *)
| CannotReadContract | BadContract
| ChecksFailed (n : nat)
| CargoNotRun | BuildFailed
| BadKey (e : Keys.KeyErr) | BadAddress (s : list Z) | BadProto (s : list Z).

(** ** [workspace_root] *)

(** On a path written backwards: [Path] ignores separators and [.] components at its
    end, but keeps the root directory. *)
Fixpoint trim_path (r : list Z) : list Z :=
  match r with
  | 47 :: ((_ :: _) as r') => trim_path r'
  | 46 :: ((47 :: r'') as r') => match r'' with [] => r' | _ => trim_path r'' end
  | _ => r
  end.

Fixpoint drop_component (r : list Z) : list Z :=
  match r with
  | 47 :: _ => r
  | _ :: r' => drop_component r'
  | [] => []
  end.

(** [Path::parent]. *)
Definition parent (path : list Z) : option (list Z) :=
  match trim_path (rev path) with
  | [] => None
  | [47] => None
  | r => Some (rev (trim_path (drop_component r)))
  end.

(** [Path::join] of a relative path. *)
Definition join (dir rel : list Z) : list Z :=
  match rev dir with
  | [] => rel
  | 47 :: _ => dir ++ rel
  | _ => dir ++ [47] ++ rel
  end.

Definition workspace_root `{Workspace} : Result XtaskErr (list Z) :=
  match locate_project with
  | None => Err NoWorkspace
  | Some path => match parent (Keys.trim path) with Some dir => Ok dir | None => Err NoParent end
  end.

(** ** [verify_contract] *)

Fixpoint starts_with (pat s : list Z) : bool :=
  match pat, s with
  | [], _ => true
  | p :: pat, c :: s => (p =? c) && starts_with pat s
  | _ :: _, [] => false
  end.

(** [str::contains]. *)
Fixpoint contains (s pat : list Z) : bool :=
  starts_with pat s || match s with [] => false | _ :: s' => contains s' pat end.

(** File, expected text, description. *)
Definition Check : Type := list Z * list Z * list Z.

Definition SWANCTL : list Z := text "client/swanctl.conf".
Definition ENTRYPOINT : list Z := text "client/entrypoint.sh".
Definition SWANCTL_J2 : list Z := text "ansible/roles/prototype_net/templates/swanctl.conf.j2".
Definition XFRM_J2 : list Z := text "ansible/roles/prototype_net/templates/prototype-xfrm0.service.j2".

Definition checks (c : Contract) : list Check :=
  let id := dec 11 (if_id (xfrm c)) in
  let local_ts := text "local_ts = " ++ synthetic_prefix_cidr (address c) in
  let if_id_in := text "if_id_in = " ++ id in
  let if_id_out := text "if_id_out = " ++ id in
  let xfrm_if_link := text "if_id " ++ id ++ text " dev eth0" in
  let xfrm_j2_placeholder := text "{{ xfrm_if_id }}" in
  [(SWANCTL, local_ts, text "local_ts synthetic prefix");
   (SWANCTL, if_id_in, text "if_id_in");
   (SWANCTL, if_id_out, text "if_id_out");
   (ENTRYPOINT, xfrm_if_link, text "xfrm if_id in ip link add");
   (SWANCTL_J2, text "{{ vip_pool_start }}", text "Jinja2 {{ vip_pool_start }} placeholder");
   (SWANCTL_J2, text "{{ vip_pool_end }}", text "Jinja2 {{ vip_pool_end }} placeholder");
   (SWANCTL_J2, text "{{ synthetic_prefix_cidr }}", text "Jinja2 {{ synthetic_prefix_cidr }} placeholder");
   (SWANCTL_J2, xfrm_j2_placeholder, text "Jinja2 {{ xfrm_if_id }} placeholder");
   (XFRM_J2, xfrm_j2_placeholder, text "Jinja2 {{ xfrm_if_id }} placeholder")].

Section workspace.
Context `{WS : Workspace}.

(** The two error lines, with what is formatted into them. *)
Inductive Failure :=
| CouldNotRead (rel_path : list Z) (e : IoError)
| PatternNotFound (rel_path description pattern : list Z).

(** The body of the loop: what one check pushes onto [failures]. *)
Definition run_check (workspace : list Z) (failures : list Failure) (chk : Check) : list Failure :=
  let '(rel_path, pattern, description) := chk in
  match read_to_string (join workspace rel_path) with
  | Err e => failures ++ [CouldNotRead rel_path e]
  | Ok content =>
      if negb (contains content pattern)
      then failures ++ [PatternNotFound rel_path description pattern]
      else failures
  end.

(** The result and the failures written to standard error (the line announcing success
    is left out). *)
Definition verify_contract : Result XtaskErr unit * list Failure :=
  match workspace_root with
  | Err e => (Err e, [])
  | Ok workspace =>
      match read_to_string (join workspace (text "contract.toml")) with
      | Err _ => (Err CannotReadContract, [])
      | Ok src =>
          match toml_from_str src with
          | None => (Err BadContract, [])
          | Some c =>
              let failures := fold_left (run_check workspace) (checks c) [] in
              match failures with
              | [] => (Ok tt, [])
              | _ => (Err (ChecksFailed (List.length failures)), failures)
              end
          end
      end
  end.

(** ** [build_ebpf] *)



End workspace.

(** ** [decode_proxy_src] *)

(** How the command ends: with lines on standard output, with exit status 1, with
    an error, or in a panic. *)
Inductive CliEnd :=
| Printed (lines : list (list Z))
| ExitOne
| Failed (e : XtaskErr)
| Panicked.

(** Lower-casing decides only between [tcp], [udp] and the rest; no character
    outside ASCII lower-cases to a letter of these. *)
Definition proto_num (proto : list Z) : option Z :=
  let lower := Dns.to_lowercase proto in
  if bool_decide (lower = text "tcp") then Some 6
  else if bool_decide (lower = text "udp") then Some 17
  else None.

Definition report (client_id domain_id : Z) : list (list Z) :=
  [text "client_id=" ++ dec 11 client_id ++ text ", domain_id=" ++ dec 11 domain_id;
   text "client_vip=" ++ Ipv6Text.format_ipv6 (client_vip_from_id24 client_id);
   text "synthetic_addr=" ++ Ipv6Text.format_ipv6 (synthetic_ipv6 domain_id)].

Definition decode_proxy_src_cmd (key_hex addr_str : list Z) (src_port dst_port : Z) (proto : list Z) : CliEnd :=
  match Keys.parse_key_bytes key_hex with
  | Keys.Panic => Panicked
  | Keys.Return (Err e) => Failed (BadKey e)
  | Keys.Return (Ok key) =>
      match Ipv6Text.parse_ipv6 (Keys.utf8 (Keys.trim addr_str)) with
      | Err _ => Failed (BadAddress addr_str)
      | Ok addr_bytes =>
          match proto_num proto with
          | None => Failed (BadProto proto)
          | Some p =>
              match decode_proxy_src addr_bytes (ProxySrcCtx_new src_port dst_port p) key with
              | Some (client_id, domain_id) => Printed (report client_id domain_id)
              | None => ExitOne
              end
          end
      end
  end.

(** ** Facts *)

Lemma starts_with_spec pat : forall s, starts_with pat s = true <-> exists post, s = pat ++ post.
Proof.
  induction pat as [|p pat IH]; intros s; simpl.
  - split; [by exists s|done].
  - destruct s as [|c s]; [split; [done|by intros [? [=]]]|].
    rewrite andb_true_iff, Z.eqb_eq, IH. split.
    + intros [-> [post ->]]. by exists post.
    + intros [post [= -> ->]]. split; [done|by exists post].
Qed.

Lemma contains_spec pat : forall s, contains s pat = true <-> exists pre post, s = pre ++ pat ++ post.
Proof.
  induction s as [|c s IH]; cbn [contains]; rewrite orb_true_iff, starts_with_spec.
  - split.
    + intros [[post E]|[=]]. by exists [], post.
    + intros (pre & post & E). left. exists post. by destruct pre.
  - rewrite IH. split.
    + intros [[post E]|(pre & post & ->)]; [by exists [], post|by exists (c :: pre), post].
    + intros ([|c' pre] & post & E); [left; by exists post|]. injection E as -> ->. right. by exists pre, post.
Qed.

Section verify.
Context `{WS : Workspace} (root : list Z).

(** The check passes: the file is readable and holds the text. *)
Definition holds (chk : Check) : Prop :=
  exists pre post, read_to_string (join root chk.1.1) = Ok (pre ++ chk.1.2 ++ post).

(** The line a check pushes, if any. *)
Definition failure_of (chk : Check) : option Failure :=
  match read_to_string (join root chk.1.1) with
  | Err e => Some (CouldNotRead chk.1.1 e)
  | Ok content => if contains content chk.1.2 then None else Some (PatternNotFound chk.1.1 chk.2 chk.1.2)
  end.

Lemma failure_of_None chk : failure_of chk = None <-> holds chk.
Proof.
  unfold failure_of, holds. destruct (read_to_string (join root chk.1.1)) as [s|e].
  - destruct (contains s chk.1.2) eqn:E.
    + apply contains_spec in E as (pre & post & ->). split; [intros _; exists pre, post; reflexivity|done].
    + split; [done|]. intros (pre & post & [= ->]).
      rewrite (proj2 (contains_spec _ _)) in E; [done|]. exists pre, post. reflexivity.
  - split; [done|by intros (? & ? & ?)].
Qed.

Lemma run_check_eq fs chk : run_check root fs chk = fs ++ option_list (failure_of chk).
Proof.
  destruct chk as [[f p] d]. unfold run_check, failure_of. cbn [fst snd].
  destruct (read_to_string (join root f)) as [s|e]; [|done]. destruct (contains s p); simpl; [by rewrite app_nil_r|done].
Qed.

Lemma failures_omap l : forall fs, fold_left (run_check root) l fs = fs ++ omap failure_of l.
Proof.
  induction l as [|chk l IH]; intros fs; simpl; [by rewrite app_nil_r|].
  rewrite IH, run_check_eq, <- app_assoc. by destruct (failure_of chk).
Qed.

Lemma omap_nil_iff {A B} (f : A -> option B) l : omap f l = [] <-> Forall (fun x => f x = None) l.
Proof.
  induction l as [|x l IH]; simpl; [done|]. rewrite Forall_cons. destruct (f x) as [y|].
  - split; [done|by intros [? _]].
  - rewrite IH. tauto.
Qed.

Lemma verify_run src c :
  workspace_root = Ok root -> read_to_string (join root (text "contract.toml")) = Ok src -> toml_from_str src = Some c ->
  let fs := omap failure_of (checks c) in
  verify_contract = (match fs with [] => Ok tt | _ => Err (ChecksFailed (List.length fs)) end, fs).
Proof.
  intros Hr Hsrc Hc. unfold verify_contract. rewrite Hr, Hsrc, Hc, failures_omap, app_nil_l. cbv zeta.
  by destruct (omap failure_of (checks c)).
Qed.

(** C38. [verify-contract] is exact.  In a workspace with a readable, well-formed
    contract it succeeds precisely when every listed file can be read and holds
    its text; otherwise it fails with the number of failed checks and reports each
    failed check, and no other, in the order of the list. *)
Theorem verify_contract_exact (src : list Z) (c : Contract) :
  workspace_root = Ok root -> read_to_string (join root (text "contract.toml")) = Ok src -> toml_from_str src = Some c ->
  (fst verify_contract = Ok tt <-> Forall holds (checks c)) /\
  (forall n, fst verify_contract = Err (ChecksFailed n) ->
     (0 < n)%nat /\ n = List.length (snd verify_contract)) /\
  snd verify_contract = omap failure_of (checks c).
Proof.
  intros Hr Hsrc Hc. rewrite (verify_run src c Hr Hsrc Hc). cbn [fst snd]. split; [|split; [|done]].
  - transitivity (omap failure_of (checks c) = []); [by destruct (omap failure_of (checks c))|].
    rewrite omap_nil_iff. apply Forall_iff. intros chk. apply failure_of_None.
  - intros n. destruct (omap failure_of (checks c)) as [|f fs]; [done|]. intros [= <-]. simpl. split; [lia|done].
Qed.


End verify.

(** ** The decoder on text the gateway's addresses are written in *)

(** Characters of an address: neither white space nor outside ASCII. *)
Definition plain (c : Z) : Prop := uN 7 c /\ Keys.is_whitespace c = false.

Lemma plain_range c : 46 <= c < 123 -> plain c.
Proof.
  intros Hc. split; [unfold uN; change (2 ^ 7) with 128; lia|]. unfold Keys.is_whitespace.
  repeat match goal with |- context [?a <=? ?b] => destruct (Z.leb_spec a b) end;
    try lia; repeat match goal with |- context [?a =? ?b] => destruct (Z.eqb_spec a b) end; lia || done.
Qed.

Lemma trim_plain w w' s :
  forallb Keys.is_whitespace w = true -> forallb Keys.is_whitespace w' = true -> Forall plain s ->
  Keys.trim (w ++ s ++ w') = s.
Proof.
  intros Hw Hw' Hs. unfold Keys.trim. rewrite Keys.trim_start_ws by done.
  destruct s as [|c s].
  - rewrite app_nil_l, <- (app_nil_r w'), Keys.trim_start_ws by done. done.
  - apply Forall_cons_1 in Hs as [[_ Hc] Hs]. rewrite <- app_comm_cons, Keys.trim_start_head by done.
    rewrite app_comm_cons, rev_app_distr, Keys.trim_start_ws
      by (rewrite forallb_forall in *; intros x Hx; apply Hw'; by apply in_rev).
    assert (Forall (fun x => Keys.is_whitespace x = false) (rev (c :: s))) as Hr.
    { apply Forall_rev. constructor; [done|]. eapply Forall_impl; [exact Hs|]. by intros x [_ Hx]. }
    destruct (rev (c :: s)) as [|x l] eqn:E; [by apply (f_equal (@rev Z)) in E; rewrite rev_involutive in E|].
    apply Forall_cons_1 in Hr as [Hx _]. rewrite Keys.trim_start_head by done. by rewrite <- E, rev_involutive.
Qed.

Lemma plain_ascii s : Forall plain s -> Keys.ascii s.
Proof. intros Hs. eapply Forall_impl; [exact Hs|]. by intros c [Hc _]. Qed.

Lemma plain_hexd d : 0 <= d < 16 -> plain (Ipv6Text.hexd d).
Proof. intros Hd. apply plain_range. unfold Ipv6Text.hexd. case_match; lia. Qed.

Lemma plain_hex16 n : 0 <= n < 65536 -> Forall plain (Ipv6Text.hex16 n).
Proof.
  intros Hn. unfold Ipv6Text.hex16. repeat case_match; repeat constructor; apply plain_hexd;
    (Z.to_euclidean_division_equations; lia).
Qed.

Lemma plain_group_text gs : forall i, Ipv6Text.u16s gs -> Forall plain (Ipv6Text.group_text i gs).
Proof.
  induction gs as [|g gs IH]; intros i Hg; [by destruct i; constructor|].
  apply Forall_cons_1 in Hg as [Hg Hgs]. rewrite Ipv6Text.group_text_cons. rewrite !Forall_app.
  split_and!; [destruct i; repeat constructor; apply plain_range; lia|by apply plain_hex16|by apply IH].
Qed.

Lemma plain_dec8 n : 0 <= n < 256 -> Forall plain (Ipv6Text.dec8 n).
Proof.
  intros Hn. unfold Ipv6Text.dec8. repeat case_match; repeat constructor; apply plain_range;
    (Z.to_euclidean_division_equations; lia).
Qed.

Lemma plain_fmt_ipv4 o : bytes 4 o -> Forall plain (Ipv6Text.fmt_ipv4 o).
Proof.
  intros Ho. bytes_destruct Ho. unfold uN in *. change (2 ^ 8) with 256 in *.
  unfold Ipv6Text.fmt_ipv4. cbn [nth]. rewrite !Forall_app.
  split_and!; (by apply plain_dec8) || (repeat constructor; apply plain_range; lia).
Qed.

Lemma plain_display a : bytes 16 a -> Forall plain (Ipv6Text.display a).
Proof.
  intros Ha. destruct (Ipv6Text.segments_u16 a Ha) as [Hu _]. unfold Ipv6Text.display.
  destruct (Ipv6Text.is_ipv4_mapped a).
  - apply Forall_app. split; [repeat constructor; apply plain_range; lia|].
    apply plain_fmt_ipv4. destruct Ha as [Hl Hb]. split; [rewrite length_drop; lia|by apply Forall_drop].
  - cbv zeta. case_match; [|by apply (plain_group_text _ 0)]. rewrite !Forall_app.
    split_and!; [apply (plain_group_text _ 0); by apply Forall_take|repeat constructor; apply plain_range; lia|
                 apply (plain_group_text _ 0); by apply Forall_drop].
Qed.

(** Text of an address inside a command line argument reads back as the address. *)
Lemma parse_argument w w' a :
  forallb Keys.is_whitespace w = true -> forallb Keys.is_whitespace w' = true -> bytes 16 a ->
  Ipv6Text.parse_ipv6 (Keys.utf8 (Keys.trim (w ++ Ipv6Text.format_ipv6 a ++ w'))) = Ok a.
Proof.
  intros Hw Hw' Ha. pose proof (plain_display a Ha) as Hp. unfold Ipv6Text.format_ipv6.
  rewrite trim_plain by done. rewrite Keys.utf8_ascii by by apply plain_ascii.
  unfold Ipv6Text.parse_ipv6. by rewrite Ipv6Text.parse_display.
Qed.

(** C37. The operator's decoder inverts the gateway's encoder through text: given
    the key's 64 digits, the address as displayed (with any white space around
    either), the flow's ports and protocol name in any letter case, it prints the
    client and domain ids the gateway encoded, with the client's VIP and the
    synthetic address. *)
Theorem decode_cmd_round_trip (c d src_port dst_port p : Z) (key : ProxySrcKey) (proto addr : list Z)
    (w1 w2 w3 w4 : list Z) :
  key_wf key -> uN 24 c -> uN 24 d -> uN 16 src_port -> uN 16 dst_port -> proto_num proto = Some p ->
  encode_proxy_src c d (ProxySrcCtx_new src_port dst_port p) key = Some addr ->
  forallb Keys.is_whitespace (w1 ++ w2 ++ w3 ++ w4) = true ->
  decode_proxy_src_cmd (w1 ++ Keys.key_hex key ++ w2) (w3 ++ Ipv6Text.format_ipv6 addr ++ w4)
    src_port dst_port proto = Printed (report c d).
Proof.
  intros Hk Hc Hd Hs Ht Hp He Hw. rewrite !forallb_app, !andb_true_iff in Hw. destruct Hw as (H1 & H2 & H3 & H4).
  assert (ctx_wf (ProxySrcCtx_new src_port dst_port p)) as Hctx.
  { unfold proto_num in Hp. repeat case_match; simplify_eq; (split; [done|split; [done|]]); done. }
  pose proof (encode_decode c d _ key Hctx Hk Hc Hd) as Hdec. rewrite encode_Some in He by done. injection He as <-.
  unfold decode_proxy_src_cmd. rewrite Keys.parse_key_bytes_hex by done.
  rewrite parse_argument by (done || apply bytes_proxy_addr). rewrite Hp, Hdec. exact eq_refl.
Qed.

(** ** Examples *)

(** The lines of the repository's files that the checks look at. *)
Definition swanctl (cidr id : string) : list Z :=
  text "local_ts = " ++ text cidr ++ [10] ++ text "if_id_in = " ++ text id ++ [10] ++
  text "if_id_out = " ++ text id ++ [10].

Definition sample_files (id : string) (path : list Z) : Result unit (list Z) :=
  let path := drop 6 path in
  if bool_decide (path = SWANCTL) then Ok (swanctl "fd00:abcd::/32" id)
  else if bool_decide (path = ENTRYPOINT) then Ok (text "ip link add xfrm0 type xfrm if_id 1 dev eth0")
  else if bool_decide (path = SWANCTL_J2) then
    Ok (text "{{ vip_pool_start }}-{{ vip_pool_end }} {{ synthetic_prefix_cidr }} {{ xfrm_if_id }}")
  else if bool_decide (path = XFRM_J2) then Ok (text "if_id {{ xfrm_if_id }}")
  else if bool_decide (path = text "contract.toml") then Ok []
  else Err tt.

Definition sample_contract : Contract := mkContract (mkAddress (text "fd00:abcd::/32")) (mkXfrm 1).

Definition sample_workspace (id : string) : Workspace := {|
  IoError := unit;
  locate_project := Some (text "/repo/Cargo.toml" ++ [10]);
  read_to_string := sample_files id;
  toml_from_str := fun _ => Some sample_contract;
  cargo_status := fun _ => Some true
|}.

Lemma verify_contract_exact_witness :
  Forall (@holds (sample_workspace "1") (text "/repo")) (checks sample_contract).
Proof.
  apply (@verify_contract_exact (sample_workspace "1") (text "/repo") [] sample_contract).
  - vm_compute. reflexivity.
  - vm_compute. reflexivity.
  - reflexivity.
  - vm_compute. reflexivity.
Defined.

(** A configuration for interface 10 passes the check against a contract that says
    interface 1: the checks look for a text, and the text for 1 begins that of 10. *)
Lemma longer_id_accepted : fst (@verify_contract (sample_workspace "10")) = Ok tt.
Proof. vm_compute. reflexivity. Qed.

Lemma decode_cmd_round_trip_witness :
  decode_proxy_src_cmd ([] ++ Keys.key_hex TEST_KEY ++ [10])
    ([] ++ Ipv6Text.format_ipv6 (proxy_addr (enc64_of 100 7 (ProxySrcCtx_new 50000 443 6) TEST_KEY)
                             (ProxySrcCtx_new 50000 443 6) TEST_KEY) ++ [32]) 50000 443 (text "TCP")
  = Printed (report 100 7).
Proof.
  apply (decode_cmd_round_trip 100 7 50000 443 6); [apply test_key_wf|done|done|done|done|vm_compute; reflexivity| |reflexivity].
  apply encode_Some; done.
Defined.

End Xtask.
